(* ===== verification/_CoqProject ===== *)
-Q . S2P
Prelude.v
PyDict.v
PyStr.v
Json.v
Errors.v
Interleaving.v
JsonAccess.v
Configuration.v
Identity.v
Execution.v
Ports.v
MemoryRepositories.v
MemoryQueue.v
MemoryJournal.v
MemoryStores.v
Capacity.v
Projector.v
Service.v
ServiceSafety.v
ServiceSpec.v
Kafka.v
Grpc.v
LangGraph.v
LangGraphLoad.v
LangGraphRuns.v
Executions.v
Launcher.v
Telemetry.v
GrpcServer.v
Checks.v
Bootstrap.v
GatewayStream.v
Database.v
PostgresSchema.v
ManagedAdapter.v
Postgres.v
PostgresSpec.v
PostgresThreads.v
PostgresTypes.v
PostgresStores.v
WorkerService.v
WorkerLoop.v
AllInOne.v
ProductionTasks.v
ProductionSystem.v
PostgresConfig.v
PostgresAssistants.v
GatewayHttp.v
Gateway.v
GatewaySpec.v
EndToEnd.v
LocalRuntime.v
A2A.v
GatewayStartup.v
PostgresModels.v
Migrations.v
Processes.v
HttpProxy.v
FastapiDiscovery.v
GatewayApp.v
JournalStream.v
