(* ===== verification/Prelude.v ===== *)
(** * UniversalRuntime: a verification library

    UniversalRuntime (src/src/universal_runtime) runs LangGraph agents behind an HTTP
    API.  A client creates threads and starts runs at the gateway; a run is a command
    in a queue; a worker takes the command, executes the application's graph through
    an adapter, and settles the run from the events of the graph's stream.  In the
    local profile all of this is one process over in-memory adapters; in production the
    repositories are Postgres tables, the queue is Kafka, and the gateway and the
    workers are processes that talk gRPC.

    This file holds what the library shares: results, the state-and-exception monad
    with its weakest preconditions ([wp], [preserves]), transition systems
    ([reachable]), tactics, and lemmas on lists, strings and maps.

    ** The parts and their files

    Values and data.
    - [PyDict], [PyStr], [Json], [JsonAccess]: Python's dictionaries (in insertion
      order), strings, JSON values and how the code reads them.
    - [Errors] (domain/errors.py): error codes and the exceptions as one sum type, so
      that [Py S A] is a call over the state [S] that returns or raises.
    - [Identity] (domain/identity): identifiers, UUIDs of version 7 with their bits.
    - [Execution] (domain/execution, domain/events, domain/assistants): threads, runs
      and their transitions, commands, receipts, events.
    - [Configuration] (configuration/): layers, environment expressions, redaction.

    Ports and their adapters.  [Ports] (ports/) states the interfaces as classes:
    operational ones ([RunRepository], [ThreadRepository], [RunCommandQueue],
    [EventJournal], [OutboxRepository]) and their laws; clients are proved against the
    laws: the execution service against [RunRepositoryLaws], which the in-memory adapters
    satisfy, and the workers against the weaker [RunStoreLaws] and [ThreadStoreLaws],
    which the Postgres repositories satisfy too; what holds while others use the same
    repository is proved against [SharedRunsLaws].
    - [MemoryRepositories], [MemoryQueue], [MemoryJournal], [MemoryStores], [Capacity]
      (adapters/memory) implement them in memory; subscriptions, leases and execution
      slots are step relations between suspensions.
    - [Database] is what SQLAlchemy and Postgres are relied on for: rows, keys, unique
      and partial indexes, transactions.  [Postgres], [PostgresSpec], [PostgresThreads],
      [PostgresConfig], [PostgresAssistants] (adapters/postgres/repositories.py) are the
      repositories over it, [PostgresTypes] the types of their rows, and [PostgresStores]
      makes them instances of the ports; [PostgresSchema] the schema names, the advisory
      locks and the migrations, [Migrations] (migrations/env.py) Alembic's environment;
      [PostgresModels] (adapters/postgres/models.py, migrations/versions) the declared
      tables as data.
    - [Kafka] (adapters/kafka): topics, the codec of commands, dispatcher and queues.
    - [Grpc], [GrpcServer] (adapters/grpc): payloads and the servicers of a worker; its
      server and how that stops.

    Execution.
    - [Service] (application/runtime_service.py) is the execution service against the
      ports.  [ServiceSafety] makes it a transition system of concurrent clients and
      executions; [ServiceSpec] says what its operations do.
    - [LangGraph], [LangGraphLoad] (adapters/langgraph): configuration, streams, the
      adapter's operations; loading a graph and its manifest, [ManagedAdapter] over the
      managed Postgres persistence.  [LangGraphRuns] composes the adapter's stream with
      the service; [Executions] says what the service makes of any adapter's stream.
    - [WorkerService], [WorkerLoop] (services/worker) and [AllInOne] (services/all): the
      production workers, which settle runs themselves, over any stores; their loops, with
      slots, shutdown and the channel of the all-in-one process.
    - [Interleaving] is what it means that programs interleave: trees of atomic steps, a
      pool of them, and a calculus for what holds under interference.  [ProductionTasks]
      writes the worker's and the gateway's calls as such programs, every call of a
      repository being one step; [ProductionSystem] runs them together over the tables.
    - [Projector] (services/event_projector): the fold of a run's events.

    Gateway and processes.
    - [GatewayHttp], [Gateway] (transport/http/dto.py, services/gateway/app.py): bodies,
      payloads and every route as one function [handle]; [GatewaySpec] what they do.
    - [GatewayStream]: event ingress and server-sent events over shared queues, as
      labels between [await]s; [JournalStream] the generator for the journal, which no
      route uses.  [GatewayStartup]: startup and worker registration.
      [GatewayApp]: the application around the routes, and its middlewares.
    - [HttpProxy] (transport/http/proxy.py), [FastapiDiscovery] (adapters/fastapi),
      [A2A] (adapters/a2a): the optional surfaces.
    - [Launcher], [Bootstrap] (bootstrap/, configuration/loader.py,
      telemetry/context.py): configuration, the local and the production runtime, the
      command line.
    - [Processes] (services/*/main.py): what the processes open, wait for and close, in
      which order, and the worker's heartbeat.
    - [Telemetry] (telemetry/): the loggers and who handles a record, the request log,
      spans.
    - [Checks] (scripts/, container/healthcheck.py): what the repository's checks accept.
    - [LocalRuntime] (bootstrap/local.py): the state that [create_local_runtime] makes,
      from which the theorems about the parts start.
    - [EndToEnd] composes gateway, queue, worker, service and adapter as the local
      runtime does.

    Each file's own comment says how its state and operations correspond to the code.

    ** What is shown

    - Runs: at most one active run occupies a thread, for the service
      ([ServiceSafety.one_active_run_per_thread]) and for every sequence of gateway
      requests and steps of executions ([GatewaySpec.gateway_runs_exclusive]); no run is
      left running without an execution; only pending runs are executed.
    - Production: gateways and workers over the same Postgres tables keep threads
      exclusive, and a run that is stored as running has a worker on it, unless one on it
      was stopped or one began that cannot settle it ([ProductionSystem.serviceable]: the
      assistant has no adapter, the stream does not settle the run, or the gateway does not
      ask for all events), however their steps interleave ([ProductionSystem]); alone, each
      of these programs is the call it was made of ([ProductionTasks]).
    - Outcomes: starting a run on every branch; a run executed by any adapter
      ([Executions]), by a LangGraph adapter, by the production worker, by the all-in-one
      process and through A2A; a request of the local runtime from its arrival to its
      response ([EndToEnd]); waiting ends.
    - Queues and streams: the in-memory queue loses no command and orders them; the
      dispatcher starves nobody; the journal numbers events, subscriptions have no gaps,
      streams of the gateway are complete; slots of workers are bounded and none leaks.
    - Storage: the Postgres repositories refine finite maps and are related to the
      in-memory ones; their rows stay well typed whatever they are called with, and are
      what the declared tables admit; the declared index of active runs is the rule of one
      active run per thread; the first migration can be repeated and undone; schemas keep
      applications apart.
    - Processes: once a process waits for its signal, it closes what it has opened, in
      order and however it fails; a worker that fails before closes nothing.
    - Codecs and configuration: what of commands and payloads survives their round trip;
      redaction is non-interfering; discovery equals its reference.
    - Telemetry: for every level, logger and record, what becomes of it once logging is
      configured; tracing and the request log change no outcome.
    Many of these theorems also say where the code falls short of what it means to do,
    such as runs that are stranded when a call to the gateway fails; the lemmas without
    a claim number next to them give the concrete cases.

    ** Conventions

    A [datetime] is a [Z] of microseconds; clock readings and new identifiers are drawn
    from sequences that are parameters.  Code outside the repository (graphs, the SQL
    engine, Kafka's client, gRPC, the A2A kit, HTTP clients, parsers, hashes) is a
    parameter, with named hypotheses or laws where the code relies on its behaviour;
    [Database] has an instance, so its laws can hold.  A class with an in-memory
    instance is one whose laws are proved for it.

    Bounds: a function with fuel is [Interpolation.substitute], which consumes a
    character each round, so that the string's length is enough (proved as
    [substitute_fuel]); [Service.consume_commands] and [Gateway._wait_for_run] model
    endless loops and take the number of turns that are looked at, and what holds is
    stated for every number; [Launcher.attempts] and the others are structural.

    ** Not modelled

    In [ProductionSystem] a call of a repository is one transaction that nothing comes
    between, as its session makes it.
    The connections and servers that the processes open, which are steps of [Processes]
    that may fail.  What structlog renders, OpenLIT and OpenTelemetry.  Generated protobuf
    code (its messages are records).  The journal of adapters/postgres/events.py: it imports
    a class [RuntimeEventRow] that no file declares, so that the module cannot be loaded.
    Argument parsing, YAML, JSON schema, and what Alembic and the engines do beyond the
    laws of [Migrations] and [Database].  The response models of transport/http/dto.py
    that no route uses, the protocols of ports/ whose implementations are modelled
    directly, tests, and the sample agents. *)

From Stdlib Require Export ZArith Lia Bool Sorted Permutation.
From stdpp Require Export base tactics list numbers strings gmap pretty sorting.

(** Strings are written in [string_scope]; integers are [Z] unless stated. *)
#[export] Set Default Proof Using "Type".
Declare Scope runtime_scope.
Delimit Scope runtime_scope with rt.
Open Scope string_scope.
Open Scope list_scope.
Open Scope Z_scope.

(** ** Results and the state-and-exception monad

    A Python call either returns or raises, and a raise does not undo the
    mutations performed before it: [M E S A] keeps the state in both cases. *)

Inductive result (E A : Type) : Type :=
| Ok (a : A)
| Raise (e : E).
Arguments Ok {E A} a.
Arguments Raise {E A} e.

Definition is_ok {E A} (r : result E A) : bool :=
  match r with Ok _ => true | Raise _ => false end.

Definition result_map {E A B} (f : A → B) (r : result E A) : result E B :=
  match r with Ok a => Ok (f a) | Raise e => Raise e end.

Definition result_bind {E A B} (r : result E A) (f : A → result E B) : result E B :=
  match r with Ok a => f a | Raise e => Raise e end.

(** [[f(x) for x in l]] of a call that may raise. *)
Section ResultList.
Context {E A B : Type} (f : A → result E B).
Fixpoint result_mapM (l : list A) : result E (list B) :=
  match l with
  | [] => Ok []
  | x :: l => result_bind (f x) (λ y, result_map (cons y) (result_mapM l))
  end.
End ResultList.

Definition M (E S A : Type) : Type := S → result E A * S.

Section Monad.
Context {E S : Type}.

Definition ret {A} (a : A) : M E S A := λ s, (Ok a, s).

Definition bind {A B} (m : M E S A) (f : A → M E S B) : M E S B :=
  λ s, match m s with
       | (Ok a, s') => f a s'
       | (Raise e, s') => (Raise e, s')
       end.

Definition raise {A} (e : E) : M E S A := λ s, (Raise e, s).

Definition get_state : M E S S := λ s, (Ok s, s).
Definition modify (f : S → S) : M E S unit := λ s, (Ok tt, f s).

(** [try: m except e: h e] *)
Definition try_except {A} (m : M E S A) (h : E → M E S A) : M E S A :=
  λ s, match m s with
       | (Ok a, s') => (Ok a, s')
       | (Raise e, s') => h e s'
       end.

(** [try: m finally: f]: an exception of the cleanup replaces the outcome. *)
Definition try_finally {A} (m : M E S A) (f : M E S unit) : M E S A :=
  λ s, let '(r, s') := m s in
       match f s' with
       | (Ok _, s'') => (r, s'')
       | (Raise e, s'') => (Raise e, s'')
       end.

(** [for x in l: f x] *)
Fixpoint for_each {A} (f : A → M E S unit) (l : list A) : M E S unit :=
  match l with
  | [] => ret tt
  | x :: l => bind (f x) (λ _, for_each f l)
  end.

(** [[f x for x in l]] *)
Fixpoint map_each {A B} (f : A → M E S B) (l : list A) : M E S (list B) :=
  match l with
  | [] => ret []
  | x :: l => bind (f x) (λ y, bind (map_each f l) (λ ys, ret (y :: ys)))
  end.

Definition of_result {A} (r : result E A) : M E S A := λ s, (r, s).
End Monad.

(** Running an operation of one component on its field of a larger state. *)
Definition zoom {E S T A} (get : S → T) (set : T → S → S) (m : M E T A) : M E S A :=
  λ s, let '(r, t) := m (get s) in (r, set t s).

Notation "x <- c ;; k" := (bind c (λ x, k))
  (at level 100, c at next level, right associativity) : runtime_scope.
Notation "c ;;; k" := (bind c (λ _, k))
  (at level 100, right associativity) : runtime_scope.
Open Scope runtime_scope.

(** ** Tactics *)

(** Case analysis on the discriminee of a [match] of the goal or of [H]. *)
Ltac break_match :=
  match goal with
  | |- context [match ?x with _ => _ end] =>
      lazymatch x with
      | context [match _ with _ => _ end] => fail
      | _ => destruct x eqn:?
      end
  end.
Ltac break_match_in H :=
  match type of H with
  | context [match ?x with _ => _ end] =>
      lazymatch x with
      | context [match _ with _ => _ end] => fail
      | _ => destruct x eqn:?
      end
  end.
Ltac break_all := repeat (break_match; simplify_eq/=; try done).
Ltac break_all_in H := repeat (break_match_in H; simplify_eq/=; try done).

(** Unfold the monad and compute one step. *)
Ltac run_monad :=
  unfold bind, ret, raise, get_state, modify, try_except, try_finally, of_result, zoom in *;
  simpl in *.

(** Boolean tests to propositions. *)
Ltac to_prop :=
  repeat match goal with
  | H : _ && _ = true |- _ => apply andb_true_iff in H as [? ?]
  | H : _ || _ = false |- _ => apply orb_false_iff in H as [? ?]
  | H : negb _ = true |- _ => apply negb_true_iff in H
  | H : negb _ = false |- _ => apply negb_false_iff in H
  | H : (_ =? _)%Z = true |- _ => apply Z.eqb_eq in H
  | H : (_ =? _)%Z = false |- _ => apply Z.eqb_neq in H
  | H : (_ <? _)%Z = true |- _ => apply Z.ltb_lt in H
  | H : (_ <? _)%Z = false |- _ => apply Z.ltb_ge in H
  | H : (_ <=? _)%Z = true |- _ => apply Z.leb_le in H
  | H : (_ <=? _)%Z = false |- _ => apply Z.leb_gt in H
  | H : bool_decide _ = true |- _ => apply bool_decide_eq_true in H
  | H : bool_decide _ = false |- _ => apply bool_decide_eq_false in H
  end.

(** ** Generic lemmas *)

Create HintDb runtime.

Section ResultLemmas.
Context {E S : Type}.

Lemma bind_ok {A B} (m : M E S A) (f : A → M E S B) s b s' :
  bind m f s = (Ok b, s') ↔ ∃ a t, m s = (Ok a, t) ∧ f a t = (Ok b, s').
Proof.
  unfold bind. split.
  - destruct (m s) as [[a|e] t] eqn:Hm; intros H; [eauto | discriminate].
  - intros (a & t & Hm & Hf). by rewrite Hm.
Qed.

Lemma bind_raise {A B} (m : M E S A) (f : A → M E S B) s e s' :
  bind m f s = (Raise e, s') ↔
  m s = (Raise e, s') ∨ ∃ a t, m s = (Ok a, t) ∧ f a t = (Raise e, s').
Proof.
  unfold bind. split.
  - destruct (m s) as [[a|e'] t] eqn:Hm; intros H; [eauto|left; congruence].
  - intros [Hm|(a & t & Hm & Hf)]; by rewrite Hm.
Qed.

Lemma bind_assoc {A B C} (m : M E S A) (f : A → M E S B) (g : B → M E S C) s :
  bind (bind m f) g s = bind m (λ a, bind (f a) g) s.
Proof. unfold bind. by destruct (m s) as [[?|?] ?]. Qed.

Lemma result_bind_Ok {A B} (r : result E A) (f : A → result E B) b :
  result_bind r f = Ok b → ∃ a, r = Ok a ∧ f a = Ok b.
Proof. destruct r as [a|e]; [by exists a|done]. Qed.
Lemma mapM_total {A B} (f : A → result E B) l :
  Forall (λ a, ∃ b, f a = Ok b) l → ∃ l', result_mapM f l = Ok l'.
Proof.
  induction 1 as [|a l [b Hb] Hl [l' IH]]; [by eexists|]. eexists. cbn. by rewrite Hb, IH.
Qed.

Lemma bind_ext {A B} (m : M E S A) (f g : A → M E S B) s :
  (∀ a s', f a s' = g a s') → bind m f s = bind m g s.
Proof. unfold bind. destruct (m s) as [[?|?] ?]; auto. Qed.

(** A state predicate kept by every step is kept by the whole run. *)
Definition preserves {A} (P : S → Prop) (m : M E S A) : Prop :=
  ∀ s, P s → P (m s).2.

Lemma preserves_ret {A} P (a : A) : preserves P (ret a).
Proof. by intros s. Qed.
Lemma preserves_raise {A} P e : preserves P (raise (A:=A) e).
Proof. by intros s. Qed.
Lemma preserves_of_result {A} P (r : result E A) : preserves P (of_result r).
Proof. by intros s. Qed.
Lemma preserves_bind {A B} P (m : M E S A) (f : A → M E S B) :
  preserves P m → (∀ a, preserves P (f a)) → preserves P (bind m f).
Proof.
  intros Hm Hf s Hs. specialize (Hm s Hs). unfold bind.
  destruct (m s) as [[a|e] t]; simpl in *; [by apply Hf | done].
Qed.
Lemma preserves_try_except {A} P (m : M E S A) h :
  preserves P m → (∀ e, preserves P (h e)) → preserves P (try_except m h).
Proof.
  intros Hm Hh s Hs. specialize (Hm s Hs). unfold try_except.
  destruct (m s) as [[a|e] t]; simpl in *; [done | by apply Hh].
Qed.
Lemma preserves_try_finally {A} P (m : M E S A) f :
  preserves P m → preserves P f → preserves P (try_finally m f).
Proof.
  intros Hm Hf s Hs. specialize (Hm s Hs). unfold try_finally.
  destruct (m s) as [r t]; simpl in *. specialize (Hf t Hm).
  by destruct (f t) as [[?|?] ?].
Qed.
Lemma preserves_for_each {A} P (f : A → M E S unit) l :
  (∀ a, preserves P (f a)) → preserves P (for_each f l).
Proof.
  intros Hf. induction l as [|x l IH]; simpl; [apply preserves_ret|].
  by apply preserves_bind.
Qed.
Lemma preserves_modify P f : (∀ s, P s → P (f s)) → preserves P (modify f).
Proof. intros Hf s Hs. by apply Hf. Qed.
Lemma preserves_get_state P : preserves P get_state.
Proof. by intros s. Qed.
End ResultLemmas.

(** ** A weakest-precondition calculus for the monad

    [wp m Q X s]: run from [s], [m] returns with [Q] or raises with [X]. *)

Section WeakestPrecondition.
Context {E S : Type}.

Definition wp {A} (m : M E S A) (Q : A → S → Prop) (X : E → S → Prop) (s : S) : Prop :=
  match m s with
  | (Ok a, s') => Q a s'
  | (Raise e, s') => X e s'
  end.

Lemma wp_mono {A} (m : M E S A) (Q Q' : A → S → Prop) (X X' : E → S → Prop) s :
  wp m Q X s → (∀ a s', Q a s' → Q' a s') → (∀ e s', X e s' → X' e s') → wp m Q' X' s.
Proof. unfold wp. destruct (m s) as [[a|e] t]; auto. Qed.
Lemma wp_ret {A} (a : A) (Q : A → S → Prop) X s : Q a s → wp (ret a) Q X s.
Proof. done. Qed.
Lemma wp_raise {A} e (Q : A → S → Prop) X s : X e s → wp (raise e) Q X s.
Proof. done. Qed.
Lemma wp_of_result {A} (r : result E A) (Q : A → S → Prop) X s :
  match r with Ok a => Q a s | Raise e => X e s end → wp (of_result r) Q X s.
Proof. by destruct r. Qed.
Lemma wp_bind {A B} (m : M E S A) (f : A → M E S B) Q X s :
  wp m (λ a, wp (f a) Q X) X s → wp (bind m f) Q X s.
Proof. unfold wp, bind. by destruct (m s) as [[a|e] t]. Qed.
Lemma wp_get_state Q X (s : S) : Q s s → wp get_state Q X s.
Proof. done. Qed.
Lemma wp_modify (f : S → S) (Q : unit → S → Prop) X s : Q tt (f s) → wp (modify f) Q X s.
Proof. done. Qed.
Lemma wp_try_except {A} (m : M E S A) h (Q : A → S → Prop) X s :
  wp m Q (λ e, wp (h e) Q X) s → wp (try_except m h) Q X s.
Proof. unfold wp, try_except. by destruct (m s) as [[a|e] t]. Qed.
Lemma wp_try_finally {A} (m : M E S A) f (Q : A → S → Prop) X s :
  wp m (λ a, wp f (λ _, Q a) X) (λ e, wp f (λ _, X e) X) s → wp (try_finally m f) Q X s.
Proof.
  unfold wp, try_finally. destruct (m s) as [[a|e] t]; by destruct (f t) as [[?|?] ?].
Qed.
Lemma wp_for_each {A} (f : A → M E S unit) l (I : S → Prop) X s :
  I s → (∀ a t, I t → wp (f a) (λ _, I) X t) → wp (for_each f l) (λ _, I) X s.
Proof.
  intros Hs Hf. generalize dependent s. induction l as [|x l IH]; intros s Hs; simpl; [done|].
  apply wp_bind. eapply wp_mono; [by apply Hf| |done]. intros ? t Ht. by apply IH.
Qed.
End WeakestPrecondition.

#[export] Hint Resolve preserves_ret preserves_raise preserves_of_result
  preserves_bind preserves_try_except preserves_try_finally preserves_for_each
  preserves_get_state : runtime.

Section ListLemmas.
Context {A : Type}.
Implicit Types (l : list A).

(** The first element satisfying a test, as [next((x for x in l if p x), None)]. *)
Fixpoint find_first (p : A → bool) l : option A :=
  match l with
  | [] => None
  | x :: l => if p x then Some x else find_first p l
  end.

Lemma find_first_Some p l x : find_first p l = Some x → x ∈ l ∧ p x = true.
Proof.
  induction l as [|y l IH]; simpl; [done|].
  destruct (p y) eqn:Hp; intros H; simplify_eq; [set_solver|].
  destruct (IH H); set_solver.
Qed.

Lemma find_first_None p l : find_first p l = None ↔ ∀ x, x ∈ l → p x = false.
Proof.
  induction l as [|y l IH]; simpl; [set_solver|].
  destruct (p y) eqn:Hp; split; intros H.
  - discriminate.
  - specialize (H y ltac:(set_solver)). congruence.
  - intros x Hx. apply elem_of_cons in Hx as [->|Hx]; [done|]. by apply IH.
  - apply IH. set_solver.
Qed.

Lemma existsb_elem p l : existsb p l = true ↔ ∃ x, x ∈ l ∧ p x = true.
Proof.
  rewrite existsb_exists. split; intros (x & Hx & Hp); exists x;
    split; try done; by apply list_elem_of_In.
Qed.

Lemma forallb_elem p l : forallb p l = true ↔ ∀ x, x ∈ l → p x = true.
Proof.
  rewrite forallb_forall. split; intros H x Hx; apply H; by apply list_elem_of_In.
Qed.

Lemma forallb_false p l : forallb p l = false → ∃ x, x ∈ l ∧ p x = false.
Proof.
  induction l as [|x l IH]; simpl; [done|]. intros [Hx|Hl]%andb_false_iff.
  - exists x. split; [apply list_elem_of_here|done].
  - destruct (IH Hl) as (y & Hy & Hp). exists y. split; [by apply list_elem_of_further|done].
Qed.

(** Python slicing [l[offset : offset + limit]] for non-negative bounds. *)
Definition page (offset limit : nat) l : list A := take limit (drop offset l).

Lemma page_length offset limit l :
  length (page offset limit l) = Nat.min limit (length l - offset).
Proof. unfold page. by rewrite length_take, length_drop. Qed.
End ListLemmas.

(** ** Python's slices, stable sort and [max] *)

Section Slices.
Context {A : Type}.
Implicit Types (l : list A).

(** A slice bound: negative bounds count from the end, all are clamped. *)
Definition slice_bound (len : nat) (i : Z) : nat :=
  if i <? 0 then Z.to_nat (Z.of_nat len + i) else Nat.min (Z.to_nat i) len.

(** [l[a : b]] *)
Definition py_slice l (a b : Z) : list A :=
  let a' := slice_bound (length l) a in
  take (slice_bound (length l) b - a') (drop a' l).

Lemma take_min (n m : nat) l : (length l ≤ m)%nat → take (Nat.min n m) l = take n l.
Proof.
  intros Hm. destruct (decide (n ≤ m)%nat).
  - by rewrite Nat.min_l.
  - rewrite Nat.min_r by lia. rewrite !take_ge by lia. done.
Qed.

(** For the non-negative bounds the code uses it is a page. *)
Lemma py_slice_page l offset limit :
  0 ≤ offset → 0 ≤ limit →
  py_slice l offset (offset + limit) = page (Z.to_nat offset) (Z.to_nat limit) l.
Proof.
  intros Ho Hl. unfold py_slice, page, slice_bound.
  rewrite !(proj2 (Z.ltb_ge _ _)) by lia.
  destruct (decide (Z.to_nat offset ≤ length l)%nat).
  - rewrite (Nat.min_l (Z.to_nat offset)) by done.
    replace (Nat.min (Z.to_nat (offset + limit)) (length l) - Z.to_nat offset)%nat
      with (Nat.min (Z.to_nat limit) (length l - Z.to_nat offset))%nat by lia.
    apply take_min. rewrite length_drop. lia.
  - rewrite !Nat.min_r by lia. rewrite !drop_ge by lia. by rewrite !take_nil.
Qed.
End Slices.

Section StableSort.
Context {A : Type} (key : A → Z).
Implicit Types (l : list A).

Fixpoint insert_desc (x : A) l : list A :=
  match l with
  | [] => [x]
  | y :: l' => if key y <=? key x then x :: l else y :: insert_desc x l'
  end.

(** [items.sort(key=key, reverse=True)]: descending, equal keys in place. *)
Definition sort_desc l : list A := foldr insert_desc [] l.

(** [max(items, key=key, default=None)]: the first item of greatest key. *)
Definition max_first l : option A :=
  match l with
  | [] => None
  | x :: l => Some (foldl (λ m y, if key m <? key y then y else m) x l)
  end.

Lemma insert_desc_perm x l : Permutation (insert_desc x l) (x :: l).
Proof.
  induction l as [|y l IH]; simpl; [done|].
  destruct (key y <=? key x); [done|]. rewrite IH. constructor.
Qed.

Lemma sort_desc_perm l : Permutation (sort_desc l) l.
Proof. induction l as [|x l IH]; simpl; [done|]. by rewrite insert_desc_perm, IH. Qed.

Lemma insert_desc_sorted x l :
  StronglySorted (λ a b, key b ≤ key a) l → StronglySorted (λ a b, key b ≤ key a) (insert_desc x l).
Proof.
  induction 1 as [|y l Hl IH Hy]; simpl; [repeat constructor|].
  destruct (key y <=? key x) eqn:Hk; to_prop.
  - repeat constructor; try done. eapply Forall_impl; [done|]. simpl. lia.
  - constructor; [done|]. rewrite insert_desc_perm. constructor; [lia|done].
Qed.

Lemma sort_desc_sorted l : StronglySorted (λ a b, key b ≤ key a) (sort_desc l).
Proof. induction l; simpl; [constructor|]. by apply insert_desc_sorted. Qed.

Lemma insert_desc_filter k x l :
  filter (λ a, key a = k) (insert_desc x l) = filter (λ a, key a = k) (x :: l).
Proof.
  induction l as [|y l IH]; simpl; [done|].
  destruct (key y <=? key x) eqn:Hk; [done|]. to_prop.
  rewrite !filter_cons in *. repeat case_decide; try lia; by rewrite IH.
Qed.

(** Stability: items with the same key keep their order. *)
Lemma sort_desc_stable k l :
  filter (λ a, key a = k) (sort_desc l) = filter (λ a, key a = k) l.
Proof.
  induction l as [|x l IH]; simpl; [done|].
  rewrite insert_desc_filter, !filter_cons, IH. done.
Qed.

Lemma max_first_spec l m :
  max_first l = Some m → m ∈ l ∧ ∀ x, x ∈ l → key x ≤ key m.
Proof.
  destruct l as [|x l]; simpl; [done|]. intros [= <-].
  revert x. induction l as [|y l IH]; intros x; simpl.
  - split; [set_solver|]. intros z. set_unfold. intros [->|[]]. lia.
  - destruct (IH (if key x <? key y then y else x)) as [Hin Hmax]. split.
    + destruct (key x <? key y); set_solver.
    + intros z Hz. apply elem_of_cons in Hz as [->|Hz].
      * specialize (Hmax (if key x <? key y then y else x) ltac:(set_solver)).
        destruct (key x <? key y) eqn:Hk; to_prop; lia.
      * apply elem_of_cons in Hz as [->|Hz]; [|apply Hmax; set_solver].
        specialize (Hmax (if key x <? key y then y else x) ltac:(set_solver)).
        destruct (key x <? key y) eqn:Hk; to_prop; lia.
Qed.

Lemma max_first_None l : max_first l = None ↔ l = [].
Proof. by destruct l. Qed.
End StableSort.

(** ** Reflexive-transitive closure with an invariant rule *)

Section Reachability.
Context {S : Type} (step : S → S → Prop).

Inductive reachable (init : S) : S → Prop :=
| reach_init : reachable init init
| reach_step s s' : reachable init s → step s s' → reachable init s'.

Lemma reachable_invariant (P : S → Prop) init :
  P init → (∀ s s', P s → step s s' → P s') →
  ∀ s, reachable init s → P s.
Proof. intros H0 Hstep s Hr. induction Hr; eauto. Qed.

Lemma reachable_trans s1 s2 s3 : reachable s1 s2 → reachable s2 s3 → reachable s1 s3.
Proof. intros H1 H2. induction H2; [done|]. by eapply reach_step. Qed.
Lemma reachable_one s s' : step s s' → reachable s s'.
Proof. intros H. by eapply reach_step; [apply reach_init|]. Qed.
End Reachability.
