(* ===== verification/PyDict.v ===== *)
(** * Python dictionaries

    A [dict] with string keys, kept as the association list of its items in
    insertion order: assigning an existing key keeps its position, a new key
    is appended, and [d.values()] iterates in that order.  The order matters
    in the code (the repositories iterate over [self._items.values()]), the
    lookup does not: [dict_to_map] forgets it and the lemmas below relate the
    operations to those of stdpp's [gmap]. *)

From S2P Require Import Prelude.

Section PyDict.
Context {V : Type}.

Definition dict : Type := list (string * V).

Definition dempty : dict := [].

(** [d.get(k)] *)
Fixpoint dget (d : dict) (k : string) : option V :=
  match d with
  | [] => None
  | (k', v) :: d => if decide (k = k') then Some v else dget d k
  end.

(** [k in d] *)
Definition dmem (d : dict) (k : string) : bool :=
  match dget d k with Some _ => true | None => false end.

(** [d[k] = v] *)
Fixpoint dset (d : dict) (k : string) (v : V) : dict :=
  match d with
  | [] => [(k, v)]
  | (k', v') :: d => if decide (k = k') then (k', v) :: d else (k', v') :: dset d k v
  end.

(** [d.pop(k, None)]: the dictionary afterwards. *)
Fixpoint dpop (d : dict) (k : string) : dict :=
  match d with
  | [] => []
  | (k', v') :: d => if decide (k = k') then d else (k', v') :: dpop d k
  end.

Definition dkeys (d : dict) : list string := d.*1.
Definition dvalues (d : dict) : list V := d.*2.

(** [d.update(e)] *)
Definition dupdate (d e : dict) : dict :=
  foldl (λ d kv, dset d kv.1 kv.2) d e.

Definition dict_wf (d : dict) : Prop := NoDup (dkeys d).

Definition dict_to_map (d : dict) : gmap string V := list_to_map d.

Implicit Types (d e : dict) (k : string) (v : V).

Lemma dget_dset d k v k' :
  dget (dset d k v) k' = if decide (k' = k) then Some v else dget d k'.
Proof.
  induction d as [|[k0 v0] d IH]; simpl; [done|].
  destruct (decide (k = k0)) as [->|]; simpl.
  - by destruct (decide (k' = k0)).
  - rewrite IH. destruct (decide (k' = k0)), (decide (k' = k)); congruence.
Qed.

Lemma dget_dset_eq d k v : dget (dset d k v) k = Some v.
Proof. rewrite dget_dset. by rewrite decide_True. Qed.
Lemma dget_dset_ne d k k' v : k' ≠ k → dget (dset d k v) k' = dget d k'.
Proof. intros ?. rewrite dget_dset. by rewrite decide_False. Qed.

Lemma dget_None d k : dget d k = None ↔ k ∉ dkeys d.
Proof.
  induction d as [|[k0 v0] d IH]; simpl; [set_solver|].
  destruct (decide (k = k0)) as [->|]; [set_solver|]. rewrite IH. set_solver.
Qed.

Lemma dget_Some_elem d k v : dget d k = Some v → (k, v) ∈ d.
Proof.
  induction d as [|[k0 v0] d IH]; simpl; [done|].
  destruct (decide (k = k0)) as [->|]; intros; simplify_eq; set_solver.
Qed.

Lemma dget_elem d k v : dict_wf d → (k, v) ∈ d → dget d k = Some v.
Proof.
  unfold dict_wf. induction d as [|[k0 v0] d IH]; simpl; [set_solver|].
  rewrite NoDup_cons, elem_of_cons. intros [Hn Hnd] [?|Hin]; simplify_eq.
  - by rewrite decide_True.
  - rewrite decide_False; [eauto|]. intros ->.
    apply Hn. apply list_elem_of_fmap. by exists (k0, v).
Qed.

Lemma dmem_true d k : dmem d k = true ↔ is_Some (dget d k).
Proof.
  unfold dmem. destruct (dget d k); (split; done) || (split; [by eexists|by intros [? ?]]).
Qed.
Lemma dmem_false d k : dmem d k = false ↔ dget d k = None.
Proof. unfold dmem. by destruct (dget d k). Qed.

Lemma dkeys_dset_mem d k v : k ∈ dkeys d → dkeys (dset d k v) = dkeys d.
Proof.
  induction d as [|[k0 v0] d IH]; simpl; [set_solver|].
  destruct (decide (k = k0)) as [->|]; [done|].
  intros Hin. simpl. f_equal. apply IH. set_solver.
Qed.

Lemma dset_fresh d k v : k ∉ dkeys d → dset d k v = d ++ [(k, v)].
Proof.
  induction d as [|[k0 v0] d IH]; simpl; [done|].
  intros Hn. rewrite decide_False by set_solver. rewrite IH by set_solver. done.
Qed.

Lemma dset_wf d k v : dict_wf d → dict_wf (dset d k v).
Proof.
  unfold dict_wf. intros Hnd. destruct (decide (k ∈ dkeys d)) as [Hin|Hn].
  - by rewrite dkeys_dset_mem.
  - rewrite dset_fresh by done. unfold dkeys. rewrite fmap_app. simpl.
    apply NoDup_app. split; [done|]. split; [set_solver|]. apply NoDup_singleton.
Qed.

Lemma dpop_sublist d k : sublist (dpop d k) d.
Proof.
  induction d as [|[k0 v0] d IH]; simpl; [constructor|].
  destruct (decide (k = k0)); by constructor.
Qed.

Lemma dpop_wf d k : dict_wf d → dict_wf (dpop d k).
Proof.
  unfold dict_wf, dkeys. intros Hnd. eapply sublist_NoDup; [done|].
  apply fmap_sublist, dpop_sublist.
Qed.

Lemma dget_dpop d k k' :
  dict_wf d → dget (dpop d k) k' = if decide (k' = k) then None else dget d k'.
Proof.
  unfold dict_wf. induction d as [|[k0 v0] d IH]; simpl.
  - by destruct (decide (k' = k)).
  - rewrite NoDup_cons. intros [Hn Hnd].
    destruct (decide (k = k0)) as [->|]; simpl.
    + destruct (decide (k' = k0)) as [->|]; [|done]. by apply dget_None.
    + rewrite IH by done. destruct (decide (k' = k0)), (decide (k' = k)); congruence.
Qed.

Lemma dvalues_elem d v : dict_wf d → v ∈ dvalues d ↔ ∃ k, dget d k = Some v.
Proof.
  intros Hwf. unfold dvalues. rewrite list_elem_of_fmap. split.
  - intros ([k v'] & -> & Hin). exists k. by apply dget_elem.
  - intros [k Hk]. exists (k, v). split; [done|]. by apply dget_Some_elem.
Qed.

Lemma dvalues_elem_weak d v : v ∈ dvalues d → ∃ k, (k, v) ∈ d.
Proof.
  unfold dvalues. rewrite list_elem_of_fmap. intros ([k v'] & -> & Hin). eauto.
Qed.

Lemma dvalues_dset d k v w : w ∈ dvalues (dset d k v) → w = v ∨ w ∈ dvalues d.
Proof.
  induction d as [|[k0 v0] d IH]; simpl; [set_solver|].
  destruct (decide (k = k0)); simpl; set_solver.
Qed.

Lemma dvalues_dpop d k w : w ∈ dvalues (dpop d k) → w ∈ dvalues d.
Proof.
  unfold dvalues. intros H. eapply elem_of_submseteq; [exact H|].
  apply sublist_submseteq, fmap_sublist, dpop_sublist.
Qed.

(** *** Refinement to finite maps *)

Lemma dget_map d k : dget d k = dict_to_map d !! k.
Proof.
  unfold dict_to_map. induction d as [|[k0 v0] d IH]; simpl; [done|].
  rewrite lookup_insert. destruct (decide (k = k0)) as [->|].
  - by rewrite decide_True.
  - by rewrite decide_False.
Qed.

Lemma dict_to_map_dset d k v : dict_to_map (dset d k v) = <[k := v]> (dict_to_map d).
Proof.
  apply map_eq. intros k'. rewrite <- dget_map, dget_dset, lookup_insert, <- dget_map.
  destruct (decide (k' = k)), (decide (k = k')); congruence.
Qed.

Lemma dict_to_map_dpop d k :
  dict_wf d → dict_to_map (dpop d k) = delete k (dict_to_map d).
Proof.
  intros Hwf. apply map_eq. intros k'.
  rewrite <- dget_map, dget_dpop by done. rewrite lookup_delete, <- dget_map.
  destruct (decide (k' = k)), (decide (k = k')); congruence.
Qed.

(** [update] gives precedence to the right-hand dictionary. *)
Lemma dget_dupdate d e k :
  dict_wf e → dget (dupdate d e) k =
    match dget e k with Some v => Some v | None => dget d k end.
Proof.
  unfold dupdate, dict_wf. revert d.
  induction e as [|[k0 v0] e IH]; intros d; simpl; [done|].
  rewrite NoDup_cons. intros [Hn Hnd]. rewrite IH by done.
  destruct (decide (k = k0)) as [->|].
  - assert (dget e k0 = None) as -> by by apply dget_None.
    apply dget_dset_eq.
  - destruct (dget e k); [done|]. by rewrite dget_dset_ne.
Qed.

Lemma dupdate_wf d e : dict_wf d → dict_wf (dupdate d e).
Proof.
  unfold dupdate. revert d. induction e as [|[k0 v0] e IH]; intros d Hd; simpl; [done|].
  apply IH. by apply dset_wf.
Qed.
End PyDict.
Arguments dict : clear implicits.

#[export] Hint Resolve dset_wf dpop_wf dupdate_wf NoDup_nil_2 : runtime.
