(* ===== verification/PyStr.v ===== *)
(** * Python strings

    The string operations the code uses: substring tests, prefix and suffix
    tests, ASCII case folding, splitting and stripping at one character.
    A Python [str] is kept as the [string] of its UTF-8 bytes; the operations here look
    for ASCII text only, for which bytes and code points agree, but for [py_chars], the
    characters of a string, and [fold_case]. *)

From S2P Require Import Prelude.
From Stdlib Require Import Ascii.

(** [tuple(s)]: a byte from 128 to 191 goes on with the character before it. *)
Definition continues (c : ascii) : bool := let n := nat_of_ascii c in (128 <=? n)%nat && (n <? 192)%nat.
Fixpoint py_chars (s : string) : list string :=
  match s with
  | EmptyString => []
  | String c s =>
      match py_chars s with
      | String d h :: t => if continues d then String c (String d h) :: t else String c "" :: String d h :: t
      | l => String c "" :: l
      end
  end.
Example py_chars_two : py_chars (String "195" (String "169" "a")) = [String "195" (String "169" ""); "a"].
Proof. reflexivity. Qed.

(** [s.startswith(p)] *)
Fixpoint starts_with (p s : string) : bool :=
  match p, s with
  | EmptyString, _ => true
  | String a p, String b s => if decide (a = b) then starts_with p s else false
  | String _ _, EmptyString => false
  end.

(** [s.endswith(p)] *)
Fixpoint ends_with (p s : string) : bool :=
  if decide (p = s) then true
  else match s with EmptyString => false | String _ s => ends_with p s end.

(** [p in s] *)
Fixpoint contains (p s : string) : bool :=
  if starts_with p s then true
  else match s with EmptyString => false | String _ s => contains p s end.

(** [s.lower()] on ASCII letters. *)
Definition lower_ascii (a : ascii) : ascii :=
  let n := nat_of_ascii a in
  if (65 <=? n)%nat && (n <=? 90)%nat then ascii_of_nat (n + 32) else a.
Fixpoint lower (s : string) : string :=
  match s with EmptyString => EmptyString | String a s => String (lower_ascii a) (lower s) end.

(** What [re.IGNORECASE] makes of a text in which ASCII letters are looked for: besides
    their capitals, the dotted capital and the dotless small I (U+0130, U+0131) are an i, the
    long s (U+017F) is an s and the Kelvin sign (U+212A) is a k. *)
Definition fold_char (c : string) : string :=
  if decide (c ∈ [String "196" (String "176" ""); String "196" (String "177" "")]) then "i"
  else if decide (c = String "197" (String "191" "")) then "s"
  else if decide (c = String "226" (String "132" (String "170" ""))) then "k"
  else lower c.
Definition fold_case (s : string) : string := String.concat "" (fold_char <$> py_chars s).

(** [s.split(c)]: never empty. *)
Fixpoint split_at (c : ascii) (s : string) : list string :=
  match s with
  | EmptyString => [EmptyString]
  | String a s =>
      if decide (a = c) then EmptyString :: split_at c s
      else match split_at c s with
           | [] => [String a EmptyString]
           | w :: ws => String a w :: ws
           end
  end.

(** [c.join(l)] *)
Fixpoint join (sep : string) (l : list string) : string :=
  match l with
  | [] => EmptyString
  | [w] => w
  | w :: l => w +:+ sep +:+ join sep l
  end.

(** [s.lstrip(c)], [s.rstrip(c)] for one character. *)
Fixpoint lstrip (c : ascii) (s : string) : string :=
  match s with
  | String a s' => if decide (a = c) then lstrip c s' else s
  | EmptyString => EmptyString
  end.
Fixpoint rstrip (c : ascii) (s : string) : string :=
  match s with
  | EmptyString => EmptyString
  | String a s =>
      match rstrip c s with
      | EmptyString => if decide (a = c) then EmptyString else String a EmptyString
      | s' => String a s'
      end
  end.
Definition strip (c : ascii) (s : string) : string := rstrip c (lstrip c s).

Fixpoint string_forall (p : ascii → bool) (s : string) : bool :=
  match s with EmptyString => true | String a s => p a && string_forall p s end.

(** Python's truth value of a string. *)
Definition str_truthy (s : string) : bool :=
  match s with EmptyString => false | _ => true end.

Lemma str_truthy_false s : str_truthy s = false ↔ s = "".
Proof. destruct s; simpl; split; congruence. Qed.
Lemma str_truthy_true s : str_truthy s = true ↔ s ≠ "".
Proof. destruct s; simpl; split; congruence. Qed.

(** ** Lemmas *)

Lemma app_string_cons (x : ascii) (a b : string) : String x a +:+ b = String x (a +:+ b).
Proof. done. Qed.

Lemma app_string_nil (a : string) : "" +:+ a = a.
Proof. done. Qed.

Lemma app_string_assoc (a b c : string) : (a +:+ b) +:+ c = a +:+ (b +:+ c).
Proof. induction a as [|x a IH]; [done|]. by rewrite !app_string_cons, IH. Qed.

Lemma app_string_nil_r (a : string) : a +:+ "" = a.
Proof. induction a as [|x a IH]; [done|]. by rewrite !app_string_cons, IH. Qed.

Lemma starts_with_app p s : starts_with p (p +:+ s) = true.
Proof. induction p as [|a p IH]; [done|]. rewrite app_string_cons. simpl. by rewrite decide_True. Qed.

Lemma starts_with_true p s : starts_with p s = true ↔ ∃ t, s = p +:+ t.
Proof.
  split.
  - revert s. induction p as [|a p IH]; intros s; simpl; [by exists s|].
    destruct s as [|b s]; [done|]. destruct (decide (a = b)) as [->|]; [|done].
    intros H. destruct (IH _ H) as [t ->]. by exists t.
  - intros [t ->]. apply starts_with_app.
Qed.

Lemma split_at_nonempty c s : split_at c s ≠ [].
Proof.
  induction s as [|a s IH]; simpl; [done|].
  destruct (decide (a = c)); [done|]. by destruct (split_at c s).
Qed.

(** Splitting and joining are inverse. *)
Lemma join_split_at c s : join (String c "") (split_at c s) = s.
Proof.
  induction s as [|a s IH]; simpl; [done|].
  destruct (decide (a = c)) as [->|].
  - destruct (split_at c s) as [|w ws] eqn:Hs; [by apply split_at_nonempty in Hs|].
    by rewrite <- IH.
  - destruct (split_at c s) as [|w ws] eqn:Hs; [by apply split_at_nonempty in Hs|].
    rewrite <- IH. by destruct ws.
Qed.

Lemma string_forall_app p s t :
  string_forall p (s +:+ t) = string_forall p s && string_forall p t.
Proof. induction s as [|a s IH]; [done|]. rewrite app_string_cons. simpl. by rewrite IH, andb_assoc. Qed.

Lemma lstrip_head c s a t : lstrip c s = String a t → a ≠ c.
Proof.
  induction s as [|b s IH]; simpl; [done|].
  destruct (decide (b = c)); [done|]. intros H; by simplify_eq.
Qed.

Lemma app_string_inj_l (a b c : string) : a +:+ b = a +:+ c → b = c.
Proof. induction a as [|x a IH]; [done|]. rewrite !app_string_cons. intros H. simplify_eq. eauto. Qed.

(** ** [int(s)] for a decimal string: white space around it, one sign, and single
    underscores between digits. *)

Definition is_space (c : ascii) : bool :=
  let n := nat_of_ascii c in
  ((9 <=? n)%nat && (n <=? 13)%nat) || ((28 <=? n)%nat && (n <=? 32)%nat).
Fixpoint skip_spaces (s : string) : string :=
  match s with
  | String c s' => if is_space c then skip_spaces s' else s
  | EmptyString => ""
  end.
(** [s.strip()] *)
Definition strip_spaces (s : string) : string :=
  String.rev (skip_spaces (String.rev (skip_spaces s))).

Definition digit_value (c : ascii) : option Z :=
  let n := Z.of_nat (nat_of_ascii c) in
  if (48 <=? n) && (n <=? 57) then Some (n - 48) else None.

(** The digits after at least one digit has been read. *)
Fixpoint int_digits (s : string) (acc : Z) : option Z :=
  match s with
  | EmptyString => Some acc
  | String c s' =>
      match digit_value c with
      | Some d => int_digits s' (10 * acc + d)
      | None =>
          if Ascii.eqb c "_"
          then match s' with
               | String c' s'' =>
                   match digit_value c' with
                   | Some d => int_digits s'' (10 * acc + d)
                   | None => None
                   end
               | EmptyString => None
               end
          else None
      end
  end.
Definition int_unsigned (s : string) : option Z :=
  match s with
  | String c s' => match digit_value c with Some d => int_digits s' d | None => None end
  | EmptyString => None
  end.
Definition parse_int (s : string) : option Z :=
  match strip_spaces s with
  | String "-" s' => Z.opp <$> int_unsigned s'
  | String "+" s' => int_unsigned s'
  | s' => int_unsigned s'
  end.
