(* ===== verification/Json.v ===== *)
(** * JSON values

    [JsonValue] of [domain/primitives/json_types.py]: the data that requests,
    events, configuration and metadata carry.  A Python [float] is kept as the
    IEEE-754 value it is (Stdlib's executable [spec_float], binary64), an [int]
    as [Z], an object as an insertion-ordered dictionary.  [deepcopy] of such a
    value is a value equal to it, so it is the identity here; where the code
    copies only to cut sharing, the model has no sharing to cut. *)

From S2P Require Import Prelude PyDict PyStr.
From Stdlib Require Import SpecFloat.

Inductive json : Type :=
| JNull
| JBool (b : bool)
| JInt (z : Z)
| JFloat (f : spec_float)
| JStr (s : string)
| JList (l : list json)
| JObj (o : list (string * json)).

(** [JsonObject] *)
Abbreviation json_object := (dict json).

(** ** Induction through lists and objects *)

Section json_ind.
Context (P : json → Prop)
  (Hnull : P JNull) (Hbool : ∀ b, P (JBool b)) (Hint : ∀ z, P (JInt z))
  (Hfloat : ∀ f, P (JFloat f)) (Hstr : ∀ s, P (JStr s))
  (Hlist : ∀ l, Forall P l → P (JList l))
  (Hobj : ∀ o, Forall (λ kv, P kv.2) o → P (JObj o)).

Fixpoint json_ind' (j : json) : P j :=
  match j with
  | JNull => Hnull
  | JBool b => Hbool b
  | JInt z => Hint z
  | JFloat f => Hfloat f
  | JStr s => Hstr s
  | JList l =>
      Hlist l ((fix go (l : list json) : Forall P l :=
                  match l with
                  | [] => List.Forall_nil _
                  | x :: l => List.Forall_cons _ x l (json_ind' x) (go l)
                  end) l)
  | JObj o =>
      Hobj o ((fix go (o : list (string * json)) : Forall (λ kv, P kv.2) o :=
                 match o with
                 | [] => List.Forall_nil _
                 | kv :: o => List.Forall_cons _ kv o (json_ind' kv.2) (go o)
                 end) o)
  end.
End json_ind.

#[export] Instance spec_float_eq_dec : EqDecision spec_float.
Proof. solve_decision. Defined.

#[export] Instance json_eq_dec : EqDecision json.
Proof.
  refine (fix go (x y : json) {struct x} : {x = y} + {x ≠ y} := _).
  destruct x as [|b|z|f|s|l|o], y as [|b'|z'|f'|s'|l'|o'];
    try (right; discriminate).
  - by left.
  - destruct (decide (b = b')); [left|right]; congruence.
  - destruct (decide (z = z')); [left|right]; congruence.
  - destruct (decide (f = f')); [left|right]; congruence.
  - destruct (decide (s = s')); [left|right]; congruence.
  - assert ({l = l'} + {l ≠ l'}) as [->|Hne]; [|by left|right; congruence].
    revert l'. induction l as [|a l IH]; intros [|a' l'];
      [by left|right; discriminate|right; discriminate|].
    destruct (go a a') as [->|]; [|right; congruence].
    destruct (IH l') as [->|]; [by left|right; congruence].
  - assert ({o = o'} + {o ≠ o'}) as [->|Hne]; [|by left|right; congruence].
    revert o'. induction o as [|[k a] o IH]; intros [|[k' a'] o'];
      [by left|right; discriminate|right; discriminate|].
    destruct (decide (k = k')) as [->|]; [|right; congruence].
    destruct (go a a') as [->|]; [|right; congruence].
    destruct (IH o') as [->|]; [by left|right; congruence].
Defined.

(** ** Python's [==] and truth value *)

(** The exact comparison of a finite binary float with an integer. *)
Definition float_eq_int (f : spec_float) (z : Z) : bool :=
  match f with
  | S754_zero _ => z =? 0
  | S754_finite s m e =>
      let v := if s then Z.neg m else Z.pos m in
      if 0 <=? e then z =? v * 2 ^ e else z * 2 ^ (- e) =? v
  | _ => false
  end.

Definition bool_int (b : bool) : Z := if b then 1 else 0.

(** [x == y] for JSON values: numbers compare across their types, objects
    without regard to the order of their items. *)
Fixpoint py_eq (x y : json) {struct x} : bool :=
  match x, y with
  | JNull, JNull => true
  | JBool a, JBool b => Bool.eqb a b
  | JBool a, JInt z | JInt z, JBool a => z =? bool_int a
  | JBool a, JFloat f | JFloat f, JBool a => float_eq_int f (bool_int a)
  | JInt a, JInt b => a =? b
  | JInt a, JFloat f | JFloat f, JInt a => float_eq_int f a
  | JFloat f, JFloat g => SFeqb f g
  | JStr a, JStr b => bool_decide (a = b)
  | JList l, JList l' =>
      (fix go l l' :=
         match l, l' with
         | [], [] => true
         | a :: l, b :: l' => py_eq a b && go l l'
         | _, _ => false
         end) l l'
  | JObj o, JObj o' =>
      (length o =? length o')%nat &&
      (fix go o :=
         match o with
         | [] => true
         | (k, a) :: o =>
             match dget o' k with Some b => py_eq a b | None => false end && go o
         end) o
  | _, _ => false
  end.

(** [bool(x)] *)
Definition truthy (x : json) : bool :=
  match x with
  | JNull => false
  | JBool b => b
  | JInt z => negb (z =? 0)
  | JFloat (S754_zero _) => false
  | JFloat _ => true
  | JStr s => str_truthy s
  | JList l => negb (bool_decide (l = []))
  | JObj o => negb (bool_decide (o = []))
  end.

(** [isinstance(x, dict)] and [isinstance(x, dict) and k in x] *)
Definition is_dict (x : json) : bool := match x with JObj _ => true | _ => false end.
Definition has_key (k : string) (x : json) : bool :=
  match x with JObj o => dmem o k | _ => false end.

(** [d.get(k) == v], where a missing key reads as [None]. *)
Definition get_or_null (o : json_object) (k : string) : json := default JNull (dget o k).

(** [all(metadata.get(key) == value for key, value in filter.items())] *)
Definition metadata_matches (flt metadata : json_object) : bool :=
  forallb (λ kv, py_eq (get_or_null metadata kv.1) kv.2) flt.

(** ** Well-formed values: every object has distinct keys, as a [dict] has. *)

Inductive json_wf : json → Prop :=
| wf_null : json_wf JNull
| wf_bool b : json_wf (JBool b)
| wf_int z : json_wf (JInt z)
| wf_float f : json_wf (JFloat f)
| wf_str s : json_wf (JStr s)
| wf_list l : Forall json_wf l → json_wf (JList l)
| wf_obj o : dict_wf o → Forall (λ kv, json_wf kv.2) o → json_wf (JObj o).

Definition object_wf (o : json_object) : Prop := json_wf (JObj o).

(** The value at a path of keys. *)
Fixpoint lookup_path (j : json) (p : list string) : option json :=
  match p with
  | [] => Some j
  | k :: p => match j with
              | JObj o => match dget o k with Some v => lookup_path v p | None => None end
              | _ => None
              end
  end.

Lemma object_wf_get o k v : object_wf o → dget o k = Some v → json_wf v.
Proof.
  intros Hwf Hk. inv Hwf. apply dget_Some_elem in Hk.
  rewrite Forall_forall in *. by apply (H1 (k, v)).
Qed.

Lemma object_wf_keys o : object_wf o → dict_wf o.
Proof. by inversion 1. Qed.

Lemma object_wf_dset o k v : object_wf o → json_wf v → object_wf (dset o k v).
Proof.
  intros Hwf Hv. inv Hwf. constructor; [by apply dset_wf|].
  induction o as [|[k0 v0] o IH]; simpl; [by constructor|].
  inv H1. destruct (decide (k = k0)); constructor; try done.
  apply IH; [|done]. unfold dict_wf, dkeys in *; simpl in *. by inv H0.
Qed.

#[export] Hint Resolve object_wf_dset object_wf_keys : runtime.
