(* ===== verification/Errors.v ===== *)
(** * Errors

    [domain/errors.py] and [adapters/langgraph/errors.py]: the error codes, the
    [RuntimeFailure] exception, and the exceptions the modelled code raises or
    catches.  [asyncio.CancelledError] is a [BaseException]: an
    [except Exception] clause does not catch it ([is_exception]). *)

From S2P Require Import Prelude PyDict PyStr Json.

Inductive ErrorCode : Type :=
| ADAPTER_NOT_SUPPORTED | CAPABILITY_NOT_SUPPORTED | THREAD_BUSY | RUN_NOT_FOUND
| INVALID_EXECUTION_INPUT | EXECUTION_CANCELLED | EXECUTION_TIMEOUT
| INFRASTRUCTURE_UNAVAILABLE | FRAMEWORK_EXECUTION_FAILED | MIGRATION_LOCKED
| RESOURCE_NOT_FOUND | QUEUE_CLOSED | STREAM_NOT_FOUND | STREAM_CURSOR_INVALID
| STREAM_CURSOR_EXPIRED | STREAM_BACKPRESSURE | EVENT_SEQUENCE_CONFLICT
| EVENT_SERIALIZATION_FAILED | PROJECTION_FAILED | ARTIFACT_TOO_LARGE
| ARTIFACT_STORE_FAILED | CUSTOM_HTTP_UNAVAILABLE | CUSTOM_HTTP_TIMEOUT
| CUSTOM_HTTP_ENTRYPOINT_INVALID | CUSTOM_HTTP_DISCOVERY_AMBIGUOUS
| CUSTOM_HTTP_STARTUP_FAILED | CUSTOM_HTTP_RESPONSE_TOO_LARGE
| ASGI_ADAPTER_NOT_INSTALLED | ASGI_SYNTAX_ERROR | APPLICATION_MIGRATION_FAILED.

#[export] Instance ErrorCode_eq_dec : EqDecision ErrorCode.
Proof. solve_decision. Defined.

(** [str(code)] of the [StrEnum]. *)
Definition error_code_str (c : ErrorCode) : string :=
  match c with
  | ADAPTER_NOT_SUPPORTED => "ADAPTER_NOT_SUPPORTED"
  | CAPABILITY_NOT_SUPPORTED => "CAPABILITY_NOT_SUPPORTED"
  | THREAD_BUSY => "THREAD_BUSY"
  | RUN_NOT_FOUND => "RUN_NOT_FOUND"
  | INVALID_EXECUTION_INPUT => "INVALID_EXECUTION_INPUT"
  | EXECUTION_CANCELLED => "EXECUTION_CANCELLED"
  | EXECUTION_TIMEOUT => "EXECUTION_TIMEOUT"
  | INFRASTRUCTURE_UNAVAILABLE => "INFRASTRUCTURE_UNAVAILABLE"
  | FRAMEWORK_EXECUTION_FAILED => "FRAMEWORK_EXECUTION_FAILED"
  | MIGRATION_LOCKED => "MIGRATION_LOCKED"
  | RESOURCE_NOT_FOUND => "RESOURCE_NOT_FOUND"
  | QUEUE_CLOSED => "QUEUE_CLOSED"
  | STREAM_NOT_FOUND => "STREAM_NOT_FOUND"
  | STREAM_CURSOR_INVALID => "STREAM_CURSOR_INVALID"
  | STREAM_CURSOR_EXPIRED => "STREAM_CURSOR_EXPIRED"
  | STREAM_BACKPRESSURE => "STREAM_BACKPRESSURE"
  | EVENT_SEQUENCE_CONFLICT => "EVENT_SEQUENCE_CONFLICT"
  | EVENT_SERIALIZATION_FAILED => "EVENT_SERIALIZATION_FAILED"
  | PROJECTION_FAILED => "PROJECTION_FAILED"
  | ARTIFACT_TOO_LARGE => "ARTIFACT_TOO_LARGE"
  | ARTIFACT_STORE_FAILED => "ARTIFACT_STORE_FAILED"
  | CUSTOM_HTTP_UNAVAILABLE => "CUSTOM_HTTP_UNAVAILABLE"
  | CUSTOM_HTTP_TIMEOUT => "CUSTOM_HTTP_TIMEOUT"
  | CUSTOM_HTTP_ENTRYPOINT_INVALID => "CUSTOM_HTTP_ENTRYPOINT_INVALID"
  | CUSTOM_HTTP_DISCOVERY_AMBIGUOUS => "CUSTOM_HTTP_DISCOVERY_AMBIGUOUS"
  | CUSTOM_HTTP_STARTUP_FAILED => "CUSTOM_HTTP_STARTUP_FAILED"
  | CUSTOM_HTTP_RESPONSE_TOO_LARGE => "CUSTOM_HTTP_RESPONSE_TOO_LARGE"
  | ASGI_ADAPTER_NOT_INSTALLED => "ASGI_ADAPTER_NOT_INSTALLED"
  | ASGI_SYNTAX_ERROR => "ASGI_SYNTAX_ERROR"
  | APPLICATION_MIGRATION_FAILED => "APPLICATION_MIGRATION_FAILED"
  end.

Record RuntimeFailure : Type := mk_failure {
  failure_code : ErrorCode;
  failure_message : string;
  failure_retryable : bool;
  failure_details : json_object;
}.

(** [RuntimeFailure.__str__] *)
Definition failure_str (f : RuntimeFailure) : string :=
  error_code_str (failure_code f) +:+ ": " +:+ failure_message f.

Inductive LangGraphErrorCode : Type :=
| LG_CAPABILITY_NOT_SUPPORTED | LG_INVALID_GRAPH | LG_INVALID_PERSISTENCE | LG_LOAD_FAILED.

#[export] Instance LangGraphErrorCode_eq_dec : EqDecision LangGraphErrorCode.
Proof. solve_decision. Defined.

(** The exceptions of the modelled code; [OtherError] is any further
    [Exception] subclass that code outside the repository raises. *)
Inductive exn : Type :=
| Failure (f : RuntimeFailure)
| LangGraphAdapterError (code : LangGraphErrorCode) (message : string)
| ValueError (message : string)
| TypeError (message : string)
| KeyError (key : string)
| RuntimeError (message : string)
| TimeoutError (message : string)
| AssertionError
| CancelledError
| OtherError (message : string).

(** [except Exception] catches it. *)
Definition is_exception (e : exn) : bool :=
  match e with CancelledError => false | _ => true end.

(** [str(exc)] *)
Definition exn_str (e : exn) : string :=
  match e with
  | Failure f => failure_str f
  | LangGraphAdapterError _ m | ValueError m | TypeError m | RuntimeError m
  | TimeoutError m | OtherError m => m
  | KeyError k => "'" +:+ k +:+ "'"
  | AssertionError | CancelledError => ""
  end.

(** [RuntimeFailure(code, message)] with the default fields. *)
Definition failure (c : ErrorCode) (m : string) : exn := Failure (mk_failure c m false []).
(** ... with [retryable=True]. *)
Definition retryable_failure (c : ErrorCode) (m : string) : exn :=
  Failure (mk_failure c m true []).

(** Does [e] carry the code [c]? *)
Definition has_code (c : ErrorCode) (e : exn) : bool :=
  match e with Failure f => bool_decide (failure_code f = c) | _ => false end.

(** Stateful code over a state [S], and pure code that may raise. *)
Abbreviation Py := (M exn).
Abbreviation res := (result exn).

Lemma error_code_str_inj c c' : error_code_str c = error_code_str c' → c = c'.
Proof. by destruct c, c'. Qed.

Lemma has_code_failure c m : has_code c (failure c m) = true.
Proof. unfold has_code; simpl. by apply bool_decide_eq_true. Qed.

(** [int(s)] *)
Definition py_int (s : string) : res Z :=
  match parse_int s with
  | Some n => Ok n
  | None => Raise (ValueError ("invalid literal for int() with base 10: '" +:+ s +:+ "'"))
  end.
