(* ===== verification/Interleaving.v ===== *)
(** * Programs that others interfere with

    A call of the modelled code is a function of the state, as if nothing happened
    between its first and its last step.  Here it is a program of atomic steps
    ([proc]), each of them one transaction with the shared state, so that the steps of
    several programs can interleave.  Run without interference, a program is the call it
    was made of ([runs_as]); what holds of it under interference is shown with a
    weakest-precondition calculus with a ghost: whether it owes something ([holds]). *)

From S2P Require Import Prelude Errors.

(** ** Programs *)

Section Programs.
Context {S : Type}.

(** A step sees the state and changes it, in that order. *)
Inductive proc (A : Type) : Type :=
| Done (o : res A)
| Act (next : S → proc A) (change : S → S).
#[global] Arguments Done {A} o.
#[global] Arguments Act {A} next change.

(** A call that is one transaction. *)
Definition atomic {A} (m : Py S A) : proc A := Act (λ s, Done (m s).1) (λ s, (m s).2).

Definition pret {A} (a : A) : proc A := Done (Ok a).
Definition praise {A} (e : exn) : proc A := Done (Raise e).
Fixpoint pbind {A B} (p : proc A) (f : A → proc B) : proc B :=
  match p with
  | Done (Ok a) => f a
  | Done (Raise e) => Done (Raise e)
  | Act next change => Act (λ s, pbind (next s) f) change
  end.
Fixpoint pexcept {A} (p : proc A) (h : exn → proc A) : proc A :=
  match p with
  | Done (Ok a) => Done (Ok a)
  | Done (Raise e) => h e
  | Act next change => Act (λ s, pexcept (next s) h) change
  end.
Fixpoint pfinally {A} (p : proc A) (q : proc unit) : proc A :=
  match p with
  | Done o => pbind q (λ _, Done o)
  | Act next change => Act (λ s, pfinally (next s) q) change
  end.
Fixpoint pfor_each {A} (f : A → proc unit) (l : list A) : proc unit :=
  match l with
  | [] => pret tt
  | x :: l => pbind (f x) (λ _, pfor_each f l)
  end.

(** A program on its own. *)
Fixpoint run {A} (p : proc A) : Py S A := λ s,
  match p with
  | Done o => (o, s)
  | Act next change => run (next s) (change s)
  end.

Definition unfinished {A} (p : proc A) : Prop := match p with Done _ => False | Act _ _ => True end.
End Programs.
Arguments proc S A : clear implicits.
Arguments atomic {S A} m : simpl never.

Declare Scope proc_scope.
Delimit Scope proc_scope with proc.
Notation "x <- c ;; k" := (pbind c (λ x, k))
  (at level 100, c at next level, right associativity) : proc_scope.
Notation "c ;;; k" := (pbind c (λ _, k))
  (at level 100, right associativity) : proc_scope.

(** ** Without interference *)

(** [p] does what the call [m] does, where [T] holds the state of [p]. *)
Definition runs_as {S T A} (embed : S → T) (p : proc S A) (m : Py T A) : Prop :=
  ∀ s, m (embed s) = let '(o, s') := run p s in (o, embed s').

Section RunsAs.
Context {S T : Type} (embed : S → T).

Lemma runs_done {A} (o : res A) : runs_as embed (Done o) (of_result o).
Proof. done. Qed.
Lemma runs_atomic {A} (m : Py S A) (m' : Py T A) :
  (∀ s, m' (embed s) = let '(o, s') := m s in (o, embed s')) → runs_as embed (atomic m) m'.
Proof. intros Hm s. rewrite Hm. simpl. by destruct (m s). Qed.

(** A call that changes nothing takes no step. *)
Lemma runs_skip {A B} (p : proc S B) (m : Py T A) a (f : A → Py T B) :
  (∀ s, m (embed s) = (Ok a, embed s)) → runs_as embed p (f a) → runs_as embed p (bind m f).
Proof. intros Hm Hf s. unfold bind. by rewrite Hm. Qed.
Lemma runs_bind {A B} (p : proc S A) m (f : A → proc S B) g :
  runs_as embed p m → (∀ a, runs_as embed (f a) (g a)) → runs_as embed (pbind p f) (bind m g).
Proof.
  intros Hp Hf s. unfold bind. rewrite Hp. clear Hp. revert s.
  induction p as [[a|e]|next IH change]; intros s; simpl; [apply Hf|done|apply IH].
Qed.
Lemma runs_except {A} (p : proc S A) m h h' :
  runs_as embed p m → (∀ e, runs_as embed (h e) (h' e)) → runs_as embed (pexcept p h) (try_except m h').
Proof.
  intros Hp Hf s. unfold try_except. rewrite Hp. clear Hp. revert s.
  induction p as [[a|e]|next IH change]; intros s; simpl; [done|apply Hf|apply IH].
Qed.
Lemma runs_finally {A} (p : proc S A) m q q' :
  runs_as embed p m → runs_as embed q q' → runs_as embed (pfinally p q) (try_finally m q').
Proof.
  intros Hp Hq s. unfold try_finally. rewrite Hp. clear Hp. revert s.
  induction p as [o|next IH change]; intros s; simpl; [|apply IH]. rewrite Hq. clear Hq. revert s.
  induction q as [[[]|e]|next IH change]; intros s; simpl; [done..|apply IH].
Qed.
Lemma runs_for_each {A} (f : A → proc S unit) g l :
  (∀ a, runs_as embed (f a) (g a)) → runs_as embed (pfor_each f l) (for_each g l).
Proof. intros Hf. induction l as [|a l IH]; [by intros s|]. by apply runs_bind. Qed.
End RunsAs.

(** ** With interference *)

Section Calculus.
Context {S : Type} (inv : S → Prop) (guarantee : bool → bool → S → S → Prop).

(** From any consistent state, a step of [p] keeps its guarantee; [b] says whether [p]
    owes something, and [Q] what it owes and has computed at its end. *)
Fixpoint holds {A} (b : bool) (p : proc S A) (Q : bool → res A → Prop) : Prop :=
  match p with
  | Done o => Q b o
  | Act next change => ∀ s, inv s → ∃ b', guarantee b b' s (change s) ∧ holds b' (next s) Q
  end.

Lemma holds_mono {A} b (p : proc S A) Q Q' :
  holds b p Q → (∀ b o, Q b o → Q' b o) → holds b p Q'.
Proof.
  revert b. induction p as [o|next IH change]; intros b Hp HQ; simpl in *; [by apply HQ|].
  intros s Hs. destruct (Hp s Hs) as (b' & Hg & Hn). exists b'. split; [done|by apply IH].
Qed.
Lemma holds_bind {A B} b (p : proc S A) (f : A → proc S B) Q :
  holds b p (λ b o, match o with Ok a => holds b (f a) Q | Raise e => Q b (Raise e) end) →
  holds b (pbind p f) Q.
Proof.
  revert b. induction p as [[a|e]|next IH change]; intros b Hp; simpl in *; [done..|].
  intros s Hs. destruct (Hp s Hs) as (b' & Hg & Hn). exists b'. split; [done|by apply IH].
Qed.
Lemma holds_result {A B} b (o : res A) (f : A → proc S B) Q :
  match o with Ok a => holds b (f a) Q | Raise e => Q b (Raise e) end → holds b (pbind (Done o) f) Q.
Proof. by destruct o. Qed.
Lemma holds_except {A} b (p : proc S A) h Q :
  holds b p (λ b o, match o with Ok a => Q b (Ok a) | Raise e => holds b (h e) Q end) →
  holds b (pexcept p h) Q.
Proof.
  revert b. induction p as [[a|e]|next IH change]; intros b Hp; simpl in *; [done..|].
  intros s Hs. destruct (Hp s Hs) as (b' & Hg & Hn). exists b'. split; [done|by apply IH].
Qed.
Lemma holds_finally {A} b (p : proc S A) q Q :
  holds b p (λ b o, holds b q (λ b o', match o' with Ok _ => Q b o | Raise e => Q b (Raise e) end)) →
  holds b (pfinally p q) Q.
Proof.
  revert b. induction p as [o|next IH change]; intros b Hp; simpl in *.
  - apply holds_bind. eapply holds_mono; [exact Hp|]. by intros b' [].
  - intros s Hs. destruct (Hp s Hs) as (b' & Hg & Hn). exists b'. split; [done|by apply IH].
Qed.
Lemma holds_atomic {A} b (m : Py S A) Q :
  (∀ s, inv s → ∃ b', guarantee b b' s (m s).2 ∧ Q b' (m s).1) → holds b (atomic m) Q.
Proof. done. Qed.
End Calculus.

Lemma holds_guarantee {S A} (inv : S → Prop) (G G' : bool → bool → S → S → Prop) b (p : proc S A) Q :
  (∀ b b' s s', G b b' s s' → G' b b' s s') → holds inv G b p Q → holds inv G' b p Q.
Proof.
  intros HG. revert b. induction p as [o|next IH change]; intros b Hp; simpl in *; [done|].
  intros s Hs. destruct (Hp s Hs) as (b' & Hg & Hn). exists b'. split; [by apply HG|by apply IH].
Qed.

(** ** Pools of programs *)

(** Programs in progress over one state, each with a label that says what it is. *)
Record Pool (L S : Type) : Type := mk_pool {
  pool_state : S;
  pool_tasks : list (L * proc S unit);
}.
Arguments mk_pool {L S} _ _.
Arguments pool_state {L S} _.
Arguments pool_tasks {L S} _.

(** Why what is owed for a key may be owed by nobody: a program that works on it was
    stopped, or one began that does not do all of its work. *)
Inductive cause : Set := Stopped | Unserved.

Section Pools.
Context {L S : Type}.

(** A step of one of the programs. *)
Inductive pool_act : Pool L S → Pool L S → Prop :=
| pool_act_intro s l1 i next change l2 :
    pool_act (mk_pool s (l1 ++ (i, Act next change) :: l2))
             (mk_pool (change s) (l1 ++ (i, next s) :: l2)).

(** The [n]-th program makes a step. *)
Definition advance (st : Pool L S) (n : nat) : Pool L S :=
  match pool_tasks st !! n with
  | Some (i, Act next change) =>
      mk_pool (change (pool_state st)) (<[n := (i, next (pool_state st))]> (pool_tasks st))
  | _ => st
  end.

Lemma advance_reachable st n : reachable pool_act st (advance st n).
Proof.
  unfold advance. destruct (pool_tasks st !! n) as [[i [o|next change]]|] eqn:Hi; [apply reach_init| |apply reach_init].
  apply reachable_one. destruct st as [s l]. simpl in *. rewrite (insert_take_drop _ _ _ (lookup_lt_Some _ _ _ Hi)).
  rewrite <- (take_drop_middle _ _ _ Hi) at 1. apply pool_act_intro.
Qed.
Lemma schedule_labels st ns : (pool_tasks (foldl advance st ns)).*1 = (pool_tasks st).*1.
Proof.
  revert st. induction ns as [|n ns IH]; intros st; [done|]. simpl. rewrite IH. unfold advance.
  destruct (pool_tasks st !! n) as [[i [o|next change]]|] eqn:Hi; [done| |done]. simpl.
  rewrite list_fmap_insert. apply list_insert_id. by rewrite list_lookup_fmap, Hi.
Qed.
Lemma schedule_reachable st ns : reachable pool_act st (foldl advance st ns).
Proof.
  revert st. induction ns as [|n ns IH]; intros st; [apply reach_init|]. simpl.
  eapply reachable_trans; [apply advance_reachable|apply IH].
Qed.

Definition idle (st : Pool L S) : Prop := Forall (λ t, ¬ unfinished t.2) (pool_tasks st).

(** *** Every program ends *)

Definition tasks_act (l' l : list (L * proc S unit)) : Prop :=
  ∃ l1 i next change s l2, l = l1 ++ (i, Act next change) :: l2 ∧ l' = l1 ++ (i, next s) :: l2.

Lemma tasks_act_cons k p l l' : tasks_act l' ((k, p) :: l) →
  (∃ next change s, p = Act next change ∧ l' = (k, next s) :: l) ∨ ∃ l1, tasks_act l1 l ∧ l' = (k, p) :: l1.
Proof.
  intros ([|[k0 p0] l1] & k1 & next & change & s & l2 & Hl & ->); simpl in *; injection Hl as -> -> ->.
  - left. by exists next, change, s.
  - right. eexists. split; [by exists l1, k1, next, change, s, l2|done].
Qed.

Lemma tasks_act_wf l : Acc tasks_act l.
Proof.
  induction l as [|[k p] l IH].
  { constructor. intros l' ([|? ?] & ? & ? & ? & ? & ? & Hl & _); discriminate Hl. }
  revert l IH. induction p as [o|next IHp change]; intros l Hl; induction Hl as [l Hl IHl]; constructor;
    intros l' Hact; apply tasks_act_cons in Hact as [(next' & change' & s & Hp & ->)|(l1 & Hl1 & ->)].
  - discriminate Hp.
  - exact (IHl l1 Hl1).
  - injection Hp as <- _. apply IHp. constructor. exact Hl.
  - exact (IHl l1 Hl1).
Qed.

(** Whatever the schedule, the programs in progress end. *)
Lemma pool_terminates (st : Pool L S) : Acc (λ st' st, pool_act st st') st.
Proof.
  destruct st as [s l]. revert s. induction (tasks_act_wf l) as [l _ IH]. intros s. constructor.
  intros st' Hact. inversion Hact; subst. apply IH. by do 6 eexists.
Qed.

Lemma unfinished_dec (l : list (L * proc S unit)) :
  Forall (λ t, ¬ unfinished t.2) l ∨ ∃ l1 k next change l2, l = l1 ++ (k, Act next change) :: l2.
Proof.
  induction l as [|[k [o|next change]] l [IH|(l1 & k1 & n1 & c1 & l2 & ->)]].
  - by left.
  - left. constructor; [|done]. by intros [].
  - right. by exists ((k, Done o) :: l1), k1, n1, c1, l2.
  - right. by exists [], k, next, change, l.
  - right. by exists [], k, next, change, (l1 ++ (k1, Act n1 c1) :: l2).
Qed.

Lemma pool_drains (st : Pool L S) : ∃ st', reachable pool_act st st' ∧ idle st'.
Proof.
  induction (pool_terminates st) as [[s l] _ IH].
  destruct (unfinished_dec l) as [Hidle|(l1 & k & next & change & l2 & ->)].
  - exists (mk_pool s l). split; [apply reach_init|exact Hidle].
  - pose proof (pool_act_intro s l1 k next change l2) as Hstep.
    destruct (IH _ Hstep) as (st' & Hr & Hi). exists st'. split; [|done].
    eapply reachable_trans; [by apply reachable_one|done].
Qed.

(** *** What the programs owe *)

Section Owed.
Context (key_of : L → string) (works : L → bool) (inv : S → Prop).

Section Guarantee.
Context (owed : string → S → Prop).

(** The guarantee of a program: it keeps the state consistent, makes nothing owed for keys
    other than its own, and something for its key only if it owes it afterwards; if it does
    not owe it any more, nothing is owed; and only a program that works comes to owe. *)
Definition owes (i : L) (b b' : bool) (s s' : S) : Prop :=
  inv s' ∧ (∀ k, k ≠ key_of i → owed k s' → owed k s) ∧
  (owed (key_of i) s' → b' = true ∨ (b = false ∧ owed (key_of i) s)) ∧
  (b' = true → b = true ∨ works i = true).

(** A sound program owes nothing at its end; one that only keeps the guarantee may. *)
Definition sound (i : L) (b : bool) (p : proc S unit) : Prop := holds inv (owes i) b p (λ b _, b = false).
Definition keeps (i : L) (b : bool) (p : proc S unit) : Prop := holds inv (owes i) b p (λ _ _, True).

(** Each program with what it owes. *)
Definition task_ok (t : L * proc S unit * bool) : Prop :=
  sound t.1.1 t.2 t.1.2 ∧ (t.2 = true → works t.1.1 = true).
Definition pool_ok (st : Pool L S) : Prop :=
  inv (pool_state st) ∧ ∃ l, pool_tasks st = l.*1 ∧ Forall task_ok l ∧
    ∀ k, owed k (pool_state st) → ∃ i p, key_of i = k ∧ ((i, p), true) ∈ l.

(** A task in a pool that is ok. *)
Lemma pool_ok_split s l1 i p l2 : pool_ok (mk_pool s (l1 ++ (i, p) :: l2)) →
  inv s ∧ ∃ g1 b g2, l1 = g1.*1 ∧ l2 = g2.*1 ∧ Forall task_ok g1 ∧ Forall task_ok g2 ∧ task_ok (i, p, b) ∧
    ∀ k, owed k s → (∃ j q, key_of j = k ∧ ((j, q), true) ∈ g1 ++ g2) ∨ (key_of i = k ∧ b = true).
Proof.
  intros [Hinv (l & Hl & Hs & Hk)]. simpl in *. split; [done|].
  symmetry in Hl. apply fmap_app_inv in Hl as (g1 & g2' & -> & Hg & ->).
  destruct g2' as [|[[i0 p0] b] g2]; [done|]. simpl in Hg. injection Hg as <- <- ->.
  apply Forall_app in Hs as [Hs1 [Hs Hs2]%Forall_cons]. exists g1, b, g2. split_and!; [done..|].
  intros k Ho. destruct (Hk k Ho) as (j & q & Hj & Hq). rewrite elem_of_app, elem_of_cons in Hq.
  destruct Hq as [?|[?|?]]; [left|right|left]; [exists j, q; set_solver|by simplify_eq|exists j, q; set_solver].
Qed.

Lemma pool_act_ok st st' : pool_ok st → pool_act st st' → pool_ok st'.
Proof.
  intros Hok Hact. destruct Hact as [s l1 i next change l2].
  apply pool_ok_split in Hok as [Hinv (g1 & b & g2 & -> & -> & Hs1 & Hs2 & [Hs Hw] & Hk)].
  destruct (Hs s Hinv) as (b' & (Hinv' & Hother & Howe & Hnew) & Hnext). split; [done|].
  exists (g1 ++ ((i, next s), b') :: g2). split; [by rewrite fmap_app|]. split.
  { apply Forall_app. split; [done|]. constructor; [|done]. split; [done|]. simpl in *. intros [?|?]%Hnew; auto. }
  intros k Ho. simpl in Ho. destruct (decide (k = key_of i)) as [->|Hne].
  - destruct (Howe Ho) as [->|[Hb Ho']]; [exists i, (next s); set_solver|].
    destruct (Hk _ Ho') as [(j & q & Hj & Hq)|[_ ?]]; [|simpl in *; congruence]. exists j, q. set_solver.
  - destruct (Hk k (Hother k Hne Ho)) as [(j & q & Hj & Hq)|[? _]]; [|congruence]. exists j, q. set_solver.
Qed.

Lemma pool_ok_none s : inv s → (∀ k, ¬ owed k s) → pool_ok (mk_pool s []).
Proof. intros Hs Hn. split; [done|]. exists []. split_and!; [done|done|]. intros k Hk. by destruct (Hn k). Qed.

(** The programs that begin owe nothing at first. *)
Lemma pool_ok_start s l i p : sound i false p → pool_ok (mk_pool s l) → pool_ok (mk_pool s ((i, p) :: l)).
Proof.
  intros Hp [Hinv (g & Hg & Hs & Hk)]. split; [done|]. exists (((i, p), false) :: g). simpl in *.
  split; [by rewrite Hg|]. split; [constructor; [by split|done]|].
  intros k Ho. destruct (Hk k Ho) as (j & q & Hj & Hq). exists j, q. set_solver.
Qed.

(** What is owed is owed by a program that works and has not ended. *)
Lemma owed_unfinished st k : pool_ok st → owed k (pool_state st) →
  ∃ i p, key_of i = k ∧ works i = true ∧ (i, p) ∈ pool_tasks st ∧ unfinished p.
Proof.
  intros [_ (l & -> & Hs & Hk)] Ho. destruct (Hk k Ho) as (i & p & Hi & Hp).
  destruct (proj1 (Forall_forall _ _) Hs _ Hp) as [Hsound Hw]. exists i, p. split; [done|].
  split; [by apply Hw|]. split; [apply list_elem_of_fmap; by exists ((i, p), true)|].
  by destruct p; [discriminate Hsound|].
Qed.
End Guarantee.

(** *** Owing less *)

(** A program that is sound is so if less is owed, for some keys nothing. *)
Lemma sound_restrict (owed owed' : string → S → Prop) (P : string → Prop) i b p :
  (∀ k s, owed' k s ↔ P k ∧ owed k s) → sound owed i b p → sound owed' i b p.
Proof.
  intros HP. apply holds_guarantee. intros b1 b2 s s' (Hs & Hother & Howe & Hnew). split; [done|]. split_and!; [| |done].
  - intros k Hne [Hk Ho]%HP. apply HP. split; [done|by apply Hother].
  - intros [Hk Ho]%HP. destruct (Howe Ho) as [?|[? ?]]; [by left|right]. split; [done|by apply HP].
Qed.

(** For a key that nobody has to owe for, keeping the guarantee is enough. *)
Lemma keeps_sound (owed owed' : string → S → Prop) (P : string → Prop) i b p :
  (∀ k s, owed' k s ↔ P k ∧ owed k s) → ¬ P (key_of i) → keeps owed i b p → sound owed' i false p.
Proof.
  intros HP Hi. revert b. induction p as [o|next IH change]; intros b Hp; [done|].
  intros s Hs. destruct (Hp s Hs) as (b' & (Hs' & Hother & _) & Hn). exists false. split; [|by apply (IH _ b')].
  split; [done|]. split_and!; [|by intros [? _]%HP|done]. intros k Hne [Hk Ho]%HP. apply HP. split; [done|by apply Hother].
Qed.

(** *** Programs that are stopped *)

Section Crashes.
Context (owed : string → S → Prop) (starts : L → proc S unit → bool → Prop).

(** A step of a program; the start of one of the programs [starts], which does all of its
    work or not; or a program that is stopped wherever it is.  What that may lose is kept. *)
Inductive crash_step : Pool L S * list (cause * string) → Pool L S * list (cause * string) → Prop :=
| crash_act st st' lost : pool_act st st' → crash_step (st, lost) (st', lost)
| crash_start s l i p served lost : starts i p served →
    crash_step (mk_pool s l, lost)
               (mk_pool s ((i, p) :: l), if served then lost else (Unserved, key_of i) :: lost)
| crash_stop s l1 i p l2 lost :
    crash_step (mk_pool s (l1 ++ (i, p) :: l2), lost)
               (mk_pool s (l1 ++ l2), if works i then (Stopped, key_of i) :: lost else lost).

Lemma acts_are_steps st st' lost : reachable pool_act st st' → reachable crash_step (st, lost) (st', lost).
Proof. induction 1; [apply reach_init|]. eapply reach_step; [done|by apply crash_act]. Qed.

(** Nobody has to owe for what was lost. *)
Definition owed_except (lost : list (cause * string)) (k : string) (s : S) : Prop := k ∉ lost.*2 ∧ owed k s.
Definition crash_ok (c : Pool L S * list (cause * string)) : Prop := pool_ok (owed_except c.2) c.1.

Lemma owed_except_cons c k lost k' s :
  owed_except ((c, k) :: lost) k' s ↔ k' ≠ k ∧ owed_except lost k' s.
Proof. unfold owed_except. simpl. rewrite not_elem_of_cons. by rewrite assoc by apply _. Qed.

(** Without the tasks that are dropped, or with more lost. *)
Lemma task_ok_lost c k lost t : task_ok (owed_except lost) t → task_ok (owed_except ((c, k) :: lost)) t.
Proof. intros [Hs Hw]. split; [|done]. revert Hs. apply sound_restrict with (P := λ k', k' ≠ k), owed_except_cons. Qed.
Lemma crash_ok_lost c k st lost : crash_ok (st, lost) → crash_ok (st, (c, k) :: lost).
Proof.
  intros [Hinv (l & Hl & Hs & Hk)]. split; [done|]. exists l. split; [done|]. split.
  - eapply Forall_impl; [exact Hs|]. intros t. apply task_ok_lost.
  - intros k' [_ Ho]%owed_except_cons. by apply Hk.
Qed.

Context (starts_sound : ∀ i p served, starts i p served →
  if served then sound owed i false p else keeps owed i false p).

Lemma crash_step_ok c c' : crash_ok c → crash_step c c' → crash_ok c'.
Proof using starts_sound.
  intros Hok Hstep. destruct Hstep as [st st' lost Hact|s l i p served lost Hp|s l1 i p l2 lost].
  - exact (pool_act_ok _ _ _ Hok Hact).
  - apply starts_sound in Hp. destruct served.
    + apply pool_ok_start; [|exact Hok]. revert Hp. by apply sound_restrict with (P := λ k, k ∉ lost.*2).
    + apply pool_ok_start; [|exact (crash_ok_lost Unserved (key_of i) _ _ Hok)].
      revert Hp. apply keeps_sound with (P := λ k, k ∉ ((Unserved, key_of i) :: lost).*2); [done|].
      simpl. rewrite not_elem_of_cons. by intros [? _].
  - apply pool_ok_split in Hok as [Hinv (g1 & b & g2 & -> & -> & Hs1 & Hs2 & [_ Hw] & Hk)]. simpl in *.
    assert (∀ t, t ∈ g1 ++ g2 → task_ok (owed_except lost) t) as Hs.
    { intros t [?|?]%elem_of_app; [by eapply (proj1 (Forall_forall _ _) Hs1)|by eapply (proj1 (Forall_forall _ _) Hs2)]. }
    split; [done|]. exists (g1 ++ g2). split; [by rewrite fmap_app|]. simpl. destruct (works i).
    + split; [apply Forall_forall; intros t Ht; by apply task_ok_lost, Hs|].
      intros k [Hne Ho]%owed_except_cons. destruct (Hk k Ho) as [?|[? _]]; [done|congruence].
    + split; [by apply Forall_forall|]. intros k Ho. destruct (Hk k Ho) as [?|[_ Hb]]; [done|by apply Hw in Hb].
Qed.
Lemma crash_reachable_ok s c : inv s → (∀ k, ¬ owed k s) → reachable crash_step (mk_pool s [], []) c → crash_ok c.
Proof using starts_sound.
  intros Hs Hn. apply (reachable_invariant _ crash_ok), crash_step_ok.
  apply pool_ok_none; [done|]. intros k [_ Hk]. by destruct (Hn k).
Qed.

(** What is owed is owed by a program that works and has not ended, or it was lost. *)
Lemma crash_owed c k : crash_ok c → owed k (pool_state c.1) →
  (∃ why, (why, k) ∈ c.2) ∨ ∃ i p, key_of i = k ∧ works i = true ∧ (i, p) ∈ pool_tasks c.1 ∧ unfinished p.
Proof.
  intros Hok Ho. destruct (decide (k ∈ c.2.*2)) as [Hk|Hk].
  - left. apply list_elem_of_fmap in Hk as ([why k'] & -> & Hk). by exists why.
  - right. exact (owed_unfinished _ _ _ Hok (conj Hk Ho)).
Qed.
End Crashes.
End Owed.
End Pools.
