(* ===== verification/JsonAccess.v ===== *)
(** * Reading JSON values

    How the code takes a decoded value apart: [v["k"]], [v.get("k", d)],
    [int(v)], [bool(v)], and the iteration of a list of strings.  Python does not
    check that what it reads as a string is one; where the model needs a string
    it takes only a string, and any other value raises [TypeError]. *)

From S2P Require Import Prelude PyDict PyStr Json Errors.

(** [v[k]] *)
Definition jindex (v : json) (k : string) : res json :=
  match v with
  | JObj o => match dget o k with Some x => Ok x | None => Raise (KeyError k) end
  | _ => Raise (TypeError "object is not subscriptable by a string")
  end.

(** [v.get(k, d)] *)
Definition jget (v : json) (k : string) (d : json) : res json :=
  match v with
  | JObj o => Ok (default d (dget o k))
  | _ => Raise (OtherError "object has no attribute 'get'")
  end.

Definition jstr (v : json) : res string :=
  match v with JStr s => Ok s | _ => Raise (TypeError "a string is required") end.

(** An object where a dictionary is read. *)
Definition jobject (v : json) : res json_object :=
  match v with JObj o => Ok o | _ => Raise (TypeError "an object is required") end.

(** [int(v)] of a number that is integral, a Boolean or a decimal string. *)
Definition jint (v : json) : res Z :=
  match v with
  | JInt n => Ok n
  | JBool b => Ok (if b then 1 else 0)
  | JStr s => py_int s
  | _ => Raise (TypeError "int() argument must be a string or a number")
  end.

Fixpoint jstrings (l : list json) : res (list string) :=
  match l with
  | [] => Ok []
  | v :: l => result_bind (jstr v) (λ s, result_map (cons s) (jstrings l))
  end.
(** [tuple(v)] of a list of strings. *)
Definition jstring_list (v : json) : res (list string) :=
  match v with JList l => jstrings l | _ => Raise (TypeError "object is not iterable") end.

Lemma jstrings_map l : jstrings (JStr <$> l) = Ok l.
Proof. induction l as [|s l IH]; [done|]. rewrite fmap_cons; cbn [jstrings jstr result_bind]. by rewrite IH. Qed.

(** The comparisons of literal keys that a look-up leaves behind. *)
Ltac literal_keys :=
  repeat match goal with
  | |- context [decide (?a = ?b)] =>
      first [rewrite (decide_True (P := a = b)) by reflexivity
            |rewrite (decide_False (P := a = b)) by discriminate]
  end.
