(* ===== verification/Configuration.v ===== *)
(** * Configuration

    [configuration/precedence.py] ([merge_object] and [merge_config_precedence])
    and [configuration/interpolation.py] (environment interpolation with the
    regular expression [_EXPRESSION] as a matcher, and secret redaction). *)

From S2P Require Import Prelude PyDict PyStr Json Errors.
From Stdlib Require Import Ascii.

(** ** Layered configuration *)
Module Precedence.

(** One assignment of [_merge_object]: [target[key]] after merging [v]. *)
Fixpoint merge_value (t : option json) (v : json) {struct v} : json :=
  match v, t with
  | JObj src, Some (JObj tgt) =>
      JObj ((fix go (acc : json_object) (src : list (string * json)) :=
               match src with
               | [] => acc
               | (k, x) :: src => go (dset acc k (merge_value (dget acc k) x)) src
               end) tgt src)
  | _, _ => v
  end.

(** [_merge_object(target, source)]: the target afterwards. *)
Definition merge_object (target source : json_object) : json_object :=
  foldl (λ acc kv, dset acc kv.1 (merge_value (dget acc kv.1) kv.2)) target source.

(** [merge_config_precedence( *layers)] *)
Definition merge_config_precedence (layers : list json_object) : json_object :=
  foldl merge_object [] layers.

Lemma merge_value_object tgt src :
  merge_value (Some (JObj tgt)) (JObj src) = JObj (merge_object tgt src).
Proof.
  simpl. f_equal. unfold merge_object.
  revert tgt. induction src as [|[k x] src IH]; intros tgt; simpl; [done|]. by rewrite IH.
Qed.

Lemma merge_value_other t v : is_dict v = false → merge_value t v = v.
Proof. by destruct v, t as [[]|]. Qed.

Lemma merge_value_none v : merge_value None v = v.
Proof. by destruct v. Qed.

Lemma dget_merge_object t s k :
  dict_wf s →
  dget (merge_object t s) k =
    match dget s k with Some v => Some (merge_value (dget t k) v) | None => dget t k end.
Proof.
  unfold merge_object, dict_wf. revert t.
  induction s as [|[k0 v0] s IH]; intros t; simpl; [done|].
  rewrite NoDup_cons. intros [Hn Hnd]. rewrite IH by done.
  destruct (decide (k = k0)) as [->|].
  - assert (dget s k0 = None) as -> by by apply dget_None.
    apply dget_dset_eq.
  - destruct (dget s k); by rewrite dget_dset_ne.
Qed.

(** A path whose value the higher layer [s] leaves alone: [s] has no value at
    any non-empty prefix that is not itself an object. *)
Fixpoint untouched (s : json) (p : list string) : Prop :=
  match p with
  | [] => False
  | k :: p => match s with
              | JObj o => match dget o k with
                          | None => True
                          | Some v => is_dict v = true ∧ untouched v p
                          end
              | _ => False
              end
  end.

Lemma merge_value_leaf t v p leaf :
  json_wf v → lookup_path v p = Some leaf → is_dict leaf = false →
  lookup_path (merge_value t v) p = Some leaf.
Proof.
  revert t v. induction p as [|k p IH]; intros t v Hwf Hp Hleaf; simpl in *.
  - simplify_eq. by rewrite merge_value_other.
  - destruct v as [| | | | | |o]; try done.
    destruct (dget o k) as [w|] eqn:Hk; [|done].
    assert (json_wf w) by by eapply object_wf_get.
    destruct t as [[| | | | | |to]|]; try by (simpl; rewrite Hk).
    rewrite merge_value_object, dget_merge_object by by apply object_wf_keys.
    rewrite Hk. by apply IH.
Qed.

Lemma untouched_lookup v p : untouched v p → lookup_path v p = None.
Proof.
  revert v. induction p as [|k p IH]; intros v; simpl; [done|].
  destruct v; try done. destruct (dget o k) as [w|]; [|done]. intros [? ?]. by apply IH.
Qed.

Lemma merge_value_untouched t v p :
  json_wf v → is_dict t = true → is_dict v = true → untouched v p →
  lookup_path (merge_value (Some t) v) p = lookup_path t p.
Proof.
  revert t v. induction p as [|k p IH]; intros t v Hwf Ht Hv Hu; simpl in *; [done|].
  destruct v as [| | | | | |o]; try done. destruct t as [| | | | | |to]; try done.
  rewrite merge_value_object, dget_merge_object by by apply object_wf_keys.
  destruct (dget o k) as [w|] eqn:Hk; [|done]. destruct Hu as [Hw Hu].
  assert (json_wf w) by by eapply object_wf_get.
  assert (p ≠ []) by by destruct p.
  destruct (dget to k) as [x|] eqn:Hx.
  - destruct (is_dict x) eqn:Hd; [by apply IH|].
    transitivity (@None json).
    + destruct w, x; try done; by apply untouched_lookup.
    + by destruct p, x.
  - rewrite merge_value_none. by apply untouched_lookup.
Qed.

Lemma merge_object_wf t s :
  object_wf t → object_wf s → object_wf (merge_object t s).
Proof.
  enough (∀ v t, json_wf v → (∀ x, t = Some x → json_wf x) → json_wf (merge_value t v)) as H.
  { intros Ht Hs. unfold object_wf. rewrite <- merge_value_object.
    apply H; [done|]. by intros x [= <-]. }
  clear t s. intros v. induction v using json_ind'; intros t Hv Ht; try done.
  destruct t as [[| | | | | |to]|]; try done.
  rewrite merge_value_object. inv Hv. unfold merge_object.
  assert (object_wf to) as Hto by by apply Ht. clear Ht H1.
  revert to Hto. induction o as [|[k x] o IHo]; intros to Hto; simpl; [done|].
  inv H. inv H2. apply IHo; try done.
  apply object_wf_dset; [done|]. apply H3; [done|].
  intros y Hy. by eapply object_wf_get.
Qed.

(** Precedence of configuration layers.  A value (not an object) that the
    highest layer sets at a path is the merged value there, whatever the lower
    layers hold; and where the highest layer leaves a path alone, the merged
    value is that of the lower layers. *)
Lemma highest_layer_wins (lower : list json_object) (top : json_object)
  (Htop : object_wf top) p :
  (∀ leaf, lookup_path (JObj top) p = Some leaf → is_dict leaf = false →
     lookup_path (JObj (merge_config_precedence (lower ++ [top]))) p = Some leaf) ∧
  (untouched (JObj top) p →
     lookup_path (JObj (merge_config_precedence (lower ++ [top]))) p =
     lookup_path (JObj (merge_config_precedence lower)) p).
Proof.
  unfold merge_config_precedence. rewrite foldl_app. simpl.
  rewrite <- merge_value_object. split.
  - intros leaf Hp Hleaf. by apply merge_value_leaf.
  - intros Hu. by apply merge_value_untouched.
Qed.

Definition example_base : json_object :=
  [("worker", JObj [("max", JInt 4); ("region", JStr "eu")]); ("debug", JBool false)].
Definition example_top : json_object := [("worker", JObj [("max", JInt 9)])].

Lemma highest_layer_wins_witness :
  lookup_path (JObj (merge_config_precedence [example_base; example_top])) ["worker"; "max"]
    = Some (JInt 9) ∧
  lookup_path (JObj (merge_config_precedence [example_base; example_top])) ["worker"; "region"]
    = Some (JStr "eu").
Proof.
  assert (object_wf example_top) as Hwf.
  { repeat (constructor; simpl; try set_solver). }
  split.
  - refine (proj1 (highest_layer_wins [example_base] example_top Hwf _) _ _ _); reflexivity.
  - etransitivity.
    + refine (proj2 (highest_layer_wins [example_base] example_top Hwf _) _). done.
    + reflexivity.
Defined.
End Precedence.

(** ** Environment interpolation *)
Module Interpolation.

(** The character classes of [_EXPRESSION]. *)
Definition in_range (lo hi : nat) (a : ascii) : bool :=
  (lo <=? nat_of_ascii a)%nat && (nat_of_ascii a <=? hi)%nat.
Definition is_letter (a : ascii) : bool := in_range 65 90 a || in_range 97 122 a.
Definition is_digit (a : ascii) : bool := in_range 48 57 a.
Definition name_start (a : ascii) : bool := is_letter a || bool_decide (a = "_"%char).
Definition name_char (a : ascii) : bool := name_start a || is_digit a.

(** The longest prefix of characters satisfying [p], and the rest. *)
Fixpoint span (p : ascii → bool) (s : string) : string * string :=
  match s with
  | EmptyString => (EmptyString, EmptyString)
  | String a s' =>
      if p a then let '(x, r) := span p s' in (String a x, r) else (EmptyString, s)
  end.

(** [(.* )\}] with the greedy star: the text before the last [}] of the
    current line ([.] does not match a newline) and what follows it. *)
Fixpoint greedy_to_brace (s : string) : option (string * string) :=
  match s with
  | EmptyString => None
  | String a s' =>
      if decide (a = "010"%char) then None
      else match greedy_to_brace s' with
           | Some (x, r) => Some (String a x, r)
           | None => if decide (a = "}"%char) then Some (EmptyString, s') else None
           end
  end.

(** The groups of one match: [name], [operator] and [argument]. *)
Record expression : Type := mk_expression {
  expr_name : string;
  expr_op : option ascii;
  expr_arg : string;
}.

(** The pattern behind the name: [(?::([-?])(.* ))?\}]. *)
Definition match_tail (name r : string) : option (expression * string) :=
  match r with
  | String c r' =>
      if decide (c = "}"%char) then Some (mk_expression name None "", r')
      else if decide (c = ":"%char) then
        match r' with
        | String o r'' =>
            if decide (o = "-"%char ∨ o = "?"%char) then
              match greedy_to_brace r'' with
              | Some (arg, rest) => Some (mk_expression name (Some o) arg, rest)
              | None => None
              end
            else None
        | EmptyString => None
        end
      else None
  | EmptyString => None
  end.

(** [_EXPRESSION.match] at the head of [s]: the groups and the text after. *)
Definition match_expression (s : string) : option (expression * string) :=
  match s with
  | String d (String b s) =>
      if decide (d = "$"%char ∧ b = "{"%char) then
        match s with
        | String a _ =>
            if name_start a then let '(name, r) := span name_char s in match_tail name r
            else None
        | EmptyString => None
        end
      else None
  | _ => None
  end.

Section WithEnvironment.
Context (variables : dict string).

(** The inner [replace(match)]. *)
Definition replace (e : expression) : res string :=
  let required := "environment variable " +:+ expr_name e +:+ " is required" in
  match dget variables (expr_name e) with
  | Some v =>
      if str_truthy v then Ok v
      else match expr_op e with
           | Some o =>
               if decide (o = "-"%char) then Ok (expr_arg e)
               else Raise (ValueError (if str_truthy (expr_arg e) then expr_arg e else required))
           | None => Ok v
           end
  | None =>
      match expr_op e with
      | Some o =>
          if decide (o = "-"%char) then Ok (expr_arg e)
          else Raise (ValueError (if str_truthy (expr_arg e) then expr_arg e else required))
      | None => Raise (ValueError required)
      end
  end.

(** [_EXPRESSION.sub(replace, value)]: leftmost, non-overlapping matches.
    Each round consumes at least one character of [s]. *)
Fixpoint substitute (fuel : nat) (s : string) : res string :=
  match fuel with
  | O => Ok s
  | S fuel =>
      match s with
      | EmptyString => Ok EmptyString
      | String a s' =>
          match match_expression s with
          | Some (e, rest) =>
              match replace e with
              | Ok v => result_map (λ t, v +:+ t) (substitute fuel rest)
              | Raise x => Raise x
              end
          | None => result_map (String a) (substitute fuel s')
          end
      end
  end.

(** The string case of [interpolate_environment]. *)
Definition interpolate_string (s : string) : res string :=
  match substitute (String.length s) s with
  | Ok r => if contains "${" r
            then Raise (ValueError "unsupported environment interpolation expression")
            else Ok r
  | Raise x => Raise x
  end.

(** [interpolate_environment(value)] *)
Fixpoint interpolate_environment (v : json) : res json :=
  match v with
  | JObj o =>
      result_map JObj
        ((fix go (o : list (string * json)) : res (list (string * json)) :=
            match o with
            | [] => Ok []
            | (k, x) :: o =>
                result_bind (interpolate_environment x)
                  (λ y, result_map (cons (k, y)) (go o))
            end) o)
  | JList l =>
      result_map JList
        ((fix go (l : list json) : res (list json) :=
            match l with
            | [] => Ok []
            | x :: l =>
                result_bind (interpolate_environment x) (λ y, result_map (cons y) (go l))
            end) l)
  | JStr s => result_map JStr (interpolate_string s)
  | _ => Ok v
  end.
End WithEnvironment.

Definition valid_name (name : string) : bool :=
  match name with
  | EmptyString => false
  | String a _ => name_start a && string_forall name_char name
  end.
Definition no_dollar (s : string) : bool :=
  string_forall (λ a, negb (bool_decide (a = "$"%char))) s.
Definition no_newline (s : string) : bool :=
  string_forall (λ a, negb (bool_decide (a = "010"%char))) s.

Lemma span_app p x c r :
  string_forall p x = true → p c = false →
  span p (x +:+ String c r) = (x, String c r).
Proof.
  intros Hx Hc. induction x as [|a x IH].
  - change ("" +:+ String c r) with (String c r). simpl. by rewrite Hc.
  - rewrite app_string_cons. simpl in *. to_prop. by rewrite H, IH.
Qed.

Lemma greedy_to_brace_app x y :
  no_newline x = true → greedy_to_brace y = None →
  greedy_to_brace (x +:+ String "}" y) = Some (x, y).
Proof.
  unfold no_newline. intros Hx Hy. induction x as [|a x IH].
  - change ("" +:+ String "}" y) with (String "}" y). simpl. by rewrite Hy.
  - rewrite app_string_cons. simpl in *. to_prop.
    rewrite decide_False by done. by rewrite IH.
Qed.

Lemma span_length p s x r : span p s = (x, r) → (String.length r ≤ String.length s)%nat.
Proof.
  revert x r. induction s as [|a s IH]; simpl; intros x r Hs; [by simplify_eq|].
  destruct (p a); [|simplify_eq; simpl; lia].
  destruct (span p s) eqn:He. simplify_eq. specialize (IH _ _ eq_refl). lia.
Qed.

Lemma greedy_to_brace_length s x r :
  greedy_to_brace s = Some (x, r) → (String.length r < String.length s)%nat.
Proof.
  revert x r. induction s as [|a s IH]; simpl; intros x r Hs; [done|].
  destruct (decide (a = _)); [done|].
  destruct (greedy_to_brace s) as [[x' r']|].
  - simplify_eq. specialize (IH _ _ eq_refl). lia.
  - destruct (decide (a = _)); simplify_eq; lia.
Qed.

Lemma match_expression_length s e rest :
  match_expression s = Some (e, rest) → (String.length rest < String.length s)%nat.
Proof.
  unfold match_expression. intros H.
  destruct s as [|d [|b [|a s]]]; try done; try by destruct (decide _).
  destruct (decide _); [|done]. destruct (name_start a); [|done].
  destruct (span name_char (String a s)) as [name [|c r]] eqn:Hsp; [done|].
  apply span_length in Hsp. simpl in Hsp, H.
  destruct (decide _); [simplify_eq; simpl; lia|].
  destruct (decide _); [|done]. destruct r as [|o r]; [done|].
  destruct (decide _); [|done].
  destruct (greedy_to_brace r) as [[arg rest']|] eqn:Hg; [|done]. simplify_eq.
  apply greedy_to_brace_length in Hg. simpl in *. lia.
Qed.

(** The fuel is enough: a run of at least [length s] rounds does not depend
    on how many it was allowed. *)
Lemma substitute_fuel vars s fuel :
  (String.length s ≤ fuel)%nat →
  substitute vars fuel s = substitute vars (String.length s) s.
Proof.
  enough (∀ n m s, (String.length s ≤ n)%nat → (String.length s ≤ m)%nat →
    substitute vars n s = substitute vars m s) as H by (intros; by apply H).
  clear s fuel. intros n. induction n as [|n IH]; intros [|m] s Hn Hm.
  - done.
  - destruct s; [done|simpl in Hn; lia].
  - destruct s; [done|simpl in Hm; lia].
  - destruct s as [|a s]; [done|]. cbn [substitute].
    destruct (match_expression (String a s)) as [[e rest]|] eqn:He.
    + apply match_expression_length in He. simpl in *.
      destruct (replace vars e); [|done]. by rewrite (IH m) by lia.
    + simpl in *. by rewrite (IH m) by lia.
Qed.

Lemma substitute_skip vars x s :
  no_dollar x = true →
  substitute vars (String.length (x +:+ s)) (x +:+ s) =
  result_map (λ t, x +:+ t) (substitute vars (String.length s) s).
Proof.
  unfold no_dollar. induction x as [|a x IH]; intros Hx; cbn [string_forall] in Hx.
  - change ("" +:+ s) with s. by destruct (substitute _ _ s).
  - to_prop. rewrite !app_string_cons. cbn [String.length substitute].
    assert (match_expression (String a (x +:+ s)) = None) as ->.
    { unfold match_expression. destruct (x +:+ s); [done|].
      rewrite decide_False; [done|]. by intros [-> _]. }
    rewrite IH by done. by destruct (substitute _ _ s).
Qed.

(** The text of an expression, and the groups it must produce. *)
Definition render (e : expression) : string :=
  match expr_op e with
  | None => "${" +:+ expr_name e +:+ "}"
  | Some o => "${" +:+ expr_name e +:+ String ":" (String o (expr_arg e +:+ "}"))
  end.
Definition valid_expression (e : expression) : Prop :=
  valid_name (expr_name e) = true ∧
  match expr_op e with
  | None => expr_arg e = ""
  | Some o => (o = "-"%char ∨ o = "?"%char) ∧ no_newline (expr_arg e) = true
  end.

Lemma match_expression_name name c r :
  valid_name name = true → name_char c = false →
  match_expression ("${" +:+ name +:+ String c r) = match_tail name (String c r).
Proof.
  destruct name as [|a n]; [done|]. cbn [valid_name]. intros Hn Hc.
  apply andb_true_iff in Hn as [Ha Hn].
  pose proof (span_app name_char (String a n) c r Hn Hc) as Hs.
  rewrite !app_string_cons, ?app_string_nil in *. unfold match_expression.
  cbn beta iota. rewrite decide_True by done. by rewrite Ha, Hs.
Qed.

Lemma match_render e y :
  valid_expression e → (expr_op e ≠ None → greedy_to_brace y = None) →
  match_expression (render e +:+ y) = Some (e, y).
Proof.
  destruct e as [name [o|] arg]; unfold valid_expression, render;
    cbn [expr_name expr_op expr_arg];
    intros [Hn Hop] Hy; rewrite !app_string_assoc.
  - destruct Hop as [Ho Harg].
    rewrite (app_string_cons ":"), (app_string_cons o), match_expression_name by done.
    unfold match_tail. cbn beta iota.
    rewrite decide_False, decide_True, decide_True by done.
    rewrite app_string_assoc. change ("}" +:+ y) with (String "}" y).
    by rewrite greedy_to_brace_app by auto.
  - subst arg. change ("}" +:+ y) with (String "}" y).
    rewrite match_expression_name by done. done.
Qed.

(** Interpolation of one expression in a text.  The text before the
    expression is copied, the expression is replaced by the variable's value
    or by its default, a missing required variable raises, and interpolation
    goes on behind it.  For the forms with an operator the condition on [y]
    says that no closing brace follows on the same line. *)
Lemma substitute_expression vars x e y :
  no_dollar x = true → valid_expression e →
  (expr_op e ≠ None → greedy_to_brace y = None) →
  let s := x +:+ render e +:+ y in
  substitute vars (String.length s) s =
    result_bind (replace vars e) (λ v,
      result_map (λ t, x +:+ v +:+ t) (substitute vars (String.length y) y)).
Proof.
  intros Hx He Hy s. unfold s. rewrite substitute_skip by done.
  assert (match_expression (render e +:+ y) = Some (e, y)) as Hm by by apply match_render.
  pose proof (match_expression_length _ _ _ Hm) as Hlen.
  destruct (render e +:+ y) as [|a r] eqn:Hr; [done|].
  cbn [String.length substitute]. rewrite Hm.
  destruct (replace vars e) as [v|]; [|done]. simpl in *.
  rewrite substitute_fuel by lia. by destruct (substitute vars _ y).
Qed.

Lemma substitute_expression_witness :
  interpolate_string [("HOST", "db")] "x=${HOST};" = Ok "x=db;" ∧
  interpolate_string [] "p=${PORT:-80}" = Ok "p=80".
Proof.
  split.
  - pose proof (substitute_expression [("HOST", "db")] "x=" (mk_expression "HOST" None "") ";")
      as H.
    unfold interpolate_string.
    change "x=${HOST};" with ("x=" +:+ render (mk_expression "HOST" None "") +:+ ";").
    rewrite H; [reflexivity|reflexivity|split; reflexivity|done].
  - reflexivity.
Defined.

(** Two expressions with defaults on one line are not both resolved.  The
    greedy [(.* )] of the pattern takes everything up to the last brace of the
    line as the default of the first expression: with the first variable set,
    the whole rest of the text is dropped, second expression included. *)
Lemma second_expression_swallowed vars n1 v d1 mid e2 :
  valid_name n1 = true → dget vars n1 = Some v → v ≠ "" →
  no_newline d1 = true → no_newline mid = true →
  no_newline (expr_name e2) = true → valid_expression e2 →
  let s := render (mk_expression n1 (Some "-"%char) d1) +:+ mid +:+ render e2 in
  substitute vars (String.length s) s = Ok v.
Proof.
  intros Hn1 Hv Hne Hd1 Hmid Hname He2 s.
  assert (∃ z, render e2 = z +:+ "}" ∧ no_newline z = true) as (z & Hz & Hzn).
  { destruct e2 as [n2 op2 a2]. unfold render, valid_expression in *; simpl in *.
    destruct He2 as [_ He2]. destruct op2 as [o|].
    - exists ("${" +:+ n2 +:+ String ":" (String o a2)). rewrite !app_string_assoc. split; [done|].
      unfold no_newline in *. rewrite !string_forall_app. simpl. destruct He2 as [Ho ->].
      rewrite Hname. by destruct Ho as [-> | ->].
    - exists ("${" +:+ n2). rewrite !app_string_assoc. split; [done|].
      unfold no_newline in *. by rewrite !string_forall_app, Hname. }
  set (e := mk_expression n1 (Some "-"%char) (d1 +:+ "}" +:+ mid +:+ z)).
  assert (s = "" +:+ render e +:+ "") as Heq.
  { unfold s. rewrite Hz, app_string_nil, app_string_nil_r. unfold e, render.
    cbn [expr_name expr_op expr_arg]. rewrite !app_string_assoc.
    repeat (rewrite !app_string_cons; rewrite !app_string_assoc). done. }
  rewrite Heq. rewrite substitute_expression; try done.
  - unfold replace, e; simpl. rewrite Hv. apply str_truthy_true in Hne. rewrite Hne. simpl.
    by rewrite app_string_nil_r.
  - split; [done|]. split; [by left|]. unfold e; simpl. unfold no_newline in *.
    rewrite !string_forall_app. by rewrite Hd1, Hmid, Hzn.
Qed.

Lemma second_expression_swallowed_witness :
  interpolate_string [("A", "1")] "${A:-p}-${B:-q}" = Ok "1".
Proof.
  pose proof (second_expression_swallowed [("A", "1")] "A" "1" "p" "-"
    (mk_expression "B" (Some "-"%char) "q")) as H.
  unfold interpolate_string.
  change "${A:-p}-${B:-q}" with
    (render (mk_expression "A" (Some "-"%char) "p") +:+ "-" +:+
     render (mk_expression "B" (Some "-"%char) "q")).
  rewrite H; [reflexivity| reflexivity|reflexivity|discriminate|reflexivity|reflexivity
    |reflexivity|split; [reflexivity|split; [by left|reflexivity]]].
Defined.
End Interpolation.

(** ** Secret redaction *)
Module Redaction.

(** [_SECRET_NAME.search(str(key))], with [re.IGNORECASE]. *)
Definition secret_name (key : string) : bool :=
  existsb (λ w, contains w (fold_case key)) ["key"; "token"; "secret"; "password"; "credential"].
Example secret_kelvin :
  secret_name (String "226" (String "132" (String "170" "EY"))) = true ∧
  secret_name ("pa" +:+ String "197" (String "191" (String "197" (String "191" "word")))) = true ∧
  secret_name "API_Key" = true ∧ secret_name (String "196" (String "177" "d")) = false.
Proof. by vm_compute. Qed.

(** [redact_secrets(value, replacement)] *)
Fixpoint redact_secrets (replacement : string) (v : json) : json :=
  match v with
  | JObj o =>
      JObj ((fix go (o : list (string * json)) :=
               match o with
               | [] => []
               | (k, x) :: o =>
                   (k, if secret_name k then JStr replacement
                       else redact_secrets replacement x) :: go o
               end) o)
  | JList l =>
      JList ((fix go (l : list json) :=
                match l with [] => [] | x :: l => redact_secrets replacement x :: go l end) l)
  | _ => v
  end.

Definition redact_item (r : string) (kv : string * json) : string * json :=
  (kv.1, if secret_name kv.1 then JStr r else redact_secrets r kv.2).

Lemma redact_object r o : redact_secrets r (JObj o) = JObj (redact_item r <$> o).
Proof. simpl. f_equal. induction o as [|[k x] o IH]; simpl; [done|]. by rewrite IH. Qed.
Lemma redact_list r l : redact_secrets r (JList l) = JList (redact_secrets r <$> l).
Proof. done. Qed.

(** Two configurations that differ at most below secret keys. *)
Inductive low_eq : json → json → Prop :=
| low_scalar v : (∀ o, v ≠ JObj o) → (∀ l, v ≠ JList l) → low_eq v v
| low_list l l' : Forall2 low_eq l l' → low_eq (JList l) (JList l')
| low_obj o o' :
    Forall2 (λ kv kv', kv.1 = kv'.1 ∧ (secret_name kv.1 = true ∨ low_eq kv.2 kv'.2)) o o' →
    low_eq (JObj o) (JObj o').

(** C30: redaction hides exactly the values below secret keys: two values have
    the same redaction if and only if they differ at most there. *)
Theorem redaction_noninterference r x y :
  redact_secrets r x = redact_secrets r y ↔ low_eq x y.
Proof.
  revert y. induction x using json_ind'; intros y;
    try (split; [by destruct y; intros H; inv H; constructor|by inversion 1]).
  - split.
    + destruct y as [| | | | |l'|]; try done. rewrite !redact_list. intros Heq. simplify_eq.
      constructor. revert l' Heq. induction H as [|a l Ha Hl IHl]; intros [|b l'] Heq;
        try done; simpl in *; simplify_eq; constructor; [by apply Ha|by apply IHl].
    + inversion 1 as [? ? Hbad|? l' Hl|]; subst; [by destruct (Hbad l)|].
      rewrite !redact_list. f_equal. clear H0. revert l' Hl.
      induction H as [|a l Ha _ IHl]; intros l' Hl; inv Hl; simpl; [done|].
      f_equal; [by apply Ha|by apply IHl].
  - split.
    + destruct y as [| | | | | |o']; try done. rewrite !redact_object. intros Heq.
      simplify_eq. constructor. revert o' Heq.
      induction H as [|[k a] o Ha Ho IHo]; intros [|[k' b] o'] Heq; try done.
      unfold redact_item in Heq; simpl in *; simplify_eq. constructor; [|by apply IHo].
      simpl. split; [done|]. destruct (secret_name k'); [by left|right]. by apply Ha.
    + inversion 1 as [? Hbad|?|? o' Ho]; subst; [by destruct (Hbad o)|].
      rewrite !redact_object. f_equal. clear H0. revert o' Ho.
      induction H as [|[k a] o Ha _ IHo]; intros o' Ho;
        inversion Ho as [|? [k' b] ? ? Hkb]; subst; simpl; [done|].
      f_equal; [|by apply IHo]. simpl in *.
      destruct Hkb as [-> Hs]. unfold redact_item; simpl.
      destruct (secret_name k'); [done|]. f_equal. destruct Hs as [?|Hs]; [done|]. by apply Ha.
Qed.
End Redaction.
