(* ===== verification/Identity.v ===== *)
(** * Identity

    [domain/identity]: typed identifiers ([identifiers.py]), the UUIDv7
    generator behind [TypedId.new], application scopes and the
    [ExecutionIdentity] constructor ([execution_identity.py]). *)

From S2P Require Import Prelude PyDict PyStr Json Errors.
From Stdlib Require Import Ascii.

(** ** UUIDv7 *)
Module Uuid7.

(** The integer of [_generate_uuid7] for the clock reading
    [millis = int(time.time() * 1000)] and the two random draws. *)
Definition generate_uuid7_value (millis random_a random_b : Z) : Z :=
  let timestamp_ms := Z.land millis (Z.shiftl 1 48 - 1) in
  Z.lor (Z.lor (Z.lor (Z.lor (Z.shiftl timestamp_ms 80) (Z.shiftl 7 76))
    (Z.shiftl random_a 64)) (Z.shiftl 2 62)) random_b.

Definition hex_digit (n : Z) : ascii :=
  ascii_of_nat (Z.to_nat (if n <? 10 then 48 + n else 87 + n)).

(** [n] lower-case hexadecimal digits of [v], most significant first. *)
Fixpoint hex_digits (n : nat) (v : Z) : string :=
  match n with
  | O => ""
  | S n => hex_digits n (Z.shiftr v 4) +:+ String (hex_digit (Z.land v 15)) ""
  end.

(** [str(UUID(int=value))] *)
Definition uuid_str (v : Z) : string :=
  hex_digits 8 (Z.shiftr v 96) +:+ "-" +:+ hex_digits 4 (Z.shiftr v 80) +:+ "-" +:+
  hex_digits 4 (Z.shiftr v 64) +:+ "-" +:+ hex_digits 4 (Z.shiftr v 48) +:+ "-" +:+
  hex_digits 12 v.

(** [_generate_uuid7()] *)
Definition generate_uuid7 (millis random_a random_b : Z) : string :=
  uuid_str (generate_uuid7_value millis random_a random_b).

Lemma lor_mul_add x y k : 0 ≤ k → 0 ≤ y < 2 ^ k → Z.lor (x * 2 ^ k) y = x * 2 ^ k + y.
Proof.
  intros Hk Hy. rewrite <- Z.add_lor_land.
  enough (Z.land (x * 2 ^ k) y = 0) as -> by lia.
  apply Z.bits_inj'. intros n Hn. rewrite Z.land_spec, Z.bits_0.
  rewrite <- Z.shiftl_mul_pow2 by done.
  destruct (decide (n < k)).
  - by rewrite Z.shiftl_spec_low.
  - rewrite <- (Z.mod_small y (2 ^ k)) by done.
    rewrite Z.mod_pow2_bits_high by lia. apply andb_false_r.
Qed.

Lemma div_eq x q r m : 0 ≤ r < m → x = q * m + r → x / m = q.
Proof. intros Hr ->. symmetry. apply (Z.div_unique_pos _ _ _ r); lia. Qed.
Lemma mod_eq x q r m : 0 ≤ r < m → x = q * m + r → x mod m = r.
Proof. intros Hr ->. symmetry. apply (Z.mod_unique_pos _ _ q r); lia. Qed.

(** The value is the sum of its fields at their offsets. *)
Lemma uuid7_sum millis a b :
  0 ≤ a < 2 ^ 12 → 0 ≤ b < 2 ^ 62 →
  generate_uuid7_value millis a b =
    (((millis mod 2 ^ 48) * 2 ^ 4 + 7) * 2 ^ 12 + a) * 2 ^ 64 + 2 * 2 ^ 62 + b.
Proof.
  intros Ha Hb. unfold generate_uuid7_value.
  replace (Z.shiftl 1 48 - 1) with (Z.ones 48) by done.
  rewrite Z.land_ones, !Z.shiftl_mul_pow2 by lia.
  set (t := millis mod 2 ^ 48).
  rewrite (lor_mul_add t (7 * 2 ^ 76) 80) by lia.
  replace (t * 2 ^ 80 + 7 * 2 ^ 76) with ((t * 2 ^ 4 + 7) * 2 ^ 76) by lia.
  rewrite lor_mul_add by lia.
  replace ((t * 2 ^ 4 + 7) * 2 ^ 76 + a * 2 ^ 64)
    with (((t * 2 ^ 4 + 7) * 2 ^ 12 + a) * 2 ^ 64) by lia.
  rewrite lor_mul_add by lia.
  replace (((t * 2 ^ 4 + 7) * 2 ^ 12 + a) * 2 ^ 64 + 2 * 2 ^ 62)
    with ((((t * 2 ^ 4 + 7) * 2 ^ 12 + a) * 2 ^ 2 + 2) * 2 ^ 62) by lia.
  rewrite lor_mul_add by lia. lia.
Qed.

(** C40: the layout of RFC 9562 version 7.  The value fits 128 bits, its top 48
    bits are the clock modulo 2^48, the version nibble is 7, the variant is
    binary 10, and the two random fields are recovered unchanged; so a later
    millisecond within the 48-bit range gives a larger identifier. *)
Theorem uuid7_layout millis a b :
  0 ≤ a < 2 ^ 12 → 0 ≤ b < 2 ^ 62 →
  let v := generate_uuid7_value millis a b in
  0 ≤ v < 2 ^ 128 ∧
  Z.shiftr v 80 = millis mod 2 ^ 48 ∧
  Z.land (Z.shiftr v 76) 15 = 7 ∧
  Z.land (Z.shiftr v 64) (2 ^ 12 - 1) = a ∧
  Z.land (Z.shiftr v 62) 3 = 2 ∧
  Z.land v (2 ^ 62 - 1) = b ∧
  (∀ millis' a' b', 0 ≤ a' < 2 ^ 12 → 0 ≤ b' < 2 ^ 62 →
     millis mod 2 ^ 48 < millis' mod 2 ^ 48 → v < generate_uuid7_value millis' a' b').
Proof.
  intros Ha Hb v. unfold v.
  replace (2 ^ 12 - 1) with (Z.ones 12) by done.
  replace (2 ^ 62 - 1) with (Z.ones 62) by done.
  change 15 with (Z.ones 4). change 3 with (Z.ones 2).
  rewrite !Z.land_ones, !Z.shiftr_div_pow2 by lia.
  rewrite uuid7_sum by done.
  pose proof (Z.mod_pos_bound millis (2 ^ 48) ltac:(lia)) as Ht.
  set (t := millis mod 2 ^ 48) in *. clearbody t.
  split; [lia|]. split_and!.
  - apply (div_eq _ _ (7 * 2 ^ 76 + a * 2 ^ 64 + 2 * 2 ^ 62 + b)); lia.
  - rewrite (div_eq _ (t * 2 ^ 4 + 7) (a * 2 ^ 64 + 2 * 2 ^ 62 + b)) by lia.
    apply (mod_eq _ t); lia.
  - rewrite (div_eq _ ((t * 2 ^ 4 + 7) * 2 ^ 12 + a) (2 * 2 ^ 62 + b)) by lia.
    apply (mod_eq _ (t * 2 ^ 4 + 7)); lia.
  - rewrite (div_eq _ (((t * 2 ^ 4 + 7) * 2 ^ 12 + a) * 2 ^ 2 + 2) b) by lia.
    apply (mod_eq _ ((t * 2 ^ 4 + 7) * 2 ^ 12 + a)); lia.
  - apply (mod_eq _ (((t * 2 ^ 4 + 7) * 2 ^ 12 + a) * 2 ^ 2 + 2)); lia.
  - intros m' a' b' Ha' Hb' Hlt. rewrite uuid7_sum by done.
  set (t' := m' mod 2 ^ 48) in *. clearbody t'. lia.
Qed.

Lemma uuid7_layout_witness :
  Z.shiftr (generate_uuid7_value 1700000000000 5 9) 80 = 1700000000000 ∧
  Z.land (Z.shiftr (generate_uuid7_value 1700000000000 5 9) 76) 15 = 7.
Proof.
  pose proof (uuid7_layout 1700000000000 5 9 ltac:(lia) ltac:(lia)) as (_ & H1 & H2 & _).
  split; [exact H1|exact H2].
Defined.

Lemma length_app_string (s t : string) :
  String.length (s +:+ t) = (String.length s + String.length t)%nat.
Proof. induction s as [|a s IH]; [done|]. rewrite app_string_cons. simpl. by rewrite IH. Qed.

Lemma hex_digits_length n v : String.length (hex_digits n v) = n.
Proof.
  revert v. induction n as [|n IH]; intros v; [done|]. cbn [hex_digits].
  rewrite length_app_string, IH. simpl. lia.
Qed.

Lemma generate_uuid7_length millis a b : String.length (generate_uuid7 millis a b) = 36%nat.
Proof. unfold generate_uuid7, uuid_str. by rewrite !length_app_string, !hex_digits_length. Qed.
End Uuid7.

(** ** Typed identifiers *)

(** The subclasses of [TypedId]. *)
Inductive id_kind : Type :=
| Workspace | Project | Application | Revision | Deployment | AssistantKind | ThreadKind
| RunKind | Attempt | EventKind | WorkerKind | CommandKind | LeaseKind | ConfigRevisionKind.

#[export] Instance id_kind_eq_dec : EqDecision id_kind.
Proof. solve_decision. Defined.

(** [TypedId] at one subclass: the frozen dataclass and its [value]. *)
Record TypedId (k : id_kind) : Type := mk_id { id_value : string }.
Arguments mk_id {k} id_value.
Arguments id_value {k} t.

#[export] Instance TypedId_eq_dec k : EqDecision (TypedId k).
Proof. solve_decision. Defined.

Abbreviation WorkspaceId := (TypedId Workspace).
Abbreviation ProjectId := (TypedId Project).
Abbreviation ApplicationId := (TypedId Application).
Abbreviation RevisionId := (TypedId Revision).
Abbreviation DeploymentId := (TypedId Deployment).
Abbreviation AssistantId := (TypedId AssistantKind).
Abbreviation ThreadId := (TypedId ThreadKind).
Abbreviation RunId := (TypedId RunKind).
Abbreviation AttemptId := (TypedId Attempt).
Abbreviation EventId := (TypedId EventKind).
Abbreviation WorkerId := (TypedId WorkerKind).
Abbreviation CommandId := (TypedId CommandKind).
Abbreviation LeaseId := (TypedId LeaseKind).
Abbreviation ConfigRevisionId := (TypedId ConfigRevisionKind).

(** [TypedId.parse] with the check of [__post_init__]. *)
Definition parse_id {k} (value : string) : res (TypedId k) :=
  if str_truthy value then Ok (mk_id value)
  else Raise (ValueError "identifier must not be empty").

(** [TypedId.new()] for one run of the generator. *)
Definition new_id {k} (millis random_a random_b : Z) : res (TypedId k) :=
  parse_id (Uuid7.generate_uuid7 millis random_a random_b).

(** What an identifier is compared with: another identifier or a string. *)
Inductive py_operand : Type :=
| OpId {k} (i : TypedId k)
| OpStr (s : string).

(** [TypedId.__eq__], and [==] between strings. *)
Definition operand_eq (x y : py_operand) : bool :=
  match x, y with
  | @OpId k i, @OpId k' j => bool_decide (k = k') && bool_decide (id_value i = id_value j)
  | OpId i, OpStr s | OpStr s, OpId i => bool_decide (id_value i = s)
  | OpStr s, OpStr t => bool_decide (s = t)
  end.

Lemma parse_id_ok {k} s : s ≠ "" → parse_id (k:=k) s = Ok (mk_id s).
Proof. intros H. unfold parse_id. by rewrite (proj2 (str_truthy_true s) H). Qed.

Lemma parse_id_value {k} (i : TypedId k) : id_value i ≠ "" → parse_id (id_value i) = Ok i.
Proof. intros H. rewrite parse_id_ok by done. by destruct i. Qed.

Lemma parse_id_inv {k} s (i : TypedId k) : parse_id s = Ok i → id_value i = s ∧ s ≠ "".
Proof.
  unfold parse_id. destruct (str_truthy s) eqn:H; intros Hp; simplify_eq; simpl.
  split; [done|]. by apply str_truthy_true.
Qed.

Lemma new_id_ok {k} millis a b :
  new_id (k:=k) millis a b = Ok (mk_id (Uuid7.generate_uuid7 millis a b)).
Proof.
  apply parse_id_ok. intros H. pose proof (Uuid7.generate_uuid7_length millis a b) as Hl.
  by rewrite H in Hl.
Qed.

(** Equality of identifiers is not transitive.  Two identifiers of different
    subclasses with the same text are different from each other and each equal
    to that text. *)
Lemma typed_id_equality_not_transitive (k k' : id_kind) (s : string) :
  k ≠ k' →
  operand_eq (OpId (k:=k) (mk_id s)) (OpStr s) = true ∧
  operand_eq (OpStr s) (OpId (k:=k') (mk_id s)) = true ∧
  operand_eq (OpId (k:=k) (mk_id s)) (OpId (k:=k') (mk_id s)) = false.
Proof.
  intros Hne. simpl. rewrite !bool_decide_eq_true_2, bool_decide_eq_false_2 by done. done.
Qed.

Lemma typed_id_equality_not_transitive_witness :
  operand_eq (OpId (k:=RunKind) (mk_id "x")) (OpStr "x") = true ∧
  operand_eq (OpStr "x") (OpId (k:=ThreadKind) (mk_id "x")) = true ∧
  operand_eq (OpId (k:=RunKind) (mk_id "x")) (OpId (k:=ThreadKind) (mk_id "x")) = false.
Proof. exact (typed_id_equality_not_transitive RunKind ThreadKind "x" ltac:(discriminate)). Defined.

(** ** Application scope and execution identity *)

Record ApplicationScope : Type := mk_scope {
  workspace_id : WorkspaceId;
  project_id : ProjectId;
  application_id : ApplicationId;
  revision_id : RevisionId;
  deployment_id : DeploymentId;
}.

#[export] Instance ApplicationScope_eq_dec : EqDecision ApplicationScope.
Proof. solve_decision. Defined.

Record ExecutionIdentity : Type := mk_identity {
  scope : ApplicationScope;
  assistant_id : AssistantId;
  run_id : RunId;
  attempt_id : AttemptId;
  thread_id : option ThreadId;
}.

#[export] Instance ExecutionIdentity_eq_dec : EqDecision ExecutionIdentity.
Proof. solve_decision. Defined.

(** The first positional argument of the constructor. *)
Inductive scope_argument : Type :=
| GivenScope (s : ApplicationScope)
| GivenWorkspace (w : WorkspaceId)
| NoScope.

(** [value is None or not str(value)] *)
Definition missing {k} (v : option (TypedId k)) : bool :=
  match v with None => true | Some i => negb (str_truthy (id_value i)) end.

(** [ExecutionIdentity.__init__] *)
Definition make_identity (scope_arg : scope_argument)
    (assistant : option AssistantId) (run : option RunId) (attempt : option AttemptId)
    (thread : option ThreadId) (workspace : option WorkspaceId) (project : option ProjectId)
    (application : option ApplicationId) (revision : option RevisionId)
    (deployment : option DeploymentId) : res ExecutionIdentity :=
  let resolved :=
    match scope_arg with
    | GivenScope s => Ok s
    | _ =>
        let ws := match scope_arg with GivenWorkspace w => Some w | _ => workspace end in
        if missing ws || missing project || missing application || missing revision
           || missing deployment
        then Raise (ValueError "complete application scope is required")
        else match ws, project, application, revision, deployment with
             | Some w, Some p, Some a, Some r, Some d => Ok (mk_scope w p a r d)
             | _, _, _, _, _ => Raise (ValueError "complete application scope is required")
             end
    end in
  result_bind resolved (λ sc,
    match assistant, run, attempt with
    | Some a, Some r, Some t => Ok (mk_identity sc a r t thread)
    | _, _, _ => Raise (ValueError "execution identity requires assistant, run and attempt IDs")
    end).

(** The identity constructor accepts exactly the complete identities.  Given
    a scope it keeps it; otherwise all five scope fields must be present and
    non-empty, the positional workspace taking precedence over the keyword; and
    the assistant, run and attempt are always required.  The thread is optional. *)
Lemma make_identity_complete sa asst run att th ws pr ap rv dp i :
  make_identity sa asst run att th ws pr ap rv dp = Ok i ↔
  asst = Some (assistant_id i) ∧ run = Some (run_id i) ∧ att = Some (attempt_id i) ∧
  th = thread_id i ∧
  match sa with
  | GivenScope s => s = scope i
  | _ =>
      (match sa with GivenWorkspace w => Some w | _ => ws end) = Some (workspace_id (scope i)) ∧
      pr = Some (project_id (scope i)) ∧ ap = Some (application_id (scope i)) ∧
      rv = Some (revision_id (scope i)) ∧ dp = Some (deployment_id (scope i)) ∧
      id_value (workspace_id (scope i)) ≠ "" ∧ id_value (project_id (scope i)) ≠ "" ∧
      id_value (application_id (scope i)) ≠ "" ∧ id_value (revision_id (scope i)) ≠ "" ∧
      id_value (deployment_id (scope i)) ≠ ""
  end.
Proof.
  assert (∀ k (v : TypedId k), missing (Some v) = false ↔ id_value v ≠ "") as Hm.
  { intros k v. unfold missing. rewrite negb_false_iff. apply str_truthy_true. }
  unfold make_identity. split.
  - intros H. destruct sa as [s|w|]; simpl in H.
    + destruct asst, run, att; simplify_eq. done.
    + destruct (_ || _) eqn:Hmiss in H; simpl in H; [done|]. to_prop.
      destruct pr, ap, rv, dp; try done. simpl in H.
      destruct asst, run, att; simplify_eq; simpl.
      split_and!; first [done | by apply Hm | by apply str_truthy_true].
    + destruct (_ || _) eqn:Hmiss in H; simpl in H; [done|]. to_prop.
      destruct ws, pr, ap, rv, dp; try done. simpl in H.
      destruct asst, run, att; simplify_eq; simpl.
      split_and!; first [done | by apply Hm | by apply str_truthy_true].
  - intros (-> & -> & -> & -> & Hs). destruct i as [[w p a r d] asst' run' att' th'].
    destruct sa as [s|w'|]; cbn -[missing] in *; [by subst| |];
      destruct Hs as ([= ->] & -> & -> & -> & -> & Hw & Hp & Ha & Hr & Hd);
      by rewrite !(proj2 (Hm _ _)) by done.
Qed.
