(* ===== verification/Execution.v ===== *)
(** * Execution entities and events

    [domain/execution]: run and thread statuses, priorities, the immutable
    [Thread] and [Run] entities with their transitions, [RunError], the
    execution request, the run command and its receipt; and [domain/events]:
    event types, drafts and events; [domain/assistants].  A [datetime] is the
    [Z] of its microseconds since the epoch (all of them are UTC). *)

From S2P Require Import Prelude PyDict PyStr Json Errors Identity.

Abbreviation datetime := Z.

(** ** Statuses and priorities *)

Inductive RunStatus : Type :=
| PENDING | RUNNING | INTERRUPTED | SUCCESS | ERROR | TIMEOUT | CANCELLED.

Inductive ThreadStatus : Type :=
| IDLE | BUSY | THREAD_INTERRUPTED | THREAD_ERROR.

#[export] Instance RunStatus_eq_dec : EqDecision RunStatus.
Proof. solve_decision. Defined.
#[export] Instance ThreadStatus_eq_dec : EqDecision ThreadStatus.
Proof. solve_decision. Defined.

(** [status.value] *)
Definition run_status_value (s : RunStatus) : string :=
  match s with
  | PENDING => "pending" | RUNNING => "running" | INTERRUPTED => "interrupted"
  | SUCCESS => "success" | ERROR => "error" | TIMEOUT => "timeout" | CANCELLED => "cancelled"
  end.
Definition thread_status_value (s : ThreadStatus) : string :=
  match s with
  | IDLE => "idle" | BUSY => "busy" | THREAD_INTERRUPTED => "interrupted"
  | THREAD_ERROR => "error"
  end.

(** [RunStatus(value)] and [ThreadStatus(value)] *)
Definition run_status_of (v : string) : res RunStatus :=
  match find_first (λ s, bool_decide (run_status_value s = v))
          [PENDING; RUNNING; INTERRUPTED; SUCCESS; ERROR; TIMEOUT; CANCELLED] with
  | Some s => Ok s
  | None => Raise (ValueError ("'" +:+ v +:+ "' is not a valid RunStatus"))
  end.
Definition thread_status_of (v : string) : res ThreadStatus :=
  match find_first (λ s, bool_decide (thread_status_value s = v))
          [IDLE; BUSY; THREAD_INTERRUPTED; THREAD_ERROR] with
  | Some s => Ok s
  | None => Raise (ValueError ("'" +:+ v +:+ "' is not a valid ThreadStatus"))
  end.

Lemma run_status_of_value s : run_status_of (run_status_value s) = Ok s.
Proof. by destruct s. Qed.
Lemma thread_status_of_value s : thread_status_of (thread_status_value s) = Ok s.
Proof. by destruct s. Qed.

(** [QueuePriority] with its integer value. *)
Inductive QueuePriority : Type := BATCH | NORMAL | INTERACTIVE.

#[export] Instance QueuePriority_eq_dec : EqDecision QueuePriority.
Proof. solve_decision. Defined.

Definition priority_int (p : QueuePriority) : Z :=
  match p with BATCH => 10 | NORMAL => 50 | INTERACTIVE => 100 end.

(** [QueuePriority(n)] *)
Definition priority_of (n : Z) : res QueuePriority :=
  if n =? 10 then Ok BATCH else if n =? 50 then Ok NORMAL
  else if n =? 100 then Ok INTERACTIVE
  else Raise (ValueError (pretty n +:+ " is not a valid QueuePriority")).

Lemma priority_of_int p : priority_of (priority_int p) = Ok p.
Proof. by destruct p. Qed.

(** The statuses that end a run, and those that occupy its thread. *)
Definition terminal_status (s : RunStatus) : bool :=
  bool_decide (s ∈ [SUCCESS; ERROR; TIMEOUT; CANCELLED]).
Definition active_status (s : RunStatus) : bool :=
  bool_decide (s ∈ [PENDING; RUNNING; INTERRUPTED]).

Lemma active_not_terminal s : active_status s = negb (terminal_status s).
Proof. by destruct s. Qed.

(** ** Assistants, threads, errors, runs *)

Record Assistant : Type := mk_assistant {
  asst_id : AssistantId;
  asst_graph_id : string;
  asst_version : Z;
  asst_name : option string;
  asst_description : option string;
  asst_config : json_object;
  asst_context : json_object;
  asst_metadata : json_object;
  asst_created_at : option datetime;
  asst_updated_at : option datetime;
}.

Record Thread : Type := mk_thread {
  thr_id : ThreadId;
  thr_status : ThreadStatus;
  thr_metadata : json_object;
  thr_created_at : option datetime;
  thr_updated_at : option datetime;
}.

(** [Thread._transition] *)
Definition thread_transition (t : Thread) (status : ThreadStatus) (now : datetime) : Thread :=
  mk_thread (thr_id t) status (thr_metadata t) (thr_created_at t) (Some now).

Definition mark_busy (t : Thread) (now : datetime) : Thread := thread_transition t BUSY now.
Definition mark_idle (t : Thread) (now : datetime) : Thread := thread_transition t IDLE now.
Definition mark_interrupted (t : Thread) (now : datetime) : Thread :=
  thread_transition t THREAD_INTERRUPTED now.
Definition mark_error (t : Thread) (now : datetime) : Thread :=
  thread_transition t THREAD_ERROR now.

Record RunError : Type := mk_run_error {
  err_code : string;
  err_message : string;
  err_retryable : bool;
  err_details : json_object;
}.

(** [_copy] of [execution/errors.py]: nested objects and the objects directly
    inside lists are rebuilt, everything else is shared. *)
Fixpoint copy_value (v : json) : json :=
  match v with
  | JObj o =>
      JObj ((fix go (o : list (string * json)) :=
               match o with [] => [] | (k, x) :: o => (k, copy_value x) :: go o end) o)
  | JList l =>
      JList ((fix go (l : list json) :=
                match l with
                | [] => []
                | x :: l => (if is_dict x then copy_value x else x) :: go l
                end) l)
  | _ => v
  end.
Definition copy_details (o : json_object) : json_object := prod_map id copy_value <$> o.

(** [RunError(code, message, retryable, details)] with [__post_init__]. *)
Definition new_run_error (code message : string) (retryable : bool)
    (details : option json_object) : RunError :=
  mk_run_error code message retryable
    (match details with None => [] | Some d => copy_details d end).

Lemma copy_value_id v : copy_value v = v.
Proof.
  induction v using json_ind'; try done.
  - simpl. f_equal. induction H as [|x l Hx Hl IH]; [done|].
    rewrite IH. destruct (is_dict x); [by rewrite Hx|done].
  - simpl. f_equal. induction H as [|[k x] o Hx Ho IH]; [done|]. simpl in *. by rewrite IH, Hx.
Qed.

(** The copy is faithful: a run error keeps the details it is given. *)
Lemma new_run_error_details c m r d :
  err_details (new_run_error c m r (Some d)) = d.
Proof.
  change (copy_details d = d). unfold copy_details. induction d as [|[k x] d IH]; [done|].
  rewrite fmap_cons, IH. unfold prod_map; simpl. by rewrite copy_value_id.
Qed.

Record Run : Type := mk_run {
  run_identity : ExecutionIdentity;
  run_status : RunStatus;
  run_metadata : json_object;
  run_created_at : option datetime;
  run_updated_at : option datetime;
  run_result : json;
  run_error : option RunError;
}.

(** The properties [Run.run_id] and [Run.thread_id]. *)
Definition run_run_id (r : Run) : RunId := run_id (run_identity r).
Definition run_thread_id (r : Run) : option ThreadId := thread_id (run_identity r).
Definition run_key (r : Run) : string := id_value (run_run_id r).

(** [Run._change] *)
Definition run_change (r : Run) (status : RunStatus) (now : datetime)
    (result : json) (error : option RunError) : res Run :=
  if terminal_status (run_status r) && negb (bool_decide (status = run_status r))
  then Raise (ValueError ("terminal run cannot transition from " +:+
         run_status_value (run_status r) +:+ " to " +:+ run_status_value status))
  else Ok (mk_run (run_identity r) status (run_metadata r) (run_created_at r) (Some now)
             result error).

Definition run_mark_running (r : Run) (now : datetime) : res Run :=
  run_change r RUNNING now JNull None.
Definition run_complete (r : Run) (result : json) (now : datetime) : res Run :=
  run_change r SUCCESS now result None.
Definition run_fail (r : Run) (error : RunError) (now : datetime) : res Run :=
  run_change r ERROR now JNull (Some error).
Definition run_cancel (r : Run) (now : datetime) : res Run :=
  if decide (run_status r = CANCELLED) then Ok r else run_change r CANCELLED now JNull None.

(** The transitions a run can make by its own methods. *)
Inductive run_step : Run → Run → Prop :=
| step_running r r' now : run_mark_running r now = Ok r' → run_step r r'
| step_complete r r' v now : run_complete r v now = Ok r' → run_step r r'
| step_fail r r' e now : run_fail r e now = Ok r' → run_step r r'
| step_cancel r r' now : run_cancel r now = Ok r' → run_step r r'.

Lemma run_change_ok r s now v e r' :
  run_change r s now v e = Ok r' ↔
  (terminal_status (run_status r) = true → run_status r = s) ∧
  r' = mk_run (run_identity r) s (run_metadata r) (run_created_at r) (Some now) v e.
Proof.
  unfold run_change. destruct (terminal_status (run_status r)) eqn:Ht; simpl.
  - destruct (bool_decide_reflect (s = run_status r)); simpl; naive_solver.
  - naive_solver.
Qed.

Lemma run_step_facts r r' :
  run_step r r' →
  run_identity r' = run_identity r ∧ run_metadata r' = run_metadata r ∧
  run_created_at r' = run_created_at r ∧
  (terminal_status (run_status r) = true → run_status r' = run_status r).
Proof.
  intros [? ? ? H|? ? ? ? H|? ? ? ? H|r1 r2 ? H];
    unfold run_mark_running, run_complete, run_fail, run_cancel in *;
    try (apply run_change_ok in H as [Ht ->]; simpl; split_and!; try done;
         intros; symmetry; by apply Ht).
  destruct (decide (run_status r1 = CANCELLED)); [by simplify_eq|].
  apply run_change_ok in H as [Ht ->]; simpl; split_and!; try done.
  intros; symmetry; by apply Ht.
Qed.

(** A terminal run keeps its status.  However often a run is marked running,
    completed, failed or cancelled after it reached success, error, timeout or
    cancelled, its status stays the same; its identity, metadata and creation
    time never change at all. *)
Lemma terminal_status_absorbing r r' :
  reachable run_step r r' →
  run_identity r' = run_identity r ∧ run_metadata r' = run_metadata r ∧
  run_created_at r' = run_created_at r ∧
  (terminal_status (run_status r) = true → run_status r' = run_status r).
Proof.
  intros Hr. induction Hr as [|r1 r2 _ (IHi & IHm & IHc & IHt) Hstep]; [done|].
  apply run_step_facts in Hstep as (-> & -> & -> & Ht).
  repeat split; try done. intros H. rewrite <- (IHt H). apply Ht. by rewrite IHt.
Qed.

Lemma terminal_status_absorbing_witness :
  ∃ r r', run_status r = SUCCESS ∧ run_status r' = SUCCESS ∧ run_result r' = JInt 2 ∧
    (terminal_status (run_status r) = true → run_status r' = run_status r).
Proof.
  pose (i := mk_identity (mk_scope (mk_id "w") (mk_id "p") (mk_id "a") (mk_id "r") (mk_id "d"))
    (mk_id "agent") (mk_id "run") (mk_id "attempt") None).
  exists (mk_run i SUCCESS [] None None (JInt 1) None).
  exists (mk_run i SUCCESS [] None (Some 5) (JInt 2) None).
  split; [reflexivity|split; [reflexivity|split; [reflexivity|]]].
  refine (proj2 (proj2 (proj2 (terminal_status_absorbing _ _ _)))).
  eapply reach_step; [apply reach_init|]. by apply (step_complete _ _ (JInt 2) 5).
Defined.

(** ** Requests, commands and receipts *)

Record ExecutionRequest : Type := mk_request {
  req_identity : ExecutionIdentity;
  req_input : json;
  req_command : json;
  req_config : json_object;
  req_context : json_object;
  req_metadata : json_object;
  req_stream_modes : list string;
  req_stream_subgraphs : bool;
  req_priority : QueuePriority;
  req_timeout_seconds : Z;
}.

(** [ExecutionRequest(identity=i)] *)
Definition default_request (i : ExecutionIdentity) : ExecutionRequest :=
  mk_request i JNull JNull [] [] [] ["values"] false INTERACTIVE 1800.

Record RunCommand : Type := mk_command {
  cmd_id : CommandId;
  cmd_identity : ExecutionIdentity;
  cmd_request : ExecutionRequest;
  cmd_priority : QueuePriority;
  cmd_available_at : datetime;
  cmd_created_at : datetime;
}.

Record RunCommandReceipt : Type := mk_receipt {
  rcp_command : RunCommand;
  rcp_lease_id : LeaseId;
  rcp_delivery_count : Z;
  rcp_leased_at : datetime;
  rcp_lease_expires_at : datetime;
}.

(** [RunCommandReceipt.identity] *)
Definition receipt_identity (r : RunCommandReceipt) : ExecutionIdentity :=
  cmd_identity (rcp_command r).

(** [timedelta(seconds=n)] in microseconds. *)
Definition seconds (n : Z) : Z := n * 1000000.

(** ** Events *)

Inductive RuntimeEventType : Type :=
| RUN_QUEUED | RUN_STARTED | RUN_COMPLETED | RUN_CANCELLED | RUN_FAILED | RUN_TIMEOUT
| RUN_INTERRUPTED | ATTEMPT_STARTED | ATTEMPT_HEARTBEAT | ATTEMPT_COMPLETED | ATTEMPT_FAILED
| MESSAGE_STARTED | MESSAGE_DELTA | MESSAGE_COMPLETED | AGENT_STARTED | AGENT_COMPLETED
| AGENT_FAILED | TOOL_STARTED | TOOL_PROGRESS | TOOL_COMPLETED | TOOL_FAILED | CUSTOM
| STATE_VALUES | STATE_UPDATES | CHECKPOINT_CREATED | TASK_STARTED | TASK_COMPLETED
| INTERRUPT_CREATED | INTERRUPT_RESOLVED.

#[export] Instance RuntimeEventType_eq_dec : EqDecision RuntimeEventType.
Proof. solve_decision. Defined.

Definition event_type_value (t : RuntimeEventType) : string :=
  match t with
  | RUN_QUEUED => "run.queued" | RUN_STARTED => "run.started"
  | RUN_COMPLETED => "run.completed" | RUN_CANCELLED => "run.cancelled"
  | RUN_FAILED => "run.failed" | RUN_TIMEOUT => "run.timeout"
  | RUN_INTERRUPTED => "run.interrupted" | ATTEMPT_STARTED => "attempt.started"
  | ATTEMPT_HEARTBEAT => "attempt.heartbeat" | ATTEMPT_COMPLETED => "attempt.completed"
  | ATTEMPT_FAILED => "attempt.failed" | MESSAGE_STARTED => "message.started"
  | MESSAGE_DELTA => "message.delta" | MESSAGE_COMPLETED => "message.completed"
  | AGENT_STARTED => "agent.started" | AGENT_COMPLETED => "agent.completed"
  | AGENT_FAILED => "agent.failed" | TOOL_STARTED => "tool.started"
  | TOOL_PROGRESS => "tool.progress" | TOOL_COMPLETED => "tool.completed"
  | TOOL_FAILED => "tool.failed" | CUSTOM => "custom" | STATE_VALUES => "state.values"
  | STATE_UPDATES => "state.updates" | CHECKPOINT_CREATED => "checkpoint.created"
  | TASK_STARTED => "task.started" | TASK_COMPLETED => "task.completed"
  | INTERRUPT_CREATED => "interrupt.created" | INTERRUPT_RESOLVED => "interrupt.resolved"
  end.

(** An event's [type] field: a member of the enumeration or a plain string. *)
Inductive event_type : Type :=
| Known (t : RuntimeEventType)
| Text (s : string).

#[export] Instance event_type_eq_dec : EqDecision event_type.
Proof. solve_decision. Defined.

(** [str(event.type)] *)
Definition event_type_str (t : event_type) : string :=
  match t with Known t => event_type_value t | Text s => s end.

(** [event.type is T]: object identity, never true of a plain string. *)
Definition type_is (t : event_type) (k : RuntimeEventType) : bool :=
  match t with Known t => bool_decide (t = k) | Text _ => false end.

(** [event.type in {T1, ...}]: the members of a [StrEnum] compare and hash as
    their text, so a plain string with the same text is a member. *)
Definition type_in (t : event_type) (ks : list RuntimeEventType) : bool :=
  existsb (λ k, bool_decide (event_type_str t = event_type_value k)) ks.

Record TraceContext : Type := mk_trace {
  trace_id : option string;
  span_id : option string;
}.

Record RuntimeEventDraft : Type := mk_draft {
  draft_identity : ExecutionIdentity;
  draft_type : event_type;
  draft_namespace : list string;
  draft_data : json;
  draft_native : json_object;
}.

(** [RuntimeEventDraft(identity, type, data=data)] *)
Definition simple_draft (i : ExecutionIdentity) (t : RuntimeEventType) (data : json) :=
  mk_draft i (Known t) [] data [].

Record RuntimeEvent : Type := mk_event {
  ev_id : EventId;
  ev_sequence : Z;
  ev_timestamp : datetime;
  ev_identity : ExecutionIdentity;
  ev_type : event_type;
  ev_namespace : list string;
  ev_data : json;
  ev_native : json_object;
  ev_trace : TraceContext;
  ev_schema_version : Z;
}.

Lemma event_type_value_inj t t' : event_type_value t = event_type_value t' → t = t'.
Proof. by destruct t, t'. Qed.

Lemma type_in_known t ks : type_in (Known t) ks = true ↔ t ∈ ks.
Proof.
  unfold type_in. rewrite existsb_elem. split.
  - intros (k & Hk & Heq). apply bool_decide_eq_true in Heq.
    by apply event_type_value_inj in Heq as ->.
  - intros H. exists t. split; [done|]. by apply bool_decide_eq_true.
Qed.

Lemma type_is_in t k ks : type_is t k = true → k ∈ ks → type_in t ks = true.
Proof.
  destruct t; simpl; [|done]. intros Hk Hin. apply bool_decide_eq_true in Hk as ->.
  by apply type_in_known.
Qed.
