(* ===== verification/Ports.v ===== *)
(** * Ports

    The interfaces of [ports/] that the application service is written
    against, as operational classes, and the laws that the service's theorems
    rely on; the workers' theorems need less ([RunStoreLaws], [ThreadStoreLaws]).  An adapter is a state type with an instance; the in-memory
    adapters discharge the laws in [MemoryRepositories], [MemoryQueue] and
    [MemoryJournal].  Values the adapters draw from the clock or from the
    identifier generator are arguments. *)

From S2P Require Import Prelude PyDict PyStr Json Errors Identity Execution.

(** ** [RunRepository] *)

Class RunRepository (R : Type) : Type := {
  runs_create : Run → Py R Run;
  runs_get : string → Py R Run;
  runs_update : Run → Py R Run;
  runs_delete : string → Py R unit;
  runs_active_for_thread : string → Py R (option Run);
  runs_latest_for_thread : string → Py R (option Run);
  runs_list_for_thread : string → Z → Z → option string → Py R (list Run);
}.

(** What every adapter keeps of a run through an update; the timestamps and the
    metadata may be the adapter's own. *)
Definition run_core (r : Run) : ExecutionIdentity * RunStatus * json * option RunError :=
  (run_identity r, run_status r, run_result r, run_error r).

(** The runs that occupy a thread. *)
Definition occupies (t : string) (r : Run) : bool :=
  match run_thread_id r with
  | Some t' => bool_decide (id_value t' = t) && active_status (run_status r)
  | None => false
  end.

Lemma run_core_key r r' : run_core r = run_core r' → run_key r = run_key r'.
Proof. unfold run_core, run_key, run_run_id. by intros [= -> _ _ _]. Qed.
Lemma run_core_occupies t r r' : run_core r = run_core r' → occupies t r = occupies t r'.
Proof. unfold run_core, occupies, run_thread_id. by intros [= -> -> _ _]. Qed.

Class RunRepositoryLaws (R : Type) `{RunRepository R} : Type := {
  runs_view : R → gmap string Run;
  runs_inv : R → Prop;
  runs_inv_key s k r : runs_inv s → runs_view s !! k = Some r → run_key r = k;
  runs_get_some s k r :
    runs_inv s → runs_view s !! k = Some r → runs_get k s = (Ok r, s);
  runs_get_none s k :
    runs_inv s → runs_view s !! k = None →
    ∃ e, runs_get k s = (Raise e, s) ∧ has_code RUN_NOT_FOUND e = true;
  runs_update_some s r :
    runs_inv s → is_Some (runs_view s !! run_key r) →
    ∃ r' s', runs_update r s = (Ok r, s') ∧ runs_inv s' ∧ run_core r' = run_core r ∧
      runs_view s' = <[run_key r := r']> (runs_view s);
  runs_update_none s r :
    runs_inv s → runs_view s !! run_key r = None →
    ∃ e, runs_update r s = (Raise e, s) ∧ has_code RUN_NOT_FOUND e = true;
  runs_create_ok s r :
    runs_inv s → runs_view s !! run_key r = None →
    (∀ t k r', run_thread_id r = Some t → runs_view s !! k = Some r' →
       occupies (id_value t) r' = false) →
    ∃ r' s', runs_create r s = (Ok r, s') ∧ runs_inv s' ∧ run_core r' = run_core r ∧
      runs_view s' = <[run_key r := r']> (runs_view s);
  runs_create_err s r :
    runs_inv s →
    is_Some (runs_view s !! run_key r) ∨
    (∃ t k r', run_thread_id r = Some t ∧ runs_view s !! k = Some r' ∧
       occupies (id_value t) r' = true) →
    ∃ e, runs_create r s = (Raise e, s) ∧ is_exception e = true;
}.

(** ** [ThreadRepository] *)

Class ThreadRepository (T : Type) : Type := {
  threads_create : Thread → Py T Thread;
  threads_get : string → Py T Thread;
  threads_update : Thread → Py T Thread;
  threads_delete : string → Py T unit;
  threads_count : option json_object → option string → Py T Z;
  threads_search : option json_object → option string → Z → Z → Py T (list Thread);
}.

Definition thread_key (t : Thread) : string := id_value (thr_id t).
Definition thread_core (t : Thread) : ThreadId * ThreadStatus * json_object :=
  (thr_id t, thr_status t, thr_metadata t).

Class ThreadRepositoryLaws (T : Type) `{ThreadRepository T} : Type := {
  threads_view : T → gmap string Thread;
  threads_inv : T → Prop;
  threads_inv_key s k t : threads_inv s → threads_view s !! k = Some t → thread_key t = k;
  threads_get_some s k t :
    threads_inv s → threads_view s !! k = Some t → threads_get k s = (Ok t, s);
  threads_get_none s k :
    threads_inv s → threads_view s !! k = None →
    ∃ e, threads_get k s = (Raise e, s) ∧ has_code RESOURCE_NOT_FOUND e = true;
  threads_update_some s t :
    threads_inv s → is_Some (threads_view s !! thread_key t) →
    ∃ t' s', threads_update t s = (Ok t, s') ∧ threads_inv s' ∧ thread_core t' = thread_core t ∧
      threads_view s' = <[thread_key t := t']> (threads_view s);
  threads_update_none s t :
    threads_inv s → threads_view s !! thread_key t = None →
    ∃ e, threads_update t s = (Raise e, s) ∧ has_code RESOURCE_NOT_FOUND e = true;
}.

(** ** What a worker relies on

    A worker settles runs that exist: it moves an active run on, and marks the run's
    thread.  The laws that it needs say what an update does to a run that is not
    brought back to life, with values that the store takes; a store may leave a value
    alone that is equal to the new one in Python's sense. *)
Definition stored_as (old new v : json) : Prop := v = new ∨ (v = old ∧ py_eq old new = true).

Lemma stored_as_null old v : stored_as old JNull v → v = JNull.
Proof. intros [->|[-> H]]; [done|]. by destruct old. Qed.
Lemma stored_over_null new v : stored_as JNull new v → v = new.
Proof. intros [->|[-> H]]; [done|]. by destruct new. Qed.

(** An object of texts, such as the data of a lifecycle event. *)
Definition text_object (o : json_object) : bool :=
  forallb (λ kv, match kv.2 with JStr _ => true | _ => false end) o.
Definition error_details (r : Run) : json :=
  JObj (match run_error r with Some e => err_details e | None => [] end).

Class RunStoreLaws (R : Type) `{RunRepository R} : Type := {
  rst_view : R → gmap string Run;
  rst_inv : R → Prop;
  rst_takes : json → Prop;
  rst_takes_null : rst_takes JNull;
  rst_takes_texts o : text_object o = true → rst_takes (JObj o);
  rst_key s k r : rst_inv s → rst_view s !! k = Some r → run_key r = k;
  rst_taken s k r : rst_inv s → rst_view s !! k = Some r → rst_takes (run_result r) ∧ rst_takes (error_details r);
  rst_get s k r : rst_inv s → rst_view s !! k = Some r → runs_get k s = (Ok r, s);
  rst_update s r0 r :
    rst_inv s → rst_view s !! run_key r = Some r0 → run_identity r = run_identity r0 →
    active_status (run_status r0) = true → rst_takes (run_result r) → rst_takes (error_details r) →
    ∃ r' s', runs_update r s = (Ok r, s') ∧ rst_inv s' ∧ run_identity r' = run_identity r ∧
      run_status r' = run_status r ∧ stored_as (run_result r0) (run_result r) (run_result r') ∧
      rst_view s' = <[run_key r := r']> (rst_view s);
}.

Class ThreadStoreLaws (T : Type) `{ThreadRepository T} : Type := {
  tst_view : T → gmap string Thread;
  tst_inv : T → Prop;
  tst_key s k t : tst_inv s → tst_view s !! k = Some t → thread_key t = k;
  tst_get s k t : tst_inv s → tst_view s !! k = Some t → threads_get k s = (Ok t, s);
  tst_update s t0 t :
    tst_inv s → tst_view s !! thread_key t = Some t0 → thr_metadata t = thr_metadata t0 →
    ∃ t' s', threads_update t s = (Ok t, s') ∧ tst_inv s' ∧ thr_status t' = thr_status t ∧
      tst_view s' = <[thread_key t := t']> (tst_view s);
}.

(** A repository that keeps what it is given is such a store. *)
#[export] Program Instance run_repository_store `{RL : RunRepositoryLaws R} : RunStoreLaws R := {
  rst_view := runs_view;
  rst_inv := runs_inv;
  rst_takes := λ _, True;
}.
Next Obligation. done. Qed.
Next Obligation. done. Qed.
Next Obligation. intros R HR RL s k r. apply runs_inv_key. Qed.
Next Obligation. done. Qed.
Next Obligation. intros R HR RL s k r. apply runs_get_some. Qed.
Next Obligation.
  intros R HR RL s r0 r Hs Hr _ _ _ _.
  destruct (runs_update_some s r Hs) as (r' & s' & Hu & Hs' & Hc & Hv); [by rewrite Hr|].
  unfold run_core in Hc. injection Hc as Hi Hst Hres _. exists r', s'. split_and!; try done. by left.
Qed.

#[export] Program Instance thread_repository_store `{TL : ThreadRepositoryLaws T} : ThreadStoreLaws T := {
  tst_view := threads_view;
  tst_inv := threads_inv;
}.
Next Obligation. intros T HT TL s k t. apply threads_inv_key. Qed.
Next Obligation. intros T HT TL s k t. apply threads_get_some. Qed.
Next Obligation.
  intros T HT TL s t0 t Hs Ht _.
  destruct (threads_update_some s t Hs) as (t' & s' & Hu & Hs' & Hc & Hv); [by rewrite Ht|].
  unfold thread_core in Hc. injection Hc as _ Hst _. by exists t', s'.
Qed.

(** ** What processes that share the runs rely on

    Whatever others have done to the runs since they were read, a call either has its
    effect or raises an exception and has none.  An update that ends a run, with values
    that the store takes, fails only if the run does not exist any more. *)
Class SharedRunsLaws (R : Type) `{RunRepository R} : Type := {
  shr_view : R → gmap string Run;
  shr_inv : R → Prop;
  shr_takes : json → Prop;
  shr_identity : ExecutionIdentity → Prop;
  shr_takes_null : shr_takes JNull;
  shr_takes_texts o : text_object o = true → shr_takes (JObj o);
  shr_key s k r : shr_inv s → shr_view s !! k = Some r → run_key r = k;
  shr_get s k : shr_inv s →
    ∃ o s', runs_get k s = (o, s') ∧ shr_inv s' ∧ shr_view s' = shr_view s ∧
      match o with
      | Ok r => shr_view s !! k = Some r
      | Raise e => shr_view s !! k = None ∧ is_exception e = true
      end;
  shr_update s r : shr_inv s →
    ∃ o s', runs_update r s = (o, s') ∧ shr_inv s' ∧
      match o with
      | Ok r' => r' = r ∧ is_Some (shr_view s !! run_key r) ∧
          ∃ r1, run_status r1 = run_status r ∧ shr_view s' = <[run_key r := r1]> (shr_view s)
      | Raise e => shr_view s' = shr_view s ∧ is_exception e = true ∧
          (active_status (run_status r) = false → shr_takes (run_result r) → shr_takes (error_details r) →
           shr_view s !! run_key r = None)
      end;
  shr_create s r : shr_inv s → shr_identity (run_identity r) →
    ∃ o s', runs_create r s = (o, s') ∧ shr_inv s' ∧
      match o with
      | Ok r' => r' = r ∧ shr_view s !! run_key r = None ∧
          ∃ r1, run_status r1 = run_status r ∧ shr_view s' = <[run_key r := r1]> (shr_view s)
      | Raise e => shr_view s' = shr_view s ∧ is_exception e = true
      end;
  shr_delete s k : shr_inv s →
    ∃ o s', runs_delete k s = (o, s') ∧ shr_inv s' ∧
      (shr_view s' = shr_view s ∨ shr_view s' = delete k (shr_view s));
}.

(** ** [RunCommandQueue], [EventJournal], [OutboxRepository] *)

Class RunCommandQueue (Q : Type) : Type := {
  queue_publish : RunCommand → Py Q unit;
  (** [receive] when a command is available; [None]: the call would wait. *)
  queue_receive : LeaseId → datetime → Py Q (option RunCommandReceipt);
  queue_acknowledge : RunCommandReceipt → Py Q unit;
  queue_reject : RunCommandReceipt → bool → Py Q unit;
}.

Class EventJournal (J : Type) : Type := {
  journal_append : EventId → datetime → RuntimeEventDraft → Py J RuntimeEvent;
}.

(** An appended event carries the draft's identity, type and data. *)
Class EventJournalLaws (J : Type) `{EventJournal J} : Type := {
  journal_append_draft s id now d e s' :
    journal_append id now d s = (Ok e, s') →
    ev_identity e = draft_identity d ∧ ev_type e = draft_type d ∧
    ev_data e = draft_data d ∧ ev_namespace e = draft_namespace d;
  journal_append_total s id now d : ∃ e s', journal_append id now d s = (Ok e, s');
}.

Record OutboxMessage : Type := mk_outbox_message {
  msg_id : CommandId;
  msg_topic : string;
  msg_key : string;
  msg_payload : json_object;
  msg_created_at : datetime;
  msg_published : bool;
}.

Class OutboxRepository (O : Type) : Type := {
  outbox_append : OutboxMessage → Py O OutboxMessage;
  outbox_pending : Z → Py O (list OutboxMessage);
  outbox_mark_published : CommandId → Py O unit;
}.
