(* ===== verification/MemoryRepositories.v ===== *)
(** * In-memory repositories

    [adapters/memory/repositories.py].  Each repository is the dictionary
    [self._items]; the [asyncio.Lock] sections contain no suspension point, so
    each operation is one atomic step on it. *)

From S2P Require Import Prelude PyDict PyStr Json Errors Identity Execution Ports.

(** [datetime.min.replace(tzinfo=UTC)] *)
Definition datetime_min : datetime := -62135596800000000.

(** ** [InMemoryAssistantRepository] *)
Module Assistants.
Abbreviation state := (dict Assistant).
Definition key (a : Assistant) : string := id_value (asst_id a).
Definition not_found (id : string) : exn :=
  failure RESOURCE_NOT_FOUND ("assistant not found: " +:+ id).

Definition create (a : Assistant) : Py state Assistant := λ items,
  if dmem items (key a)
  then (Raise (failure INVALID_EXECUTION_INPUT "assistant already exists"), items)
  else (Ok a, dset items (key a) a).

Definition all : Py state (list Assistant) := λ items, (Ok (dvalues items), items).

Definition get (id : string) : Py state Assistant := λ items,
  match dget items id with
  | Some a => (Ok a, items)
  | None => (Raise (not_found id), items)
  end.

Definition update (id : string) (a : Assistant) : Py state Assistant := λ items,
  if dmem items id then (Ok a, dset items id a) else (Raise (not_found id), items).

Definition delete (id : string) (delete_threads : bool) : Py state unit := λ items,
  match dget items id with
  | Some _ => (Ok tt, dpop items id)
  | None => (Raise (not_found id), items)
  end.

Definition versions (id : string) : Py state (list Assistant) :=
  a <- get id;; ret [a].

Definition set_latest (id : string) (version : Z) : Py state Assistant :=
  if version =? 1 then get id
  else raise (failure RESOURCE_NOT_FOUND
                ("assistant version not found: " +:+ id +:+ "/" +:+ pretty version)).

Definition count (graph_id : option string) : Py state Z := λ items,
  (Ok (Z.of_nat (length (filter
     (λ a, graph_id = None ∨ graph_id = Some (asst_graph_id a)) (dvalues items)))), items).

(** The assistant repository against a finite map.  Creating is possible
    exactly once per identifier, an update or a deletion exactly for a stored
    one, nothing else changes, and an update keeps the stored position. *)
Lemma assistants_refine_map (items : state) (a : Assistant) (id : string)
  (Hwf : dict_wf items) :
  (create a items =
     match dict_to_map items !! key a with
     | Some _ => (Raise (failure INVALID_EXECUTION_INPUT "assistant already exists"), items)
     | None => (Ok a, items ++ [(key a, a)])
     end) ∧
  (∀ r items', update id a items = (r, items') →
     r = match dict_to_map items !! id with Some _ => Ok a | None => Raise (not_found id) end ∧
     dkeys items' = dkeys items ∧
     dict_to_map items' = match dict_to_map items !! id with
                          | Some _ => <[id := a]> (dict_to_map items)
                          | None => dict_to_map items
                          end) ∧
  (∀ b r items', delete id b items = (r, items') →
     dict_to_map items' = base.delete id (dict_to_map items) ∧
     (is_ok r = true ↔ is_Some (dict_to_map items !! id))).
Proof.
  unfold create, update, delete, dmem. rewrite <- !dget_map. split_and!.
  - destruct (dget items (key a)) eqn:Hk; [done|].
    by rewrite dset_fresh by by apply dget_None.
  - intros r items'. destruct (dget items id) eqn:Hk; intros; simplify_eq; [|done].
    split_and!; [done| |apply dict_to_map_dset].
    apply dkeys_dset_mem. destruct (decide (id ∈ dkeys items)) as [|Hn]; [done|].
    apply dget_None in Hn. congruence.
  - intros b r items'. destruct (dget items id) eqn:Hk; intros; simplify_eq.
    + split; [by apply dict_to_map_dpop|]. naive_solver.
    + split; [|split; [done|by intros []]]. symmetry. apply delete_id. by rewrite <- dget_map.
Qed.

Definition example_assistant : Assistant :=
  mk_assistant (mk_id "agent") "graph" 1 None None [] [] [] None None.

Lemma assistants_refine_map_witness :
  create example_assistant [] = (Ok example_assistant, [("agent", example_assistant)]).
Proof.
  exact (proj1 (assistants_refine_map [] example_assistant "agent" (NoDup_nil_2))).
Defined.
End Assistants.

(** ** [InMemoryThreadRepository] *)
Module Threads.
Abbreviation state := (dict Thread).
Definition not_found (id : string) : exn :=
  failure RESOURCE_NOT_FOUND ("thread not found: " +:+ id).

Definition create (t : Thread) : Py state Thread := λ items,
  if dmem items (thread_key t)
  then (Raise (failure INVALID_EXECUTION_INPUT "thread already exists"), items)
  else (Ok t, dset items (thread_key t) t).

Definition get (id : string) : Py state Thread := λ items,
  match dget items id with
  | Some t => (Ok t, items)
  | None => (Raise (not_found id), items)
  end.

Definition update (t : Thread) : Py state Thread := λ items,
  if dmem items (thread_key t) then (Ok t, dset items (thread_key t) t)
  else (Raise (not_found (thread_key t)), items).

Definition delete (id : string) : Py state unit := λ items,
  match dget items id with
  | Some _ => (Ok tt, dpop items id)
  | None => (Raise (not_found id), items)
  end.

(** The filter of [search]. *)
Definition selected (metadata : option json_object) (status : option string) (t : Thread) : bool :=
  match status with
  | None => true
  | Some s => bool_decide (thread_status_value (thr_status t) = s)
  end && metadata_matches (default [] metadata) (thr_metadata t).

Definition sort_key (t : Thread) : Z := default datetime_min (thr_created_at t).

Definition search (metadata : option json_object) (status : option string) (limit offset : Z)
  : Py state (list Thread) := λ items,
  let found := List.filter (selected metadata status) (dvalues items) in
  (Ok (py_slice (sort_desc sort_key found) offset (offset + limit)), items).

Definition count (metadata : option json_object) (status : option string) : Py state Z :=
  found <- search metadata status 100000 0;; ret (Z.of_nat (length found)).

#[export] Instance thread_repository : ThreadRepository state := {
  threads_create := create;
  threads_get := get;
  threads_update := update;
  threads_delete := delete;
  threads_count := count;
  threads_search := search;
}.

(** The representation invariant: distinct keys, each thread under its own. *)
Definition inv (items : state) : Prop :=
  dict_wf items ∧ ∀ k t, dget items k = Some t → thread_key t = k.

Lemma thread_inv_dset items t : inv items → inv (dset items (thread_key t) t).
Proof.
  intros [Hwf Hk]. split; [by apply dset_wf|].
  intros k t'. rewrite dget_dset. destruct (decide (k = thread_key t)); naive_solver.
Qed.

#[export] Program Instance thread_repository_laws : ThreadRepositoryLaws state := {
  threads_view := dict_to_map;
  threads_inv := inv;
}.
Next Obligation. intros s k t [_ H]. rewrite <- dget_map. apply H. Qed.
Next Obligation. intros s k t _. rewrite <- dget_map. intros H. simpl. unfold get. by rewrite H. Qed.
Next Obligation.
  intros s k _. rewrite <- dget_map. intros H. simpl. unfold get. rewrite H.
  eexists; split; [done|]. apply has_code_failure.
Qed.
Next Obligation.
  intros s t Hinv [t0 Ht]. rewrite <- dget_map in Ht. simpl. unfold update, dmem. rewrite Ht.
  exists t; eexists; split_and!; [done|by apply thread_inv_dset|done|apply dict_to_map_dset].
Qed.
Next Obligation.
  intros s t _. rewrite <- dget_map. intros H. simpl. unfold update, dmem. rewrite H.
  eexists; split; [done|]. apply has_code_failure.
Qed.

Lemma search_pages metadata status limit offset items :
  0 ≤ limit → 0 ≤ offset →
  ∃ sorted,
    search metadata status limit offset items =
      (Ok (page (Z.to_nat offset) (Z.to_nat limit) sorted), items) ∧
    Permutation sorted (List.filter (selected metadata status) (dvalues items)) ∧
    StronglySorted (λ a b, sort_key b ≤ sort_key a) sorted ∧
    (∀ k, filter (λ t, sort_key t = k) sorted =
          filter (λ t, sort_key t = k)
            (List.filter (selected metadata status) (dvalues items))).
Proof.
  intros Hl Ho. eexists. unfold search. split_and!.
  - by rewrite py_slice_page.
  - apply sort_desc_perm.
  - apply sort_desc_sorted.
  - intros k. apply sort_desc_stable.
Qed.

Lemma page_length_Z (limit : Z) (l : list Thread) :
  0 ≤ limit → Z.of_nat (length (page (Z.to_nat 0) (Z.to_nat limit) l)) =
    Z.min limit (Z.of_nat (length l)).
Proof. intros H. rewrite page_length, Nat2Z.inj_min, Z2Nat.id by done. f_equal. lia. Qed.

(** Thread search.  The result is one page of exactly the threads with the
    requested status and metadata, newest first, threads of the same creation
    time in insertion order; and [count] is their number as long as that does
    not exceed the 100000 the code passes as the limit. *)
Lemma thread_search_spec metadata status limit offset items :
  0 ≤ limit → 0 ≤ offset →
  (∃ sorted,
    search metadata status limit offset items =
      (Ok (page (Z.to_nat offset) (Z.to_nat limit) sorted), items) ∧
    Permutation sorted (List.filter (selected metadata status) (dvalues items)) ∧
    StronglySorted (λ a b, sort_key b ≤ sort_key a) sorted ∧
    (∀ k, filter (λ t, sort_key t = k) sorted =
          filter (λ t, sort_key t = k)
            (List.filter (selected metadata status) (dvalues items)))) ∧
  count metadata status items =
    (Ok (Z.min 100000
      (Z.of_nat (length (List.filter (selected metadata status) (dvalues items))))), items).
Proof.
  intros Hl Ho. split; [by apply search_pages|]. unfold count, bind, ret.
  destruct (search_pages metadata status 100000 0 items) as (sorted & -> & Hp & _); [lia..|].
  by rewrite page_length_Z, Hp by done.
Qed.

Definition example_thread (id : string) (at_ : Z) : Thread :=
  mk_thread (mk_id id) IDLE [] (Some at_) None.

Lemma thread_search_spec_witness :
  count None (Some "idle") [("a", example_thread "a" 1); ("b", example_thread "b" 2)] =
    (Ok 2, [("a", example_thread "a" 1); ("b", example_thread "b" 2)]).
Proof.
  etransitivity;
    [refine (proj2 (thread_search_spec None (Some "idle") 10 0 _ _ _)); done|reflexivity].
Defined.
End Threads.

(** ** [InMemoryRunRepository] *)
Module Runs.
Abbreviation state := (dict Run).
Definition not_found (id : string) : exn := failure RUN_NOT_FOUND ("run not found: " +:+ id).

(** [_active_for_thread] *)
Definition find_active (thread_id : string) (items : state) : option Run :=
  find_first (occupies thread_id) (dvalues items).

Definition create (r : Run) : Py state Run := λ items,
  if dmem items (run_key r)
  then (Raise (failure INVALID_EXECUTION_INPUT "run already exists"), items)
  else match run_thread_id r with
       | Some t =>
           match find_active (id_value t) items with
           | Some _ =>
               (Raise (failure THREAD_BUSY
                  ("thread already has an active run: " +:+ id_value t)), items)
           | None => (Ok r, dset items (run_key r) r)
           end
       | None => (Ok r, dset items (run_key r) r)
       end.

Definition get (id : string) : Py state Run := λ items,
  match dget items id with
  | Some r => (Ok r, items)
  | None => (Raise (not_found id), items)
  end.

Definition update (r : Run) : Py state Run := λ items,
  if dmem items (run_key r) then (Ok r, dset items (run_key r) r)
  else (Raise (not_found (run_key r)), items).

Definition delete (id : string) : Py state unit := λ items,
  match dget items id with
  | Some _ => (Ok tt, dpop items id)
  | None => (Raise (not_found id), items)
  end.

Definition active_for_thread (thread_id : string) : Py state (option Run) := λ items,
  (Ok (find_active thread_id items), items).

Definition on_thread (thread_id : string) (r : Run) : bool :=
  match run_thread_id r with
  | Some t => bool_decide (id_value t = thread_id)
  | None => false
  end.
Definition sort_key (r : Run) : Z := default datetime_min (run_created_at r).

Definition latest_for_thread (thread_id : string) : Py state (option Run) := λ items,
  (Ok (max_first sort_key (List.filter (on_thread thread_id) (dvalues items))), items).

Definition list_for_thread (thread_id : string) (limit offset : Z) (status : option string)
  : Py state (list Run) := λ items,
  let selected r :=
    on_thread thread_id r &&
    match status with
    | None => true
    | Some s => bool_decide (run_status_value (run_status r) = s)
    end in
  (Ok (py_slice (sort_desc sort_key (List.filter selected (dvalues items)))
         offset (offset + limit)), items).

#[export] Instance run_repository : RunRepository state := {
  runs_create := create;
  runs_get := get;
  runs_update := update;
  runs_delete := delete;
  runs_active_for_thread := active_for_thread;
  runs_latest_for_thread := latest_for_thread;
  runs_list_for_thread := list_for_thread;
}.

Definition inv (items : state) : Prop :=
  dict_wf items ∧ ∀ k r, dget items k = Some r → run_key r = k.

Lemma run_inv_dset items r : inv items → inv (dset items (run_key r) r).
Proof.
  intros [Hwf Hk]. split; [by apply dset_wf|].
  intros k r'. rewrite dget_dset. destruct (decide (k = run_key r)); naive_solver.
Qed.

Lemma inv_dpop items k : inv items → inv (dpop items k).
Proof.
  intros [Hwf Hk]. split; [by apply dpop_wf|].
  intros k' r. rewrite dget_dpop by done. case_decide; [done|]. apply Hk.
Qed.

Lemma find_active_None t items :
  dict_wf items →
  find_active t items = None ↔ ∀ k r, dget items k = Some r → occupies t r = false.
Proof.
  intros Hwf. unfold find_active. rewrite find_first_None. split.
  - intros H k r Hk. apply H. apply dvalues_elem; eauto.
  - intros H r Hr. apply dvalues_elem in Hr as [k Hk]; eauto.
Qed.

Lemma find_active_Some t items r :
  dict_wf items → find_active t items = Some r →
  occupies t r = true ∧ ∃ k, dget items k = Some r.
Proof.
  intros Hwf H. apply find_first_Some in H as [Hin Hocc]. split; [done|].
  by apply dvalues_elem.
Qed.

#[export] Program Instance run_repository_laws : RunRepositoryLaws state := {
  runs_view := dict_to_map;
  runs_inv := inv;
}.
Next Obligation. intros s k t [_ H]. rewrite <- dget_map. apply H. Qed.
Next Obligation. intros s k t _. rewrite <- dget_map. intros H. simpl. unfold get. by rewrite H. Qed.
Next Obligation.
  intros s k _. rewrite <- dget_map. intros H. simpl. unfold get. rewrite H.
  eexists; split; [done|]. apply has_code_failure.
Qed.
Next Obligation.
  intros s r Hinv [r0 Hr]. rewrite <- dget_map in Hr. simpl. unfold update, dmem. rewrite Hr.
  exists r; eexists; split_and!; [done|by apply run_inv_dset|done|apply dict_to_map_dset].
Qed.
Next Obligation.
  intros s r _. rewrite <- dget_map. intros H. simpl. unfold update, dmem. rewrite H.
  eexists; split; [done|]. apply has_code_failure.
Qed.
Next Obligation.
  intros s r Hinv Hnew Hfree. rewrite <- dget_map in Hnew. simpl. unfold create, dmem.
  rewrite Hnew. exists r, (dset s (run_key r) r).
  split_and!; [|by apply run_inv_dset|done|apply dict_to_map_dset].
  destruct (run_thread_id r) as [t|]; [|done].
  rewrite (proj2 (find_active_None _ _ (proj1 Hinv))); [done|].
  intros k r' Hk. apply (Hfree t k); [done|]. by rewrite <- dget_map.
Qed.
Next Obligation.
  intros s r Hinv H. simpl. unfold create, dmem.
  destruct (dget s (run_key r)) as [r0|] eqn:Hk; [by eexists|].
  destruct H as [[r0 H]|(t & k & r' & Ht & Hv & Hocc)].
  { rewrite <- dget_map in H. congruence. }
  rewrite <- dget_map in Hv. rewrite Ht.
  destruct (find_active (id_value t) s) eqn:Hf; [by eexists|].
  eapply find_active_None in Hf; [|apply Hinv|done]. congruence.
Qed.

(** At most one active run per thread. *)
Definition exclusive (items : state) : Prop :=
  ∀ t k k' r r', dget items k = Some r → dget items k' = Some r' →
    occupies t r = true → occupies t r' = true → k = k'.

(** Mutual exclusion of runs on a thread, by the repository alone.  A
    successful [create] keeps at most one pending, running or interrupted run
    per thread, deleting keeps it, and an update keeps it whenever the stored
    run of that key already occupied the thread the new one occupies (the
    condition the service has to meet; [update] itself does not check). *)
Lemma run_repository_exclusive (items : state) (r : Run) (id : string) :
  inv items → exclusive items →
  (inv (create r items).2 ∧ exclusive (create r items).2) ∧
  (inv (delete id items).2 ∧ exclusive (delete id items).2) ∧
  (inv (update r items).2) ∧
  ((∀ t old, dget items (run_key r) = Some old → occupies t r = true → occupies t old = true) →
     exclusive (update r items).2).
Proof.
  intros Hinv Hex.
  assert (Hset : (∀ t k' r', dget items k' = Some r' → occupies t r = true →
      occupies t r' = true → k' = run_key r) → exclusive (dset items (run_key r) r)).
  { intros Hnew t k k' r1 r2. rewrite !dget_dset.
    destruct (decide (k = run_key r)), (decide (k' = run_key r)); intros; simplify_eq;
      [done| | |by eapply (Hex t)].
    - symmetry. by eapply Hnew.
    - by eapply Hnew. }
  split_and!.
  - unfold create. repeat case_match; try done; by apply run_inv_dset.
  - unfold create, dmem. destruct (dget items (run_key r)) eqn:Hk; [done|].
    destruct (run_thread_id r) as [th|] eqn:Hth.
    + destruct (find_active (id_value th) items) eqn:Hf; [done|]. simpl. apply Hset.
      intros t k' r' Hk' Hocc Hocc'. assert (t = id_value th) as ->.
      { unfold occupies in Hocc. rewrite Hth in Hocc. by to_prop. }
      rewrite (proj1 (find_active_None _ _ (proj1 Hinv)) Hf k' r' Hk') in Hocc'. done.
    + simpl. apply Hset. intros t k' r' Hk' Hocc. unfold occupies in Hocc. by rewrite Hth in Hocc.
  - unfold delete. destruct (dget items id); [by apply inv_dpop|done].
  - unfold delete. destruct (dget items id); [|done]. simpl. intros t k k' r1 r2.
    rewrite !dget_dpop by apply Hinv. repeat case_decide; try done. apply Hex.
  - unfold update. destruct (dmem items (run_key r)); [by apply run_inv_dset|done].
  - intros Hold. unfold update, dmem.
    destruct (dget items (run_key r)) as [old|] eqn:Hk; [|done]. simpl. apply Hset.
    intros t k' r' Hk' Hocc Hocc'. eapply (Hex t k' (run_key r) r' old); eauto.
Qed.

Definition example_identity (run thread : string) : ExecutionIdentity :=
  mk_identity (mk_scope (mk_id "w") (mk_id "p") (mk_id "a") (mk_id "r") (mk_id "d"))
    (mk_id "agent") (mk_id run) (mk_id "attempt") (Some (mk_id thread)).
Definition example_run (run thread : string) (s : RunStatus) : Run :=
  mk_run (example_identity run thread) s [] None None JNull None.

Lemma run_repository_exclusive_witness :
  exclusive (create (example_run "r2" "t" PENDING) [("r1", example_run "r1" "t" SUCCESS)]).2.
Proof.
  refine (proj2 (proj1 (run_repository_exclusive
    [("r1", example_run "r1" "t" SUCCESS)] (example_run "r2" "t" PENDING) "r1" _ _))).
  - split; [apply NoDup_singleton|]. intros k r Hk. cbn [dget] in Hk.
    destruct (decide (k = "r1")); by simplify_eq.
  - intros t k k' r r' Hk Hk'. cbn [dget] in *.
    destruct (decide (k = "r1")), (decide (k' = "r1")); by simplify_eq.
Defined.

(** The queries for one thread.  [latest_for_thread] returns a run of the
    thread with the greatest creation time, and nothing exactly when the
    thread has no runs; [list_for_thread] is a page of exactly the thread's
    runs with the requested status, newest first. *)
Lemma run_queries_spec (items : state) (tid : string) (limit offset : Z)
  (status : option string) (Hl : 0 ≤ limit) (Ho : 0 ≤ offset) :
  (∃ o, latest_for_thread tid items = (Ok o, items) ∧
     match o with
     | None => ∀ r, r ∈ dvalues items → on_thread tid r = false
     | Some m => m ∈ dvalues items ∧ on_thread tid m = true ∧
         ∀ r, r ∈ dvalues items → on_thread tid r = true → sort_key r ≤ sort_key m
     end) ∧
  (∃ sorted, list_for_thread tid limit offset status items =
       (Ok (page (Z.to_nat offset) (Z.to_nat limit) sorted), items) ∧
     StronglySorted (λ a b, sort_key b ≤ sort_key a) sorted ∧
     ∀ r, r ∈ sorted ↔ r ∈ dvalues items ∧ on_thread tid r = true ∧
       match status with None => True | Some s => run_status_value (run_status r) = s end).
Proof.
  assert (∀ p (r : Run) l, r ∈ List.filter p l ↔ r ∈ l ∧ p r = true) as Hf.
  { intros p r l. rewrite !list_elem_of_In. apply filter_In. }
  split.
  - eexists. split; [done|]. destruct (max_first _ _) as [m|] eqn:Hm.
    + apply max_first_spec in Hm as [Hin Hmax]. apply Hf in Hin as [? ?].
      split_and!; try done. intros r Hr Ht. apply Hmax. by apply Hf.
    + apply max_first_None in Hm. intros r Hr.
      destruct (on_thread tid r) eqn:Ht; [|done].
      assert (r ∈ List.filter (on_thread tid) (dvalues items)) as Hbad by by apply Hf.
      rewrite Hm in Hbad. by apply not_elem_of_nil in Hbad.
  - eexists. unfold list_for_thread. split; [by rewrite py_slice_page|].
    split; [apply sort_desc_sorted|]. intros r. rewrite sort_desc_perm, Hf, andb_true_iff.
    destruct status; rewrite ?bool_decide_eq_true; naive_solver.
Qed.

Lemma run_queries_spec_witness :
  ∃ o, latest_for_thread "t" [("r1", example_run "r1" "t" SUCCESS)] =
    (Ok o, [("r1", example_run "r1" "t" SUCCESS)]).
Proof.
  destruct (run_queries_spec [("r1", example_run "r1" "t" SUCCESS)] "t" 10 0 None
    ltac:(lia) ltac:(lia)) as [(o & H & _) _].
  exists o. exact H.
Defined.
End Runs.

#[export] Existing Instances Threads.thread_repository Threads.thread_repository_laws
  Runs.run_repository Runs.run_repository_laws.
