(* ===== verification/MemoryQueue.v ===== *)
(** * In-memory run command queue

    [adapters/memory/queue.py].  The heap of [asyncio.PriorityQueue] is the list
    of its entries with [pop_min]; the critical sections contain no suspension
    point, so each operation is one step.  A [receive] on an empty queue would
    wait: it is [None] here. *)

From S2P Require Import Prelude PyDict PyStr Json Errors Identity Execution Ports.

(** [_QueuedCommand]; only the first two fields are compared. *)
Record QueuedCommand : Type := mk_queued {
  qc_priority : Z;
  qc_sequence : Z;
  qc_command : RunCommand;
  qc_delivery_count : Z;
}.

(** [x <= y] of the ordered dataclass. *)
Definition qc_le (x y : QueuedCommand) : bool :=
  (qc_priority x <? qc_priority y) ||
  ((qc_priority x =? qc_priority y) && (qc_sequence x <=? qc_sequence y)).

(** [get_nowait] of the heap: a least entry and the others. *)
Fixpoint pop_min (l : list QueuedCommand) : option (QueuedCommand * list QueuedCommand) :=
  match l with
  | [] => None
  | x :: l =>
      match pop_min l with
      | None => Some (x, l)
      | Some (m, rest) => if qc_le x m then Some (x, l) else Some (m, x :: rest)
      end
  end.

(** [InMemoryPriorityQueue] *)
Record MemoryQueue : Type := mk_memory_queue {
  mq_items : list QueuedCommand;
  mq_sequence : Z;
  mq_closed : bool;
  mq_leases : dict (QueuedCommand * RunCommandReceipt);
  mq_lease_seconds : Z;
  mq_max_retries : Z;
  mq_dead_letters : list RunCommand;
}.

Definition new_memory_queue (lease_seconds max_retries : Z) : MemoryQueue :=
  mk_memory_queue [] 0 false [] lease_seconds max_retries [].

(** [put(_QueuedCommand(-int(command.priority), self._sequence, command, n))]
    followed by the increment of the sequence. *)
Definition mq_put (c : RunCommand) (n : Z) (q : MemoryQueue) : MemoryQueue :=
  mk_memory_queue
    (mq_items q ++ [mk_queued (- priority_int (cmd_priority c)) (mq_sequence q) c n])
    (mq_sequence q + 1) (mq_closed q) (mq_leases q) (mq_lease_seconds q) (mq_max_retries q)
    (mq_dead_letters q).
Definition mq_set_leases (l : dict (QueuedCommand * RunCommandReceipt)) (q : MemoryQueue) :=
  mk_memory_queue (mq_items q) (mq_sequence q) (mq_closed q) l (mq_lease_seconds q)
    (mq_max_retries q) (mq_dead_letters q).
Definition mq_set_items (l : list QueuedCommand) (q : MemoryQueue) :=
  mk_memory_queue l (mq_sequence q) (mq_closed q) (mq_leases q) (mq_lease_seconds q)
    (mq_max_retries q) (mq_dead_letters q).
Definition mq_bury (c : RunCommand) (q : MemoryQueue) :=
  mk_memory_queue (mq_items q) (mq_sequence q) (mq_closed q) (mq_leases q)
    (mq_lease_seconds q) (mq_max_retries q) (mq_dead_letters q ++ [c]).

Definition queue_closed : exn := failure QUEUE_CLOSED "run command queue is closed".
Definition receipt_inactive : exn := failure INVALID_EXECUTION_INPUT "receipt is not active".

Definition mq_publish (c : RunCommand) : Py MemoryQueue unit := λ q,
  if mq_closed q then (Raise queue_closed, q) else (Ok tt, mq_put c 0 q).

(** [publish] of an [ExecutionRequest]. *)
Definition mq_publish_request (id : CommandId) (now : datetime) (r : ExecutionRequest)
  : Py MemoryQueue unit :=
  mq_publish (mk_command id (req_identity r) r (req_priority r) now now).

(** [receive] for the lease identifier it draws and the time it reads. *)
Definition mq_receive (lease : LeaseId) (now : datetime)
  : Py MemoryQueue (option RunCommandReceipt) := λ q,
  if mq_closed q && bool_decide (mq_items q = []) then (Raise queue_closed, q)
  else match pop_min (mq_items q) with
       | None => (Ok None, q)
       | Some (item, rest) =>
           let receipt := mk_receipt (qc_command item) lease (qc_delivery_count item + 1) now
                            (now + seconds (mq_lease_seconds q)) in
           (Ok (Some receipt),
            mq_set_leases (dset (mq_leases q) (id_value lease) (item, receipt))
              (mq_set_items rest q))
       end.

Definition lease_key (r : RunCommandReceipt) : string := id_value (rcp_lease_id r).

Definition mq_acknowledge (r : RunCommandReceipt) : Py MemoryQueue unit := λ q,
  match dget (mq_leases q) (lease_key r) with
  | None => (Raise receipt_inactive, q)
  | Some _ => (Ok tt, mq_set_leases (dpop (mq_leases q) (lease_key r)) q)
  end.

Definition mq_reject (r : RunCommandReceipt) (retryable : bool) : Py MemoryQueue unit := λ q,
  match dget (mq_leases q) (lease_key r) with
  | None => (Raise receipt_inactive, q)
  | Some (item, _) =>
      let q := mq_set_leases (dpop (mq_leases q) (lease_key r)) q in
      if retryable && (rcp_delivery_count r <=? mq_max_retries q)
      then (Ok tt, mq_put (qc_command item) (rcp_delivery_count r) q)
      else (Ok tt, mq_bury (qc_command item) q)
  end.

Definition mq_close : Py MemoryQueue unit := λ q,
  (Ok tt, mk_memory_queue (mq_items q) (mq_sequence q) true (mq_leases q)
            (mq_lease_seconds q) (mq_max_retries q) (mq_dead_letters q)).

Definition mq_pending (q : MemoryQueue) : Z := Z.of_nat (length (mq_items q)).

#[export] Instance memory_run_command_queue : RunCommandQueue MemoryQueue := {
  queue_publish := mq_publish;
  queue_receive := mq_receive;
  queue_acknowledge := mq_acknowledge;
  queue_reject := mq_reject;
}.

(** ** The heap *)

Lemma qc_le_total x y : qc_le x y = false → qc_le y x = true.
Proof. unfold qc_le. rewrite orb_false_iff, andb_false_iff, orb_true_iff, andb_true_iff. lia. Qed.

Lemma qc_le_trans x y z : qc_le x y = true → qc_le y z = true → qc_le x z = true.
Proof. unfold qc_le. rewrite !orb_true_iff, !andb_true_iff. lia. Qed.

Lemma pop_min_None l : pop_min l = None ↔ l = [].
Proof. destruct l as [|x l]; simpl; [done|]. break_all. Qed.

Lemma pop_min_spec l m rest :
  pop_min l = Some (m, rest) →
  Permutation l (m :: rest) ∧ ∀ x, x ∈ rest → qc_le m x = true.
Proof.
  revert m rest. induction l as [|x l IH]; intros m rest; simpl; [done|].
  destruct (pop_min l) as [[m' rest']|] eqn:Hm.
  - destruct (IH m' rest' eq_refl) as [Hp Hle].
    destruct (qc_le x m') eqn:Hx; intros H; simplify_eq.
    + split; [done|]. intros y. rewrite Hp, elem_of_cons.
      intros [->|Hy]; [done|]. eapply qc_le_trans; eauto.
    + split.
      * rewrite Hp. apply Permutation_swap.
      * intros y. rewrite elem_of_cons. intros [->|Hy]; [by apply qc_le_total|by apply Hle].
  - apply pop_min_None in Hm as ->. intros H; simplify_eq. split; [done|set_solver].
Qed.

(** ** Runs of the queue *)

(** What happened to the queue so far: the commands published and those whose
    delivery was acknowledged. *)
Record history : Type := mk_history {
  published : list RunCommand;
  acknowledged : list RunCommand;
}.

(** A receipt that the queue issued and that is still leased. *)
Definition leased (q : MemoryQueue) (r : RunCommandReceipt) : Prop :=
  snd <$> dget (mq_leases q) (lease_key r) = Some r.

(** One operation by any client; lease identifiers are fresh. *)
Inductive mq_step : MemoryQueue * history → MemoryQueue * history → Prop :=
| step_publish q q' h c :
    mq_publish c q = (Ok tt, q') →
    mq_step (q, h) (q', mk_history (published h ++ [c]) (acknowledged h))
| step_receive q q' h lease now r :
    dget (mq_leases q) (id_value lease) = None →
    mq_receive lease now q = (Ok (Some r), q') →
    mq_step (q, h) (q', h)
| step_acknowledge q q' h r :
    leased q r → mq_acknowledge r q = (Ok tt, q') →
    mq_step (q, h) (q', mk_history (published h) (acknowledged h ++ [rcp_command r]))
| step_reject q q' h r retryable :
    leased q r → mq_reject r retryable q = (Ok tt, q') →
    mq_step (q, h) (q', h)
| step_close q q' h : mq_close q = (Ok tt, q') → mq_step (q, h) (q', h).

(** Where the commands are. *)
Definition queued_commands (q : MemoryQueue) : list RunCommand := qc_command <$> mq_items q.
Definition leased_commands (q : MemoryQueue) : list RunCommand :=
  (λ e, rcp_command e.2) <$> dvalues (mq_leases q).

Record mq_inv (q : MemoryQueue) (h : history) : Prop := {
  inv_leases_wf : dict_wf (mq_leases q);
  inv_items x : x ∈ mq_items q →
    qc_priority x = - priority_int (cmd_priority (qc_command x)) ∧
    qc_sequence x < mq_sequence q ∧ 0 ≤ qc_delivery_count x ≤ Z.max 0 (mq_max_retries q);
  inv_sequences : NoDup (qc_sequence <$> mq_items q);
  inv_leases k x r : dget (mq_leases q) k = Some (x, r) →
    lease_key r = k ∧ rcp_command r = qc_command x ∧
    1 ≤ rcp_delivery_count r ≤ Z.max 0 (mq_max_retries q) + 1;
  inv_conserved :
    Permutation (published h)
      (queued_commands q ++ leased_commands q ++ acknowledged h ++ mq_dead_letters q);
}.

Lemma leased_commands_dset q k x r :
  dget (mq_leases q) k = None →
  (λ e, rcp_command e.2) <$> dvalues (dset (mq_leases q) k (x, r)) =
    leased_commands q ++ [rcp_command r].
Proof.
  intros Hk. rewrite dset_fresh by by apply dget_None.
  unfold leased_commands, dvalues. by rewrite !fmap_app.
Qed.

Lemma dpop_perm {V} (d : dict V) k v :
  dget d k = Some v → Permutation (dvalues d) (v :: dvalues (dpop d k)).
Proof.
  unfold dvalues. induction d as [|[k0 v0] d IH]; simpl; [done|].
  destruct (decide (k = k0)); intros; simplify_eq/=; [done|].
  rewrite IH by done. apply Permutation_swap.
Qed.

(** Removing a lease hands its command back. *)
Lemma leased_commands_dpop q r :
  leased q r →
  Permutation (leased_commands q)
    (rcp_command r :: leased_commands (mq_set_leases (dpop (mq_leases q) (lease_key r)) q)).
Proof.
  unfold leased. intros Hl. apply fmap_Some in Hl as ([x r'] & Hk & ->).
  unfold leased_commands. simpl. by rewrite (dpop_perm _ _ _ Hk).
Qed.

Lemma mq_put_inv q h c n extra :
  mq_inv q (mk_history extra (acknowledged h)) → 0 ≤ n ≤ Z.max 0 (mq_max_retries q) →
  Permutation (published h) (c :: extra) → mq_inv (mq_put c n q) h.
Proof.
  intros [Hwf Hi Hs Hl Hc] Hn Hp. constructor; simpl in *; try done.
  - intros x Hx. apply elem_of_app in Hx as [Hx|Hx].
    + destruct (Hi x Hx) as (? & ? & ?). split_and!; try done; lia.
    + apply list_elem_of_singleton in Hx as ->. simpl. split_and!; try done; lia.
  - rewrite fmap_app. apply NoDup_app. split; [done|]. split; [|apply NoDup_singleton].
    intros s Hs'. apply list_elem_of_fmap in Hs' as (x & -> & Hx).
    destruct (Hi x Hx) as (_ & ? & _). intros Hbad.
    apply list_elem_of_singleton in Hbad. simpl in Hbad. lia.
  - rewrite Hp, Hc. unfold queued_commands, leased_commands. simpl.
    rewrite fmap_app. simpl. by rewrite <- app_assoc, Permutation_middle.
Qed.

Lemma mq_unlease_inv q h r :
  mq_inv q h → leased q r →
  ∃ extra, Permutation (published h) (rcp_command r :: extra) ∧
    mq_inv (mq_set_leases (dpop (mq_leases q) (lease_key r)) q)
           (mk_history extra (acknowledged h)).
Proof.
  intros [Hwf Hi Hs Hl Hc] Hr.
  eexists. split.
  - rewrite Hc, (leased_commands_dpop q r Hr).
    rewrite <- app_comm_cons. symmetry. apply Permutation_middle.
  - constructor; simpl; try done; [by apply dpop_wf|].
    intros k x r'. rewrite dget_dpop by done. case_decide; [done|]. apply Hl.
Qed.

Lemma mq_step_inv s s' : mq_inv s.1 s.2 → mq_step s s' → mq_inv s'.1 s'.2.
Proof.
  intros Hinv Hstep. destruct Hstep as [q q' h c H|q q' h l now r Hf H|q q' h r Hr H|q q' h r b Hr H|q q' h H];
    simpl in *.
  - unfold mq_publish in H. destruct (mq_closed q); simplify_eq.
    apply (mq_put_inv q _ c 0 (published h)); simpl; [by destruct h|lia|].
    by rewrite Permutation_app_comm.
  - unfold mq_receive in H. destruct (_ && _); [done|].
    destruct (pop_min _) as [[item rest]|] eqn:Hp; simplify_eq.
    apply pop_min_spec in Hp as [Hp Hle]. destruct Hinv as [Hwf Hi Hs Hl Hc].
    constructor; simpl; [by apply dset_wf| | | |].
    + intros x Hx. apply Hi. rewrite Hp. set_solver.
    + rewrite Hp in Hs. by apply NoDup_cons in Hs as [_ ?].
    + intros k x r'. rewrite dget_dset. case_decide; [|apply Hl].
      intros; simplify_eq. simpl. split_and!; try done.
      all: destruct (Hi x ltac:(rewrite Hp; set_solver)); lia.
    + rewrite Hc. unfold queued_commands, leased_commands at 2. simpl.
      rewrite leased_commands_dset by done. rewrite Hp. simpl.
      rewrite <- app_assoc. simpl.
      by rewrite <- Permutation_middle, <- Permutation_middle.
  - destruct (mq_unlease_inv q h r Hinv Hr) as (extra & Hp & [Hwf Hi Hs Hl Hc]).
    unfold mq_acknowledge in H.
    destruct (dget _ _); simplify_eq. constructor; simpl in *; try done.
    rewrite Hp, Hc, <- !app_assoc. simpl. by rewrite <- !Permutation_middle.
  - destruct (mq_unlease_inv q h r Hinv Hr) as (extra & Hp & Hinv').
    unfold leased in Hr. apply fmap_Some in Hr as ([x r'] & Hk & Hr'). simpl in Hr'. subst r'.
    destruct (inv_leases _ _ Hinv _ _ _ Hk) as (_ & Hc & Hd).
    unfold mq_reject in H. rewrite Hk in H. destruct (b && _) eqn:Hb; simplify_eq.
    + rewrite <- Hc. apply (mq_put_inv _ _ _ _ extra); [done| |done]. to_prop. simpl in *. lia.
    + destruct Hinv' as [Hwf Hi Hs Hl Hcons]. constructor; simpl in *; try done.
      rewrite Hp, Hcons, Hc. rewrite !app_assoc. by rewrite <- Permutation_cons_append.
  - unfold mq_close in H. simplify_eq. destruct Hinv. by constructor.
Qed.

Lemma new_queue_inv ls mr : mq_inv (new_memory_queue ls mr) (mk_history [] []).
Proof. constructor; simpl; try done; try apply NoDup_nil_2. set_solver. Qed.

Definition queue_reachable (ls mr : Z) (s : MemoryQueue * history) : Prop :=
  reachable mq_step (new_memory_queue ls mr, mk_history [] []) s.

Lemma queue_reachable_inv ls mr q h : queue_reachable ls mr (q, h) → mq_inv q h.
Proof.
  intros Hr. apply (reachable_invariant mq_step (λ s, mq_inv s.1 s.2)
    (new_memory_queue ls mr, mk_history [] [])) in Hr; [done| |apply mq_step_inv].
  apply new_queue_inv.
Qed.

Lemma queue_reachable_retries ls mr q h :
  queue_reachable ls mr (q, h) → mq_max_retries q = mr.
Proof.
  intros Hr. apply (reachable_invariant mq_step (λ s, mq_max_retries s.1 = mr)
    (new_memory_queue ls mr, mk_history [] [])) in Hr; [done..|].
  intros s s' <- Hs. destruct Hs as [q0 q' h0 c H|q0 q' h0 l now r Hf H|q0 q' h0 r Hr' H|q0 q' h0 r b Hr' H|q0 q' h0 H];
    unfold mq_publish, mq_receive, mq_acknowledge, mq_reject, mq_close in H;
    repeat case_match; by simplify_eq/=.
Qed.

(** C12: no command is lost or duplicated.  After any sequence of operations by
    any clients, the published commands are exactly those that wait, those that
    are leased, those acknowledged and the dead letters, with multiplicity; and
    no receipt that is out counts more than [max_retries + 1] deliveries. *)
Theorem queue_conserves_commands (lease_seconds max_retries : Z) (q : MemoryQueue) (h : history) :
  0 ≤ max_retries → queue_reachable lease_seconds max_retries (q, h) →
  Permutation (published h)
    (queued_commands q ++ leased_commands q ++ acknowledged h ++ mq_dead_letters q) ∧
  ∀ r, leased q r → 1 ≤ rcp_delivery_count r ≤ max_retries + 1.
Proof.
  intros Hm Hr. pose proof (queue_reachable_inv _ _ _ _ Hr) as Hinv.
  split; [apply Hinv|]. intros r Hl. apply fmap_Some in Hl as ([x r'] & Hk & ->).
  destruct (inv_leases _ _ Hinv _ _ _ Hk) as (_ & _ & Hd).
  rewrite (queue_reachable_retries _ _ _ _ Hr) in Hd. simpl in *. lia.
Qed.

Definition example_command (id : string) (p : QueuePriority) : RunCommand :=
  let i := mk_identity (mk_scope (mk_id "w") (mk_id "p") (mk_id "a") (mk_id "r") (mk_id "d"))
             (mk_id "agent") (mk_id id) (mk_id "attempt") None in
  mk_command (mk_id id) i (default_request i) p 0 0.

Lemma queue_conserves_commands_witness :
  Permutation [example_command "r1" BATCH]
    (queued_commands (mq_put (example_command "r1" BATCH) 0 (new_memory_queue 60 3)) ++ [] ++ [] ++ []).
Proof.
  refine (proj1 (queue_conserves_commands 60 3
    (mq_put (example_command "r1" BATCH) 0 (new_memory_queue 60 3))
    (mk_history [example_command "r1" BATCH] []) ltac:(lia) _)).
  eapply reach_step; [apply reach_init|].
  exact (step_publish (new_memory_queue 60 3) _ (mk_history [] []) (example_command "r1" BATCH) eq_refl).
Defined.

(** C13: delivery order.  A reachable queue hands out a command of the highest
    priority waiting, the earliest published (or re-published) of that priority,
    removes exactly this one, counts the delivery and leases it; it waits exactly
    when it is open and empty and raises [QUEUE_CLOSED] exactly when it is closed
    and empty, so closing still drains what was published. *)
Theorem queue_receive_order ls mr (q : MemoryQueue) (h : history) (lease : LeaseId) (now : datetime) :
  queue_reachable ls mr (q, h) →
  match mq_items q with
  | [] => mq_receive lease now q = ((if mq_closed q then Raise queue_closed else Ok None), q)
  | _ => ∃ x q' r, mq_receive lease now q = (Ok (Some r), q') ∧
      r = mk_receipt (qc_command x) lease (qc_delivery_count x + 1) now
            (now + seconds (mq_lease_seconds q)) ∧
      Permutation (mq_items q) (x :: mq_items q') ∧ leased q' r ∧
      ∀ y, y ∈ mq_items q' →
        priority_int (cmd_priority (qc_command y)) < priority_int (cmd_priority (qc_command x)) ∨
        (cmd_priority (qc_command y) = cmd_priority (qc_command x) ∧ qc_sequence x < qc_sequence y)
  end.
Proof.
  intros Hr. apply queue_reachable_inv in Hr as [_ Hi Hs _ _]. unfold mq_receive.
  destruct (mq_items q) as [|i0 items] eqn:Hitems.
  { simpl. rewrite andb_true_r. by destruct (mq_closed q). }
  rewrite bool_decide_eq_false_2, andb_false_r by done.
  destruct (pop_min (i0 :: items)) as [[x rest]|] eqn:Hpop; [|by apply pop_min_None in Hpop].
  apply pop_min_spec in Hpop as [Hp Hle].
  eexists x, _, _. split; [reflexivity|]. split_and!; [done|done| |].
  { unfold leased, lease_key. simpl. by rewrite dget_dset_eq. }
  simpl. intros y Hy. specialize (Hle y Hy).
  destruct (Hi x) as (Hpx & _); [rewrite Hp; set_solver|].
  destruct (Hi y) as (Hpy & _); [rewrite Hp; set_solver|].
  assert (qc_sequence x ≠ qc_sequence y) as Hne.
  { rewrite Hp in Hs. apply NoDup_cons in Hs as [Hs _]. intros Heq. apply Hs. rewrite Heq.
    by apply list_elem_of_fmap_2. }
  unfold qc_le in Hle. apply orb_true_iff in Hle as [Hlt|Hle]; to_prop; [left; lia|].
  right. split; [|lia]. assert (priority_int (cmd_priority (qc_command x)) =
    priority_int (cmd_priority (qc_command y))) as Heq by lia.
  by destruct (cmd_priority (qc_command x)), (cmd_priority (qc_command y)).
Qed.

(** Of two commands the one that came later and is more urgent. *)
Lemma queue_receive_order_witness :
  let q := mq_put (example_command "r2" INTERACTIVE) 0
             (mq_put (example_command "r1" BATCH) 0 (new_memory_queue 60 3)) in
  ∃ q' r, mq_receive (mk_id "lease") 7 q = (Ok (Some r), q') ∧ rcp_command r = example_command "r2" INTERACTIVE ∧
    qc_command <$> mq_items q' = [example_command "r1" BATCH].
Proof.
  intros q. destruct (queue_receive_order 60 3 q (mk_history [example_command "r1" BATCH; example_command "r2" INTERACTIVE] [])
    (mk_id "lease") 7) as (x & q' & r & Hr & Hrec & Hp & _).
  - eapply reach_step; [eapply reach_step; [apply reach_init|]|].
    + exact (step_publish (new_memory_queue 60 3) _ (mk_history [] []) (example_command "r1" BATCH) eq_refl).
    + exact (step_publish (mq_put (example_command "r1" BATCH) 0 (new_memory_queue 60 3)) _ (mk_history [example_command "r1" BATCH] []) (example_command "r2" INTERACTIVE) eq_refl).
  - exists q', r. split; [exact Hr|]. vm_compute in Hr. injection Hr as <- <-. split; reflexivity.
Defined.
