(* ===== verification/MemoryJournal.v ===== *)
(** * In-memory event journal

    [adapters/memory/events.py]: the per-run event logs, [append] with its
    fan-out to the subscribers' bounded queues, [replay], and [subscribe] as the
    state machine of its generator.  A queue object is named by a number; the
    critical sections contain no suspension point, so an operation, and a
    generator's run from one suspension to the next, is one step. *)

From S2P Require Import Prelude PyDict PyStr Json Errors Identity Execution Ports.

(** [_TERMINAL] *)
Definition TERMINAL : list RuntimeEventType :=
  [RUN_COMPLETED; RUN_CANCELLED; RUN_FAILED; RUN_TIMEOUT; RUN_INTERRUPTED].
Definition is_terminal (e : RuntimeEvent) : bool := type_in (ev_type e) TERMINAL.

(** [InMemoryEventJournal].  [None] in a queue is the end marker. *)
Record Journal : Type := mk_journal {
  j_events : gmap string (list RuntimeEvent);
  j_subscribers : gmap string (gset nat);
  j_overflowed : gset nat;
  j_queues : gmap nat (list (option RuntimeEvent));
  j_next_queue : nat;
  j_queue_size : nat;
}.

(** [__init__] *)
Definition new_journal (queue_size : Z) : res Journal :=
  if queue_size <? 1 then Raise (ValueError "queue_size must be positive")
  else Ok (mk_journal ∅ ∅ ∅ ∅ 0 (Z.to_nat queue_size)).

Definition events_of (key : string) (j : Journal) : list RuntimeEvent :=
  default [] (j_events j !! key).
Definition subscribers_of (key : string) (j : Journal) : gset nat :=
  default ∅ (j_subscribers j !! key).
Definition queue_of (i : nat) (j : Journal) : list (option RuntimeEvent) :=
  default [] (j_queues j !! i).

Definition add_event (key : string) (e : RuntimeEvent) (j : Journal) : Journal :=
  mk_journal (<[key := events_of key j ++ [e]]> (j_events j)) (j_subscribers j)
    (j_overflowed j) (j_queues j) (j_next_queue j) (j_queue_size j).
Definition set_queue (i : nat) (l : list (option RuntimeEvent)) (j : Journal) : Journal :=
  mk_journal (j_events j) (j_subscribers j) (j_overflowed j) (<[i := l]> (j_queues j))
    (j_next_queue j) (j_queue_size j).
Definition set_subscribers (key : string) (s : gset nat) (j : Journal) : Journal :=
  mk_journal (j_events j) (<[key := s]> (j_subscribers j)) (j_overflowed j) (j_queues j)
    (j_next_queue j) (j_queue_size j).
Definition set_overflowed (s : gset nat) (j : Journal) : Journal :=
  mk_journal (j_events j) (j_subscribers j) s (j_queues j) (j_next_queue j) (j_queue_size j).

(** [self._subscribers[key].discard(queue)] *)
Definition discard (key : string) (i : nat) (j : Journal) : Journal :=
  set_subscribers key (subscribers_of key j ∖ {[i]}) j.

(** [if not self._subscribers[key]: self._subscribers.pop(key, None)] *)
Definition drop_empty (key : string) (j : Journal) : Journal :=
  if decide (subscribers_of key j = ∅)
  then mk_journal (j_events j) (delete key (j_subscribers j)) (j_overflowed j) (j_queues j)
         (j_next_queue j) (j_queue_size j)
  else j.

(** [queue.put_nowait(x)]; [None]: [QueueFull]. *)
Definition put_nowait (i : nat) (x : option RuntimeEvent) (j : Journal) : option Journal :=
  if decide (j_queue_size j ≤ length (queue_of i j))%nat then None
  else Some (set_queue i (queue_of i j ++ [x]) j).

(** [_close_queue] *)
Definition close_queue (i : nat) (j : Journal) : Journal :=
  match put_nowait i None j with
  | Some j => j
  | None => set_queue i (drop 1 (queue_of i j) ++ [None]) j
  end.

(** The body of the first loop of [append], and that of the second. *)
Definition offer (key : string) (e : RuntimeEvent) (j : Journal) (i : nat) : Journal :=
  if decide (i ∈ j_overflowed j) then j
  else match put_nowait i (Some e) j with
       | Some j => j
       | None => close_queue i (discard key i (set_overflowed (j_overflowed j ∪ {[i]}) j))
       end.
Definition finish (key : string) (j : Journal) (i : nat) : Journal :=
  close_queue i (discard key i j).

(** [append] *)
Definition append (id : EventId) (now : datetime) (d : RuntimeEventDraft)
  : Py Journal RuntimeEvent := λ j,
  let key := id_value (run_id (draft_identity d)) in
  let e := mk_event id (Z.of_nat (length (events_of key j))) now (draft_identity d)
             (draft_type d) (draft_namespace d) (draft_data d) (draft_native d)
             (mk_trace None None) 1 in
  let j := add_event key e j in
  let subscribers := elements (subscribers_of key j) in
  let j := foldl (offer key e) j subscribers in
  let j := if is_terminal e then foldl (finish key) j subscribers else j in
  (Ok e, drop_empty key j).

Definition cursor_invalid : exn :=
  failure STREAM_CURSOR_INVALID "sequence cursor must be >= -1".
Definition after (n : Z) (l : list RuntimeEvent) : list RuntimeEvent :=
  filter (λ e, n < ev_sequence e) l.

(** [replay] *)
Definition replay (key : string) (after_sequence : Z) : Py Journal (list RuntimeEvent) := λ j,
  if after_sequence <? -1 then (Raise cursor_invalid, j)
  else (Ok (after after_sequence (events_of key j)), j).

(** ** The generator of [subscribe] *)

Inductive phase : Type :=
| Initial (rest : list RuntimeEvent) (terminal : bool)
| Streaming
| Finished.

Inductive outcome : Type := Yielded (e : RuntimeEvent) | Stopped | Waiting.

(** Up to the [try]: the new queue and what is replayed first. *)
Definition sub_start (key : string) (after_sequence : Z) : Py Journal (nat * phase) := λ j,
  if after_sequence <? -1 then (Raise cursor_invalid, j)
  else
    let i := j_next_queue j in
    let j := mk_journal (j_events j) (j_subscribers j) (j_overflowed j)
               (<[i := []]> (j_queues j)) (S i) (j_queue_size j) in
    let initial := after after_sequence (events_of key j) in
    let terminal := existsb is_terminal initial in
    (Ok (i, Initial initial terminal),
     if terminal then j else set_subscribers key (subscribers_of key j ∪ {[i]}) j).

(** The [finally] clause. *)
Definition sub_cleanup (key : string) (i : nat) (j : Journal) : Journal :=
  let j := discard key i j in
  drop_empty key (set_overflowed (j_overflowed j ∖ {[i]}) j).

(** [received = await queue.get()] and what the loop does with it. *)
Definition sub_live (key : string) (i : nat) : Py Journal (outcome * phase) := λ j,
  match queue_of i j with
  | [] => (Ok (Waiting, Streaming), j)
  | None :: l => (Ok (Stopped, Finished), sub_cleanup key i (set_queue i l j))
  | Some e :: l => (Ok (Yielded e, Streaming), set_queue i l j)
  end.

(** From one suspension to the next. *)
Definition sub_next (key : string) (i : nat) (p : phase) : Py Journal (outcome * phase) := λ j,
  match p with
  | Initial (e :: rest) terminal => (Ok (Yielded e, Initial rest terminal), j)
  | Initial [] true => (Ok (Stopped, Finished), sub_cleanup key i j)
  | Initial [] false | Streaming => sub_live key i j
  | Finished => (Ok (Stopped, Finished), j)
  end.

#[export] Instance memory_event_journal : EventJournal Journal := { journal_append := append }.
#[export] Program Instance memory_event_journal_laws : EventJournalLaws Journal.
Next Obligation. intros s id now d e s' H. simpl in H. unfold append in H. by simplify_eq. Qed.
Next Obligation. intros s id now d. simpl. unfold append. eauto. Qed.

(** ** The effect of [append] on one queue *)

Abbreviation registered key i j := (i ∈ subscribers_of key j).

Lemma subscribers_of_set k s j k' :
  subscribers_of k' (set_subscribers k s j) = if decide (k' = k) then s else subscribers_of k' j.
Proof. unfold subscribers_of. simpl. rewrite lookup_insert. by repeat case_decide. Qed.

Lemma queue_of_set i l j i' :
  queue_of i' (set_queue i l j) = if decide (i' = i) then l else queue_of i' j.
Proof. unfold queue_of. simpl. rewrite lookup_insert. by repeat case_decide. Qed.

Lemma subscribers_of_discard k i j k' :
  subscribers_of k' (discard k i j) =
    if decide (k' = k) then subscribers_of k j ∖ {[i]} else subscribers_of k' j.
Proof. apply subscribers_of_set. Qed.
Lemma subscribers_of_set_queue k i l j : subscribers_of k (set_queue i l j) = subscribers_of k j.
Proof. done. Qed.
Lemma subscribers_of_set_overflowed k s j : subscribers_of k (set_overflowed s j) = subscribers_of k j.
Proof. done. Qed.
Lemma queue_of_discard k i j i' : queue_of i' (discard k i j) = queue_of i' j.
Proof. done. Qed.
Lemma queue_of_set_overflowed s j i : queue_of i (set_overflowed s j) = queue_of i j.
Proof. done. Qed.
#[local] Hint Rewrite subscribers_of_discard subscribers_of_set_queue subscribers_of_set_overflowed
  queue_of_discard queue_of_set_overflowed queue_of_set : journal.

Lemma subscribers_of_drop_empty k k' j :
  subscribers_of k' (drop_empty k j) = subscribers_of k' j.
Proof.
  unfold drop_empty. destruct (decide _) as [He|]; [|done].
  unfold subscribers_of in *. simpl. rewrite lookup_delete. case_decide; [subst; by rewrite He|done].
Qed.
Lemma queue_of_drop_empty k i j : queue_of i (drop_empty k j) = queue_of i j.
Proof. unfold drop_empty. by case_decide. Qed.
Lemma overflowed_drop_empty k j : j_overflowed (drop_empty k j) = j_overflowed j.
Proof. unfold drop_empty. by case_decide. Qed.
Lemma events_of_drop_empty k k' j : events_of k' (drop_empty k j) = events_of k' j.
Proof. unfold drop_empty. by case_decide. Qed.

(** A queue as [append] on its run sees it: its content, and whether it has
    overflowed and is registered. *)
Definition view : Type := list (option RuntimeEvent) * bool * bool.
Definition local (key : string) (i : nat) (j : Journal) : view :=
  (queue_of i j, bool_decide (i ∈ j_overflowed j), bool_decide (i ∈ subscribers_of key j)).

Definition close_view (n : nat) (q : list (option RuntimeEvent)) : list (option RuntimeEvent) :=
  (if decide (n ≤ length q)%nat then drop 1 q else q) ++ [None].
Definition offer_view (e : RuntimeEvent) (n : nat) (v : view) : view :=
  let '(q, o, r) := v in
  if o then v
  else if decide (n ≤ length q)%nat then (close_view n q, true, false)
  else (q ++ [Some e], o, r).
Definition finish_view (n : nat) (v : view) : view :=
  let '(q, o, r) := v in (close_view n q, o, false).

(** What the fan-out for one run leaves alone. *)
Record frame (key : string) (j j' : Journal) : Prop := {
  frame_events : j_events j' = j_events j;
  frame_next : j_next_queue j' = j_next_queue j;
  frame_size : j_queue_size j' = j_queue_size j;
  frame_subscribers k : k ≠ key → subscribers_of k j' = subscribers_of k j;
}.

#[export] Instance frame_preorder key : PreOrder (frame key).
Proof.
  split; [by constructor|].
  intros j1 j2 j3 [H1 H2 H3 H4] [H1' H2' H3' H4']. constructor; try congruence.
  intros k Hk. rewrite H4', H4; done.
Qed.

Lemma close_queue_eq i j : close_queue i j = set_queue i (close_view (j_queue_size j) (queue_of i j)) j.
Proof. unfold close_queue, put_nowait, close_view. by case_decide. Qed.

Lemma offer_spec key e j i :
  frame key j (offer key e j i) ∧
  ∀ i', local key i' (offer key e j i) =
    if decide (i' = i) then offer_view e (j_queue_size j) (local key i j) else local key i' j.
Proof.
  unfold offer, local, offer_view. destruct (decide (i ∈ j_overflowed j)).
  { split; [done|]. intros i'. rewrite (bool_decide_eq_true_2 (i ∈ _)) by done.
    case_decide; [subst; by rewrite bool_decide_eq_true_2|done]. }
  rewrite (bool_decide_eq_false_2 (i ∈ _)) by done. unfold put_nowait.
  destruct (decide (j_queue_size j ≤ _)%nat); rewrite ?close_queue_eq; split.
  - constructor; try done. intros k Hk.
    autorewrite with journal. by rewrite decide_False.
  - intros i'. autorewrite with journal. simpl. rewrite (decide_True (P := key = key)) by done.
    case_decide; [subst; f_equal; [f_equal|]|].
    + apply bool_decide_eq_true. set_solver.
    + apply bool_decide_eq_false. set_solver.
    + f_equal; [f_equal|]; apply bool_decide_ext; set_solver.
  - by constructor.
  - intros i'. autorewrite with journal. simpl.
    case_decide; [subst; by rewrite (bool_decide_eq_false_2 (i ∈ j_overflowed j))|done].
Qed.

Lemma finish_spec key j i :
  frame key j (finish key j i) ∧
  ∀ i', local key i' (finish key j i) =
    if decide (i' = i) then finish_view (j_queue_size j) (local key i j) else local key i' j.
Proof.
  unfold finish, local, finish_view. rewrite close_queue_eq. split.
  - constructor; try done. intros k Hk.
    autorewrite with journal. by rewrite decide_False.
  - intros i'. autorewrite with journal. simpl. rewrite (decide_True (P := key = key)) by done.
    case_decide; [subst; f_equal|f_equal].
    + apply bool_decide_eq_false. set_solver.
    + apply bool_decide_ext; set_solver.
Qed.

(** Folding a local action over distinct queues acts on each once. *)
Lemma foldl_local key (f : Journal → nat → Journal) (g : nat → view → view) :
  (∀ j i, frame key j (f j i) ∧
     ∀ i', local key i' (f j i) =
       if decide (i' = i) then g (j_queue_size j) (local key i j) else local key i' j) →
  ∀ l j, NoDup l →
    frame key j (foldl f j l) ∧
    ∀ i, local key i (foldl f j l) =
      if decide (i ∈ l) then g (j_queue_size j) (local key i j) else local key i j.
Proof.
  intros Hf l. induction l as [|i0 l IH]; intros j Hl; simpl.
  { done. }
  apply NoDup_cons in Hl as [Hn Hl].
  destruct (Hf j i0) as [Hfr Hloc], (IH (f j i0) Hl) as [Hfr' Hloc'].
  split; [by etransitivity|]. intros i. rewrite Hloc', (frame_size _ _ _ Hfr), Hloc.
  destruct (decide (i = i0)) as [->|].
  - rewrite decide_False by done. by rewrite decide_True by set_solver.
  - destruct (decide (i ∈ l)); [rewrite decide_True by set_solver|rewrite decide_False by set_solver]; done.
Qed.

(** What [append] does to the queue [i]. *)
Definition append_view (e : RuntimeEvent) (n : nat) (v : view) : view :=
  if is_terminal e then finish_view n (offer_view e n v) else offer_view e n v.

Lemma append_spec id now d j e j' :
  append id now d j = (Ok e, j') →
  let key := id_value (run_id (draft_identity d)) in
  ev_sequence e = Z.of_nat (length (events_of key j)) ∧
  ev_identity e = draft_identity d ∧ ev_type e = draft_type d ∧
  frame key (add_event key e j) j' ∧
  ∀ i, local key i j' =
    if decide (registered key i j) then append_view e (j_queue_size j) (local key i j)
    else local key i j.
Proof.
  intros H key. unfold append in H. injection H as He Hj. rewrite He in Hj.
  subst j'. fold key. set (j0 := add_event key e j).
  set (l := elements (subscribers_of key j0)).
  assert (NoDup l) as Hl by apply NoDup_elements.
  destruct (foldl_local key (offer key e) (offer_view e) (offer_spec key e) l j0 Hl) as [Hfr Hloc].
  destruct (foldl_local key (finish key) finish_view (finish_spec key) l
              (foldl (offer key e) j0 l) Hl) as [Hfr' Hloc'].
  split_and!; [by subst e..| |].
  - transitivity (if is_terminal e then foldl (finish key) (foldl (offer key e) j0 l) l
                  else foldl (offer key e) j0 l).
    + destruct (is_terminal e); [by etransitivity|done].
    + constructor; try (unfold drop_empty; by case_decide).
      intros k _. apply subscribers_of_drop_empty.
  - intros i. unfold append_view.
    change (local key i j) with (local key i j0).
    assert (∀ x, local key i (drop_empty key x) = local key i x) as Hde.
    { intros x. unfold local. by rewrite queue_of_drop_empty, overflowed_drop_empty,
        subscribers_of_drop_empty. }
    assert (i ∈ l ↔ registered key i j) as Hreg by (unfold l; set_solver).
    rewrite Hde. destruct (is_terminal e).
    + rewrite Hloc', Hloc, (frame_size _ _ _ Hfr). repeat case_decide; tauto || done.
    + rewrite Hloc. repeat case_decide; tauto || done.
Qed.

Lemma bool_decide_eq_iff (P Q : Prop) `{Decision P, Decision Q} :
  bool_decide P = bool_decide Q → (P ↔ Q).
Proof. intros H1. by rewrite <- (bool_decide_eq_true P), H1, bool_decide_eq_true. Qed.

(** A queue that is not registered for the run is not touched. *)
Lemma append_other id now d j e j' i :
  append id now d j = (Ok e, j') →
  ¬ registered (id_value (run_id (draft_identity d))) i j →
  queue_of i j' = queue_of i j ∧ (i ∈ j_overflowed j' ↔ i ∈ j_overflowed j) ∧
  ∀ k, registered k i j' ↔ registered k i j.
Proof.
  intros H Hn. apply append_spec in H as (_ & _ & _ & Hfr & Hloc).
  set (key := id_value _) in *. specialize (Hloc i). rewrite decide_False in Hloc by done.
  unfold local in Hloc. injection Hloc as Hq Ho Hr.
  split_and!; [done|exact (bool_decide_eq_iff _ _ Ho)|]. intros k.
  destruct (decide (k = key)) as [->|Hk].
  - exact (bool_decide_eq_iff _ _ Hr).
  - by rewrite (frame_subscribers _ _ _ Hfr k Hk).
Qed.

(** ** Runs of the journal and its subscriptions *)

Record Subscription : Type := mk_sub {
  s_key : string;
  (** the length of the log before the first event it is due *)
  s_base : nat;
  s_phase : phase;
  s_delivered : list RuntimeEvent;
  (** an event was published when the queue had no room for it and its end marker *)
  s_lagged : bool;
}.

Record System : Type := mk_system {
  sys_journal : Journal;
  sys_subs : gmap nat Subscription;
}.

(** Does this append meet the subscription with too little room? *)
Definition no_room (e : RuntimeEvent) (j : Journal) (i : nat) (s : Subscription) : bool :=
  bool_decide (registered (id_value (run_id (ev_identity e))) i j) &&
  bool_decide (j_queue_size j ≤ length (queue_of i j) + (if is_terminal e then 1 else 0))%nat.
Definition note_lag (e : RuntimeEvent) (j : Journal) (i : nat) (s : Subscription) : Subscription :=
  mk_sub (s_key s) (s_base s) (s_phase s) (s_delivered s) (s_lagged s || no_room e j i s).

(** What a subscription becomes by a step of its generator. *)
Definition advance (s : Subscription) (o : outcome) (p : phase) : Subscription :=
  mk_sub (s_key s) (s_base s) p
    (s_delivered s ++ match o with Yielded e => [e] | _ => [] end) (s_lagged s).

Inductive sys_step : System → System → Prop :=
| sys_append j subs id now d e j' :
    append id now d j = (Ok e, j') →
    sys_step (mk_system j subs)
             (mk_system j' (map_imap (λ i s, Some (note_lag e j i s)) subs))
| sys_start j subs key n i p j' :
    sub_start key n j = (Ok (i, p), j') →
    sys_step (mk_system j subs) (mk_system j'
      (<[i := mk_sub key (Nat.min (Z.to_nat (n + 1)) (length (events_of key j))) p [] false]> subs))
| sys_next j subs i s o p j' :
    subs !! i = Some s →
    sub_next (s_key s) i (s_phase s) j = (Ok (o, p), j') →
    sys_step (mk_system j subs)
      (mk_system j' (<[i := advance s o p]> subs))
| sys_close j subs i s :
    subs !! i = Some s →
    sys_step (mk_system j subs) (mk_system (sub_cleanup (s_key s) i j) (delete i subs)).

(** The log of a run: numbered from zero without gaps, events of that run. *)
Definition logs_ok (j : Journal) : Prop :=
  ∀ key n e, events_of key j !! n = Some e →
    ev_sequence e = Z.of_nat n ∧ id_value (run_id (ev_identity e)) = key.

Lemma events_of_add key e j k :
  events_of k (add_event key e j) = if decide (k = key) then events_of key j ++ [e] else events_of k j.
Proof. unfold events_of, add_event. simpl. rewrite lookup_insert. by repeat case_decide. Qed.

Lemma append_events id now d j e j' k :
  append id now d j = (Ok e, j') →
  events_of k j' = if decide (k = id_value (run_id (draft_identity d)))
                   then events_of k j ++ [e] else events_of k j.
Proof.
  intros H. apply append_spec in H as (_ & _ & _ & Hfr & _).
  unfold events_of at 1. rewrite (frame_events _ _ _ Hfr).
  change (events_of k (add_event (id_value (run_id (draft_identity d))) e j) =
    if decide (k = id_value (run_id (draft_identity d))) then events_of k j ++ [e] else events_of k j).
  rewrite events_of_add. case_decide; by subst.
Qed.

Lemma append_logs_ok id now d j e j' : append id now d j = (Ok e, j') → logs_ok j → logs_ok j'.
Proof.
  intros H Hok key n e'. rewrite (append_events _ _ _ _ _ _ _ H).
  apply append_spec in H as (Hs & Hi & _). case_decide as Hk; [|apply Hok].
  intros Hn. apply lookup_app_Some in Hn as [Hn|[Hl Hn]]; [by apply Hok|].
  apply list_lookup_singleton_Some in Hn as [Hn ->]. subst key. rewrite Hs, Hi.
  split; [lia|done].
Qed.

(** The events a subscription is due. *)
Definition due (j : Journal) (s : Subscription) : list RuntimeEvent :=
  drop (s_base s) (events_of (s_key s) j).

(** A subscription that waits for live events, [rest] being still to replay:
    the queue holds what is missing, with the end marker once it is closed. *)
Definition live_ok (j : Journal) (i : nat) (s : Subscription) (rest : list RuntimeEvent) : Prop :=
  i ∉ j_overflowed j ∧ ∃ l,
    (registered (s_key s) i j ∧ queue_of i j = Some <$> l ∧
       s_delivered s ++ rest ++ l = due j s) ∨
    (¬ registered (s_key s) i j ∧ queue_of i j = (Some <$> l) ++ [None] ∧
       (s_delivered s ++ rest ++ l) `prefix_of` due j s ∧
       existsb is_terminal (s_delivered s ++ rest ++ l) = true).

Definition sub_ok (j : Journal) (i : nat) (s : Subscription) : Prop :=
  (s_base s ≤ length (events_of (s_key s) j))%nat ∧
  (∀ k, registered k i j → k = s_key s) ∧
  match s_phase s with
  | Initial rest true =>
      ¬ registered (s_key s) i j ∧ (s_delivered s ++ rest) `prefix_of` due j s ∧
      existsb is_terminal (s_delivered s ++ rest) = true
  | Initial rest false => s_lagged s = false → live_ok j i s rest
  | Streaming => s_lagged s = false → live_ok j i s []
  | Finished => s_lagged s = false →
      s_delivered s `prefix_of` due j s ∧ existsb is_terminal (s_delivered s) = true
  end.

Record sys_inv (st : System) : Prop := {
  si_logs : logs_ok (sys_journal st);
  si_fresh i : is_Some (sys_subs st !! i) ∨ i ∈ j_overflowed (sys_journal st) ∨
    (∃ k, registered k i (sys_journal st)) → (i < j_next_queue (sys_journal st))%nat;
  si_subs i s : sys_subs st !! i = Some s → sub_ok (sys_journal st) i s;
}.

Lemma after_numbered n m l : -1 ≤ n → (∀ i e, l !! i = Some e → ev_sequence e = Z.of_nat (m + i)) →
  after n l = drop (Z.to_nat (n + 1) - m) l.
Proof.
  intros Hn. revert m. induction l as [|e l IH]; intros m Hl; [by rewrite drop_nil|].
  unfold after. rewrite filter_cons. pose proof (Hl 0%nat e eq_refl) as He.
  rewrite Nat.add_0_r in He. fold (after n l).
  rewrite (IH (S m)) by (intros i e' Hi; rewrite (Hl (S i) e' Hi); lia).
  case_decide as Hc.
  - replace (Z.to_nat (n + 1) - S m)%nat with 0%nat by lia.
    by replace (Z.to_nat (n + 1) - m)%nat with 0%nat by lia.
  - by replace (Z.to_nat (n + 1) - m)%nat with (S (Z.to_nat (n + 1) - S m)) by lia.
Qed.

Lemma after_drop n j key :
  logs_ok j → -1 ≤ n → after n (events_of key j) = drop (Z.to_nat (n + 1)) (events_of key j).
Proof.
  intros Hok Hn. rewrite (after_numbered n 0) by (done || intros i e Hi; by apply (Hok key)).
  by rewrite Nat.sub_0_r.
Qed.

Lemma append_registered id now d j e j' k i :
  append id now d j = (Ok e, j') → registered k i j' → registered k i j.
Proof.
  intros H. pose proof (append_spec _ _ _ _ _ _ H) as (_ & _ & _ & Hfr & Hloc).
  destruct (decide (registered (id_value (run_id (draft_identity d))) i j)) as [Hr|Hr].
  - destruct (decide (k = id_value (run_id (draft_identity d)))) as [->|Hk]; [done|].
    by rewrite (frame_subscribers _ _ _ Hfr k Hk).
  - apply (append_other _ _ _ _ _ _ i H Hr).
Qed.

(** An append that finds room puts the event, then the end marker, at the end. *)
Lemma append_room id now d j e j' i :
  append id now d j = (Ok e, j') →
  registered (id_value (run_id (draft_identity d))) i j → i ∉ j_overflowed j →
  (length (queue_of i j) + (if is_terminal e then 1 else 0) < j_queue_size j)%nat →
  i ∉ j_overflowed j' ∧
  queue_of i j' = queue_of i j ++ Some e :: (if is_terminal e then [None] else []) ∧
  (registered (id_value (run_id (draft_identity d))) i j' ↔ is_terminal e = false).
Proof.
  intros H Hr Ho Hl. apply append_spec in H as (_ & _ & _ & _ & Hloc).
  specialize (Hloc i). rewrite decide_True in Hloc by done.
  unfold append_view, local, offer_view, finish_view, close_view in Hloc.
  rewrite (bool_decide_eq_false_2 (i ∈ j_overflowed j)) in Hloc by done.
  rewrite (bool_decide_eq_true_2 (registered _ i j)) in Hloc by done.
  destruct (is_terminal e).
  - rewrite decide_False in Hloc by lia. rewrite decide_False in Hloc by (rewrite length_app; simpl; lia).
    injection Hloc as Hq Ho' Hr'. apply bool_decide_eq_false in Ho', Hr'.
    rewrite <- app_assoc in Hq. done.
  - rewrite decide_False in Hloc by lia. injection Hloc as Hq Ho' Hr'.
    apply bool_decide_eq_false in Ho'. apply bool_decide_eq_true in Hr'. done.
Qed.

(** The log only grows, so what is due only grows. *)
Lemma append_due id now d j e j' s :
  append id now d j = (Ok e, j') → (s_base s ≤ length (events_of (s_key s) j))%nat →
  due j' s = due j s ++ (if decide (s_key s = id_value (run_id (draft_identity d)))
                         then [e] else []).
Proof.
  intros H Hb. unfold due. rewrite (append_events _ _ _ _ _ _ _ H).
  destruct (decide _); [|by rewrite app_nil_r].
  by rewrite drop_app_le.
Qed.

Lemma append_live_ok id now d j e j' i s rest :
  append id now d j = (Ok e, j') → (s_base s ≤ length (events_of (s_key s) j))%nat →
  (∀ k, registered k i j → k = s_key s) → no_room e j i s = false →
  live_ok j i s rest → live_ok j' i (note_lag e j i s) rest.
Proof.
  intros H Hb Hown Hroom (Ho & l & Hl).
  pose proof (append_spec _ _ _ _ _ _ H) as (_ & Hid & _).
  pose proof (append_due _ _ _ _ _ _ s H Hb) as Hdue.
  unfold live_ok. change (due j' (note_lag e j i s)) with (due j' s). simpl.
  set (key := id_value (run_id (draft_identity d))) in *.
  destruct (decide (registered key i j)) as [Hk|Hk].
  - assert (s_key s = key) as Hkey by (symmetry; by apply Hown).
    destruct Hl as [(Hr & Hq & Hd)|(Hr & _)]; [|by rewrite Hkey in Hr].
    unfold no_room in Hroom. rewrite Hid in Hroom.
    apply andb_false_iff in Hroom as [Hroom|Hroom]; apply bool_decide_eq_false in Hroom; [done|].
    destruct (append_room _ _ _ _ _ _ i H Hk Ho ltac:(lia)) as (Ho' & Hq' & Hr').
    split; [done|]. exists (l ++ [e]). fold key in Hr'. rewrite Hkey in *.
    rewrite decide_True in Hdue by done.
    rewrite Hq', Hq, Hdue, fmap_app, !app_assoc, <- (app_assoc _ rest), Hd.
    destruct (is_terminal e) eqn:Ht; [right|left].
    + split_and!; [intros Hbad; by apply Hr' in Hbad|by rewrite <- app_assoc|done|].
      rewrite existsb_app. simpl. rewrite Ht. apply orb_true_r.
    + split_and!; [by apply Hr'|done|done].
  - destruct (append_other _ _ _ _ _ _ i H Hk) as (Hq & Ho' & Hr').
    split; [by rewrite Ho'|]. exists l. rewrite Hr', Hq, Hdue.
    destruct Hl as [(Hr & Hq0 & Hd)|(Hr & Hq0 & Hd & Ht)]; [left|right].
    + rewrite decide_False by (intros Heq; rewrite Heq in Hr; done). by rewrite app_nil_r.
    + split_and!; try done. by apply prefix_app_r.
Qed.

Lemma append_sub_ok id now d j e j' i s :
  append id now d j = (Ok e, j') → sub_ok j i s → sub_ok j' i (note_lag e j i s).
Proof.
  intros H (Hb & Hown & Hs).
  pose proof (append_due _ _ _ _ _ _ s H Hb) as Hdue.
  split; [|split].
  { simpl. rewrite (append_events _ _ _ _ _ _ _ H). destruct (decide _); [rewrite length_app|]; lia. }
  { intros k Hk. by apply Hown, (append_registered _ _ _ _ _ _ _ _ H). }
  change (due j' (note_lag e j i s)) with (due j' s). simpl.
  destruct (s_phase s) as [rest [|]| |] eqn:Hph.
  - destruct Hs as (Hr & Hp & Ht). split_and!; [|by rewrite Hdue; apply prefix_app_r|done].
    intros Hk. by apply Hr, (append_registered _ _ _ _ _ _ _ _ H).
  - intros Hl. apply orb_false_iff in Hl as [Hl Hroom].
    apply (append_live_ok id now d); auto.
  - intros Hl. apply orb_false_iff in Hl as [Hl Hroom].
    apply (append_live_ok id now d); auto.
  - intros Hl. apply orb_false_iff in Hl as [Hl _]. destruct (Hs Hl).
    split; [by rewrite Hdue; apply prefix_app_r|done].
Qed.

(** Steps of other subscriptions that leave the queue, the log and the
    registrations alone. *)
Lemma sub_ok_ext j j' i s :
  j_events j' = j_events j → queue_of i j' = queue_of i j →
  (i ∈ j_overflowed j' ↔ i ∈ j_overflowed j) → (∀ k, registered k i j' ↔ registered k i j) →
  sub_ok j i s → sub_ok j' i s.
Proof.
  intros He Hq Ho Hr (Hb & Hown & Hs).
  assert (∀ rest, live_ok j i s rest → live_ok j' i s rest) as Hlive.
  { intros rest (Hn & l & Hl). unfold live_ok, due, events_of. rewrite He, Hq, Ho.
    split; [done|]. exists l. by rewrite Hr. }
  unfold sub_ok, due, events_of. rewrite He.
  split_and!; [done|intros k; rewrite Hr; apply Hown|].
  destruct (s_phase s) as [rest [|]| |]; rewrite ?Hr; auto.
Qed.

Lemma sub_cleanup_spec key i j :
  j_events (sub_cleanup key i j) = j_events j ∧
  j_next_queue (sub_cleanup key i j) = j_next_queue j ∧
  (∀ i', queue_of i' (sub_cleanup key i j) = queue_of i' j) ∧
  (∀ i', i' ∈ j_overflowed (sub_cleanup key i j) ↔ i' ∈ j_overflowed j ∧ i' ≠ i) ∧
  (∀ k i', registered k i' (sub_cleanup key i j) ↔
     registered k i' j ∧ (k = key → i' ≠ i)).
Proof.
  unfold sub_cleanup. set (j1 := discard key i j).
  split_and!.
  - unfold drop_empty; by case_decide.
  - unfold drop_empty; by case_decide.
  - intros i'. by rewrite queue_of_drop_empty.
  - intros i'. rewrite overflowed_drop_empty. simpl. set_solver.
  - intros k i'. rewrite subscribers_of_drop_empty, subscribers_of_set_overflowed.
    unfold j1. rewrite subscribers_of_discard. case_decide; [subst; set_solver|naive_solver].
Qed.

Lemma sub_cleanup_other key i j i' s :
  i' ≠ i → sub_ok j i' s → sub_ok (sub_cleanup key i j) i' s.
Proof.
  intros Hne. destruct (sub_cleanup_spec key i j) as (He & _ & Hq & Ho & Hr).
  apply sub_ok_ext; [done|by rewrite Hq|rewrite Ho; tauto|intros k; rewrite Hr; tauto].
Qed.

Lemma set_queue_other i l j i' s : i' ≠ i → sub_ok j i' s → sub_ok (set_queue i l j) i' s.
Proof.
  intros Hne. apply sub_ok_ext; [done|by rewrite queue_of_set, decide_False|done|done].
Qed.

(** Starting a subscription. *)
Lemma sub_start_inv st key n i p j' :
  sys_inv st → sub_start key n (sys_journal st) = (Ok (i, p), j') →
  sys_inv (mk_system j'
    (<[i := mk_sub key (Nat.min (Z.to_nat (n + 1)) (length (events_of key (sys_journal st))))
              p [] false]> (sys_subs st))).
Proof.
  intros [Hlogs Hfresh Hsubs] H. destruct st as [j subs]; simpl in *.
  unfold sub_start in H. destruct (n <? -1) eqn:Hn; [done|]. to_prop.
  set (j1 := mk_journal _ _ _ _ _ _) in H.
  change (events_of key j1) with (events_of key j) in H.
  rewrite after_drop in H by (done || lia).
  set (initial := drop _ _) in H.
  assert (∀ k, ¬ registered k (j_next_queue j) j) as Hnew.
  { intros k Hk. specialize (Hfresh (j_next_queue j) ltac:(eauto)). lia. }
  assert (j_next_queue j ∉ j_overflowed j) as Hnewo.
  { intros Hk. specialize (Hfresh (j_next_queue j) ltac:(eauto)). lia. }
  injection H as <- <- Hj. set (t := existsb is_terminal initial) in *.
  assert (j_events j' = j_events j ∧ j_next_queue j' = S (j_next_queue j) ∧
    j_overflowed j' = j_overflowed j ∧
    (∀ i', queue_of i' j' = if decide (i' = j_next_queue j) then [] else queue_of i' j) ∧
    ∀ k i', registered k i' j' ↔ registered k i' j ∨ (t = false ∧ k = key ∧ i' = j_next_queue j))
    as (He & Hnx & Hov & Hq & Hreg).
  { subst j'. split_and!; try by destruct t.
    - intros i'. destruct t; unfold queue_of; simpl; rewrite lookup_insert; by repeat case_decide.
    - intros k i'. destruct t; [change (subscribers_of k j1) with (subscribers_of k j); naive_solver|].
      rewrite subscribers_of_set. change (subscribers_of ?x j1) with (subscribers_of x j).
      destruct (decide (k = key)); subst; set_solver. }
  clear Hj. constructor; simpl.
  - intros k m e. unfold events_of. rewrite He. apply Hlogs.
  - intros i'. rewrite Hov, Hnx, lookup_insert_is_Some. intros [[->|[_ H]]|[H|[k H]]]; [lia| | |].
    1,2: specialize (Hfresh i'); naive_solver lia.
    apply Hreg in H as [H|(_ & _ & ->)]; [|lia]. specialize (Hfresh i' ltac:(eauto)). lia.
  - intros i' s. rewrite lookup_insert_Some. intros [[<- <-]|[Hne Hs]].
    + assert (due j' (mk_sub key (Nat.min (Z.to_nat (n + 1)) (length (events_of key j)))
        (Initial initial t) [] false) = initial) as Hdue.
      { unfold due, events_of. simpl. rewrite He. fold (events_of key j). unfold initial.
        destruct (decide (Z.to_nat (n + 1) ≤ length (events_of key j))%nat).
        - by rewrite Nat.min_l.
        - rewrite Nat.min_r by lia. by rewrite !drop_ge by lia. }
      split_and!; simpl.
      * unfold events_of. rewrite He. fold (events_of key j). lia.
      * intros k Hk. apply Hreg in Hk as [Hk|Hk]; [by apply Hnew in Hk|tauto].
      * rewrite Hdue. destruct t eqn:Ht; [|intros _].
        -- split_and!; [rewrite Hreg; naive_solver|done|done].
        -- unfold live_ok. rewrite Hov, Hdue, Hq, decide_True by done. simpl.
           split; [done|]. exists []. left. split_and!; [|done|by rewrite app_nil_r].
           apply Hreg. by right.
    + apply (sub_ok_ext j); [done| | | |by apply Hsubs].
      * by rewrite Hq, decide_False.
      * by rewrite Hov.
      * intros k. rewrite Hreg. naive_solver.
Qed.

(** Taking an event from the front of what is missing. *)
Lemma live_ok_pop j i s e q :
  live_ok j i s [] → queue_of i j = Some e :: q →
  live_ok (set_queue i q j) i
    (mk_sub (s_key s) (s_base s) Streaming (s_delivered s ++ [e]) (s_lagged s)) [].
Proof.
  intros (Ho & l & Hl) Hq. unfold live_ok. rewrite queue_of_set, decide_True by done.
  split; [done|]. rewrite Hq in Hl. destruct l as [|e' l].
  { by destruct Hl as [(_ & Hbad & _)|(_ & Hbad & _)]. }
  exists l. simpl in *.
  change (due (set_queue i q j) (mk_sub (s_key s) (s_base s) Streaming (s_delivered s ++ [e]) (s_lagged s)))
    with (due j s).
  destruct Hl as [(Hr & Hq' & Hd)|(Hr & Hq' & Hp & Ht)]; simplify_eq; [left|right];
    rewrite <- app_assoc; split_and!; first [assumption|reflexivity].
Qed.

Lemma live_ok_end j i s q :
  live_ok j i s [] → queue_of i j = None :: q →
  s_delivered s `prefix_of` due j s ∧ existsb is_terminal (s_delivered s) = true.
Proof.
  intros (Ho & l & Hl) Hq. rewrite Hq in Hl. destruct l as [|e l].
  - destruct Hl as [(_ & Hbad & _)|(_ & _ & Hp & Ht)]; [done|]. simpl in *.
    by rewrite app_nil_r in Hp, Ht.
  - by destruct Hl as [(_ & Hbad & _)|(_ & Hbad & _)].
Qed.

Lemma sub_live_ok j i s o p j' :
  (s_base s ≤ length (events_of (s_key s) j))%nat → (∀ k, registered k i j → k = s_key s) →
  (s_lagged s = false → live_ok j i s []) →
  sub_live (s_key s) i j = (Ok (o, p), j') → sub_ok j' i (advance s o p).
Proof.
  intros Hb Hown Hlive H. unfold sub_live in H.
  destruct (queue_of i j) as [|[e|] q] eqn:Hq; simplify_eq.
  - split_and!; simpl; rewrite ?app_nil_r; try done.
    unfold advance. by rewrite app_nil_r.
  - split_and!; simpl; try done. intros Hlag. apply live_ok_pop; auto.
  - destruct (sub_cleanup_spec (s_key s) i (set_queue i q j)) as (He & _ & _ & _ & Hreg).
    split_and!; simpl; rewrite ?app_nil_r.
    + unfold events_of. by rewrite He.
    + intros k Hk. apply Hown. by apply Hreg in Hk as [? _].
    + intros Hlag. unfold due, events_of. rewrite He. simpl. apply (live_ok_end j i s q); auto.
Qed.

(** A generator's step, seen by its own subscription and by the others. *)
Lemma sub_next_ok j i s o p j' :
  sub_ok j i s → sub_next (s_key s) i (s_phase s) j = (Ok (o, p), j') →
  sub_ok j' i (advance s o p).
Proof.
  intros (Hb & Hown & Hs) H. unfold sub_next in H.
  destruct (s_phase s) as [[|e rest] [|]| |] eqn:Hph.
  - simplify_eq. rewrite !app_nil_r in Hs. destruct Hs as (Hr & Hp & Ht).
    destruct (sub_cleanup_spec (s_key s) i j) as (He & _ & _ & _ & Hreg).
    split; [|split]; simpl; rewrite ?app_nil_r.
    + unfold events_of. by rewrite He.
    + intros k Hk. apply Hown. by apply Hreg in Hk as [? _].
    + intros _. unfold due, events_of. by rewrite He.
  - by eapply sub_live_ok.
  - simplify_eq. destruct Hs as (Hr & Hp & Ht).
    split_and!; simpl; try done; by rewrite <- app_assoc.
  - simplify_eq. split_and!; simpl; try done. intros Hlag.
    destruct (Hs Hlag) as (Ho & l & Hl). split; [done|]. exists l. simpl in *.
    by rewrite <- app_assoc.
  - by eapply sub_live_ok.
  - simplify_eq. split_and!; simpl; rewrite ?app_nil_r; done.
Qed.

Lemma sub_next_frame key i p j o p' j' :
  sub_next key i p j = (Ok (o, p'), j') →
  j_events j' = j_events j ∧ j_next_queue j' = j_next_queue j ∧
  (∀ i', i' ∈ j_overflowed j' → i' ∈ j_overflowed j) ∧
  (∀ k i', registered k i' j' → registered k i' j) ∧
  ∀ i' s, i' ≠ i → sub_ok j i' s → sub_ok j' i' s.
Proof.
  assert (∀ q, let j1 := sub_cleanup key i (set_queue i q j) in
    j_events j1 = j_events j ∧ j_next_queue j1 = j_next_queue j ∧
    (∀ i', i' ∈ j_overflowed j1 → i' ∈ j_overflowed j) ∧
    (∀ k i', registered k i' j1 → registered k i' j) ∧
    ∀ i' s, i' ≠ i → sub_ok j i' s → sub_ok j1 i' s) as Hcl.
  { intros q j1. unfold j1. destruct (sub_cleanup_spec key i (set_queue i q j)) as (He & Hn & _ & Ho & Hr).
    split_and!; [done|done|intros i'; rewrite Ho; tauto|intros k i'; rewrite Hr; tauto|].
    intros. by apply sub_cleanup_other, set_queue_other. }
  assert (∀ q, let j1 := set_queue i q j in
    ∀ i' s, i' ≠ i → sub_ok j i' s → sub_ok j1 i' s) as Hset
    by (intros; by apply set_queue_other).
  intros H. unfold sub_next, sub_live in H.
  assert (∀ i' s, i' ≠ i → sub_ok j i' s → sub_ok (sub_cleanup key i j) i' s)
    by (intros; by apply sub_cleanup_other).
  destruct (sub_cleanup_spec key i j) as (He & Hn & _ & Ho & Hr).
  repeat case_match; simplify_eq; first [by apply Hcl|split_and!; naive_solver].
Qed.

Lemma delivery_step_inv st st' : sys_inv st → sys_step st st' → sys_inv st'.
Proof.
  intros Hinv Hstep. destruct Hstep as [j subs id now d e j' H|j subs key n i p j' H|j subs i s o p j' Hs H|j subs i s Hs].
  - destruct Hinv as [Hlogs Hfresh Hsubs]. simpl in *.
    pose proof (append_spec _ _ _ _ _ _ H) as (_ & _ & _ & Hfr & Hloc).
    constructor; simpl.
    + by eapply append_logs_ok.
    + intros i. rewrite (frame_next _ _ _ Hfr). simpl. rewrite map_lookup_imap.
      intros Hi. apply Hfresh. destruct Hi as [Hi|[Hi|[k Hi]]].
      * left. destruct (subs !! i); [done|by destruct Hi].
      * destruct (decide (registered (id_value (run_id (draft_identity d))) i j)) as [Hr|Hr]; [eauto|].
        right; left. by apply (append_other _ _ _ _ _ _ i H Hr).
      * right; right. exists k. by eapply append_registered.
    + intros i s. rewrite map_lookup_imap. intros Hi. apply bind_Some in Hi as (s0 & Hs0 & [= <-]).
      eapply append_sub_ok; eauto.
  - by apply (sub_start_inv (mk_system j subs)).
  - destruct Hinv as [Hlogs Hfresh Hsubs]. simpl in *.
    destruct (sub_next_frame _ _ _ _ _ _ _ H) as (He & Hn & Ho & Hr & Hoth). constructor; simpl.
    + intros k m e. unfold events_of. rewrite He. apply Hlogs.
    + intros i'. rewrite Hn, lookup_insert_is_Some. intros Hi. apply Hfresh.
      destruct Hi as [[->|[_ Hi]]|[Hi|[k Hi]]]; eauto.
    + intros i' s'. rewrite lookup_insert_Some. intros [[<- <-]|[Hne Hs']].
      * by eapply sub_next_ok; eauto.
      * apply Hoth; auto.
  - destruct Hinv as [Hlogs Hfresh Hsubs]. simpl in *.
    destruct (sub_cleanup_spec (s_key s) i j) as (He & Hn & Hq & Ho & Hr). constructor; simpl.
    + intros k m e. unfold events_of. rewrite He. apply Hlogs.
    + intros i'. rewrite Hn, lookup_delete_is_Some. intros Hi. apply Hfresh.
      destruct Hi as [[_ Hi]|[Hi|[k Hi]]]; [eauto| |].
      * apply Ho in Hi as [? _]. eauto.
      * apply Hr in Hi as [? _]. eauto.
    + intros i' s'. rewrite lookup_delete_Some. intros [Hne Hs'].
      apply sub_cleanup_other; auto.
Qed.

Definition initial_system (queue_size : nat) : System :=
  mk_system (mk_journal ∅ ∅ ∅ ∅ 0 queue_size) ∅.

Lemma initial_inv n : sys_inv (initial_system n).
Proof.
  constructor; simpl.
  - intros key m e. unfold events_of. simpl. by rewrite lookup_empty.
  - intros i. unfold subscribers_of. simpl. setoid_rewrite lookup_empty. simpl.
    intros [[? ?]|[?|[? ?]]]; [done|set_solver..].
  - intros i s. by rewrite lookup_empty.
Qed.

Lemma sys_reachable_inv n st : reachable sys_step (initial_system n) st → sys_inv st.
Proof.
  intros H. eapply (reachable_invariant sys_step sys_inv); [| |done]; [apply initial_inv|].
  intros; by eapply delivery_step_inv.
Qed.

(** C20: the log and its replay.  However appends and subscriptions interleave,
    the events of a run are numbered 0, 1, 2, ... in the order of their appends
    and carry its run identifier; [replay] with a cursor returns exactly the
    events after it, and refuses a cursor below -1 without changing anything. *)
Theorem journal_replay_spec (size : nat) (st : System) (key : string) (cursor : Z) :
  reachable sys_step (initial_system size) st →
  let j := sys_journal st in
  (∀ n e, events_of key j !! n = Some e →
     ev_sequence e = Z.of_nat n ∧ id_value (run_id (ev_identity e)) = key) ∧
  (cursor < -1 → replay key cursor j = (Raise cursor_invalid, j)) ∧
  (-1 ≤ cursor → replay key cursor j = (Ok (drop (Z.to_nat (cursor + 1)) (events_of key j)), j)).
Proof.
  intros Hr j. apply sys_reachable_inv in Hr as [Hlogs _ _]. split_and!; [apply Hlogs| |].
  - intros Hc. unfold replay. by rewrite (proj2 (Z.ltb_lt _ _) Hc).
  - intros Hc. unfold replay. rewrite (proj2 (Z.ltb_ge _ _) Hc). by rewrite after_drop.
Qed.

Definition example_identity : ExecutionIdentity :=
  mk_identity (mk_scope (mk_id "w") (mk_id "p") (mk_id "a") (mk_id "r") (mk_id "d"))
    (mk_id "agent") (mk_id "run") (mk_id "attempt") None.
Definition example_append (t : RuntimeEventType) : Py Journal RuntimeEvent :=
  append (mk_id "e") 0 (simple_draft example_identity t JNull).

Lemma journal_replay_spec_witness :
  ∃ j, (example_append RUN_QUEUED (sys_journal (initial_system 4))).2 = j ∧
    replay "run" 0 j = (Ok [], j).
Proof.
  eexists. split; [reflexivity|].
  refine (proj2 (proj2 (journal_replay_spec 4
    (mk_system (example_append RUN_QUEUED (sys_journal (initial_system 4))).2
       (map_imap (λ i s, Some (note_lag
          (mk_event (mk_id "e") 0 0 example_identity (Known RUN_QUEUED) [] JNull [] (mk_trace None None) 1)
          (sys_journal (initial_system 4)) i s)) ∅)) "run" 0 _)) ltac:(lia)).
  eapply reach_step; [apply reach_init|].
  by apply (sys_append _ _ (mk_id "e") 0 (simple_draft example_identity RUN_QUEUED JNull)).
Defined.

(** C24: what a subscriber sees.  As long as every event of its run was published
    while its queue had room for it and for the end marker, a subscription has
    delivered a gap-free, duplicate-free prefix of the events it is due, in
    order, whatever the other subscribers and publishers do; and once its
    generator has stopped, that prefix contains a terminal event. *)
Theorem subscription_no_gaps (size : nat) (st : System) (i : nat) (s : Subscription) :
  reachable sys_step (initial_system size) st →
  sys_subs st !! i = Some s → s_lagged s = false →
  (s_delivered s `prefix_of` drop (s_base s) (events_of (s_key s) (sys_journal st))) ∧
  (s_phase s = Finished → existsb is_terminal (s_delivered s) = true).
Proof.
  intros Hr Hs Hlag. apply sys_reachable_inv in Hr as [_ _ Hsubs].
  destruct (Hsubs i s Hs) as (_ & _ & Hok). fold (due (sys_journal st) s).
  assert (∀ rest, live_ok (sys_journal st) i s rest → s_delivered s `prefix_of` due (sys_journal st) s)
    as Hpre.
  { intros rest (_ & l & [(_ & _ & <-)|(_ & _ & Hp & _)]); [by apply prefix_app_r|].
    etransitivity; [|exact Hp]. by apply prefix_app_r. }
  destruct (s_phase s) as [rest [|]| |]; (split; [|done || tauto]); eauto.
  - etransitivity; [|apply Hok]. by apply prefix_app_r.
  - by apply Hok.
Qed.

(** A script with one subscriber that opens, lets [ts] be appended, and then
    takes [n] steps: what it gets. *)
Fixpoint sub_take (n : nat) (key : string) (i : nat) (p : phase) : Py Journal (list outcome) :=
  match n with
  | O => ret []
  | S n =>
      r <- sub_next key i p;;
      rest <- sub_take n key i r.2;;
      ret (r.1 :: rest)
  end.
Definition late_reader (cursor : Z) (ts : list RuntimeEventType) (n : nat) : Py Journal (list outcome) :=
  s <- sub_start "run" cursor;;
  for_each (λ t, example_append t;;; ret tt) ts;;;
  sub_take n "run" s.1 s.2.
Definition example_event (n : Z) (t : RuntimeEventType) : RuntimeEvent :=
  mk_event (mk_id "e") n 0 example_identity (Known t) [] JNull [] (mk_trace None None) 1.

(** A subscriber that has received an event. *)
Lemma subscription_no_gaps_witness :
  let j := (example_append RUN_QUEUED (sys_journal (initial_system 4))).2 in
  ∃ s, s_delivered s = [example_event 0 RUN_QUEUED] ∧
    s_delivered s `prefix_of` drop (s_base s) (events_of (s_key s) (sub_start "run" (-1) j).2).
Proof.
  intros j. pose (e := example_event 0 RUN_QUEUED). pose (s := mk_sub "run" 0 (Initial [e] false) [] false).
  exists (advance s (Yielded e) (Initial [] false)). split; [reflexivity|].
  refine (proj1 (subscription_no_gaps 4
    (mk_system (sub_start "run" (-1) j).2 (<[0%nat := advance s (Yielded e) (Initial [] false)]> (<[0%nat := s]> ∅)))
    0 _ _ _ _)); [|by apply lookup_insert_eq|reflexivity].
  eapply reach_step; [|apply (sys_next (sub_start "run" (-1) j).2 _ 0 s (Yielded e)); [apply lookup_insert_eq|reflexivity]].
  eapply reach_step; [|exact (sys_start j ∅ "run" (-1) 0 (Initial [e] false) _ eq_refl)].
  eapply reach_step; [apply reach_init|].
  exact (sys_append (sys_journal (initial_system 4)) ∅ (mk_id "e") 0 (simple_draft example_identity RUN_QUEUED JNull) e j eq_refl).
Defined.

(** Where the stream is not complete.  A subscriber that has exactly
    [queue_size] events waiting when the run ends loses the oldest of them to the
    end marker although its queue never overflowed; one that overflows loses
    the oldest waiting and the newest event, the terminal one included, and its
    stream ends as if the run were over; and a cursor beyond the end of the log
    does not hold back live events below it. *)
Lemma subscription_losses :
  (late_reader (-1) [RUN_STARTED; MESSAGE_DELTA; RUN_COMPLETED] 3
     (sys_journal (initial_system 3))).1 =
    Ok [Yielded (example_event 1 MESSAGE_DELTA); Yielded (example_event 2 RUN_COMPLETED); Stopped] ∧
  (late_reader (-1) [RUN_STARTED; MESSAGE_DELTA; RUN_COMPLETED] 1
     (sys_journal (initial_system 2))).1 = Ok [Stopped] ∧
  (late_reader 7 [RUN_STARTED] 1 (sys_journal (initial_system 8))).1 =
    Ok [Yielded (example_event 0 RUN_STARTED)].
Proof. split_and!; vm_compute; reflexivity. Qed.
