(* ===== verification/MemoryStores.v ===== *)
(** * The other in-memory stores

    [adapters/memory/outbox.py], [configuration.py], [registry.py],
    [projection.py] and [event_batching.py]. *)

From S2P Require Import Prelude PyDict PyStr Json Errors Identity Execution Ports.

(** ** [InMemoryOutboxRepository] *)
Module Outbox.
Abbreviation state := (dict OutboxMessage).

Definition message_key (m : OutboxMessage) : string := id_value (msg_id m).

Definition append (m : OutboxMessage) : Py state OutboxMessage := λ d,
  if dmem d (message_key m)
  then (Raise (failure INVALID_EXECUTION_INPUT "outbox message exists"), d)
  else (Ok m, dset d (message_key m) m).

Definition unpublished (m : OutboxMessage) : bool := negb (msg_published m).

Definition pending (limit : Z) : Py state (list OutboxMessage) := λ d,
  (Ok (py_slice (List.filter unpublished (dvalues d)) 0 limit), d).

(** [replace(message, published=True)] *)
Definition publish_message (m : OutboxMessage) : OutboxMessage :=
  mk_outbox_message (msg_id m) (msg_topic m) (msg_key m) (msg_payload m) (msg_created_at m) true.

Definition mark_published (id : CommandId) : Py state unit := λ d,
  match dget d (id_value id) with
  | None => (Raise (failure RESOURCE_NOT_FOUND "outbox message not found"), d)
  | Some m => (Ok tt, dset d (id_value id) (publish_message m))
  end.

#[export] Instance outbox_repository : OutboxRepository state := {
  outbox_append := append;
  outbox_pending := pending;
  outbox_mark_published := mark_published;
}.

Definition inv (d : state) : Prop :=
  dict_wf d ∧ ∀ k m, dget d k = Some m → message_key m = k.

Lemma outbox_inv_dset d m : inv d → inv (dset d (message_key m) m).
Proof.
  intros [Hwf Hk]. split; [by apply dset_wf|].
  intros k m'. rewrite dget_dset. destruct (decide (k = message_key m)); naive_solver.
Qed.

Lemma filter_dset (d : state) k m :
  dict_wf d → dget d k = Some m → (∀ k m, dget d k = Some m → message_key m = k) →
  List.filter unpublished (dvalues (dset d k (publish_message m))) =
    List.filter (λ x, negb (bool_decide (message_key x = k))) (List.filter unpublished (dvalues d)).
Proof.
  intros Hwf Hm Hkeys.
  assert (∀ e : state, (∀ kv, kv ∈ e → message_key kv.2 = kv.1) → k ∉ dkeys e →
    List.filter (λ x, negb (bool_decide (message_key x = k))) (List.filter unpublished (dvalues e)) =
    List.filter unpublished (dvalues e)) as Hno.
  { intros e He Hk. induction e as [|[k0 m0] e IH]; [done|]. simpl in Hk.
    specialize (IH (λ kv Hin, He kv (list_elem_of_further kv _ e Hin)) ltac:(set_solver)).
    pose proof (He (k0, m0) ltac:(set_solver)) as H0. simpl in H0. simpl.
    destruct (unpublished m0); simpl; [|done].
    rewrite bool_decide_eq_false_2 by set_solver. simpl. by rewrite IH. }
  assert (∀ kv, kv ∈ d → message_key kv.2 = kv.1) as Hall.
  { intros [k0 m0] Hin. simpl. apply Hkeys. by apply dget_elem. }
  clear Hkeys. unfold dict_wf in Hwf. induction d as [|[k0 m0] d IH]; simpl in *; [done|].
  apply NoDup_cons in Hwf as [Hn Hwf].
  pose proof (Hall (k0, m0) ltac:(set_solver)) as H0. simpl in H0.
  destruct (decide (k = k0)) as [->|Hne]; simplify_eq/=.
  - pose proof (Hno d ltac:(set_solver) ltac:(set_solver)) as Hd.
    destruct (unpublished m); simpl; [rewrite bool_decide_eq_true_2 by done; simpl|]; by rewrite Hd.
  - rewrite IH by set_solver. destruct (unpublished m0); simpl; [|done].
    by rewrite bool_decide_eq_false_2.
Qed.

(** The outbox delivers in order and until marked.  A new message goes to
    the end of the pending list, marking a message published removes exactly
    that message from it and nothing else, a duplicate identifier and an
    unknown one are refused without effect, and [pending] is a prefix of that
    list. *)
Lemma outbox_spec (d : state) (m : OutboxMessage) (id : CommandId) (limit : Z)
  (Hinv : inv d) (Hl : 0 ≤ limit) :
  let waiting d := List.filter unpublished (dvalues d) in
  pending limit d = (Ok (take (Z.to_nat limit) (waiting d)), d) ∧
  match dget d (message_key m) with
  | Some _ => append m d = (Raise (failure INVALID_EXECUTION_INPUT "outbox message exists"), d)
  | None => ∃ d', append m d = (Ok m, d') ∧ inv d' ∧
      waiting d' = waiting d ++ (if msg_published m then [] else [m])
  end ∧
  match dget d (id_value id) with
  | None => mark_published id d = (Raise (failure RESOURCE_NOT_FOUND "outbox message not found"), d)
  | Some _ => ∃ d', mark_published id d = (Ok tt, d') ∧ inv d' ∧
      waiting d' = List.filter (λ x, negb (bool_decide (message_key x = id_value id))) (waiting d)
  end.
Proof.
  intros waiting. destruct Hinv as [Hwf Hk]. split_and!.
  - unfold pending. by rewrite (py_slice_page _ 0 limit), Z2Nat.inj_0 by lia.
  - unfold append, dmem. destruct (dget d (message_key m)) eqn:Hm; [done|].
    eexists. split; [done|]. split; [by apply outbox_inv_dset|]. unfold waiting, dvalues.
    rewrite dset_fresh by by apply dget_None. rewrite fmap_app, List.filter_app. simpl.
    unfold unpublished. by destruct (msg_published m).
  - unfold mark_published. destruct (dget d (id_value id)) as [m0|] eqn:Hm; [|done].
    eexists. split; [done|]. pose proof (Hk _ _ Hm) as Hkey. split.
    + rewrite <- Hkey. change (message_key m0) with (message_key (publish_message m0)).
      by apply outbox_inv_dset.
    + by apply filter_dset.
Qed.

Definition example_message (id : string) : OutboxMessage :=
  mk_outbox_message (mk_id id) "topic" "key" [] 0 false.

Lemma outbox_spec_witness :
  pending 1 [("a", example_message "a"); ("b", example_message "b")] =
    (Ok [example_message "a"], [("a", example_message "a"); ("b", example_message "b")]).
Proof.
  refine (proj1 (outbox_spec [("a", example_message "a"); ("b", example_message "b")]
    (example_message "c") (mk_id "a") 1 _ _)); [|lia]. split.
  - repeat constructor; set_solver.
  - intros k m. cbn [dget]. repeat case_decide; intros; by simplify_eq.
Defined.
End Outbox.

(** ** [InMemoryApplicationConfigRepository] *)
Module Config.
Record ConfigRevision : Type := mk_config_revision {
  rev_application_id : string;
  rev_revision : Z;
  rev_config : json_object;
  rev_config_hash : string;
  rev_active : bool;
  rev_id : option ConfigRevisionId;
}.
Abbreviation state := (dict (list ConfigRevision)).

Section Config.
(** [json.dumps(config, sort_keys=True, separators=(",", ":"),
    ensure_ascii=False)], [json.loads] and the hexadecimal SHA-256. *)
Context (dumps : json_object → string) (loads : string → json_object) (sha256_hex : string → string).

Definition revisions_of (app : string) (d : state) : list ConfigRevision := default [] (dget d app).

Definition get_active (app : string) : Py state ConfigRevision := λ d,
  match find_first rev_active (reverse (revisions_of app d)) with
  | Some r => (Ok r, d)
  | None => (Raise (failure RESOURCE_NOT_FOUND ("active config not found: " +:+ app)), d)
  end.

Definition create_revision (app : string) (config : json_object) (id : ConfigRevisionId)
  : Py state ConfigRevision := λ d,
  let revisions := revisions_of app d in
  let canonical := dumps config in
  let r := mk_config_revision app (Z.of_nat (length revisions) + 1) (loads canonical)
             (sha256_hex canonical) (bool_decide (revisions = [])) (Some id) in
  (Ok r, dset d app (revisions ++ [r])).

Definition set_active (revision : Z) (r : ConfigRevision) : ConfigRevision :=
  mk_config_revision (rev_application_id r) (rev_revision r) (rev_config r) (rev_config_hash r)
    (rev_revision r =? revision) (rev_id r).

Definition activate (app : string) (revision : Z) : Py state ConfigRevision := λ d,
  let revisions := revisions_of app d in
  let missing := (Raise (failure RESOURCE_NOT_FOUND
                    ("config revision not found: " +:+ pretty revision)), d) in
  if (revision <? 1) || (Z.of_nat (length revisions) <? revision) then missing
  else
    let activated := set_active revision <$> revisions in
    match activated !! Z.to_nat (revision - 1) with
    | Some r => (Ok r, dset d app activated)
    | None => missing
    end.

(** The revisions of an application are numbered from one and exactly one
    of them, if there are any, is active. *)
Definition numbered (l : list ConfigRevision) : Prop :=
  ∀ n r, l !! n = Some r → rev_revision r = Z.of_nat n + 1.
Definition app_ok (l : list ConfigRevision) : Prop :=
  numbered l ∧ (l = [] ∨ ∃ n r, l !! n = Some r ∧ rev_active r = true ∧
    ∀ n' r', l !! n' = Some r' → rev_active r' = true → n' = n).

Inductive config_step : state → state → Prop :=
| config_create d app c id : config_step d (create_revision app c id d).2
| config_activate d app n : config_step d (activate app n d).2.

Lemma revisions_of_dset d app l app' :
  revisions_of app' (dset d app l) = if decide (app' = app) then l else revisions_of app' d.
Proof. unfold revisions_of. rewrite dget_dset. by case_decide. Qed.

Lemma create_app_ok l r :
  app_ok l → rev_revision r = Z.of_nat (length l) + 1 →
  rev_active r = bool_decide (l = []) → app_ok (l ++ [r]).
Proof.
  intros [Hn Ha] Hr Hact. split.
  - intros n r' Hl. apply lookup_app_Some in Hl as [Hl|[Hge Hl]]; [by apply Hn|].
    apply list_lookup_singleton_Some in Hl as [? <-]. rewrite Hr. lia.
  - right. destruct Ha as [->|(n & r0 & Hl & Hr0 & Huniq)].
    + exists 0%nat, r. split_and!; [done|done|]. intros n' r' Hl _. by destruct n' as [|[|]].
    + exists n, r0. split_and!; [by apply lookup_app_l_Some|done|].
      intros n' r' Hl' Hr'. apply lookup_app_Some in Hl' as [Hl'|[_ Hl']]; [by eapply Huniq|].
      apply list_lookup_singleton_Some in Hl' as [_ <-].
      rewrite Hact, bool_decide_eq_false_2 in Hr'; [done|]. by intros ->.
Qed.

Lemma activate_app_ok l n :
  numbered l → 1 ≤ n ≤ Z.of_nat (length l) → app_ok (set_active n <$> l).
Proof.
  intros Hn Hrange. split.
  - intros m r. rewrite list_lookup_fmap. intros Hm.
    apply fmap_Some in Hm as (r0 & Hm & ->). exact (Hn m r0 Hm).
  - right. destruct (lookup_lt_is_Some_2 l (Z.to_nat (n - 1))) as [r Hr]; [lia|].
    exists (Z.to_nat (n - 1)), (set_active n r). rewrite list_lookup_fmap, Hr. split_and!; [done| |].
    + simpl. rewrite (Hn _ _ Hr). apply Z.eqb_eq. lia.
    + intros m r' Hm Hact. rewrite list_lookup_fmap in Hm. apply fmap_Some in Hm as (r0 & Hm & ->).
      simpl in Hact. rewrite (Hn _ _ Hm) in Hact. apply Z.eqb_eq in Hact. lia.
Qed.

Lemma config_step_ok d d' :
  config_step d d' → (∀ app, app_ok (revisions_of app d)) → ∀ app, app_ok (revisions_of app d').
Proof.
  intros Hstep Hok app'. destruct Hstep as [d app c id|d app n].
  - simpl. rewrite revisions_of_dset. case_decide as Hc; [subst|apply Hok].
    by apply create_app_ok.
  - unfold activate. destruct (_ || _) eqn:Hb; [apply Hok|]. to_prop.
    destruct (_ !! _); [|apply Hok]. simpl. rewrite revisions_of_dset.
    case_decide as Hc; [subst|apply Hok]. apply activate_app_ok; [apply Hok|lia].
Qed.

Lemma find_active l n r :
  l !! n = Some r → rev_active r = true →
  (∀ n' r', l !! n' = Some r' → rev_active r' = true → n' = n) →
  find_first rev_active (reverse l) = Some r.
Proof.
  intros Hl Hr Huniq. destruct (find_first rev_active (reverse l)) as [r'|] eqn:Hf.
  - apply find_first_Some in Hf as [Hin Hr']. rewrite elem_of_reverse in Hin.
    apply list_elem_of_lookup in Hin as [n' Hn']. rewrite (Huniq n' r' Hn' Hr') in Hn'. congruence.
  - exfalso. rewrite (proj1 (find_first_None _ _) Hf r) in Hr; [done|].
    rewrite elem_of_reverse. by eapply list_elem_of_lookup_2.
Qed.

(** One active configuration.  After any sequence of creations and
    activations the revisions of every application are numbered 1, 2, 3, ...
    and, once there are any, exactly one is active: the one [get_active]
    returns; the first revision becomes active by itself, later ones do not,
    and activating moves the flag to exactly that revision. *)
Lemma config_active_unique (d : state) (app : string) (c : json_object) (id : ConfigRevisionId)
  (n : Z) :
  reachable config_step [] d →
  let l := revisions_of app d in
  numbered l ∧
  match l with
  | [] => get_active app d = (Raise (failure RESOURCE_NOT_FOUND ("active config not found: " +:+ app)), d) ∧
      ∃ r, get_active app (create_revision app c id d).2 = (Ok r, (create_revision app c id d).2) ∧
        rev_revision r = 1
  | _ => ∃ i r, l !! i = Some r ∧ rev_active r = true ∧
      (∀ i' r', l !! i' = Some r' → rev_active r' = true → i' = i) ∧
      get_active app d = (Ok r, d) ∧
      get_active app (create_revision app c id d).2 = (Ok r, (create_revision app c id d).2)
  end ∧
  (1 ≤ n ≤ Z.of_nat (length l) →
     ∃ r, get_active app (activate app n d).2 = (Ok r, (activate app n d).2) ∧ rev_revision r = n).
Proof.
  intros Hr l. assert (∀ app, app_ok (revisions_of app d)) as Hok.
  { eapply (reachable_invariant config_step (λ d, ∀ app, app_ok (revisions_of app d))); [| |done].
    - intros app'. split; [by intros ? ?|by left].
    - intros d1 d2 H1 H2. by eapply config_step_ok. }
  destruct (Hok app) as [Hn Ha]. fold l in Hn, Ha. split; [done|]. split.
  - assert (∀ r0 i0, l !! i0 = Some r0 → rev_active r0 = true →
      (∀ i' r', l !! i' = Some r' → rev_active r' = true → i' = i0) →
      get_active app (create_revision app c id d).2 = (Ok r0, (create_revision app c id d).2)) as Hcr.
    { intros r0 i0 Hi Hact Hu. unfold get_active, create_revision. simpl.
      rewrite revisions_of_dset, decide_True by done. fold l. rewrite reverse_app. simpl.
      rewrite bool_decide_eq_false_2 by (by intros ->). by rewrite (find_active l i0 r0). }
    destruct l as [|r0 l'] eqn:Hl.
    + split; [unfold get_active; fold l; by rewrite Hl|].
      unfold get_active, create_revision. simpl. rewrite revisions_of_dset, decide_True by done.
      fold l. rewrite Hl. simpl. eexists. done.
    + destruct Ha as [|(i & r & Hi & Hact & Hu)]; [done|]. exists i, r. split_and!; try done.
      * unfold get_active. fold l. rewrite Hl. by rewrite (find_active _ i r).
      * by eapply Hcr.
  - intros Hrange. unfold activate. fold l.
    rewrite (proj2 (Z.ltb_ge _ _)), (proj2 (Z.ltb_ge _ _)) by lia. simpl.
    destruct (lookup_lt_is_Some_2 l (Z.to_nat (n - 1))) as [r Hr']; [lia|].
    rewrite list_lookup_fmap, Hr'. simpl. exists (set_active n r).
    unfold get_active. rewrite revisions_of_dset, decide_True by done.
    rewrite (find_active _ (Z.to_nat (n - 1)) (set_active n r)).
    + split; [done|]. simpl. rewrite (Hn _ _ Hr'). lia.
    + by rewrite list_lookup_fmap, Hr'.
    + simpl. rewrite (Hn _ _ Hr'). apply Z.eqb_eq. lia.
    + intros m r' Hm Hact. rewrite list_lookup_fmap in Hm. apply fmap_Some in Hm as (r0 & Hm & ->).
      simpl in Hact. rewrite (Hn _ _ Hm) in Hact. apply Z.eqb_eq in Hact. lia.
Qed.
End Config.

Lemma config_active_unique_witness :
  get_active "app" ([] : state) =
    (Raise (failure RESOURCE_NOT_FOUND ("active config not found: " +:+ "app")), []).
Proof.
  exact (proj1 (proj1 (proj2 (config_active_unique (λ _, "{}") (λ _, []) (λ s, s) [] "app" []
    (mk_id "c") 1 (reach_init _ _))))).
Defined.
End Config.

(** ** [InMemoryAdapterRegistry] *)
Module Registry.
Section Adapters.
(** The adapters, with [descriptor.graph_id] where they have one and their
    manifest's [adapter_id]. *)
Context {A : Type} (graph_id : A → option string) (manifest_adapter_id : A → string).

Definition adapter_key (a : A) : string := default (manifest_adapter_id a) (graph_id a).

Definition register (a : A) : Py (dict A) unit := λ d,
  if dmem d (adapter_key a)
  then (Raise (failure INVALID_EXECUTION_INPUT ("adapter already registered: " +:+ adapter_key a)), d)
  else (Ok tt, dset d (adapter_key a) a).
Definition get (id : string) : Py (dict A) A := λ d,
  match dget d id with
  | Some a => (Ok a, d)
  | None => (Raise (failure ADAPTER_NOT_SUPPORTED ("adapter not found: " +:+ id)), d)
  end.
Definition all (d : dict A) : list A := dvalues d.
End Adapters.
End Registry.

(** ** Projection sinks *)

Record RunProjection : Type := mk_projection {
  proj_run_id : string;
  proj_status : string;
  proj_sequence : Z;
  proj_started_at : option string;
  proj_completed_at : option string;
  proj_result : json;
  proj_error : option json_object;
  proj_metadata : json_object;
}.

(** The port [ProjectionSink] of [ports/projection.py]. *)
Class ProjectionSink (W : Type) : Type := {
  sink_write : RunProjection → Py W unit;
}.

(** [NullProjectionSink], [InMemoryProjectionSink], [CompositeProjectionSink]. *)
#[export] Instance null_projection_sink : ProjectionSink unit := { sink_write p := ret tt }.
Definition memory_sink_write (p : RunProjection) : Py (dict RunProjection) unit :=
  modify (λ d, dset d (proj_run_id p) p).
#[export] Instance memory_projection_sink : ProjectionSink (dict RunProjection) := {
  sink_write := memory_sink_write;
}.

Fixpoint composite_write {W} `{ProjectionSink W} (p : RunProjection) (sinks : list W)
  : res unit * list W :=
  match sinks with
  | [] => (Ok tt, [])
  | w :: sinks =>
      match sink_write p w with
      | (Ok _, w') => let '(r, sinks') := composite_write p sinks in (r, w' :: sinks')
      | (Raise e, w') => (Raise e, w' :: sinks)
      end
  end.
#[export] Instance composite_projection_sink {W} `{ProjectionSink W} : ProjectionSink (list W) := {
  sink_write := composite_write;
}.

(** ** [RuntimeEventBatcher] *)
Module Batching.
Record EventBatchConfig : Type := mk_batch_config {
  max_events : Z;
  max_bytes : Z;
  flush_interval_ms : Z;
}.
Definition default_config : EventBatchConfig := mk_batch_config 100 262144 250.

Section Batching.
(** The bytes of [str(event.data)] and [str(event.native)] in UTF-8, and the
    caller's asynchronous writer over its own state. *)
Context {W : Type} (str_bytes : json → Z) (writer : list RuntimeEvent → Py W unit).

Record Batcher : Type := mk_batcher {
  b_config : EventBatchConfig;
  b_events : list RuntimeEvent;
  b_bytes : Z;
  b_writer : W;
}.

(** [__init__] *)
Definition new_batcher (c : EventBatchConfig) (w : W) : res Batcher :=
  if (max_events c <? 1) || (max_bytes c <? 1)
  then Raise (ValueError "batch limits must be positive")
  else Ok (mk_batcher c [] 0 w).

(** [_flush_locked]: the buffer is cleared before the writer runs. *)
Definition flush_locked : Py Batcher unit := λ b,
  if decide (b_events b = []) then (Ok tt, b)
  else let '(r, w) := writer (b_events b) (b_writer b) in
       (r, mk_batcher (b_config b) [] 0 w).

Definition FLUSHING : list RuntimeEventType :=
  [RUN_COMPLETED; RUN_CANCELLED; RUN_FAILED; RUN_TIMEOUT].

Definition event_size (e : RuntimeEvent) : Z := str_bytes (ev_data e) + str_bytes (JObj (ev_native e)).

Definition over_limit (b : Batcher) (size : Z) : bool :=
  negb (bool_decide (b_events b = [])) &&
  ((max_events (b_config b) <=? Z.of_nat (length (b_events b))) ||
   (max_bytes (b_config b) <? b_bytes b + size)).

Definition add (e : RuntimeEvent) : Py Batcher unit :=
  let size := event_size e in
  b <- get_state;;
  (if over_limit b size then flush_locked else ret tt);;;
  modify (λ b, mk_batcher (b_config b) (b_events b ++ [e]) (b_bytes b + size) (b_writer b));;;
  if type_in (ev_type e) FLUSHING then flush_locked else ret tt.
Definition flush : Py Batcher unit := flush_locked.

(** The size of a batch, and what the limits allow: a batch over the byte
    limit is a single event. *)
Definition batch_size (l : list RuntimeEvent) : Z := foldr (λ e n, event_size e + n) 0 l.
Definition within_limits (c : EventBatchConfig) (l : list RuntimeEvent) : Prop :=
  Z.of_nat (length l) ≤ max_events c ∧ (batch_size l ≤ max_bytes c ∨ length l = 1%nat).
End Batching.
Arguments Batcher : clear implicits.

Section Logged.
(** A writer that keeps its batches. *)
Context (str_bytes : json → Z).
Definition log_writer (l : list RuntimeEvent) : Py (list (list RuntimeEvent)) unit :=
  modify (λ bs, bs ++ [l]).

Notation add := (add str_bytes log_writer).
Notation flush := (flush log_writer).
Notation event_size := (event_size str_bytes).
Notation batch_size := (batch_size str_bytes).
Notation within_limits := (within_limits str_bytes).

Lemma batch_size_app l e : batch_size (l ++ [e]) = batch_size l + event_size e.
Proof. induction l as [|x l IH]; simpl; [lia|]. rewrite IH. lia. Qed.

(** [evs] have been added: the batches and the buffer are these events in
    order, all non-empty batches are within the limits, and nothing follows
    a terminal event in its batch. *)
Record batched (c : EventBatchConfig) (evs : list RuntimeEvent) (b : Batcher (list (list RuntimeEvent))) : Prop := {
  bt_config : b_config b = c;
  bt_order : concat (b_writer b) ++ b_events b = evs;
  bt_batches : Forall (λ l, l ≠ [] ∧ within_limits c l) (b_writer b);
  bt_bytes : b_bytes b = batch_size (b_events b);
  bt_buffer : b_events b ≠ [] → within_limits c (b_events b);
}.

Lemma flush_batched c evs b :
  batched c evs b → ∃ b', flush b = (Ok tt, b') ∧ batched c evs b' ∧ b_events b' = [].
Proof.
  intros [Hc Ho Hb Hs Hbuf]. unfold Batching.flush, flush_locked. case_decide as He.
  - exists b. split_and!; [done|by constructor|done].
  - eexists. split; [reflexivity|]. split; [|done]. constructor; simpl; try done.
    + by rewrite concat_app, app_nil_r; simpl; rewrite app_nil_r.
    + apply Forall_app. split; [done|]. apply Forall_singleton. auto.
Qed.

Lemma push_batched c evs b e :
  0 < max_events c → batched c evs b → over_limit b (event_size e) = false →
  batched c (evs ++ [e])
    (mk_batcher (b_config b) (b_events b ++ [e]) (b_bytes b + event_size e) (b_writer b)).
Proof.
  intros Hm [Hc Ho Hb Hs Hbuf] Hov. constructor; simpl; try done.
  - by rewrite app_assoc, Ho.
  - by rewrite batch_size_app, Hs.
  - intros _. unfold Batching.within_limits. rewrite length_app, batch_size_app. simpl.
    unfold over_limit in Hov. apply andb_false_iff in Hov as [Hov|Hov].
    + apply negb_false_iff, bool_decide_eq_true in Hov. rewrite Hov. simpl. split; [lia|by right].
    + to_prop. rewrite Hc, Hs in *. split; [lia|]. left. lia.
Qed.

Lemma add_batched c evs b e :
  0 < max_events c → batched c evs b →
  ∃ b', add e b = (Ok tt, b') ∧ batched c (evs ++ [e]) b' ∧
    (type_in (ev_type e) FLUSHING = true → b_events b' = []).
Proof.
  intros Hm Hb. unfold Batching.add.
  assert (∃ b1, (if over_limit b (event_size e) then flush_locked log_writer else ret tt) b = (Ok tt, b1) ∧
    batched c evs b1 ∧ over_limit b1 (event_size e) = false) as (b1 & Hfl & Hb1 & Hov).
  { destruct (over_limit b (event_size e)) eqn:Hov; [|by exists b].
    destruct (flush_batched c evs b Hb) as (b1 & Hf & Hb1 & He). exists b1.
    split_and!; [done|done|]. unfold over_limit. by rewrite He. }
  pose proof (push_batched c evs b1 e Hm Hb1 Hov) as Hb2.
  unfold bind, get_state, modify. rewrite Hfl.
  destruct (type_in (ev_type e) FLUSHING).
  - destruct (flush_batched _ _ _ Hb2) as (b3 & Hf & Hb3 & He). by exists b3.
  - eexists. split; [reflexivity|]. by split.
Qed.

(** Batching loses, duplicates and reorders nothing.  After adding any
    sequence of events to a fresh batcher, the batches written followed by
    the buffer are exactly that sequence; every batch is non-empty and within
    both limits, except that one event larger than the byte limit is a batch
    of its own; a completed, cancelled, failed or timed out run leaves nothing
    in the buffer, and so does [flush]. *)
Lemma batches_are_the_events (c : EventBatchConfig) (b : Batcher (list (list RuntimeEvent)))
  (evs : list RuntimeEvent) :
  new_batcher c [] = Ok b →
  ∃ b', for_each add evs b = (Ok tt, b') ∧
    concat (b_writer b') ++ b_events b' = evs ∧
    Forall (λ l, l ≠ [] ∧ within_limits c l) (b_writer b') ∧
    (∀ e, last evs = Some e → type_in (ev_type e) FLUSHING = true → b_events b' = []) ∧
    ∃ b'', flush b' = (Ok tt, b'') ∧ concat (b_writer b'') = evs ∧
      Forall (λ l, l ≠ [] ∧ within_limits c l) (b_writer b'').
Proof.
  unfold new_batcher. destruct (_ || _) eqn:Hc; [done|]. intros [= <-]. to_prop.
  assert (∀ pre b0, batched c pre b0 → ∃ b', for_each add evs b0 = (Ok tt, b') ∧
    batched c (pre ++ evs) b' ∧
    (∀ e, last evs = Some e → type_in (ev_type e) FLUSHING = true → b_events b' = [])) as Hgen.
  { induction evs as [|e evs IH]; intros pre b0 Hb0; simpl.
    - exists b0. rewrite app_nil_r. by split_and!.
    - destruct (add_batched c pre b0 e ltac:(lia) Hb0) as (b1 & Ha & Hb1 & He).
      destruct (IH _ _ Hb1) as (b2 & Hf & Hb2 & Hl). exists b2. unfold bind. rewrite Ha.
      split_and!; [done|rewrite <- app_assoc in Hb2; exact Hb2|]. intros e' He'.
      destruct evs as [|e1 evs]; [|exact (Hl e' He')]. simpl in Hf, He'. injection Hf as ->. injection He' as ->. exact He. }
  destruct (Hgen [] (mk_batcher c [] 0 [])) as (b' & Hf & Hb' & Hl); [by constructor|].
  simpl in Hb'. exists b'. split_and!; [done|apply Hb'|apply Hb'|done|].
  destruct (flush_batched c evs b' Hb') as (b'' & Hfl & Hb'' & He). exists b''.
  split_and!; [done| |apply Hb'']. destruct Hb'' as [_ Ho _ _ _]. by rewrite He, app_nil_r in Ho.
Qed.
End Logged.

Definition example_event (n : Z) : RuntimeEvent :=
  mk_event (mk_id "e") n 0
    (mk_identity (mk_scope (mk_id "w") (mk_id "p") (mk_id "a") (mk_id "r") (mk_id "d"))
      (mk_id "agent") (mk_id "run") (mk_id "attempt") None)
    (Known MESSAGE_DELTA) [] JNull [] (mk_trace None None) 1.

Lemma batches_are_the_events_witness :
  let c := mk_batch_config 2 100 250 in
  ∃ b', for_each (add (λ _, 1) log_writer) (example_event <$> [0; 1; 2]) (mk_batcher c [] 0 []) =
          (Ok tt, b') ∧
    concat (b_writer b') ++ b_events b' = example_event <$> [0; 1; 2] ∧
    b_events b' = [example_event 2].
Proof.
  intros c.
  destruct (batches_are_the_events (λ _, 1) c (mk_batcher c [] 0 []) (example_event <$> [0; 1; 2])
    eq_refl) as (b' & H & Ho & _).
  exists b'. split; [exact H|]. split; [exact Ho|].
  assert (b' = (for_each (add (λ _, 1) log_writer) (example_event <$> [0; 1; 2]) (mk_batcher c [] 0 [])).2)
    as -> by by rewrite H.
  reflexivity.
Defined.
End Batching.

#[export] Existing Instance Outbox.outbox_repository.
