(* ===== verification/Capacity.v ===== *)
(** * Bounded concurrency

    [asyncio.Semaphore] as the two users rely on it, [ExecutionCapacity] of
    [adapters/memory/capacity.py], and [WorkerConfig] and [BoundedWorker] of
    [adapters/grpc/worker.py].  A coroutine that suspends is counted where it
    waits; each operation below is the run of a coroutine to its next
    suspension. *)

From S2P Require Import Prelude PyDict PyStr Json Errors.

(** ** [asyncio.Semaphore] *)

(** [granted]: woken waiters that have not run yet. *)
Record Semaphore : Type := mk_semaphore {
  sem_value : Z;
  sem_waiting : Z;
  sem_granted : Z;
}.

(** The wake-up loop: as many waiters as the value allows. *)
Definition sem_wake (s : Semaphore) : Semaphore :=
  let n := Z.min (sem_value s) (sem_waiting s) in
  mk_semaphore (sem_value s - n) (sem_waiting s - n) (sem_granted s + n).

(** [acquire()]: [true] if it returns at once, [false] if it waits. *)
Definition sem_acquire (s : Semaphore) : bool * Semaphore :=
  if (sem_value s =? 0) || (0 <? sem_waiting s + sem_granted s)
  then (false, mk_semaphore (sem_value s) (sem_waiting s + 1) (sem_granted s))
  else (true, mk_semaphore (sem_value s - 1) (sem_waiting s) (sem_granted s)).
(** A woken waiter goes on. *)
Definition sem_resume (s : Semaphore) : Semaphore :=
  sem_wake (mk_semaphore (sem_value s) (sem_waiting s) (sem_granted s - 1)).
Definition sem_release (s : Semaphore) : Semaphore :=
  sem_wake (mk_semaphore (sem_value s + 1) (sem_waiting s) (sem_granted s)).
(** Cancelling a waiter, and a waiter that was already woken. *)
Definition sem_cancel_waiting (s : Semaphore) : Semaphore :=
  sem_wake (mk_semaphore (sem_value s) (sem_waiting s - 1) (sem_granted s)).
Definition sem_cancel_granted (s : Semaphore) : Semaphore :=
  sem_wake (mk_semaphore (sem_value s + 1) (sem_waiting s) (sem_granted s - 1)).

(** [held] slots of [maximum] are taken, the rest is free or granted; and if
    somebody waits while a slot is free, a woken waiter, whose resumption wakes
    the next ones, has yet to run. *)
Definition sem_ok (maximum held : Z) (s : Semaphore) : Prop :=
  0 ≤ sem_value s ∧ 0 ≤ sem_waiting s ∧ 0 ≤ sem_granted s ∧
  sem_value s + sem_granted s + held = maximum ∧ (0 < sem_value s → 0 < sem_waiting s → 0 < sem_granted s).

Ltac sem_solve :=
  unfold sem_ok, sem_wake in *; simpl in *; lia.

Lemma sem_acquire_ok m h s b s' :
  sem_ok m h s → sem_acquire s = (b, s') → sem_ok m (if b then h + 1 else h) s'.
Proof.
  intros Hs Ha. unfold sem_acquire in Ha. destruct (_ || _) eqn:Hc; simplify_eq.
  - apply orb_true_iff in Hc as [Hc|Hc]; to_prop; sem_solve.
  - to_prop. sem_solve.
Qed.
Lemma sem_resume_ok m h s : sem_ok m h s → 0 < sem_granted s → sem_ok m (h + 1) (sem_resume s).
Proof. unfold sem_resume. sem_solve. Qed.
Lemma sem_release_ok m h s : sem_ok m h s → 0 < h → sem_ok m (h - 1) (sem_release s).
Proof. unfold sem_release. sem_solve. Qed.
Lemma sem_cancel_waiting_ok m h s : sem_ok m h s → 0 < sem_waiting s → sem_ok m h (sem_cancel_waiting s).
Proof. unfold sem_cancel_waiting. sem_solve. Qed.
Lemma sem_cancel_granted_ok m h s : sem_ok m h s → 0 < sem_granted s → sem_ok m h (sem_cancel_granted s).
Proof. unfold sem_cancel_granted. sem_solve. Qed.

(** ** [ExecutionCapacity] *)

Record ExecutionCapacity : Type := mk_capacity {
  cap_maximum : Z;
  cap_semaphore : Semaphore;
  cap_active : Z;
  cap_draining : bool;
}.

Definition new_capacity (maximum : Z) : res ExecutionCapacity :=
  if maximum <? 1 then Raise (ValueError "maximum capacity must be at least one")
  else Ok (mk_capacity maximum (mk_semaphore maximum 0 0) 0 false).

Definition set_semaphore (s : Semaphore) (c : ExecutionCapacity) : ExecutionCapacity :=
  mk_capacity (cap_maximum c) s (cap_active c) (cap_draining c).
Definition set_active (n : Z) (c : ExecutionCapacity) : ExecutionCapacity :=
  mk_capacity (cap_maximum c) (cap_semaphore c) n (cap_draining c).

Definition draining_failure : exn := failure QUEUE_CLOSED "execution capacity is draining".

(** [slot], after the semaphore is acquired: the second test. *)
Definition slot_admit : Py ExecutionCapacity unit := λ c,
  if cap_draining c
  then (Raise draining_failure, set_semaphore (sem_release (cap_semaphore c)) c)
  else (Ok tt, set_active (cap_active c + 1) c).

(** [slot] up to its first suspension: [true] if the body runs, [false] if the
    caller waits for the semaphore. *)
Definition slot_enter : Py ExecutionCapacity bool := λ c,
  if cap_draining c then (Raise draining_failure, c)
  else match sem_acquire (cap_semaphore c) with
       | (true, s) => (slot_admit;;; ret true) (set_semaphore s c)
       | (false, s) => (Ok false, set_semaphore s c)
       end.
(** A woken caller of [slot] goes on. *)
Definition slot_resume : Py ExecutionCapacity unit := λ c,
  slot_admit (set_semaphore (sem_resume (cap_semaphore c)) c).
(** The [finally] clause of [slot]. *)
Definition slot_exit : Py ExecutionCapacity unit := λ c,
  (Ok tt, set_semaphore (sem_release (cap_semaphore c)) (set_active (cap_active c - 1) c)).

Definition start_draining : Py ExecutionCapacity unit := λ c,
  (Ok tt, mk_capacity (cap_maximum c) (cap_semaphore c) (cap_active c) true).
(** The condition [drain] waits for. *)
Definition drained (c : ExecutionCapacity) : bool := cap_active c =? 0.

Inductive cap_step : ExecutionCapacity → ExecutionCapacity → Prop :=
| cap_enter c : cap_step c (slot_enter c).2
| cap_resume c : 0 < sem_granted (cap_semaphore c) → cap_step c (slot_resume c).2
| cap_exit c : 0 < cap_active c → cap_step c (slot_exit c).2
| cap_cancel_waiting c : 0 < sem_waiting (cap_semaphore c) →
    cap_step c (set_semaphore (sem_cancel_waiting (cap_semaphore c)) c)
| cap_cancel_granted c : 0 < sem_granted (cap_semaphore c) →
    cap_step c (set_semaphore (sem_cancel_granted (cap_semaphore c)) c)
| cap_drain c : cap_step c (start_draining c).2.

Definition cap_ok (c : ExecutionCapacity) : Prop :=
  0 ≤ cap_active c ∧ sem_ok (cap_maximum c) (cap_active c) (cap_semaphore c).

Lemma slot_admit_ok c :
  0 ≤ cap_active c → sem_ok (cap_maximum c) (cap_active c + 1) (cap_semaphore c) →
  cap_ok (slot_admit c).2 ∧ cap_maximum (slot_admit c).2 = cap_maximum c ∧
  cap_draining (slot_admit c).2 = cap_draining c ∧
  (cap_draining c = true → cap_active (slot_admit c).2 = cap_active c).
Proof.
  intros Ha Hs. unfold slot_admit. destruct (cap_draining c) eqn:Hd; simpl; (split; [|done]).
  - split; [done|]. apply sem_release_ok in Hs; [|lia]. simpl.
    by replace (cap_active c + 1 - 1) with (cap_active c) in Hs by lia.
  - split; [simpl; lia|done].
Qed.

Lemma cap_step_ok c c' :
  cap_ok c → cap_step c c' →
  cap_ok c' ∧ cap_maximum c' = cap_maximum c ∧
  (cap_draining c = true → cap_draining c' = true ∧ cap_active c' ≤ cap_active c).
Proof.
  intros [Ha Hs] Hstep. destruct Hstep as [c|c Hg|c Hp|c Hw|c Hg|c]; simpl.
  - unfold slot_enter. destruct (cap_draining c) eqn:Hd; simpl; [by split_and!; [split| |]|].
    destruct (sem_acquire (cap_semaphore c)) as [[] s] eqn:Hacq; simpl.
    + apply (sem_acquire_ok _ _ _ _ _ Hs) in Hacq.
      destruct (slot_admit_ok (set_semaphore s c)) as (Hok & Hm & Hd' & _); [done..|].
      unfold bind. destruct (slot_admit (set_semaphore s c)) as [[[]|e] c1]; simpl in *; by split_and!.
    + apply (sem_acquire_ok _ _ _ _ _ Hs) in Hacq. by split_and!; [split| |].
  - destruct (slot_admit_ok (set_semaphore (sem_resume (cap_semaphore c)) c)) as (Hok & Hm & Hd' & Hd).
    { done. } { by apply sem_resume_ok. }
    unfold slot_resume. split_and!; [done|done|]. intros Hdr. rewrite Hd'. simpl in *.
    rewrite (Hd Hdr). split; [done|lia].
  - split_and!; [split; simpl; [lia|by apply sem_release_ok]|done|]. intros ->. split; [done|]. simpl. lia.
  - split_and!; [split; [done|by apply sem_cancel_waiting_ok]|done|]. intros Hd. split; [done|]. simpl. lia.
  - split_and!; [split; [done|by apply sem_cancel_granted_ok]|done|]. intros Hd. split; [done|]. simpl. lia.
  - split_and!; [by split|done|]. intros _. split; [done|lia].
Qed.

(** Bounded concurrency.  Whatever callers enter, wait, are cancelled and
    leave, at most [maximum] bodies of [slot] run at a time, every slot is held,
    granted or free (none leaks), and nobody waits for a free slot except until
    a waiter that is already woken runs; once draining has started, in every further state it goes on, and the number of
    running bodies never grows again. *)
Lemma execution_capacity_bounded (maximum : Z) (c0 c c' : ExecutionCapacity) :
  new_capacity maximum = Ok c0 → reachable cap_step c0 c → reachable cap_step c c' →
  0 ≤ cap_active c ≤ maximum ∧
  sem_value (cap_semaphore c) + sem_granted (cap_semaphore c) + cap_active c = maximum ∧
  (0 < sem_value (cap_semaphore c) → 0 < sem_waiting (cap_semaphore c) →
     0 < sem_granted (cap_semaphore c)) ∧
  (cap_draining c = true → cap_draining c' = true ∧ cap_active c' ≤ cap_active c).
Proof.
  unfold new_capacity. destruct (maximum <? 1) eqn:Hm; [done|]. intros [= <-] Hr Hr'. to_prop.
  assert (cap_ok c ∧ cap_maximum c = maximum) as [[Ha (Hv & Hw & Hg & Hsum & Hnw)] Hmax].
  { revert Hr. apply (reachable_invariant cap_step (λ c, cap_ok c ∧ cap_maximum c = maximum)).
    - split; [|done]. split; [done|]. unfold sem_ok; simpl. lia.
    - intros c1 c2 [Hok <-] Hs. by destruct (cap_step_ok _ _ Hok Hs) as (? & ? & _). }
  rewrite Hmax in Hsum. split_and!; [lia|lia|done|done|].
  assert (cap_ok c' ∧ (cap_draining c = true → cap_draining c' = true ∧ cap_active c' ≤ cap_active c)) as [_ H].
  { revert Hr'. apply (reachable_invariant cap_step
      (λ c', cap_ok c' ∧ (cap_draining c = true → cap_draining c' = true ∧ cap_active c' ≤ cap_active c))).
    - split; [split; [done|]|by intros]. unfold sem_ok. rewrite Hmax. by split_and!.
    - intros c1 c2 [Hok Hd] Hs. destruct (cap_step_ok _ _ Hok Hs) as (Hok' & _ & Hd'). split; [done|].
      intros Hdr. destruct (Hd Hdr) as [Hd1 ?]. destruct (Hd' Hd1). split; [done|lia]. }
  done.
Qed.

Lemma execution_capacity_bounded_witness :
  let c0 := mk_capacity 1 (mk_semaphore 1 0 0) 0 false in
  let c := (slot_enter;;; slot_enter) c0 in
  c.1 = Ok false ∧ cap_active c.2 = 1 ∧ 0 ≤ cap_active c.2 ≤ 1.
Proof.
  intros c0 c. split; [reflexivity|]. split; [reflexivity|].
  refine (proj1 (execution_capacity_bounded 1 c0 c.2 c.2 eq_refl _ (reach_init _ _))).
  eapply reach_step; [eapply reach_step; [apply reach_init|apply (cap_enter c0)]|].
  apply (cap_enter (slot_enter c0).2).
Defined.

(** ** [WorkerConfig] and [BoundedWorker] *)

Record WorkerConfig : Type := mk_worker_config {
  configured_concurrency : Z;
  policy_ceiling : Z;
  environment_name : string;
}.

(** [resolve(environ)] in a process with the environment [os_environ]: an
    empty mapping counts as no mapping. *)
Definition resolve (c : WorkerConfig) (os_environ : dict string) (environ : option (dict string))
  : res Z :=
  let values := match environ with
                | Some (kv :: d) => kv :: d
                | _ => os_environ
                end in
  result_bind (match dget values (environment_name c) with
               | Some raw => py_int raw
               | None => Ok (configured_concurrency c)
               end) (λ env_limit,
    if env_limit <? 1 then Raise (ValueError "worker concurrency must be positive")
    else Ok (Z.min (Z.min (configured_concurrency c) env_limit) (policy_ceiling c))).

Record WorkerRegistration : Type := mk_registration {
  wr_worker_id : string;
  wr_application_id : string;
  wr_revision_id : string;
  wr_deployment_id : string;
  wr_config_hash : string;
  wr_max_concurrency : Z;
}.

(** [wk_running]: the task registered for each run, by number. *)
Record BoundedWorker : Type := mk_worker {
  wk_max_concurrency : Z;
  wk_slots : Semaphore;
  wk_active : Z;
  wk_draining : bool;
  wk_registration : option WorkerRegistration;
  wk_running : dict nat;
  wk_cancelled : list nat;
}.

(** [__init__]; [asyncio.Semaphore] refuses a negative value. *)
Definition new_worker (c : WorkerConfig) (os_environ : dict string) : res BoundedWorker :=
  result_bind (resolve c os_environ None) (λ n,
    if n <? 0 then Raise (ValueError "Semaphore initial value must be >= 0")
    else Ok (mk_worker n (mk_semaphore n 0 0) 0 false None [] [])).

Definition wk_set (s : Semaphore) (active : Z) (w : BoundedWorker) : BoundedWorker :=
  mk_worker (wk_max_concurrency w) s active (wk_draining w) (wk_registration w) (wk_running w)
    (wk_cancelled w).

Definition register (r : WorkerRegistration) : Py BoundedWorker WorkerRegistration := λ w,
  if negb (wr_max_concurrency r =? wk_max_concurrency w)
  then (Raise (ValueError "worker max concurrency does not match resolved policy"), w)
  else (Ok r, mk_worker (wk_max_concurrency w) (wk_slots w) (wk_active w) (wk_draining w) (Some r)
                (wk_running w) (wk_cancelled w)).
Definition register_running (run_id : string) (task : nat) (w : BoundedWorker) : BoundedWorker :=
  mk_worker (wk_max_concurrency w) (wk_slots w) (wk_active w) (wk_draining w) (wk_registration w)
    (dset (wk_running w) run_id task) (wk_cancelled w).
Definition unregister_running (run_id : string) (w : BoundedWorker) : BoundedWorker :=
  mk_worker (wk_max_concurrency w) (wk_slots w) (wk_active w) (wk_draining w) (wk_registration w)
    (dpop (wk_running w) run_id) (wk_cancelled w).
Definition cancel (run_id : string) : Py BoundedWorker bool := λ w,
  match dget (wk_running w) run_id with
  | None => (Ok false, w)
  | Some t => (Ok true, mk_worker (wk_max_concurrency w) (wk_slots w) (wk_active w) (wk_draining w)
                          (wk_registration w) (wk_running w) (wk_cancelled w ++ [t]))
  end.

(** [acquire] up to its suspension, a woken [acquire], [release], and the two
    ends of [drain]. *)
Definition acquire : Py BoundedWorker bool := λ w,
  if wk_draining w then (Raise (RuntimeError "worker is draining"), w)
  else match sem_acquire (wk_slots w) with
       | (true, s) => (Ok true, wk_set s (wk_active w + 1) w)
       | (false, s) => (Ok false, wk_set s (wk_active w) w)
       end.
Definition acquire_resume (w : BoundedWorker) : BoundedWorker :=
  wk_set (sem_resume (wk_slots w)) (wk_active w + 1) w.
Definition release (w : BoundedWorker) : BoundedWorker :=
  if wk_active w =? 0 then w else wk_set (sem_release (wk_slots w)) (wk_active w - 1) w.
Definition drain_start (w : BoundedWorker) : BoundedWorker :=
  mk_worker (wk_max_concurrency w) (wk_slots w) (wk_active w) true (wk_registration w)
    (wk_running w) (wk_cancelled w).
Definition drain_end : Py BoundedWorker unit := λ w,
  if wk_active w =? 0 then (Ok tt, w) else (Raise (TimeoutError "worker drain timed out"), w).
Definition available_slots (w : BoundedWorker) : Z := wk_max_concurrency w - wk_active w.

Inductive wk_step : BoundedWorker → BoundedWorker → Prop :=
| wk_register w r : wk_step w (register r w).2
| wk_register_running w id t : wk_step w (register_running id t w)
| wk_unregister_running w id : wk_step w (unregister_running id w)
| wk_cancel w id : wk_step w (cancel id w).2
| wk_acquire w : wk_step w (acquire w).2
| wk_resume w : 0 < sem_granted (wk_slots w) → wk_step w (acquire_resume w)
| wk_release w : wk_step w (release w)
| wk_cancel_waiting w : 0 < sem_waiting (wk_slots w) →
    wk_step w (wk_set (sem_cancel_waiting (wk_slots w)) (wk_active w) w)
| wk_cancel_granted w : 0 < sem_granted (wk_slots w) →
    wk_step w (wk_set (sem_cancel_granted (wk_slots w)) (wk_active w) w)
| wk_drain w : wk_step w (drain_start w).

Definition wk_ok (w : BoundedWorker) : Prop :=
  0 ≤ wk_active w ∧ sem_ok (wk_max_concurrency w) (wk_active w) (wk_slots w).

Lemma wk_step_ok w w' :
  wk_ok w → wk_step w w' → wk_ok w' ∧ wk_max_concurrency w' = wk_max_concurrency w.
Proof.
  intros [Ha Hs] Hstep. destruct Hstep as [w r|w id t|w id|w id|w|w Hg|w|w Hw|w Hg|w]; simpl.
  - unfold register. by destruct (negb _).
  - done.
  - done.
  - unfold cancel. by destruct (dget _ _).
  - unfold acquire. destruct (wk_draining w); [done|].
    destruct (sem_acquire (wk_slots w)) as [[] s] eqn:Hacq;
      apply (sem_acquire_ok _ _ _ _ _ Hs) in Hacq; (split; [|done]); split; simpl; [lia|done|lia|done].
  - split; [|done]. split; simpl; [lia|by apply sem_resume_ok].
  - unfold release. destruct (wk_active w =? 0) eqn:Hz; [done|]. to_prop.
    split; [|done]. split; simpl; [lia|]. apply sem_release_ok; [done|lia].
  - split; [|done]. split; [done|]. by apply sem_cancel_waiting_ok.
  - split; [|done]. split; [done|]. by apply sem_cancel_granted_ok.
  - done.
Qed.

(** The worker never runs more executions than its resolved limit, which is
    at most the configured concurrency, the environment's value and the policy
    ceiling; surplus releases are ignored, so [available_slots] stays between
    zero and the limit. *)
Lemma bounded_worker_limit (c : WorkerConfig) (env : dict string) (w0 w : BoundedWorker) :
  new_worker c env = Ok w0 → reachable wk_step w0 w →
  0 ≤ wk_active w ≤ wk_max_concurrency w ∧
  wk_max_concurrency w ≤ configured_concurrency c ∧ wk_max_concurrency w ≤ policy_ceiling c ∧
  (∀ raw n, dget env (environment_name c) = Some raw → py_int raw = Ok n →
     1 ≤ n ∧ wk_max_concurrency w ≤ n) ∧
  0 ≤ available_slots w ≤ wk_max_concurrency w.
Proof.
  unfold new_worker. intros Hnew Hr.
  destruct (resolve c env None) as [n|e] eqn:Hres; simpl in Hnew; [|done].
  destruct (n <? 0) eqn:Hn; simplify_eq. to_prop.
  assert (wk_ok w ∧ wk_max_concurrency w = n) as [[Ha (Hv & Hw & Hg & Hsum & _)] Hmax].
  { revert Hr. apply (reachable_invariant wk_step (λ w, wk_ok w ∧ wk_max_concurrency w = n)).
    - split; [|done]. split; [done|]. unfold sem_ok; simpl. lia.
    - intros w1 w2 [Hok <-] Hs. by apply wk_step_ok in Hs. }
  unfold available_slots. rewrite Hmax in *.
  unfold resolve in Hres. simpl in Hres.
  destruct (dget env (environment_name c)) as [raw|] eqn:Hraw.
  - destruct (py_int raw) as [m|e] eqn:Hp; simpl in Hres; [|done].
    destruct (m <? 1) eqn:Hm; simplify_eq. to_prop.
    split_and!; try lia. intros raw' n' [= <-] Hn'. rewrite Hp in Hn'. simplify_eq. lia.
  - simpl in Hres. destruct (configured_concurrency c <? 1) eqn:Hm; simplify_eq. to_prop.
    split_and!; try lia. done.
Qed.

Lemma bounded_worker_limit_witness :
  let w := (acquire (mk_worker 2 (mk_semaphore 2 0 0) 0 false None [] [])).2 in
  wk_active w = 1 ∧ 0 ≤ wk_active w ≤ wk_max_concurrency w.
Proof.
  intros w. split; [reflexivity|].
  refine (proj1 (bounded_worker_limit (mk_worker_config 4 8 "N") [("N", "2")]
    (mk_worker 2 (mk_semaphore 2 0 0) 0 false None [] []) w eq_refl _)).
  eapply reach_step; [apply reach_init|apply wk_acquire].
Defined.

(** The worker's drain does not stop the callers that already wait.  A
    caller that waits for a slot when draining starts is admitted afterwards:
    [acquire] tests the flag only before it waits, unlike [ExecutionCapacity]. *)
Lemma worker_admits_after_drain :
  let w0 := mk_worker 1 (mk_semaphore 1 0 0) 0 false None [] [] in
  let w1 := (acquire (acquire w0).2).2 in
  let w2 := release (drain_start w1) in
  reachable wk_step w0 w2 ∧ wk_draining w2 = true ∧ wk_active w2 = 0 ∧
  reachable wk_step w2 (acquire_resume w2) ∧ wk_active (acquire_resume w2) = 1.
Proof.
  intros w0 w1 w2. split_and!; try reflexivity.
  - eapply reach_step; [eapply reach_step; [eapply reach_step; [eapply reach_step; [apply reach_init|]|]|]|].
    + apply wk_acquire.
    + apply wk_acquire.
    + apply wk_drain.
    + apply wk_release.
  - by apply reachable_one, wk_resume.
Qed.
