(* ===== verification/Projector.v ===== *)
(** * Lifecycle projector

    [services/event_projector/projector.py]: the consumer that folds the events
    of each run into a [RunProjection] and writes it to a sink.  The sink is any
    instance of the [ProjectionSink] port; [isoformat] and [str] of a value are
    parameters. *)

From S2P Require Import Prelude PyDict PyStr Json Errors Identity Execution MemoryStores.

Section Projector.
Context {W : Type} `{ProjectionSink W} (isoformat : datetime → string) (py_str : json → string).

(** [LifecycleProjector] *)
Record LifecycleProjector : Type := mk_projector {
  pj_sink : W;
  pj_consumer_name : string;
  pj_last_sequence : dict Z;
  pj_inbox : gset (string * string);
  pj_projections : dict RunProjection;
}.

Definition new_projector (w : W) (name : string) : LifecycleProjector :=
  mk_projector w name [] ∅ [].

(** [RunProjection(run_id=key, status="pending", sequence=-1)] *)
Definition pending_projection (key : string) : RunProjection :=
  mk_projection key "pending" (-1) None None JNull None [].

(** The error object of a failed run. *)
Definition error_object (data : json) : json_object :=
  match data with JObj o => o | v => [("message", JStr (py_str v))] end.

(** The projection after an event. *)
Definition project (key : string) (current : RunProjection) (e : RuntimeEvent) : RunProjection :=
  let at_ := Some (isoformat (ev_timestamp e)) in
  let build status started completed result error :=
    mk_projection key status (ev_sequence e) started completed result error [] in
  let t := ev_type e in
  if type_is t RUN_STARTED
  then build "running" at_ (proj_completed_at current) (proj_result current) (proj_error current)
  else if type_is t RUN_COMPLETED
  then build "success" (proj_started_at current) at_ (ev_data e) (proj_error current)
  else if type_is t RUN_CANCELLED
  then build "cancelled" (proj_started_at current) at_ (proj_result current) (proj_error current)
  else if type_is t RUN_FAILED
  then build "error" (proj_started_at current) at_ (proj_result current) (Some (error_object (ev_data e)))
  else if type_is t RUN_TIMEOUT
  then build "timeout" (proj_started_at current) at_ (proj_result current) (proj_error current)
  else build (proj_status current) (proj_started_at current) (proj_completed_at current)
         (proj_result current) (proj_error current).

Definition event_key (e : RuntimeEvent) : string := id_value (run_id (ev_identity e)).
Definition inbox_key (p : LifecycleProjector) (e : RuntimeEvent) : string * string :=
  (pj_consumer_name p, id_value (ev_id e)).
Definition expected (p : LifecycleProjector) (key : string) : Z :=
  default (-1) (dget (pj_last_sequence p) key) + 1.

Definition out_of_order (p : LifecycleProjector) (e : RuntimeEvent) : exn :=
  ValueError ("out-of-order event for " +:+ event_key e +:+ ": expected " +:+
    pretty (expected p (event_key e)) +:+ ", got " +:+ pretty (ev_sequence e)).

(** [handle] *)
Definition handle (e : RuntimeEvent) : Py LifecycleProjector bool := λ p,
  let key := event_key e in
  if decide (inbox_key p e ∈ pj_inbox p) then (Ok false, p)
  else if negb (ev_sequence e =? expected p key) then (Raise (out_of_order p e), p)
  else
    let current := default (pending_projection key) (dget (pj_projections p) key) in
    let projection := project key current e in
    let '(r, w) := sink_write projection (pj_sink p) in
    (result_map (λ _, true) r,
     mk_projector w (pj_consumer_name p) (dset (pj_last_sequence p) key (ev_sequence e))
       ({[inbox_key p e]} ∪ pj_inbox p) (dset (pj_projections p) key projection)).

(** Is the event new and next in its run? *)
Definition accepts (p : LifecycleProjector) (e : RuntimeEvent) : bool :=
  bool_decide (inbox_key p e ∉ pj_inbox p) && (ev_sequence e =? expected p (event_key e)).

(** A delivery: any event, in any order, any number of times; the second
    component is the list of events accepted so far. *)
Inductive delivery : LifecycleProjector * list RuntimeEvent → LifecycleProjector * list RuntimeEvent → Prop :=
| deliver p acc e :
    delivery (p, acc) ((handle e p).2, if accepts p e then acc ++ [e] else acc).

Definition of_run (key : string) (l : list RuntimeEvent) : list RuntimeEvent :=
  filter (λ e, event_key e = key) l.

Record pj_inv (name : string) (p : LifecycleProjector) (acc : list RuntimeEvent) : Prop := {
  pi_name : pj_consumer_name p = name;
  pi_inbox k : k ∈ pj_inbox p ↔ ∃ e, e ∈ acc ∧ k = (name, id_value (ev_id e));
  pi_sequences key : ev_sequence <$> of_run key acc = seqZ 0 (Z.of_nat (length (of_run key acc)));
  pi_last key : expected p key = Z.of_nat (length (of_run key acc));
  pi_projection key : dget (pj_projections p) key =
    match of_run key acc with
    | [] => None
    | l => Some (foldl (project key) (pending_projection key) l)
    end;
}.

Lemma of_run_snoc key acc e :
  of_run key (acc ++ [e]) = of_run key acc ++ (if decide (event_key e = key) then [e] else []).
Proof. unfold of_run. by rewrite filter_app. Qed.

Lemma handle_accepted e p :
  accepts p e = true →
  ∃ r w, handle e p = (r, mk_projector w (pj_consumer_name p)
    (dset (pj_last_sequence p) (event_key e) (ev_sequence e)) ({[inbox_key p e]} ∪ pj_inbox p)
    (dset (pj_projections p) (event_key e)
       (project (event_key e) (default (pending_projection (event_key e))
          (dget (pj_projections p) (event_key e))) e))).
Proof.
  unfold accepts, handle. intros Ha. apply andb_true_iff in Ha as [Hi Hs].
  apply bool_decide_eq_true in Hi. rewrite decide_False, Hs by done. simpl.
  destruct (sink_write _ _) as [r w]. eauto.
Qed.

Lemma handle_refused e p : accepts p e = false → (handle e p).2 = p.
Proof.
  unfold accepts, handle. destruct (decide _) as [Hin|Hn]; [done|].
  rewrite bool_decide_eq_true_2 by done. simpl. by intros ->.
Qed.

Lemma deliver_inv name p acc e :
  pj_inv name p acc → pj_inv name (handle e p).2 (if accepts p e then acc ++ [e] else acc).
Proof.
  intros [Hn Hi Hs Hl Hp]. destruct (accepts p e) eqn:Ha; [|by rewrite handle_refused].
  destruct (handle_accepted e p Ha) as (r & w & ->).
  unfold accepts in Ha. apply andb_true_iff in Ha as [_ Hseq]. to_prop. rewrite Hl in Hseq.
  constructor; simpl; [done| | | |].
  - intros k. rewrite elem_of_union, elem_of_singleton, Hi. unfold inbox_key. rewrite Hn.
    setoid_rewrite elem_of_app. setoid_rewrite list_elem_of_singleton. naive_solver.
  - intros key. rewrite of_run_snoc. destruct (decide _) as [<-|Hne]; [|by rewrite app_nil_r].
    rewrite fmap_app, Hs, length_app. simpl.
    rewrite Nat2Z.inj_add, seqZ_app by lia. by rewrite Hseq.
  - intros key. unfold expected. simpl. rewrite dget_dset, of_run_snoc.
    destruct (decide (key = event_key e)) as [->|Hne].
    + rewrite decide_True by done. simpl. rewrite length_app, Hseq. simpl. lia.
    + rewrite decide_False by done. rewrite app_nil_r. apply Hl.
  - intros key. rewrite dget_dset, of_run_snoc.
    destruct (decide (key = event_key e)) as [->|Hne].
    + rewrite decide_True by done. rewrite Hp.
      destruct (of_run (event_key e) acc) as [|e0 l]; simpl; [done|]. by rewrite foldl_app.
    + rewrite decide_False by done. rewrite app_nil_r. apply Hp.
Qed.

(** C39: the projector folds each run exactly once and in order.  After any
    deliveries (repeated, reordered, with a failing sink) the events accepted
    from a run are numbered 0, 1, 2, ... and its projection is their fold; a
    repeated event answers [False] and one out of order raises, both without
    any effect, and the next event of the run is accepted. *)
Theorem projector_folds_once (w : W) (name : string) (p : LifecycleProjector)
  (acc : list RuntimeEvent) (e : RuntimeEvent) :
  reachable delivery (new_projector w name, []) (p, acc) →
  (∀ key, ev_sequence <$> of_run key acc = seqZ 0 (Z.of_nat (length (of_run key acc))) ∧
     dget (pj_projections p) key =
       match of_run key acc with
       | [] => None
       | l => Some (foldl (project key) (pending_projection key) l)
       end) ∧
  ((∃ e', e' ∈ acc ∧ ev_id e' = ev_id e) → handle e p = (Ok false, p)) ∧
  (¬ (∃ e', e' ∈ acc ∧ ev_id e' = ev_id e) →
     ev_sequence e ≠ Z.of_nat (length (of_run (event_key e) acc)) →
     handle e p = (Raise (out_of_order p e), p)) ∧
  (¬ (∃ e', e' ∈ acc ∧ ev_id e' = ev_id e) →
     ev_sequence e = Z.of_nat (length (of_run (event_key e) acc)) → accepts p e = true).
Proof.
  intros Hr.
  assert (pj_inv name p acc) as [Hn Hi Hs Hl Hp].
  { revert Hr. apply (reachable_invariant delivery (λ s, pj_inv name s.1 s.2)).
    - constructor; simpl; try done. intros k. set_solver.
    - intros s s' Hs Hd. destruct Hd. by apply deliver_inv. }
  assert (inbox_key p e ∈ pj_inbox p ↔ ∃ e', e' ∈ acc ∧ ev_id e' = ev_id e) as Hin.
  { rewrite Hi. unfold inbox_key. rewrite Hn. split; intros (e' & He' & Heq); exists e'.
    - injection Heq as Heq. split; [done|]. destruct (ev_id e'), (ev_id e). simpl in *. by subst.
    - by rewrite Heq. }
  split_and!; [done| | |]; rewrite <- Hin.
  - intros H1. unfold handle. by rewrite decide_True.
  - intros H1 H2. unfold handle. rewrite decide_False by done.
    rewrite (proj2 (Z.eqb_neq _ _)) by by rewrite Hl. done.
  - intros H1 H2. unfold accepts. rewrite bool_decide_eq_true_2, Hl by done. simpl. by apply Z.eqb_eq.
Qed.

(** A failed write is not repeated.  If the sink raises, the event is
    marked as seen before the write, so its redelivery answers [False] and the
    projection is not written for it. *)
Lemma failed_write_not_repeated (p : LifecycleProjector) (e : RuntimeEvent) (err : exn)
  (p' : LifecycleProjector) :
  handle e p = (Raise err, p') → accepts p e = true → handle e p' = (Ok false, p').
Proof.
  intros Hh Ha. destruct (handle_accepted e p Ha) as (r & w & Heq). rewrite Heq in Hh.
  injection Hh as _ <-. unfold handle. simpl. rewrite decide_True; [done|].
  unfold inbox_key. simpl. set_solver.
Qed.
End Projector.

(** A sink that refuses every write. *)
#[local] Instance failing_sink : ProjectionSink bool := { sink_write p := raise (RuntimeError "sink") }.

Definition example_projected (n : Z) (t : RuntimeEventType) : RuntimeEvent :=
  mk_event (mk_id ("e" +:+ pretty n)) n 0
    (mk_identity (mk_scope (mk_id "w") (mk_id "p") (mk_id "a") (mk_id "r") (mk_id "d"))
      (mk_id "agent") (mk_id "run") (mk_id "attempt") None)
    (Known t) [] (JInt n) [] (mk_trace None None) 1.

Lemma projector_folds_once_witness :
  let p := (handle (λ _, "t") (λ _, "v") (example_projected 0 RUN_STARTED) (new_projector (W:=unit) tt "c")).2 in
  handle (λ _, "t") (λ _, "v") (example_projected 0 RUN_STARTED) p = (Ok false, p).
Proof.
  intros p.
  refine (proj1 (proj2 (projector_folds_once (W:=unit) (λ _, "t") (λ _, "v") tt "c" p
    [example_projected 0 RUN_STARTED] (example_projected 0 RUN_STARTED) _)) _).
  - eapply reach_step; [apply reach_init|].
    exact (deliver (λ _, "t") (λ _, "v") (new_projector (W:=unit) tt "c") [] (example_projected 0 RUN_STARTED)).
  - exists (example_projected 0 RUN_STARTED). split; [by apply list_elem_of_singleton|reflexivity].
Defined.

Lemma failed_write_not_repeated_witness :
  let r := handle (λ _, "t") (λ _, "v") (example_projected 0 RUN_STARTED) (new_projector true "c") in
  handle (λ _, "t") (λ _, "v") (example_projected 0 RUN_STARTED) r.2 = (Ok false, r.2).
Proof.
  intros r.
  refine (failed_write_not_repeated (λ _, "t") (λ _, "v") (new_projector true "c")
    (example_projected 0 RUN_STARTED) (RuntimeError "sink") r.2 _ _); reflexivity.
Defined.
