(* ===== verification/Service.v ===== *)
(** * The execution service

    [application/runtime_service.py]: [RuntimeExecutionService] against the
    port classes of [Ports].  The adapters are a parameter of the model: what an
    adapter's stream yields and how it ends is an argument of
    [execute_receipt], and [adapter_cancel] is the outcome of its [cancel].
    Clock readings and new identifiers are drawn from two sequences. *)

From S2P Require Import Prelude PyDict PyStr Json Errors Identity Execution Ports.
From S2P Require Import MemoryStores Capacity.

(** How an adapter's stream ends. *)
Inductive stream_end : Type :=
| Exhausted
| Raised (e : exn).

Section Service.
Context {R T Q J O A : Type}
  `{RunRepository R, ThreadRepository T, RunCommandQueue Q, EventJournal J, OutboxRepository O}
  (clock : nat → datetime) (fresh : nat → string)
  (json_str : json → string)
  (adapter_cancel : A → ExecutionRequest → res unit).

(** [RuntimeExecutionService]; [svc_caller_outbox] is the repository that
    callers pass to [start_run]. *)
Record Service : Type := mk_service {
  svc_threads : T;
  svc_runs : R;
  svc_commands : Q;
  svc_journal : option J;
  svc_outbox : option O;
  svc_caller_outbox : O;
  svc_active : dict A;
  svc_ticks : nat;
}.

Definition set_threads (t : T) (s : Service) : Service :=
  mk_service t (svc_runs s) (svc_commands s) (svc_journal s) (svc_outbox s)
    (svc_caller_outbox s) (svc_active s) (svc_ticks s).
Definition set_runs (r : R) (s : Service) : Service :=
  mk_service (svc_threads s) r (svc_commands s) (svc_journal s) (svc_outbox s)
    (svc_caller_outbox s) (svc_active s) (svc_ticks s).
Definition set_commands (q : Q) (s : Service) : Service :=
  mk_service (svc_threads s) (svc_runs s) q (svc_journal s) (svc_outbox s)
    (svc_caller_outbox s) (svc_active s) (svc_ticks s).
Definition set_journal (j : option J) (s : Service) : Service :=
  mk_service (svc_threads s) (svc_runs s) (svc_commands s) j (svc_outbox s)
    (svc_caller_outbox s) (svc_active s) (svc_ticks s).
Definition set_outboxes (o : option O) (c : O) (s : Service) : Service :=
  mk_service (svc_threads s) (svc_runs s) (svc_commands s) (svc_journal s) o c
    (svc_active s) (svc_ticks s).
Definition set_active (a : dict A) (s : Service) : Service :=
  mk_service (svc_threads s) (svc_runs s) (svc_commands s) (svc_journal s) (svc_outbox s)
    (svc_caller_outbox s) a (svc_ticks s).
Definition set_ticks (n : nat) (s : Service) : Service :=
  mk_service (svc_threads s) (svc_runs s) (svc_commands s) (svc_journal s) (svc_outbox s)
    (svc_caller_outbox s) (svc_active s) n.

Definition on_threads {B} (m : Py T B) : Py Service B := zoom svc_threads set_threads m.
Definition on_runs {B} (m : Py R B) : Py Service B := zoom svc_runs set_runs m.
Definition on_commands {B} (m : Py Q B) : Py Service B := zoom svc_commands set_commands m.

(** [_now()] *)
Definition now : Py Service datetime := λ s, (Ok (clock (svc_ticks s)), set_ticks (S (svc_ticks s)) s).
(** [X.new()] *)
Definition new {k} : Py Service (TypedId k) := λ s,
  (Ok (mk_id (fresh (svc_ticks s))), set_ticks (S (svc_ticks s)) s).

(** [self._journal.append(draft)] *)
Definition append_event (d : RuntimeEventDraft) : Py Service RuntimeEvent := λ s,
  match svc_journal s with
  | None => (Raise (OtherError "'NoneType' object has no attribute 'append'"), s)
  | Some j =>
      let '(r, j') := journal_append (mk_id (fresh (svc_ticks s))) (clock (S (svc_ticks s))) d j in
      (r, set_ticks (S (S (svc_ticks s))) (set_journal (Some j') s))
  end.
(** [if self._journal is not None: await self._journal.append(draft)] *)
Definition append_if_journal (d : RuntimeEventDraft) : Py Service unit := λ s,
  match svc_journal s with
  | None => (Ok tt, s)
  | Some _ => (append_event d;;; ret tt) s
  end.

Definition create_thread (thread_id : option string) (metadata : option json_object)
  : Py Service Thread :=
  t <- now;;
  i <- match thread_id with
       | Some v => if str_truthy v then of_result (parse_id v) else new
       | None => new
       end;;
  on_threads (threads_create (mk_thread i IDLE (default [] metadata) (Some t) (Some t))).

(** *** [start_run] *)

Definition optional_id (i : option ThreadId) : json :=
  match i with Some t => JStr (id_value t) | None => JNull end.

(** [f"{application_id}:{thread_id or 'stateless'}"] *)
Definition outbox_key (i : ExecutionIdentity) : string :=
  id_value (application_id (scope i)) +:+ ":" +:+
  match thread_id i with Some t => id_value t | None => "stateless" end.

Definition outbox_payload (r : ExecutionRequest) : json_object :=
  [("run_id", JStr (id_value (run_id (req_identity r))));
   ("assistant_id", JStr (id_value (assistant_id (req_identity r))));
   ("thread_id", optional_id (thread_id (req_identity r)));
   ("input", req_input r); ("command", req_command r);
   ("config", JObj (req_config r)); ("context", JObj (req_context r));
   ("metadata", JObj (req_metadata r));
   ("stream_modes", JList (JStr <$> req_stream_modes r))].

(** [selected_outbox = outbox or self._outbox], and appending to it. *)
Definition has_outbox (given : bool) (s : Service) : bool :=
  given || match svc_outbox s with Some _ => true | None => false end.
Definition outbox_put (given : bool) (m : OutboxMessage) : Py Service OutboxMessage := λ s,
  if given
  then let '(r, o) := outbox_append m (svc_caller_outbox s) in (r, set_outboxes (svc_outbox s) o s)
  else match svc_outbox s with
       | Some o => let '(r, o) := outbox_append m o in
                   (r, set_outboxes (Some o) (svc_caller_outbox s) s)
       | None => (Raise AssertionError, s)
       end.

(** The body of the [try]. *)
Definition enqueue (r : ExecutionRequest) (given : bool) (t : datetime) : Py Service unit :=
  append_if_journal (simple_draft (req_identity r) RUN_QUEUED
    (JObj [("assistant_id", JStr (id_value (assistant_id (req_identity r))))]));;;
  s <- get_state;;
  i <- new;;
  if has_outbox given s
  then outbox_put given (mk_outbox_message i "rt.local.run.commands.v1"
         (outbox_key (req_identity r)) (outbox_payload r) t false);;; ret tt
  else on_commands (queue_publish
         (mk_command i (req_identity r) r (req_priority r) t t)).

(** The [except Exception] clause. *)
Definition queue_failed (created : Run) (thread : option ThreadId) : Py Service unit :=
  t <- now;;
  failed <- of_result (run_fail created
              (new_run_error "RUN_QUEUE_FAILED" "run command could not be queued" false None) t);;
  on_runs (runs_update failed);;;
  match thread with
  | Some i =>
      th <- on_threads (threads_get (id_value i));;
      t <- now;;
      on_threads (threads_update (mark_error th t));;; ret tt
  | None => ret tt
  end.

Definition start_run (r : ExecutionRequest) (given_outbox : bool) : Py Service Run :=
  t <- now;;
  match thread_id (req_identity r) with
  | Some i =>
      th <- on_threads (threads_get (id_value i));;
      if decide (thr_status th = BUSY)
      then raise (failure THREAD_BUSY ("thread is busy: " +:+ id_value i))
      else on_threads (threads_update (mark_busy th t));;; ret tt
  | None => ret tt
  end;;;
  created <- on_runs (runs_create
    (mk_run (req_identity r) PENDING (req_metadata r) (Some t) (Some t) JNull None));;
  try_except (enqueue r given_outbox t) (λ e,
    if is_exception e
    then queue_failed created (thread_id (req_identity r));;; raise e
    else raise e);;;
  ret created.

(** *** [cancel_run] and [resume_run] *)

Definition cancel_run (id : string) : Py Service Run :=
  run <- on_runs (runs_get id);;
  if terminal_status (run_status run) then ret run
  else
    s <- get_state;;
    match dget (svc_active s) (run_key run) with
    | Some adapter => of_result (adapter_cancel adapter (default_request (run_identity run)))
    | None => ret tt
    end;;;
    t <- now;;
    cancelled <- of_result (run_cancel run t);;
    (if decide (run_status run = CANCELLED) then ret tt
     else on_runs (runs_update cancelled);;; ret tt);;;
    match run_thread_id run with
    | Some i =>
        th <- on_threads (threads_get (id_value i));;
        t <- now;;
        on_threads (threads_update (mark_idle th t));;; ret tt
    | None => ret tt
    end;;;
    append_if_journal (simple_draft (run_identity run) RUN_CANCELLED
      (JObj [("run_id", JStr (run_key run));
             ("status", JStr (run_status_value (run_status cancelled)))]));;;
    ret cancelled.

Definition resume_run (r : ExecutionRequest) : Py Service Run :=
  run <- on_runs (runs_get (id_value (run_id (req_identity r))));;
  if decide (run_status run = INTERRUPTED)
  then
    t <- now;;
    i <- new;;
    on_commands (queue_publish (mk_command i (run_identity run) r (req_priority r) t t));;;
    append_if_journal (simple_draft (run_identity run) RUN_QUEUED
      (JObj [("resume", JBool true)]));;;
    ret run
  else raise (failure INVALID_EXECUTION_INPUT "run is not interrupted").

(** *** [_execute_receipt], in the pieces between its suspensions *)

(** The local variables of an execution in progress. *)
Record execution : Type := mk_execution {
  ex_receipt : RunCommandReceipt;
  ex_run : Run;
  ex_last_result : json;
  ex_terminal : bool;
}.
Definition ex_request (x : execution) : ExecutionRequest := cmd_request (rcp_command (ex_receipt x)).

(** Lines 242 to 250: the pending run, or [None] for a duplicate command. *)
Definition exec_begin (receipt : RunCommandReceipt) (adapter : A)
  : Py Service (option execution) :=
  let request := cmd_request (rcp_command receipt) in
  run <- on_runs (runs_get (id_value (run_id (req_identity request))));;
  if decide (run_status run = PENDING)
  then modify (λ s, set_active (dset (svc_active s) (run_key run) adapter) s);;;
       ret (Some (mk_execution receipt run JNull false))
  else on_commands (queue_acknowledge receipt);;; ret None.

Definition exec_running (x : execution) : Py Service unit :=
  t <- now;;
  r <- of_result (run_mark_running (ex_run x) t);;
  on_runs (runs_update r);;; ret tt.

(** The run after a terminal event: lines 268 to 289. *)
Definition event_outcome (type : event_type) (data : json) (last : json) (current : Run)
    (t : datetime) : res Run :=
  if type_is type RUN_COMPLETED then run_complete current last t
  else if type_is type RUN_CANCELLED then run_cancel current t
  else if type_is type RUN_INTERRUPTED
  then Ok (mk_run (run_identity current) INTERRUPTED (run_metadata current)
             (run_created_at current) (Some t) (run_result current) (run_error current))
  else run_fail current
         (new_run_error "FRAMEWORK_EXECUTION_FAILED" (json_str data) false None) t.

Definition SETTLING : list RuntimeEventType :=
  [RUN_COMPLETED; RUN_CANCELLED; RUN_FAILED; RUN_TIMEOUT; RUN_INTERRUPTED].

(** The body of the [async for]. *)
Definition exec_event (x : execution) (d : RuntimeEventDraft) : Py Service execution :=
  event <- append_event d;;
  let last := if type_is (ev_type event) STATE_VALUES then ev_data event else ex_last_result x in
  if type_in (ev_type event) SETTLING
  then
    current <- on_runs (runs_get (run_key (ex_run x)));;
    t <- now;;
    r <- of_result (event_outcome (ev_type event) (ev_data event) last current t);;
    on_runs (runs_update r);;;
    match run_thread_id current with
    | Some i =>
        th <- on_threads (threads_get (id_value i));;
        t <- now;;
        on_threads (threads_update
          (if type_is (ev_type event) RUN_INTERRUPTED then mark_interrupted th t
           else mark_idle th t));;; ret tt
    | None => ret tt
    end;;;
    ret (mk_execution (ex_receipt x) (ex_run x) last true)
  else ret (mk_execution (ex_receipt x) (ex_run x) last (ex_terminal x)).

Fixpoint exec_events (x : execution) (ds : list RuntimeEventDraft) : Py Service execution :=
  match ds with
  | [] => ret x
  | d :: ds => x' <- exec_event x d;; exec_events x' ds
  end.

(** The end of the stream and the [if not terminal]. *)
Definition exec_end (x : execution) (e : stream_end) : Py Service unit :=
  match e with
  | Raised e => raise e
  | Exhausted =>
      if ex_terminal x then ret tt
      else
        current <- on_runs (runs_get (run_key (ex_run x)));;
        t <- now;;
        r <- of_result (run_complete current (ex_last_result x) t);;
        on_runs (runs_update r);;; ret tt
  end.

(** The [except] clauses. *)
Definition exec_failed (x : execution) (e : exn) : Py Service unit :=
  current <- on_runs (runs_get (run_key (ex_run x)));;
  match e with
  | CancelledError =>
      if decide (run_status current = CANCELLED) then ret tt
      else
        append_event (simple_draft (req_identity (ex_request x)) RUN_CANCELLED JNull);;;
        t <- now;;
        r <- of_result (run_cancel current t);;
        on_runs (runs_update r);;; ret tt
  | _ =>
      (if terminal_status (run_status current) then ret tt
       else
         append_event (simple_draft (req_identity (ex_request x)) RUN_FAILED
           (JObj [("error", JStr (exn_str e))]));;;
         t <- now;;
         r <- of_result (run_fail current
                (new_run_error "FRAMEWORK_EXECUTION_FAILED" (exn_str e) false None) t);;
         on_runs (runs_update r);;; ret tt);;;
      raise e
  end.

(** The [finally] clause. *)
Definition exec_finally (x : execution) : Py Service unit :=
  modify (λ s, set_active (dpop (svc_active s) (run_key (ex_run x))) s);;;
  match run_thread_id (ex_run x) with
  | Some i =>
      th <- on_threads (threads_get (id_value i));;
      if decide (thr_status th = BUSY)
      then t <- now;; on_threads (threads_update (mark_idle th t));;; ret tt
      else ret tt
  | None => ret tt
  end;;;
  on_commands (queue_acknowledge (ex_receipt x)).

(** A piece of the [try] body with the [except] and [finally] clauses. *)
Definition settle (x : execution) (m : Py Service unit) : Py Service unit :=
  try_finally (try_except m (exec_failed x)) (exec_finally x).

(** [_execute_receipt] for an adapter whose stream yields [ds] and then ends
    with [e]. *)
Definition execute_receipt (receipt : RunCommandReceipt) (adapter : A)
    (ds : list RuntimeEventDraft) (e : stream_end) : Py Service unit :=
  o <- exec_begin receipt adapter;;
  match o with
  | None => ret tt
  | Some x =>
      try_finally
        (try_except (exec_running x;;; x' <- exec_events x ds;; exec_end x' e) (exec_failed x))
        (exec_finally x)
  end.

(** *** Reading back *)

(** The replay port over the same journal. *)
Context (replay_run : RunId → Z → J → res (list RuntimeEvent))
  (replay_by_thread : string → Z → Z → J → res (list RuntimeEvent)).

Definition replay_missing : exn := failure ADAPTER_NOT_SUPPORTED "event replay is not configured".

(** [stream_events]; [replay] is [self._replay]. *)
Definition stream_events (replay : option J) (id : string) (after_sequence : Z) : res (list RuntimeEvent) :=
  match replay with
  | None => Raise replay_missing
  | Some j => result_bind (parse_id id) (λ i, replay_run i after_sequence j)
  end.
Definition get_thread_history (replay : option J) (thread_id : string) (after_sequence limit : Z)
  : res (list RuntimeEvent) :=
  match replay with
  | None => Raise replay_missing
  | Some j => replay_by_thread thread_id after_sequence limit j
  end.

Context (state_management : A → bool) (adapter_get_state : A → ExecutionRequest → res json).

(** The request of [get_thread_state] with the configuration it adds. *)
Definition state_request (i : ExecutionIdentity) (thread_id : string) : ExecutionRequest :=
  mk_request i JNull JNull [("configurable", JObj [("thread_id", JStr thread_id)])] [] []
    ["values"] false INTERACTIVE 1800.

Definition last_state (events : list RuntimeEvent) : json :=
  match find_first (λ e, type_is (ev_type e) STATE_VALUES) (reverse events) with
  | Some e => ev_data e
  | None => JNull
  end.

Definition get_thread_state (replay : option J) (thread_id : string) (adapter : option A)
  : Py Service json :=
  match adapter with
  | Some a =>
      if state_management a
      then
        run <- new;;
        th <- of_result (parse_id thread_id);;
        i <- of_result (make_identity NoScope None (Some run) None (Some th) None None None None None);;
        of_result (adapter_get_state a (state_request i thread_id))
      else match replay with
           | Some j => of_result (result_map last_state (replay_by_thread thread_id (-1) 0 j))
           | None => ret JNull
           end
  | None =>
      match replay with
      | Some j => of_result (result_map last_state (replay_by_thread thread_id (-1) 0 j))
      | None => ret JNull
      end
  end.
End Service.

(** ** The worker loop *)

Section Worker.
Context {R T Q J O A : Type}
  `{RunRepository R, ThreadRepository T, RunCommandQueue Q, EventJournal J, OutboxRepository O}
  (clock : nat → datetime) (fresh : nat → string) (json_str : json → string)
  (adapter_stream : A → RunCommandReceipt → list RuntimeEventDraft * stream_end).

(** The service with its registry and its capacity. *)
Record Worker : Type := mk_worker {
  wk_service : Service (R:=R) (T:=T) (Q:=Q) (J:=J) (O:=O) (A:=A);
  wk_adapters : dict A;
  wk_capacity : option ExecutionCapacity;
}.
Definition set_service s (w : Worker) : Worker := mk_worker s (wk_adapters w) (wk_capacity w).
Definition set_capacity c (w : Worker) : Worker := mk_worker (wk_service w) (wk_adapters w) c.

(** How an iteration of [_consume_commands] ends, unless it raises. *)
Inductive loop_outcome : Type := NextCommand | NoCommand | NoSlot | Returned.

Definition on_service {B} (m : Py (Service (R:=R) (T:=T) (Q:=Q) (J:=J) (O:=O) (A:=A)) B)
  : Py Worker B := zoom wk_service set_service m.

Definition enter_slot : Py Worker bool := λ w,
  match wk_capacity w with
  | None => (Ok true, w)
  | Some c => let '(r, c') := slot_enter c in (r, set_capacity (Some c') w)
  end.
Definition leave_slot : Py Worker unit := λ w,
  match wk_capacity w with
  | None => (Ok tt, w)
  | Some c => let '(r, c') := slot_exit c in (r, set_capacity (Some c') w)
  end.

(** [self._commands.receive(...)] with the lease and time it draws; a call that
    finds no command would draw them when one arrives. *)
Definition receive_command : Py Worker (option RunCommandReceipt) :=
  on_service (i <- new fresh;; t <- now clock;; on_commands (queue_receive i t)).

(** One iteration. *)
Definition consume_one : Py Worker loop_outcome := λ w,
  match receive_command w with
  | (Raise (Failure _), w') | (Raise CancelledError, w') => (Ok Returned, w')
  | (Raise e, w') => (Raise e, w')
  | (Ok None, w') => (Ok NoCommand, w')
  | (Ok (Some receipt), w') =>
      match Registry.get (id_value (assistant_id (receipt_identity receipt))) (wk_adapters w') with
      | (Raise e, _) => (Raise e, w')
      | (Ok adapter, _) =>
          match enter_slot w' with
          | (Raise e, w'') => (Raise e, w'')
          | (Ok false, w'') => (Ok NoSlot, w'')
          | (Ok true, w'') =>
              let '(ds, e) := adapter_stream adapter receipt in
              match try_finally (on_service (execute_receipt clock fresh json_str receipt adapter ds e))
                      leave_slot w'' with
              | (Ok _, w3) | (Raise CancelledError, w3) => (Ok NextCommand, w3)
              | (Raise e, w3) => (Raise e, w3)
              end
          end
      end
  end.

(** At most [n] iterations of the [while]. *)
Fixpoint consume_commands (n : nat) : Py Worker loop_outcome :=
  match n with
  | 0%nat => ret NextCommand
  | S n =>
      o <- consume_one;;
      match o with
      | NextCommand => consume_commands n
      | o => ret o
      end
  end.
End Worker.
