(* ===== verification/ServiceSafety.v ===== *)
(** * Safety of the execution service

    The service as a transition system: clients start, cancel and resume runs
    while executions are in progress, each at a suspension of its adapter's
    stream.  Shown for every run repository that satisfies its laws: no run is
    left running without an execution, and at most one run occupies a thread. *)

From S2P Require Import Prelude PyDict PyStr Json Errors Identity Execution Ports.
From S2P Require Import MemoryRepositories MemoryQueue MemoryJournal MemoryStores Service.

Section Safety.
Context {R T Q J O A : Type}
  `{!RunRepository R, RL : !RunRepositoryLaws R, !ThreadRepository T, !RunCommandQueue Q,
    !EventJournal J, JL : !EventJournalLaws J, !OutboxRepository O}
  (clock : nat → datetime) (fresh : nat → string) (json_str : json → string)
  (adapter_cancel : A → ExecutionRequest → res unit).

Notation Service := (Service (R:=R) (T:=T) (Q:=Q) (J:=J) (O:=O) (A:=A)).
Notation now := (now clock).
Notation append_event := (append_event clock fresh).

Definition view (s : Service) : gmap string Run := runs_view (svc_runs s).

(** The run repository is consistent and a journal is configured. *)
Definition good (s : Service) : Prop := runs_inv (svc_runs s) ∧ is_Some (svc_journal s).

(** *** Steps that do not touch the runs *)

(** A predicate of the runs and of the presence of a journal only. *)
Definition runs_only (I : Service → Prop) : Prop :=
  ∀ s s', I s → svc_runs s' = svc_runs s → (is_Some (svc_journal s) → is_Some (svc_journal s')) → I s'.

Section Frame.
Context (I : Service → Prop) (HI : runs_only I).

Lemma wp_on_threads {B} (m : Py T B) s : I s → wp (on_threads m) (λ _, I) (λ _, I) s.
Proof using HI.
  intros Hs. unfold wp, on_threads, zoom. destruct (m (svc_threads s)) as [[b|e] t];
    by eapply HI.
Qed.
Lemma wp_on_commands {B} (m : Py Q B) s : I s → wp (on_commands m) (λ _, I) (λ _, I) s.
Proof using HI.
  intros Hs. unfold wp, on_commands, zoom. destruct (m (svc_commands s)) as [[b|e] t];
    by eapply HI.
Qed.
Lemma wp_now X s : I s → wp now (λ _, I) X s.
Proof using HI. intros Hs. by eapply HI. Qed.
Lemma wp_new {k} X s : I s → wp (new (k:=k) fresh) (λ _, I) X s.
Proof using HI. intros Hs. by eapply HI. Qed.
Lemma wp_append_event d s :
  I s → wp (append_event d) (λ e s', I s' ∧ ev_type e = draft_type d) (λ _, I) s.
Proof using HI JL.
  intros Hs. unfold wp, append_event. destruct (svc_journal s) as [j|] eqn:Hj; [|done].
  destruct (journal_append _ _ d j) as [[e|e] j'] eqn:Ha.
  - split; [by eapply HI|]. by apply journal_append_draft in Ha as (_ & ? & _).
  - by eapply HI.
Qed.
Lemma wp_append_if_journal d s :
  I s → wp (append_if_journal clock fresh d) (λ _, I) (λ _, I) s.
Proof using HI JL.
  intros Hs. unfold wp, append_if_journal. destruct (svc_journal s); [|done].
  pose proof (wp_append_event d s Hs) as Ha. unfold wp in Ha. unfold bind.
  by destruct (append_event d s) as [[e|e] s']; simpl; [destruct Ha|].
Qed.
Lemma wp_set_active f X s : I s → wp (E:=exn) (modify (λ s, set_active (f s) s)) (λ _, I) X s.
Proof using HI. intros Hs. by eapply HI. Qed.
Lemma wp_outbox_put g m s : I s → wp (outbox_put g m) (λ _, I) (λ _, I) s.
Proof using HI.
  intros Hs. unfold wp, outbox_put. destruct g; [|destruct (svc_outbox s); [|done]];
    destruct (outbox_append m _) as [[b|e] o']; by eapply HI.
Qed.
End Frame.

Lemma runs_only_good : runs_only good.
Proof. intros s s' [Hi Hj] Hr Hj'. unfold good. rewrite Hr. auto. Qed.

(** A predicate of the runs is kept by whatever is done to the rest. *)
Lemma runs_only_and (P : gmap string Run → Prop) : runs_only (λ s, good s ∧ P (view s)).
Proof.
  intros s s' [Hg Hp] Hr Hj. split; [by eapply runs_only_good|]. unfold view. by rewrite Hr.
Qed.

(** *** Steps on one run *)

Lemma wp_get (k : string) (Q' : Run → Service → Prop) X s :
  good s → (∀ r, view s !! k = Some r → Q' r s) →
  (∀ e, view s !! k = None → X e s) → wp (on_runs (runs_get k)) Q' X s.
Proof using RL.
  intros [Hi _] Hq Hx. unfold wp, on_runs, zoom.
  assert (set_runs (svc_runs s) s = s) as Hid by by destruct s.
  destruct (view s !! k) as [r|] eqn:Hv.
  - rewrite (runs_get_some _ k r) by done. rewrite Hid. by apply Hq.
  - destruct (runs_get_none (svc_runs s) k) as (e & -> & _); [done..|]. rewrite Hid. by apply Hx.
Qed.

Lemma wp_update r (Q' : Run → Service → Prop) X s :
  good s → is_Some (view s !! run_key r) →
  (∀ r' s', good s' → run_core r' = run_core r → view s' = <[run_key r := r']> (view s) →
     Q' r s') →
  wp (on_runs (runs_update r)) Q' X s.
Proof using RL.
  intros [Hi Hj] Hk Hq. unfold wp, on_runs, zoom.
  destruct (runs_update_some (svc_runs s) r) as (r' & R' & -> & Hi' & Hc & Hv); [done..|].
  by apply (Hq r').
Qed.

Lemma view_key s k r : good s → view s !! k = Some r → run_key r = k.
Proof using RL. intros [Hi _]. by apply runs_inv_key. Qed.

(** Everything but the run [k] is as in [v], and [k] is related to what it was. *)
Definition at_key (k : string) (rel : option Run → option Run → Prop)
    (v v' : gmap string Run) : Prop :=
  (∀ k', k' ≠ k → v' !! k' = v !! k') ∧ rel (v !! k) (v' !! k).

Lemma at_key_insert k rel v r' :
  rel (v !! k) (Some r') → at_key k rel v (<[k := r']> v).
Proof.
  intros Hr. split; [intros k' Hk; by rewrite lookup_insert_ne|].
  by rewrite lookup_insert_eq.
Qed.

(** At most one active run per thread. *)
Definition exclusive (v : gmap string Run) : Prop :=
  ∀ t k k' r r', v !! k = Some r → v !! k' = Some r' →
    occupies t r = true → occupies t r' = true → k = k'.

Definition no_more_active (o o' : option Run) : Prop :=
  ∀ r' t, o' = Some r' → occupies t r' = true → ∃ r, o = Some r ∧ occupies t r = true.

Lemma exclusive_at_key k v v' :
  exclusive v → at_key k no_more_active v v' → exclusive v'.
Proof.
  intros Hex [Hoth Hk]. assert (∀ t k1 r1, v' !! k1 = Some r1 → occupies t r1 = true →
    ∃ r0, v !! k1 = Some r0 ∧ occupies t r0 = true) as Hback.
  { intros t k1 r1 Hv Ho. destruct (decide (k1 = k)) as [->|Hne]; [by eapply Hk|].
    exists r1. by rewrite <- Hoth. }
  intros t k1 k2 r1 r2 H1 H2 Ho1 Ho2.
  destruct (Hback t k1 r1 H1 Ho1) as (r1' & ? & ?), (Hback t k2 r2 H2 Ho2) as (r2' & ? & ?).
  by eapply (Hex t k1 k2).
Qed.

Lemma occupies_status t r r' :
  run_identity r' = run_identity r →
  (active_status (run_status r') = true → active_status (run_status r) = true) →
  occupies t r' = true → occupies t r = true.
Proof.
  intros Hi Ha. unfold occupies, run_thread_id. rewrite Hi.
  destruct (thread_id (run_identity r)); [|done]. rewrite !andb_true_iff. naive_solver.
Qed.

(** *** What an execution does to its run *)

Definition settled (r : Run) : Prop := run_status r ≠ PENDING ∧ run_status r ≠ RUNNING.

(** The run exists with the identity it had; it is unchanged or settled; and
    it is not revived, unless [revive]. *)
Definition task_rel (revive : Prop) (o o' : option Run) : Prop :=
  ∃ r r', o = Some r ∧ o' = Some r' ∧ run_identity r' = run_identity r ∧
    (run_core r' = run_core r ∨ settled r') ∧
    (active_status (run_status r') = true → active_status (run_status r) = true ∨ revive).

Lemma task_rel_no_more (revive : Prop) o o' : ¬ revive → task_rel revive o o' → no_more_active o o'.
Proof.
  intros Hn (r & r' & -> & -> & Hi & _ & Ha) r1 t [= <-] Ho. exists r. split; [done|].
  eapply occupies_status; [done| |done]. intros H. destruct (Ha H); [done|contradiction].
Qed.
Lemma task_rel_refl rv r : task_rel rv (Some r) (Some r).
Proof. exists r, r. split_and!; auto. Qed.

Lemma core_fields (r r' : Run) :
  run_core r' = run_core r → run_identity r' = run_identity r ∧ run_status r' = run_status r.
Proof. unfold run_core. by intros [= -> -> _ _]. Qed.

Lemma task_rel_step rv o r r1 r2 :
  task_rel rv o (Some r) → run_core r2 = run_core r1 → run_identity r1 = run_identity r →
  settled r1 → (active_status (run_status r1) = true → active_status (run_status r) = true ∨ rv) →
  task_rel rv o (Some r2).
Proof.
  intros (r0 & r' & -> & [= <-] & Hi & _ & Ha) Hc Hi1 Hs Ha1.
  apply core_fields in Hc as [Hi2 Hs2]. exists r0, r2. unfold settled in *.
  rewrite Hi2, Hs2, Hi1. split_and!; auto. intros H. destruct (Ha1 H); auto.
Qed.

Section Task.
Context (x : execution) (v0 : gmap string Run) (rv : Prop).
Let k : string := run_key (ex_run x).

Definition task_inv (s : Service) : Prop := good s ∧ at_key k (task_rel rv) v0 (view s).
Definition settled_at (s : Service) : Prop := ∃ r, view s !! k = Some r ∧ settled r.
Definition task_done (s : Service) : Prop := task_inv s ∧ settled_at s.

Lemma task_inv_runs_only : runs_only task_inv.
Proof. apply runs_only_and. Qed.
Lemma task_done_runs_only : runs_only task_done.
Proof.
  intros s s' [Hi Hd] Hr Hj. split; [by eapply task_inv_runs_only|].
  unfold settled_at, view. by rewrite Hr.
Qed.

Lemma task_get (Q' : Run → Service → Prop) X s :
  task_inv s →
  (∀ r, view s !! k = Some r → run_key r = k → task_rel rv (v0 !! k) (Some r) → Q' r s) →
  wp (on_runs (runs_get k)) Q' X s.
Proof using RL.
  intros [Hg [Ho Hk]] Hq. apply wp_get; [done| |].
  - intros r Hr. apply Hq; [done|by eapply view_key|by rewrite <- Hr].
  - intros e He. rewrite He in Hk. by destruct Hk as (? & ? & _ & ? & _).
Qed.

Lemma task_update r r1 X s :
  task_inv s → view s !! k = Some r → run_identity r1 = run_identity r → settled r1 →
  (active_status (run_status r1) = true → active_status (run_status r) = true ∨ rv) →
  wp (on_runs (runs_update r1)) (λ _, task_done) X s.
Proof using RL.
  intros [Hg [Ho Hk]] Hr Hi Hs Ha.
  assert (run_key r1 = k) as Hk1.
  { rewrite <- (view_key s k r) by done. unfold run_key, run_run_id. by rewrite Hi. }
  apply wp_update; [done|by rewrite Hk1, Hr|].
  intros r2 s' Hg' Hc Hv. rewrite Hk1 in Hv. split; [split; [done|split]|].
  - intros k' Hne. rewrite Hv, lookup_insert_ne by done. by apply Ho.
  - rewrite Hv, lookup_insert_eq. rewrite Hr in Hk. by eapply task_rel_step.
  - exists r2. rewrite Hv, lookup_insert_eq. split; [done|].
    apply core_fields in Hc as [_ Hc]. unfold settled. by rewrite Hc.
Qed.

Lemma run_change_settled (r : Run) status t v e r1 :
  run_change r status t v e = Ok r1 → terminal_status status = true →
  run_identity r1 = run_identity r ∧ settled r1 ∧ active_status (run_status r1) = false.
Proof.
  intros Hc Ht. apply run_change_ok in Hc as [_ ->]. unfold settled; simpl.
  destruct status; try done; by split_and!.
Qed.

Lemma run_cancel_settled (r : Run) t r1 :
  run_cancel r t = Ok r1 →
  run_identity r1 = run_identity r ∧ settled r1 ∧ active_status (run_status r1) = false.
Proof.
  unfold run_cancel. destruct (decide _) as [Hc|].
  - intros [= <-]. unfold settled. rewrite Hc. by split_and!.
  - intros Hc. by eapply run_change_settled.
Qed.

(** With a journal, appending succeeds. *)
Lemma append_total (I : Service → Prop) d X s :
  runs_only I → I s → is_Some (svc_journal s) →
  wp (append_event d) (λ e s', I s' ∧ ev_type e = draft_type d) X s.
Proof using JL.
  intros HI Hs [j Hj]. pose proof (wp_append_event I HI d s Hs) as Ha.
  unfold wp, append_event in *. rewrite Hj in *.
  destruct (journal_append_total j (mk_id (fresh (svc_ticks s))) (clock (S (svc_ticks s))) d)
    as (e & j' & He). by rewrite He in *.
Qed.

Lemma settled_terminal s r :
  task_inv s → view s !! k = Some r → terminal_status (run_status r) = true → task_done s.
Proof.
  intros Hs Hr Ht. split; [done|]. exists r. split; [done|]. unfold settled.
  by destruct (run_status r).
Qed.

(** States that differ from [s] outside its runs. *)
Definition like (s s' : Service) : Prop := task_inv s' ∧ view s' = view s.
Lemma like_runs_only s : runs_only (like s).
Proof.
  intros s1 s2 [Hi Hv] He Hj. split; [by eapply task_inv_runs_only|].
  unfold view in *. by rewrite He.
Qed.

(** Reading the clock, changing the run to a settled one and storing it. *)
Lemma task_store {B} (f : Run → datetime → res Run) r (m : Py Service B) Q' X s :
  task_inv s → view s !! k = Some r →
  (∀ t r1, f r t = Ok r1 → run_identity r1 = run_identity r ∧ settled r1 ∧
     (active_status (run_status r1) = true → active_status (run_status r) = true ∨ rv)) →
  (∀ t e s', f r t = Raise e → like s s' → X e s') →
  (∀ s', task_done s' → wp m Q' X s') →
  wp (t <- now;; r1 <- of_result (f r t);; on_runs (runs_update r1);;; m) Q' X s.
Proof using RL.
  intros Hs Hr Hok Hbad Hm. apply wp_bind.
  eapply wp_mono; [by apply (wp_now (like s) (like_runs_only s) (λ _ _, False))| |done].
  intros t s2 H2. apply wp_bind, wp_of_result. destruct (f r t) as [r1|e1] eqn:Hf.
  - destruct (Hok t r1 Hf) as (Hi1 & Hs1 & Ha1). destruct H2 as [H2 Hv2]. apply wp_bind.
    eapply wp_mono; [apply (task_update r r1 (λ _ _, False)); try done; by rewrite Hv2| |done].
    intros ? s3 H3. by apply Hm.
  - by eapply Hbad.
Qed.

Lemma run_fail_settled (r : Run) er t r1 :
  run_fail r er t = Ok r1 →
  run_identity r1 = run_identity r ∧ settled r1 ∧ active_status (run_status r1) = false.
Proof. intros Hc. by eapply run_change_settled. Qed.
Lemma run_complete_settled (r : Run) v t r1 :
  run_complete r v t = Ok r1 →
  run_identity r1 = run_identity r ∧ settled r1 ∧ active_status (run_status r1) = false.
Proof. intros Hc. by eapply run_change_settled. Qed.

Lemma run_change_raise (r : Run) status t v e0 e :
  run_change r status t v e0 = Raise e → terminal_status (run_status r) = true.
Proof. unfold run_change. by destruct (terminal_status _). Qed.
Lemma run_cancel_raise (r : Run) t e :
  run_cancel r t = Raise e → terminal_status (run_status r) = true.
Proof. unfold run_cancel. destruct (decide _); [done|]. apply run_change_raise. Qed.

(** The [except] clauses leave the run settled, however they are left. *)
Lemma exec_failed_spec e s :
  task_inv s → wp (exec_failed clock fresh x e) (λ _, task_done) (λ _, task_done) s.
Proof using RL JL.
  intros Hs. unfold exec_failed. apply wp_bind, task_get; [done|]. intros r Hr Hkr Hrel.
  assert (∀ s', like s s' → terminal_status (run_status r) = true → task_done s') as Hterm.
  { intros s' [Hi Hv] Ht. eapply settled_terminal; [done| |done]. by rewrite Hv. }
  assert (∀ d B (m : Py Service B) Q' X,
    (∀ s', like s s' → wp m Q' X s') → wp (append_event d;;; m) Q' X s) as Happ.
  { intros d B m Q' X Hm. apply wp_bind. eapply wp_mono;
      [apply (append_total (like s) d (λ _ _, False) s (like_runs_only s)); [by split|apply Hs]| |done].
    intros ev s1 [H1 _]. by apply Hm. }
  assert (wp ((if terminal_status (run_status r) then ret tt
     else append_event (simple_draft (req_identity (ex_request x)) RUN_FAILED
         (JObj [("error", JStr (exn_str e))]));;;
       t <- now;;
       r <- of_result (run_fail r (new_run_error "FRAMEWORK_EXECUTION_FAILED" (exn_str e) false None) t);;
       on_runs (runs_update r);;; ret tt);;; raise (A:=unit) e) (λ _, task_done) (λ _, task_done) s)
    as Hexc.
  { apply wp_bind. eapply wp_mono with (X := λ _, task_done); [|intros ? s' Hd; exact Hd|done].
    destruct (terminal_status (run_status r)) eqn:Ht; [by apply Hterm|].
    apply Happ. intros s1 [H1 Hv1].
    apply (task_store (λ r t, run_fail r _ t) r); [done|by rewrite Hv1| | |done].
    - intros t r1 Hf. apply run_fail_settled in Hf as (? & ? & Ha). rewrite Ha. naive_solver.
    - intros t e1 s2 Hf. apply run_change_raise in Hf. congruence. }
  destruct e; try exact Hexc. destruct (decide _) as [Hc|Hc].
  { apply Hterm; [by split|]. by rewrite Hc. }
  apply Happ. intros s1 [H1 Hv1].
  apply (task_store run_cancel r); [done|by rewrite Hv1| | |done].
  - intros t r1 Hf. apply run_cancel_settled in Hf as (? & ? & Ha). rewrite Ha. naive_solver.
  - intros t e1 s2 Hf [H2 Hv2]. apply run_cancel_raise in Hf. apply Hterm; [|done].
    split; [done|]. by rewrite Hv2.
Qed.

(** The [finally] clause does not touch the runs. *)
Lemma exec_finally_keeps (I : Service → Prop) s :
  I s → runs_only I → wp (exec_finally clock x) (λ _, I) (λ _, I) s.
Proof.
  intros Hs HI. unfold exec_finally. apply wp_bind.
  eapply wp_mono; [by apply (wp_set_active I HI _ (λ _ _, False))| |done].
  intros ? s1 H1. apply wp_bind.
  eapply wp_mono with (Q := λ _, I) (X := λ _, I); [| |done].
  - destruct (run_thread_id (ex_run x)) as [i|]; [|done]. apply wp_bind.
    eapply wp_mono; [by apply (wp_on_threads I HI)| |done].
    intros th s2 H2. destruct (decide _); [|done]. apply wp_bind.
    eapply wp_mono; [by apply (wp_now I HI (λ _ _, False))| |done].
    intros t s3 H3. apply wp_bind.
    eapply wp_mono; [by apply (wp_on_threads I HI)| |done]. done.
  - intros ? s2 H2. by apply (wp_on_commands I HI).
Qed.

Lemma settle_spec m s :
  wp m (λ _, task_done) (λ _, task_inv) s →
  wp (settle clock fresh x m) (λ _, task_done) (λ _, task_done) s.
Proof using RL JL.
  intros Hm. apply wp_try_finally, wp_try_except.
  eapply wp_mono; [exact Hm|intros; by apply exec_finally_keeps, task_done_runs_only|].
  intros e s1 H1. eapply wp_mono; [by apply exec_failed_spec|intros; by apply exec_finally_keeps, task_done_runs_only..].
Qed.
Lemma settle_inv m s :
  wp m (λ _, task_inv) (λ _, task_inv) s →
  wp (settle clock fresh x m) (λ _, task_inv) (λ _, task_inv) s.
Proof using RL JL.
  intros Hm. apply wp_try_finally, wp_try_except.
  eapply wp_mono; [exact Hm|intros; by apply exec_finally_keeps, task_inv_runs_only|].
  intros e s1 H1. eapply wp_mono; [by apply exec_failed_spec|intros ? ? []; by apply exec_finally_keeps, task_inv_runs_only..].
Qed.

(** The end of the stream. *)
Lemma exec_end_spec e s :
  task_inv s → (ex_terminal x = true → settled_at s) →
  wp (exec_end clock x e) (λ _, task_done) (λ _, task_inv) s.
Proof using RL.
  intros Hs Ht. unfold exec_end. destruct e; [|done].
  destruct (ex_terminal x); [split; auto|].
  apply wp_bind, task_get; [done|]. intros r Hr Hkr Hrel.
  apply (task_store (λ r t, run_complete r (ex_last_result x) t) r); try done.
  - intros t r1 Hf. apply run_complete_settled in Hf as (? & ? & Ha). rewrite Ha. naive_solver.
  - by intros t e s' _ [? _].
Qed.
End Task.

(** *** One event of the stream *)

Definition revives (x : execution) (d : RuntimeEventDraft) (v : gmap string Run) : Prop :=
  type_is (draft_type d) RUN_INTERRUPTED = true ∧
  ∃ r, v !! run_key (ex_run x) = Some r ∧ terminal_status (run_status r) = true.

Lemma event_outcome_settled type data last (r : Run) t r1 :
  event_outcome json_str type data last r t = Ok r1 →
  run_identity r1 = run_identity r ∧ settled r1 ∧
  (active_status (run_status r1) = true →
     active_status (run_status r) = true ∨
     (type_is type RUN_INTERRUPTED = true ∧ terminal_status (run_status r) = true)).
Proof.
  unfold event_outcome. destruct (type_is type RUN_COMPLETED).
  { intros Hc. apply run_complete_settled in Hc as (? & ? & Ha). by rewrite Ha. }
  destruct (type_is type RUN_CANCELLED).
  { intros Hc. apply run_cancel_settled in Hc as (? & ? & Ha). by rewrite Ha. }
  destruct (type_is type RUN_INTERRUPTED).
  - intros [= <-]. unfold settled; simpl. split_and!; [done..|]. intros _.
    rewrite (active_not_terminal (run_status r)).
    destruct (terminal_status (run_status r)); auto.
  - intros Hc. apply run_fail_settled in Hc as (? & ? & Ha). by rewrite Ha.
Qed.

Lemma exec_event_spec x d s :
  good s → is_Some (view s !! run_key (ex_run x)) →
  let inv := task_inv x (view s) (revives x d (view s)) in
  wp (exec_event clock fresh json_str x d)
    (λ x' s', inv s' ∧ ex_run x' = ex_run x ∧
       (ex_terminal x' = true → ex_terminal x = true ∨ settled_at x s'))
    (λ _, inv) s.
Proof using RL JL.
  intros Hg [r0 Hr0] inv. unfold exec_event. apply wp_bind.
  assert (inv s) as Hs.
  { split; [done|]. split; [done|]. rewrite Hr0. apply task_rel_refl. }
  set (I := like x (view s) (revives x d (view s)) s).
  eapply wp_mono; [apply (append_total I d (λ _ _, False) s (like_runs_only _ _ _ s)); [by split|apply Hg]| |done].
  intros ev s1 [[H1 Hv1] Hty]. cbv zeta.
  destruct (type_in _ _); [|split_and!; auto].
  apply wp_bind, (task_get x (view s) (revives x d (view s))); [done|]. intros r Hr Hkr Hrel.
  apply (task_store x (view s) (revives x d (view s))
    (λ r t, event_outcome json_str (ev_type ev) (ev_data ev) _ r t) r); [done|done| | |].
  - intros t r1 Hout. apply event_outcome_settled in Hout as (? & ? & Ha). split_and!; [done..|].
    intros Hact. destruct (Ha Hact) as [?|[? ?]]; [by left|right]. rewrite Hty in *.
    split; [done|]. exists r. rewrite Hv1 in Hr. by split.
  - intros t e s2 _ [H2 _]. exact H2.
  - intros s2 H2. apply wp_bind.
    pose proof (task_done_runs_only x (view s) (revives x d (view s))) as Hro.
    eapply wp_mono with (Q := λ _, task_done x (view s) (revives x d (view s)))
      (X := λ _, task_done x (view s) (revives x d (view s))); [| |by intros ? ? []].
    + destruct (run_thread_id r) as [i|]; [|done]. apply wp_bind.
      eapply wp_mono; [by apply (wp_on_threads _ Hro)| |done].
      intros th s3 H3. apply wp_bind.
      eapply wp_mono; [by apply (wp_now _ Hro (λ _ _, False))| |done].
      intros t s4 H4. apply wp_bind.
      eapply wp_mono; [by apply (wp_on_threads _ Hro)| |done]. done.
    + intros ? s3 [H3 Hd3]. apply wp_ret. split_and!; auto.
Qed.

(** *** Beginning an execution *)

Lemma runs_only_view (v : gmap string Run) : runs_only (λ s, good s ∧ view s = v).
Proof. apply (runs_only_and (λ w, w = v)). Qed.

Lemma exec_begin_spec receipt adapter s :
  good s →
  wp (exec_begin receipt adapter)
    (λ o s', (good s' ∧ view s' = view s) ∧
       match o with
       | None => True
       | Some x => view s !! run_key (ex_run x) = Some (ex_run x) ∧
           run_status (ex_run x) = PENDING ∧ ex_terminal x = false
       end)
    (λ _ s', good s' ∧ view s' = view s) s.
Proof using RL.
  intros Hg. unfold exec_begin. apply wp_bind, wp_get; [done| |done]. intros r Hr.
  destruct (decide _) as [Hp|Hp].
  - split; [by split|]. simpl. by rewrite (view_key s _ r Hg Hr).
  - apply wp_bind. eapply wp_mono;
      [by apply (wp_on_commands _ (runs_only_view (view s)))| |done].
    intros ? s1 H1. by split.
Qed.

Definition started (o o' : option Run) : Prop :=
  ∃ r r', o = Some r ∧ o' = Some r' ∧ run_identity r' = run_identity r ∧
    run_status r = PENDING ∧ run_status r' = RUNNING.

Lemma exec_running_spec x s :
  good s → view s !! run_key (ex_run x) = Some (ex_run x) → run_status (ex_run x) = PENDING →
  wp (exec_running clock x)
    (λ _ s', good s' ∧ at_key (run_key (ex_run x)) started (view s) (view s'))
    (λ _ _, False) s.
Proof using RL.
  intros Hg Hv Hp. unfold exec_running. apply wp_bind.
  eapply wp_mono; [by apply (wp_now _ (runs_only_view (view s)) (λ _ _, False))| |done].
  intros t s1 [Hg1 Hv1]. apply wp_bind, wp_of_result.
  destruct (run_mark_running (ex_run x) t) as [r|e] eqn:Hm; unfold run_mark_running in Hm.
  - apply run_change_ok in Hm as [_ Hm]. apply wp_bind.
    assert (run_key r = run_key (ex_run x)) as Hk by by rewrite Hm.
    apply wp_update; [done|by rewrite Hk, Hv1, Hv|].
    intros r' s2 Hg2 Hc Hv2. apply wp_ret. split; [done|]. rewrite Hv2, Hk, Hv1.
    apply at_key_insert. exists (ex_run x), r'. apply core_fields in Hc as [-> ->].
    by rewrite Hv, Hm.
  - apply run_change_raise in Hm. by rewrite Hp in Hm.
Qed.

(** *** The clients' operations *)

Lemma wp_create r (Q' : Run → Service → Prop) X s :
  good s →
  (∀ r' s', good s' → view s !! run_key r = None →
     (∀ t k r0, run_thread_id r = Some t → view s !! k = Some r0 →
        occupies (id_value t) r0 = false) →
     run_core r' = run_core r → view s' = <[run_key r := r']> (view s) → Q' r s') →
  (∀ e, X e s) →
  wp (on_runs (runs_create r)) Q' X s.
Proof using RL.
  intros [Hi Hj] Hq Hx. unfold wp, on_runs, zoom.
  assert (set_runs (svc_runs s) s = s) as Hid by by destruct s.
  assert (is_Some (view s !! run_key r) ∨
    (∃ t k r', run_thread_id r = Some t ∧ view s !! k = Some r' ∧ occupies (id_value t) r' = true) →
    match runs_create r (svc_runs s) with
    | (Ok a, s') => Q' a (set_runs s' s) | (Raise e, s') => X e (set_runs s' s)
    end) as Herr.
  { intros Hc. destruct (runs_create_err (svc_runs s) r Hi Hc) as (e & -> & _). by rewrite Hid. }
  destruct (runs_create r (svc_runs s)) as [o R'] eqn:Hc.
  destruct (view s !! run_key r) as [r0|] eqn:Hv.
  { destruct o; apply Herr; eauto. }
  set (P := λ (_ : string) r0, match run_thread_id r with
                | Some t => occupies (id_value t) r0 = false | None => True end).
  assert (∀ k r0, Decision (P k r0)) by (intros k r0; unfold P; destruct (run_thread_id r); apply _).
  destruct (decide (map_Forall P (view s))) as [Hf|Hf].
  - assert (∀ t k r0, run_thread_id r = Some t → view s !! k = Some r0 →
      occupies (id_value t) r0 = false) as Hfree.
    { intros t k r0 Ht Hk. specialize (Hf k r0 Hk). unfold P in Hf. by rewrite Ht in Hf. }
    destruct (runs_create_ok (svc_runs s) r Hi Hv Hfree) as (r' & R'' & Hok & Hi' & Hcore & Hv').
    rewrite Hc in Hok. injection Hok as -> ->. apply (Hq r'); [by split|done..].
  - apply map_not_Forall in Hf as (k & r0 & Hk & Hn); [|done]. unfold P in Hn.
    destruct (run_thread_id r) as [t|] eqn:Ht; [|done].
    assert (occupies (id_value t) r0 = true) by (by destruct (occupies (id_value t) r0)).
    destruct o; apply Herr; right; eauto 10.
Qed.

Definition created_rel (i : ExecutionIdentity) (v : gmap string Run) (o o' : option Run) : Prop :=
  o' = o ∨ (o = None ∧ ∃ r', o' = Some r' ∧ run_identity r' = i ∧
    (run_status r' = PENDING ∨ run_status r' = ERROR) ∧
    ∀ t k r0, v !! k = Some r0 → occupies t r0 = true → occupies t r' = false).

Definition cancelled_rel (o o' : option Run) : Prop :=
  o' = o ∨ ∃ r r', o = Some r ∧ o' = Some r' ∧ run_identity r' = run_identity r ∧
    run_status r' = CANCELLED.

(** Running on after the run has been stored. *)
Lemma queue_failed_spec v (r : Run) th s :
  good s → (∃ r', view s = <[run_key r := r']> v) → run_status r = PENDING →
  let post := λ s', good s' ∧ ∃ r', view s' = <[run_key r := r']> v ∧
                run_identity r' = run_identity r ∧ run_status r' = ERROR in
  wp (queue_failed clock r th) (λ _, post) (λ _, post) s.
Proof using RL.
  intros Hg [r0 Hv] Hp post. unfold queue_failed. apply wp_bind.
  eapply wp_mono; [by apply (wp_now _ (runs_only_view (view s)) (λ _ _, False))| |done].
  intros t s1 [Hg1 Hv1]. apply wp_bind, wp_of_result.
  destruct (run_fail r _ t) as [r1|e] eqn:Hf; unfold run_fail in Hf;
    [|by apply run_change_raise in Hf; rewrite Hp in Hf].
  apply run_change_ok in Hf as [_ Hf].
  assert (run_key r1 = run_key r) as Hk by by rewrite Hf.
  apply wp_bind, wp_update; [done|by rewrite Hk, Hv1, Hv, lookup_insert_eq|].
  intros r2 s2 Hg2 Hc Hv2.
  assert (post s2) as H2.
  { split; [done|]. exists r2. rewrite Hv2, Hk, Hv1, Hv, insert_insert_eq.
    apply core_fields in Hc as [-> ->]. by rewrite Hf. }
  assert (runs_only post) as Hro by
    apply (runs_only_and (λ w, ∃ r', w = <[run_key r := r']> v ∧
                run_identity r' = run_identity r ∧ run_status r' = ERROR)).
  destruct th as [i|]; [|done]. apply wp_bind.
  eapply wp_mono; [by apply (wp_on_threads post Hro)| |done].
  intros th s3 H3. apply wp_bind.
  eapply wp_mono; [by apply (wp_now post Hro (λ _ _, False))| |done].
  intros t' s4 H4. apply wp_bind.
  eapply wp_mono; [by apply (wp_on_threads post Hro)| |done]. done.
Qed.

Lemma enqueue_spec (I : Service → Prop) req g t s :
  runs_only I → I s → wp (enqueue clock fresh req g t) (λ _, I) (λ _, I) s.
Proof using JL.
  intros Hro Hs. unfold enqueue. apply wp_bind.
  eapply wp_mono; [by apply (wp_append_if_journal I Hro)| |done]. intros ? s1 H1.
  apply wp_bind, wp_get_state, wp_bind.
  eapply wp_mono; [by apply (wp_new I Hro (λ _ _, False))| |done]. intros i s2 H2.
  destruct (has_outbox g s1); [|by apply wp_on_commands].
  apply wp_bind. eapply wp_mono; [by apply (wp_outbox_put I Hro)| |done]. done.
Qed.

Lemma start_run_spec req g s :
  good s →
  let post := λ s', good s' ∧
    at_key (id_value (run_id (req_identity req))) (created_rel (req_identity req) (view s))
      (view s) (view s') in
  wp (start_run clock fresh req g) (λ _, post) (λ _, post) s.
Proof using RL JL.
  intros Hg post. unfold start_run.
  pose proof (runs_only_view (view s)) as Hro0. set (I0 := λ s', good s' ∧ view s' = view s) in Hro0.
  assert (∀ s', I0 s' → post s') as H0.
  { intros s' [? Hv]. split; [done|]. rewrite Hv. split; [done|by left]. }
  apply wp_bind. eapply wp_mono; [by apply (wp_now I0 Hro0 (λ _ _, False))| |done].
  intros t s1 H1. apply wp_bind.
  apply (wp_mono _ (λ _, I0) _ (λ _, I0)); [| |by intros; apply H0].
  { destruct (thread_id (req_identity req)) as [i|]; [|done]. apply wp_bind.
    eapply wp_mono; [by apply (wp_on_threads I0 Hro0)| |done]. intros th s2 H2.
    destruct (decide _); [done|]. apply wp_bind.
    eapply wp_mono; [by apply (wp_on_threads I0 Hro0)| |done]. done. }
  intros ? s2 H2. set (r := mk_run _ PENDING _ _ _ _ _).
  apply wp_bind, wp_create; [apply H2| |by intros e; apply H0].
  intros r' s3 Hg3 Hnone Hfree Hc Hv3. destruct H2 as [Hg2 Hv2]. rewrite Hv2 in Hnone, Hfree, Hv3.
  change (run_key r) with (id_value (run_id (req_identity req))) in *.
  set (k := id_value (run_id (req_identity req))) in *.
  assert (∀ s' r1, good s' → view s' = <[k := r1]> (view s) → run_identity r1 = req_identity req →
    run_status r1 = PENDING ∨ run_status r1 = ERROR → post s') as Hpost.
  { intros s' r1 Hg' Hv' Hi1 Hs1. split; [done|]. rewrite Hv'. apply at_key_insert. right.
    split; [done|]. exists r1. split_and!; try done. intros t' k' r0 Hk' Ho.
    destruct (occupies t' r1) eqn:Ho1; [|done]. unfold occupies in Ho1.
    destruct (run_thread_id r1) as [t1|] eqn:Ht1; [|done]. to_prop.
    unfold run_thread_id in Ht1. rewrite Hi1 in Ht1.
    subst t'. by rewrite (Hfree t1 k' r0 Ht1 Hk') in Ho. }
  apply core_fields in Hc as [Hid Hst].
  set (I1 := λ s', good s' ∧ view s' = <[k := r']> (view s)).
  assert (runs_only I1) as Hro1 by apply runs_only_view.
  assert (∀ s', I1 s' → post s') as H1p.
  { intros s' [? Hv']. apply (Hpost s' r'); [done|done|by rewrite Hid|left; by rewrite Hst]. }
  apply wp_bind, wp_try_except.
  eapply wp_mono; [by apply (enqueue_spec I1 req g t s3 Hro1)|by intros; apply H1p|].
  intros e s4 [Hg4 Hv4]. destruct (is_exception e); [|by apply H1p].
  apply wp_bind. eapply wp_mono; [apply (queue_failed_spec (view s) r); [done|by eexists|done]| |].
  - intros ? s5 (? & r1 & ? & ? & ?). apply wp_raise. eapply Hpost; eauto.
  - intros ? s5 (? & r1 & ? & ? & ?). eapply Hpost; eauto.
Qed.

Lemma cancel_run_spec id s :
  good s →
  let post := λ s', good s' ∧ at_key id cancelled_rel (view s) (view s') in
  wp (cancel_run clock fresh adapter_cancel id) (λ _, post) (λ _, post) s.
Proof using RL JL.
  intros Hg post. unfold cancel_run.
  pose proof (runs_only_view (view s)) as Hro0. set (I0 := λ s', good s' ∧ view s' = view s) in Hro0.
  assert (∀ s', I0 s' → post s') as H0.
  { intros s' [? Hv]. split; [done|]. rewrite Hv. split; [done|by left]. }
  apply wp_bind, wp_get; [done| |by intros; apply H0]. intros r Hr.
  destruct (terminal_status (run_status r)) eqn:Ht; [by apply H0|].
  apply wp_bind, wp_get_state, wp_bind.
  apply (wp_mono _ (λ _, I0) _ (λ _, I0)); [| |by intros; apply H0].
  { destruct (dget _ _); [apply wp_of_result|apply wp_ret; by split].
    destruct (adapter_cancel _ _); by split. }
  intros ? s1 H1. apply wp_bind.
  eapply wp_mono; [by apply (wp_now I0 Hro0 (λ _ _, False))| |done].
  intros t s2 [Hg2 Hv2]. apply wp_bind, wp_of_result.
  destruct (run_cancel r t) as [r1|e] eqn:Hc; [|by apply run_cancel_raise in Hc; rewrite Ht in Hc].
  assert (run_identity r1 = run_identity r ∧ run_status r1 = CANCELLED) as [Hi1 Hs1].
  { unfold run_cancel in Hc. destruct (decide _) as [Hd|]; [by rewrite Hd in Ht|].
    by apply run_change_ok in Hc as [_ ->]. }
  assert (runs_only post) as Hro by
    apply (runs_only_and (at_key id cancelled_rel (view s))).
  apply wp_bind. apply (wp_mono _ (λ _, post) _ (λ _, post)); [| |done].
  { destruct (decide _); [by apply H0|].
    assert (run_key r1 = id) as Hk.
    { rewrite <- (view_key s id r) by done. unfold run_key, run_run_id. by rewrite Hi1. }
    apply wp_bind, wp_update; [done|by rewrite Hk, Hv2, Hr|].
    intros r2 s3 Hg3 Hc3 Hv3. apply wp_ret. split; [done|].
    rewrite Hv3, Hk, Hv2. apply at_key_insert. right. exists r, r2.
    apply core_fields in Hc3 as [-> ->]. by split_and!. }
  intros ? s3 H3. apply wp_bind. apply (wp_mono _ (λ _, post) _ (λ _, post)); [| |done].
  { destruct (run_thread_id r) as [i|]; [|done]. apply wp_bind.
    eapply wp_mono; [by apply (wp_on_threads post Hro)| |done]. intros th s4 H4. apply wp_bind.
    eapply wp_mono; [by apply (wp_now post Hro (λ _ _, False))| |done]. intros t' s5 H5. apply wp_bind.
    eapply wp_mono; [by apply (wp_on_threads post Hro)| |done]. done. }
  intros ? s4 H4. apply wp_bind.
  eapply wp_mono; [by apply (wp_append_if_journal post Hro)| |done]. done.
Qed.

Lemma resume_run_spec req s :
  good s →
  wp (resume_run clock fresh req) (λ _ s', good s' ∧ view s' = view s)
    (λ _ s', good s' ∧ view s' = view s) s.
Proof using RL JL.
  intros Hg. unfold resume_run. pose proof (runs_only_view (view s)) as Hro.
  set (I0 := λ s', good s' ∧ view s' = view s) in *.
  apply wp_bind, wp_get; [done| |done]. intros r Hr. destruct (decide _); [|done].
  apply wp_bind. eapply wp_mono; [by apply (wp_now I0 Hro (λ _ _, False))| |done].
  intros t s1 H1. apply wp_bind.
  eapply wp_mono; [by apply (wp_new I0 Hro (λ _ _, False))| |done]. intros i s2 H2. apply wp_bind.
  eapply wp_mono; [by apply (wp_on_commands I0 Hro)| |done]. intros ? s3 H3. apply wp_bind.
  eapply wp_mono; [by apply (wp_append_if_journal I0 Hro)| |done]. done.
Qed.

(** ** The transition system *)

Record System : Type := mk_system {
  sys_service : Service;
  sys_tasks : gmap string execution;
}.

Notation start_run := (start_run clock fresh).
Notation cancel_run := (cancel_run clock fresh adapter_cancel).
Notation resume_run := (resume_run clock fresh).
Notation exec_running := (exec_running clock).
Notation exec_event := (exec_event clock fresh json_str).
Notation exec_end := (exec_end clock).
Notation settle := (settle clock fresh).

(** A client's call, or an execution's run from one suspension to the next.
    [polite]: a stream reports an interrupt only of a run that is not over. *)
Inductive sys_step (polite : Prop) : System → System → Prop :=
| sys_start s ts req g : sys_step polite (mk_system s ts) (mk_system (start_run req g s).2 ts)
| sys_cancel s ts id : sys_step polite (mk_system s ts) (mk_system (cancel_run id s).2 ts)
| sys_resume s ts req : sys_step polite (mk_system s ts) (mk_system (resume_run req s).2 ts)
| sys_duplicate s ts receipt adapter s' :
    exec_begin receipt adapter s = (Ok None, s') →
    sys_step polite (mk_system s ts) (mk_system s' ts)
| sys_unknown s ts receipt adapter e s' :
    exec_begin receipt adapter s = (Raise e, s') →
    sys_step polite (mk_system s ts) (mk_system s' ts)
| sys_begin s ts receipt adapter x s1 s2 :
    exec_begin receipt adapter s = (Ok (Some x), s1) → exec_running x s1 = (Ok tt, s2) →
    sys_step polite (mk_system s ts) (mk_system s2 (<[run_key (ex_run x) := x]> ts))
| sys_event s ts k x d x' s' :
    ts !! k = Some x → (polite → ¬ revives x d (view s)) → exec_event x d s = (Ok x', s') →
    sys_step polite (mk_system s ts) (mk_system s' (<[k := x']> ts))
| sys_event_failed s ts k x d e s' o s'' :
    ts !! k = Some x → (polite → ¬ revives x d (view s)) → exec_event x d s = (Raise e, s') →
    settle x (raise e) s' = (o, s'') →
    sys_step polite (mk_system s ts) (mk_system s'' (delete k ts))
| sys_end s ts k x e o s' :
    ts !! k = Some x → settle x (exec_end x e) s = (o, s') →
    sys_step polite (mk_system s ts) (mk_system s' (delete k ts)).

Record sys_inv (st : System) : Prop := {
  sv_good : good (sys_service st);
  sv_running k r : view (sys_service st) !! k = Some r → run_status r = RUNNING →
    is_Some (sys_tasks st !! k);
  sv_tasks k x : sys_tasks st !! k = Some x →
    run_key (ex_run x) = k ∧ ∃ r, view (sys_service st) !! k = Some r ∧ run_status r ≠ PENDING ∧
      (ex_terminal x = true → run_status r ≠ RUNNING);
}.

(** What [wp] says about an actual run. *)
Lemma wp_run {B} (m : Py Service B) (P : Service → Prop) s :
  wp m (λ _, P) (λ _, P) s → P (m s).2.
Proof. unfold wp. by destruct (m s) as [[b|e] s']. Qed.

Lemma core_status (r r' : Run) : run_core r' = run_core r → run_status r' = run_status r.
Proof. intros Hc. by apply core_fields in Hc as [_ ?]. Qed.

(** The invariant across a change of one run by its own execution. *)
Lemma task_change s s' ts k x rv :
  sys_inv (mk_system s ts) → ts !! k = Some x → task_inv x (view s) rv s' →
  good s' ∧ (∀ k' r, view s' !! k' = Some r → run_status r = RUNNING → is_Some (ts !! k')) ∧
  (∀ k' x', k' ≠ k → ts !! k' = Some x' →
    run_key (ex_run x') = k' ∧ ∃ r, view s' !! k' = Some r ∧ run_status r ≠ PENDING ∧
      (ex_terminal x' = true → run_status r ≠ RUNNING)) ∧
  ∃ r r', view s !! k = Some r ∧ view s' !! k = Some r' ∧ run_status r' ≠ PENDING ∧
    (run_status r' = RUNNING → run_status r = RUNNING).
Proof.
  intros [Hg Hrun Htask] Hx [Hg' [Hoth Hk]]. simpl in *.
  destruct (Htask k x Hx) as (Hkey & r0 & Hr0 & Hp0 & _). rewrite Hkey in Hoth, Hk.
  destruct Hk as (r & r' & Hr & Hr' & Hid & Hsame & _). rewrite Hr0 in Hr. injection Hr as <-.
  split_and!; [done| | |].
  - intros k' r1 Hk' Hs. destruct (decide (k' = k)) as [->|Hne]; [by eexists|].
    rewrite Hoth in Hk' by done. by eapply Hrun.
  - intros k' x' Hne Hx'. rewrite Hoth by done. by apply Htask.
  - exists r0, r'. split_and!; [done|done| |].
    + destruct Hsame as [Hc|[? _]]; [|done]. by rewrite (core_status _ _ Hc).
    + destruct Hsame as [Hc|[_ ?]]; [|done]. by rewrite (core_status _ _ Hc).
Qed.

Lemma settle_change s s' ts k x rv :
  sys_inv (mk_system s ts) → ts !! k = Some x → task_done x (view s) rv s' →
  sys_inv (mk_system s' (delete k ts)).
Proof.
  intros Hinv Hx [Hi (r & Hr & Hp & Hrun)].
  destruct (sv_tasks _ Hinv k x Hx) as (Hkey & _). rewrite Hkey in Hr.
  destruct (task_change s s' ts k x rv Hinv Hx Hi) as (Hg & Hrunning & Htasks & _).
  constructor; simpl; [done| |].
  - intros k' r1 Hk' Hs. destruct (decide (k' = k)) as [->|Hne]; [congruence|].
    rewrite lookup_delete_ne by done. by eapply Hrunning.
  - intros k' x'. rewrite lookup_delete_Some. intros [Hne Hx']. by apply Htasks.
Qed.

(** The invariant across a client's operation. *)
Lemma client_change s s' ts k (rel : option Run → option Run → Prop) :
  sys_inv (mk_system s ts) → good s' → at_key k rel (view s) (view s') →
  (∀ o o', rel o o' → o' = o ∨ ∃ r', o' = Some r' ∧ run_status r' ≠ RUNNING ∧
     (is_Some o → run_status r' ≠ PENDING)) →
  sys_inv (mk_system s' ts).
Proof.
  intros [Hg Hrun Htask] Hg' [Hoth Hk] Hrel. simpl in *. apply Hrel in Hk.
  constructor; simpl; [done| |].
  - intros k' r Hr Hs. destruct (decide (k' = k)) as [->|Hne].
    + destruct Hk as [Hk|(r' & Hr' & ? & _)]; [rewrite Hk in Hr; by eapply Hrun|congruence].
    + rewrite Hoth in Hr by done. by eapply Hrun.
  - intros k' x Hx. destruct (Htask k' x Hx) as (Hkey & r & Hr & Hp & Ht). split; [done|].
    destruct (decide (k' = k)) as [->|Hne]; [|exists r; by rewrite Hoth].
    destruct Hk as [Hk|(r' & Hr' & ? & Hp')]; [exists r; by rewrite Hk|].
    exists r'. rewrite Hr in Hp'. split_and!; [done|by apply Hp'|done].
Qed.

(** Where the executions of [sys_event_failed] and [sys_end] end. *)
Lemma settle_run s s' o (x : execution) m v rv :
  wp m (λ _, task_done x v rv) (λ _, task_inv x v rv) s →
  settle x m s = (o, s') → task_done x v rv s'.
Proof using RL JL.
  intros Hm Hs. apply settle_spec, wp_run in Hm. by rewrite Hs in Hm.
Qed.

Lemma task_inv_refl s x rv :
  good s → is_Some (view s !! run_key (ex_run x)) → task_inv x (view s) rv s.
Proof.
  intros Hg [r Hr]. split; [done|]. split; [done|]. rewrite Hr. apply task_rel_refl.
Qed.

(** What one step does: it is a client's operation on one run, the beginning
    of an execution, or a step of an execution. *)
Definition step_effect (polite : Prop) (v v' : gmap string Run) : Prop :=
  ∃ k, at_key k (λ o o', o' = o ∨ (∃ i, created_rel i v o o') ∨ cancelled_rel o o' ∨ started o o' ∨
    ∃ rv : Prop, (polite → ¬ rv) ∧ task_rel rv o o') v v'.

Lemma step_effect_task polite x v v' (rv : Prop) :
  (polite → ¬ rv) → at_key (run_key (ex_run x)) (task_rel rv) v v' → step_effect polite v v'.
Proof. intros Hp [Ho Hk]. exists (run_key (ex_run x)). split; [done|]. eauto 10. Qed.

Lemma step_effect_same polite v : step_effect polite v v.
Proof. exists "". by split; [|left]. Qed.

Lemma sys_step_inv polite st st' :
  sys_inv st → sys_step polite st st' →
  sys_inv st' ∧ step_effect polite (view (sys_service st)) (view (sys_service st')).
Proof using RL JL.
  intros Hinv Hstep. pose proof (sv_good _ Hinv) as Hg.
  destruct Hstep as [s ts req g|s ts id|s ts req|s ts rc a s' Hb|s ts rc a e s' Hb
    |s ts rc a x s1 s2 Hb Hr|s ts k x d x' s' Hx Hp He|s ts k x d e s' o s'' Hx Hp He Hs
    |s ts k x e o s' Hx Hs]; simpl in *.
  - destruct (wp_run _ _ _ (start_run_spec req g s Hg)) as [Hg' Hk]. split.
    + eapply client_change; [done..|]. intros o o' [?|(-> & r' & -> & _ & Hst & _)]; [by left|right].
      exists r'. split_and!; [done|by destruct Hst as [->| ->]|by intros [? ?]].
    + eexists. split; [apply Hk|]. right; left. eexists. apply Hk.
  - destruct (wp_run _ _ _ (cancel_run_spec id s Hg)) as [Hg' Hk]. split.
    + eapply client_change; [done..|]. intros o o' [?|(r & r' & _ & -> & _ & Hst)]; [by left|right].
      exists r'. rewrite Hst. by split_and!.
    + exists id. split; [apply Hk|]. right; right; left. apply Hk.
  - destruct (wp_run _ _ _ (resume_run_spec req s Hg)) as [Hg' Hv]. split; [|rewrite Hv; apply step_effect_same].
    apply (client_change s _ ts "" (λ o o', o' = o)); [done|done|by rewrite Hv|by left].
  - pose proof (exec_begin_spec rc a s Hg) as Hw. unfold wp in Hw. rewrite Hb in Hw.
    destruct Hw as [[Hg' Hv] _]. split; [|rewrite Hv; apply step_effect_same].
    apply (client_change s _ ts "" (λ o o', o' = o)); [done|done|by rewrite Hv|by left].
  - pose proof (exec_begin_spec rc a s Hg) as Hw. unfold wp in Hw. rewrite Hb in Hw.
    destruct Hw as [Hg' Hv]. split; [|rewrite Hv; apply step_effect_same].
    apply (client_change s _ ts "" (λ o o', o' = o)); [done|done|by rewrite Hv|by left].
  - pose proof (exec_begin_spec rc a s Hg) as Hw. unfold wp in Hw. rewrite Hb in Hw.
    destruct Hw as ([Hg1 Hv1] & Hxr & Hxp & Hxt). rewrite <- Hv1 in Hxr.
    pose proof (exec_running_spec x s1 Hg1 Hxr Hxp) as Hw. unfold wp in Hw. rewrite Hr in Hw.
    destruct Hw as [Hg2 [Hoth Hk]]. rewrite Hv1 in Hoth, Hk. split.
    + destruct Hk as (r & r' & Hr0 & Hr' & _ & _ & Hst). constructor; simpl; [done| |].
      * intros k' r1 Hr1 Hs1. destruct (decide (k' = run_key (ex_run x))) as [->|Hne];
          [by rewrite lookup_insert_eq|]. rewrite lookup_insert_ne by done.
        rewrite Hoth in Hr1 by done. by eapply (sv_running _ Hinv).
      * intros k' x'. rewrite lookup_insert_Some. intros [[<- <-]|[Hne Hx']].
        -- split; [done|]. exists r'. rewrite Hst, Hxt. by split_and!.
        -- rewrite Hoth by done. by apply (sv_tasks _ Hinv).
    + exists (run_key (ex_run x)). split; [done|]. auto 10.
  - destruct (sv_tasks _ Hinv k x Hx) as (Hkey & r0 & Hr0 & Hp0 & Ht0). simpl in Hr0.
    assert (is_Some (view s !! run_key (ex_run x))) as Hsome by (rewrite Hkey; by eexists).
    pose proof (exec_event_spec x d s Hg Hsome) as Hw. unfold wp in Hw. rewrite He in Hw.
    destruct Hw as (Hi & Hxr & Hxt). split; [|by eapply step_effect_task, Hi].
    destruct (task_change s s' ts k x _ Hinv Hx Hi) as (Hg' & Hrun & Htasks & r & r' & Hr & Hr' & Hpn & Hback).
    constructor; simpl; [done| |].
    + intros k' r1 Hk' Hs1. destruct (decide (k' = k)) as [->|]; [by rewrite lookup_insert_eq|].
      rewrite lookup_insert_ne by done. by eapply Hrun.
    + intros k' x''. rewrite lookup_insert_Some. intros [[<- <-]|[Hne Hx'']]; [|by apply Htasks].
      rewrite Hxr. split; [done|]. exists r'. split_and!; [done|done|].
      intros Ht. destruct (Hxt Ht) as [Ht'|(r2 & Hr2 & _ & ?)].
      * intros Hs1. rewrite Hr0 in Hr. injection Hr as <-. by apply (Ht0 Ht'), Hback.
      * rewrite Hkey in Hr2. congruence.
  - destruct (sv_tasks _ Hinv k x Hx) as (Hkey & r0 & Hr0 & Hp0 & Ht0). simpl in Hr0.
    assert (is_Some (view s !! run_key (ex_run x))) as Hsome by (rewrite Hkey; by eexists).
    pose proof (exec_event_spec x d s Hg Hsome) as Hw. unfold wp in Hw. rewrite He in Hw.
    eapply settle_run in Hs as Hd; [|by apply wp_raise].
    split; [by eapply settle_change|]. by eapply step_effect_task, Hd.
  - destruct (sv_tasks _ Hinv k x Hx) as (Hkey & r0 & Hr0 & Hp0 & Ht0). simpl in Hr0.
    assert (is_Some (view s !! run_key (ex_run x))) as Hsome by (rewrite Hkey; by eexists).
    eapply (settle_run s s' o x _ (view s) False) in Hs as Hd.
    + split; [by eapply settle_change|]. eapply (step_effect_task _ x _ _ False); [by intros ? []|apply Hd].
    + apply exec_end_spec; [by apply task_inv_refl|].
      intros Ht. exists r0. rewrite Hkey. split; [done|]. split; auto.
Qed.

(** ** The invariants of every run of the system *)

Definition quiescent (s : Service) : Prop :=
  good s ∧ ∀ k r, view s !! k = Some r → run_status r ≠ RUNNING.

Lemma quiescent_inv s : quiescent s → sys_inv (mk_system s ∅).
Proof.
  intros [Hg Hr]. constructor; simpl; [done| |].
  - intros k r Hk Hs. by destruct (Hr k r Hk).
  - intros k x. by rewrite lookup_empty.
Qed.

Lemma reachable_sys_inv polite s st :
  quiescent s → reachable (sys_step polite) (mk_system s ∅) st → sys_inv st.
Proof using RL JL.
  intros Hq. apply (reachable_invariant (sys_step polite) sys_inv); [by apply quiescent_inv|].
  intros st1 st2 Hi Hs. by apply (sys_step_inv polite st1).
Qed.

Lemma created_exclusive k i v v' :
  exclusive v → at_key k (created_rel i v) v v' → exclusive v'.
Proof.
  intros Hex [Hoth [Hk|(Hnone & r' & Hr' & _ & _ & Hfree)]].
  { apply (exclusive_at_key k v); [done|]. split; [done|]. rewrite Hk. intros r t Hr Ho. eauto. }
  intros t k1 k2 r1 r2 H1 H2 Ho1 Ho2.
  destruct (decide (k1 = k)) as [->|Hn1], (decide (k2 = k)) as [->|Hn2]; [done| | |].
  - rewrite Hr' in H1. injection H1 as <-. rewrite Hoth in H2 by done.
    by rewrite (Hfree t k2 r2) in Ho1.
  - rewrite Hr' in H2. injection H2 as <-. rewrite Hoth in H1 by done.
    by rewrite (Hfree t k1 r1) in Ho2.
  - rewrite Hoth in H1, H2 by done. by eapply (Hex t).
Qed.

Lemma step_effect_exclusive v v' : exclusive v → step_effect True v v' → exclusive v'.
Proof.
  intros Hex (k & Hoth & [Hk|[[i Hk]|[Hk|[Hk|(rv & Hrv & Hk)]]]]).
  - apply (exclusive_at_key k v); [done|]. split; [done|]. rewrite Hk. intros r t Hr Ho. eauto.
  - by eapply (created_exclusive k i).
  - apply (exclusive_at_key k v); [done|]. split; [done|].
    destruct Hk as [Hk|(r & r' & Hr & Hr' & _ & Hs)].
    { rewrite Hk. intros r t Hr Ho. eauto. }
    rewrite Hr'. intros r1 t [= <-] Ho. unfold occupies in Ho. rewrite Hs in Ho.
    destruct (run_thread_id r'); [|done]. by rewrite andb_false_r in Ho.
  - apply (exclusive_at_key k v); [done|]. split; [done|].
    destruct Hk as (r & r' & -> & -> & Hid & Hp & _). intros r1 t [= <-] Ho.
    exists r. split; [done|]. eapply occupies_status; [done| |done]. by rewrite Hp.
  - apply (exclusive_at_key k v); [done|]. split; [done|]. eapply task_rel_no_more; [|done]. tauto.
Qed.

(** C2: no run is left running.  However clients start, cancel and resume runs
    while executions of any adapters are in progress, a run that is stored as
    running has an execution in progress; when an execution ends, by the end
    of its stream, by an error, by cancellation or by a failed update, its run
    is not running any more. *)
Theorem no_run_left_running (s : Service) (st : System) (k : string) (r : Run) :
  quiescent s → reachable (sys_step False) (mk_system s ∅) st →
  runs_view (svc_runs (sys_service st)) !! k = Some r →
  run_status r = RUNNING → is_Some (sys_tasks st !! k).
Proof using RL JL. intros Hq Hr Hk Hs. apply (reachable_sys_inv _ _ _ Hq) in Hr. by eapply sv_running. Qed.

(** C1: at most one active run per thread.  If no stream reports an interrupt
    of a run that is already over, then in every reachable state two pending,
    running or interrupted runs are on different threads. *)
Theorem one_active_run_per_thread (s : Service) (st : System) (t k k' : string) (r r' : Run) :
  quiescent s → exclusive (view s) → reachable (sys_step True) (mk_system s ∅) st →
  runs_view (svc_runs (sys_service st)) !! k = Some r →
  runs_view (svc_runs (sys_service st)) !! k' = Some r' →
  occupies t r = true → occupies t r' = true → k = k'.
Proof using RL JL.
  intros Hq Hex Hr. assert (sys_inv st ∧ exclusive (view (sys_service st))) as [_ Hex'].
  { revert Hr. apply (reachable_invariant (sys_step True)
      (λ st, sys_inv st ∧ exclusive (view (sys_service st)))).
    - split; [by apply quiescent_inv|done].
    - intros st1 st2 [Hi He] Hs. destruct (sys_step_inv _ _ _ Hi Hs) as [Hi' Heff].
      split; [done|]. by eapply step_effect_exclusive. }
  intros H1 H2. by apply (Hex' t).
Qed.

(** *** Steps from any consistent state *)

(** An execution whose run is gone changes no run. *)
Section Gone.
Context (x : execution) (v : gmap string Run) (Hx : v !! run_key (ex_run x) = None).
Let I (s : Service) : Prop := good s ∧ view s = v.

Lemma gone_get {B} (m : Run → Py Service B) s :
  I s → wp (r <- on_runs (runs_get (run_key (ex_run x)));; m r) (λ _, I) (λ _, I) s.
Proof using RL Hx.
  intros [Hg Hv]. apply wp_bind, wp_get; [done| |done]. intros r Hr. by rewrite Hv, Hx in Hr.
Qed.
Lemma gone_event (d : RuntimeEventDraft) s : I s → wp (exec_event x d) (λ _, I) (λ _, I) s.
Proof using RL JL Hx.
  intros Hs. unfold exec_event. apply wp_bind.
  eapply wp_mono; [by apply (wp_append_event I (runs_only_view v))| |done].
  intros ev s1 [H1 _]. cbv zeta. destruct (type_in _ _); [by apply gone_get|done].
Qed.
Lemma gone_settle m s : wp m (λ _, I) (λ _, I) s → wp (settle x m) (λ _, I) (λ _, I) s.
Proof using RL Hx.
  intros Hm. apply wp_try_finally, wp_try_except.
  eapply wp_mono; [exact Hm|intros; by apply exec_finally_keeps, runs_only_view|].
  intros e s1 H1. eapply wp_mono; [by apply gone_get|intros; by apply exec_finally_keeps, runs_only_view..].
Qed.
Lemma gone_end e s : I s → wp (exec_end x e) (λ _, I) (λ _, I) s.
Proof using RL Hx. intros Hs. unfold exec_end. destruct e; [|done]. destruct (ex_terminal x); [done|by apply gone_get]. Qed.
End Gone.

(** A step keeps the threads exclusive whatever executions are in progress, also of runs
    that have been deleted meanwhile. *)
Lemma sys_step_exclusive st st' :
  good (sys_service st) → exclusive (view (sys_service st)) → sys_step True st st' →
  good (sys_service st') ∧ exclusive (view (sys_service st')).
Proof using RL JL.
  intros Hg Hex Hstep.
  assert (∀ x, view (sys_service st) !! run_key (ex_run x) = None ∨ is_Some (view (sys_service st) !! run_key (ex_run x)))
    as Hrun by (intros x; destruct (view _ !! _); eauto).
  assert (∀ x (rv : Prop) s', ¬ rv → task_inv x (view (sys_service st)) rv s' → good s' ∧ exclusive (view s')) as Htask.
  { intros x rv s' Hrv [Hg' Hk]. split; [done|]. eapply step_effect_exclusive; [exact Hex|].
    by eapply step_effect_task; [|exact Hk]. }
  destruct Hstep as [s ts req g|s ts id|s ts req|s ts rc a s' Hb|s ts rc a e s' Hb
    |s ts rc a x s1 s2 Hb Hr|s ts k x d x' s' Hx Hp He|s ts k x d e s' o s'' Hx Hp He Hs
    |s ts k x e o s' Hx Hs]; simpl in *.
  - destruct (wp_run _ _ _ (start_run_spec req g s Hg)) as [Hg' Hk]. split; [done|by eapply created_exclusive].
  - destruct (wp_run _ _ _ (cancel_run_spec id s Hg)) as [Hg' Hk]. split; [done|].
    eapply step_effect_exclusive; [exact Hex|]. exists id. split; [apply Hk|]. right; right; left. apply Hk.
  - destruct (wp_run _ _ _ (resume_run_spec req s Hg)) as [Hg' Hv]. by rewrite Hv.
  - pose proof (exec_begin_spec rc a s Hg) as Hw. unfold wp in Hw. rewrite Hb in Hw.
    destruct Hw as [[Hg' Hv] _]. by rewrite Hv.
  - pose proof (exec_begin_spec rc a s Hg) as Hw. unfold wp in Hw. rewrite Hb in Hw.
    destruct Hw as [Hg' Hv]. by rewrite Hv.
  - pose proof (exec_begin_spec rc a s Hg) as Hw. unfold wp in Hw. rewrite Hb in Hw.
    destruct Hw as ([Hg1 Hv1] & Hxr & Hxp & _). rewrite <- Hv1 in Hxr.
    pose proof (exec_running_spec x s1 Hg1 Hxr Hxp) as Hw. unfold wp in Hw. rewrite Hr in Hw.
    destruct Hw as [Hg2 Hk]. rewrite Hv1 in Hk. split; [done|]. eapply step_effect_exclusive; [exact Hex|].
    exists (run_key (ex_run x)). split; [apply Hk|]. do 3 right. left. apply Hk.
  - destruct (Hrun x) as [Hgone|Hsome].
    + pose proof (gone_event x (view s) Hgone d s (conj Hg eq_refl)) as Hw. unfold wp in Hw. rewrite He in Hw.
      destruct Hw as [Hg' ->]. by split.
    + pose proof (exec_event_spec x d s Hg Hsome) as Hw. unfold wp in Hw. rewrite He in Hw.
      eapply Htask; [|apply Hw]. tauto.
  - destruct (Hrun x) as [Hgone|Hsome].
    + pose proof (gone_event x (view s) Hgone d s (conj Hg eq_refl)) as Hw. unfold wp in Hw. rewrite He in Hw.
      assert (wp (raise (A:=unit) e) (λ _ s', good s' ∧ view s' = view s) (λ _ s', good s' ∧ view s' = view s) s') as Hm
        by exact Hw.
      apply (gone_settle x (view s) Hgone), wp_run in Hm. rewrite Hs in Hm. destruct Hm as [Hg' Hv]. simpl in Hv. by rewrite Hv.
    + pose proof (exec_event_spec x d s Hg Hsome) as Hw. unfold wp in Hw. rewrite He in Hw.
      eapply settle_run in Hs as Hd; [|by apply wp_raise]. eapply Htask; [|apply Hd]. tauto.
  - destruct (Hrun x) as [Hgone|Hsome].
    + pose proof (gone_settle x (view s) Hgone _ s (gone_end x (view s) Hgone e s (conj Hg eq_refl))) as Hm.
      apply wp_run in Hm. rewrite Hs in Hm. destruct Hm as [Hg' Hv]. simpl in Hv. by rewrite Hv.
    + assert (task_inv x (view s) False s) as Hi by by apply task_inv_refl.
      apply (Htask x False); [tauto|].
      assert (wp (settle x (exec_end x e)) (λ _, task_inv x (view s) False) (λ _, task_inv x (view s) False) s) as Hm.
      { apply settle_inv. destruct (ex_terminal x) eqn:Ht.
        { unfold Service.exec_end. rewrite Ht. by destruct e. }
        eapply wp_mono; [apply (exec_end_spec x (view s) False e s Hi); congruence| |done]. by intros ? ? []. }
      apply wp_run in Hm. by rewrite Hs in Hm.
Qed.

(** *** [execute_receipt] is a run of the system *)

Lemma exec_event_same x d (s : Service) x' s' :
  exec_event x d s = (Ok x', s') → ex_run x' = ex_run x ∧ ex_receipt x' = ex_receipt x.
Proof.
  unfold Service.exec_event. intros H. apply bind_ok in H as (ev & s1 & _ & H). cbv zeta in H.
  destruct (type_in _ _); [|unfold ret in H; by simplify_eq].
  repeat (apply bind_ok in H as (? & ? & _ & H)). unfold ret in H. by simplify_eq.
Qed.

Notation exec_events := (exec_events clock fresh json_str).
Notation execute_receipt := (execute_receipt clock fresh json_str).

Lemma exec_rest_steps ds e x x0 (s : Service) ts :
  ts !! run_key (ex_run x) = Some x → ex_run x = ex_run x0 → ex_receipt x = ex_receipt x0 →
  reachable (sys_step False) (mk_system s ts)
    (mk_system (settle x0 (x' <- exec_events x ds;; exec_end x' e) s).2
               (delete (run_key (ex_run x)) ts)).
Proof.
  assert (∀ x1, ex_run x1 = ex_run x0 → ex_receipt x1 = ex_receipt x0 →
    ∀ m (s1 : Service), settle x0 m s1 = settle x1 m s1) as Hsettle.
  { intros [? ? ? ?] Hr Hc m s0. simpl in *. subst. by destruct x0. }
  revert x s ts. induction ds as [|d ds IH]; intros x s ts Hx Hr Hc.
  - apply reachable_one. rewrite (Hsettle x) by done.
    destruct (settle x (exec_end x e) s) as [o s'] eqn:Hs.
    change (settle x (x' <- exec_events x [];; exec_end x' e) s) with (settle x (exec_end x e) s).
    rewrite Hs. eapply sys_end; [done|exact Hs].
  - simpl. destruct (exec_event x d s) as [[x'|e1] s1] eqn:He.
    + destruct (exec_event_same _ _ _ _ _ He) as [Hr' Hc'].
      eapply reachable_trans; [apply reachable_one; eapply (sys_event False); [done|by intros []|exact He]|].
      specialize (IH x' s1 (<[run_key (ex_run x) := x']> ts)).
      rewrite Hr' in IH. specialize (IH ltac:(by rewrite lookup_insert_eq) Hr ltac:(congruence)).
      rewrite delete_insert_eq in IH.
      assert (settle x0 (x' <- (x'0 <- exec_event x d;; exec_events x'0 ds);; exec_end x' e) s =
        settle x0 (x' <- exec_events x' ds;; exec_end x' e) s1) as ->; [|exact IH].
      unfold Service.settle, try_finally, try_except, bind. by rewrite He.
    + apply reachable_one. rewrite (Hsettle x) by done.
      destruct (settle x (raise e1) s1) as [o s2] eqn:Hs.
      assert (settle x (x' <- (x'0 <- exec_event x d;; exec_events x'0 ds);; exec_end x' e) s =
        settle x (raise e1) s1) as ->.
      { unfold Service.settle, try_finally, try_except, bind. by rewrite He. }
      rewrite Hs. eapply sys_event_failed; [done|by intros []|exact He|exact Hs].
Qed.

(** Executing a receipt without interruption is a run of the transition
    system: from every consistent state with no execution of that run in
    progress, the state [execute_receipt] ends in is reachable by the steps
    above, with the same executions in progress as before.  With the previous
    properties: it never leaves its run running, whatever the adapter does. *)
Lemma execute_receipt_refines_steps (s : Service) (ts : gmap string execution)
  (receipt : RunCommandReceipt) (adapter : A) (ds : list RuntimeEventDraft) (e : stream_end) :
  good s → ts !! id_value (run_id (req_identity (cmd_request (rcp_command receipt)))) = None →
  reachable (sys_step False) (mk_system s ts)
    (mk_system (execute_receipt receipt adapter ds e s).2 ts).
Proof using RL JL.
  intros Hg Hts. unfold Service.execute_receipt, bind at 1.
  pose proof (exec_begin_spec receipt adapter s Hg) as Hw. unfold wp in Hw.
  destruct (exec_begin receipt adapter s) as [[[x|]|e1] s1] eqn:Hb.
  - destruct Hw as ([Hg1 Hv1] & Hxr & Hxp & _). rewrite <- Hv1 in Hxr.
    assert (run_key (ex_run x) = id_value (run_id (req_identity (cmd_request (rcp_command receipt))))) as Hk.
    { unfold exec_begin in Hb. apply bind_ok in Hb as (r & s0 & Hget & Hb).
      assert (view s !! id_value (run_id (req_identity (cmd_request (rcp_command receipt)))) = Some r) as Hr.
      { pose proof (wp_get (id_value (run_id (req_identity (cmd_request (rcp_command receipt)))))
          (λ r' _, view s !! id_value (run_id (req_identity (cmd_request (rcp_command receipt)))) = Some r')
          (λ _ _, True) s Hg (λ r0 Hr0, Hr0) (λ _ _, Logic.I)) as Hw. unfold wp in Hw. by rewrite Hget in Hw. }
      destruct (decide _).
      - apply bind_ok in Hb as (? & ? & _ & Hb). unfold ret in Hb. injection Hb as <- _. exact (view_key s _ r Hg Hr).
      - by apply bind_ok in Hb as (? & ? & _ & Hb). }
    pose proof (exec_running_spec x s1 Hg1 Hxr Hxp) as Hrun. unfold wp in Hrun.
    destruct (exec_running x s1) as [[[]|e2] s2] eqn:Hr; [|done].
    eapply reachable_trans; [eapply reachable_one, (sys_begin False); [exact Hb|exact Hr]|].
    pose proof (exec_rest_steps ds e x x s2 (<[run_key (ex_run x) := x]> ts)
      ltac:(by rewrite lookup_insert_eq) eq_refl eq_refl) as Hrest.
    rewrite delete_insert_eq, delete_id in Hrest by by rewrite Hk.
    assert (try_finally (try_except (exec_running x;;; x' <- exec_events x ds;; exec_end x' e)
        (exec_failed clock fresh x)) (exec_finally clock x) s1 =
      settle x (x' <- exec_events x ds;; exec_end x' e) s2) as ->; [|exact Hrest].
    unfold Service.settle, try_finally, try_except, bind. by rewrite Hr.
  - apply reachable_one. eapply sys_duplicate. exact Hb.
  - apply reachable_one. eapply sys_unknown. exact Hb.
Qed.
End Safety.

(** ** The local runtime: the in-memory adapters of [bootstrap/local.py] *)
Module Local.
Abbreviation service :=
  (Service (T:=Threads.state) (R:=Runs.state) (Q:=MemoryQueue) (J:=Journal)
           (O:=Outbox.state) (A:=unit)).

Definition clock (n : nat) : datetime := Z.of_nat n.
Definition fresh (n : nat) : string := "id".
Definition json_str (v : json) : string := "data".
Definition adapter_cancel (a : unit) (r : ExecutionRequest) : res unit := Ok tt.

Definition identity (run thread : string) : ExecutionIdentity :=
  mk_identity (mk_scope (mk_id "w") (mk_id "p") (mk_id "a") (mk_id "r") (mk_id "d"))
    (mk_id "agent") (mk_id run) (mk_id "attempt") (Some (mk_id thread)).
Definition request (run thread : string) : ExecutionRequest := default_request (identity run thread).
Definition receipt (run thread : string) : RunCommandReceipt :=
  mk_receipt (mk_command (mk_id "c") (identity run thread) (request run thread) NORMAL 0 0)
    (mk_id "lease") 1 0 60.
Definition thread (id : string) : Thread := mk_thread (mk_id id) IDLE [] (Some 0) (Some 0).
Definition pending_run (run thread : string) : Run :=
  mk_run (identity run thread) PENDING [] (Some 0) (Some 0) JNull None.

(** A local service with the threads and the runs given. *)
Definition service_with (threads : list string) (runs : dict Run) : service :=
  mk_service ((λ t, (t, thread t)) <$> threads) runs (new_memory_queue 60 3)
    (Some (mk_journal ∅ ∅ ∅ ∅ 0 8)) None [] [] 0.

Lemma service_good threads runs :
  Runs.inv runs → good (service_with threads runs).
Proof. intros H. split; [exact H|by eexists]. Qed.

Definition one_pending : service := service_with ["t"] [("r1", pending_run "r1" "t")].

(** The laws' view of the in-memory repository is its dictionary. *)
Lemma view_lookup (s : service) k : runs_view (svc_runs s) !! k = dget (svc_runs s) k.
Proof. symmetry. apply dget_map. Qed.

Lemma one_pending_quiescent : quiescent one_pending ∧ exclusive (view one_pending).
Proof.
  split; [split; [apply service_good; split|]|].
  - apply NoDup_singleton.
  - intros k r. cbn [dget]. case_decide; intros; by simplify_eq.
  - intros k r. unfold view. rewrite view_lookup. cbn [one_pending service_with svc_runs dget].
    case_decide; intros; by simplify_eq.
  - intros t k k' r r'. unfold view. rewrite !view_lookup. cbn [one_pending service_with svc_runs dget].
    repeat case_decide; intros; by simplify_eq.
Qed.

(** Begin the execution of the pending run. *)
Definition begun : service * execution :=
  match (o <- exec_begin (receipt "r1" "t") tt;;
         match o with
         | Some x => exec_running clock x;;; ret x
         | None => raise AssertionError
         end) one_pending with
  | (Ok x, s) => (s, x)
  | (Raise _, s) => (s, mk_execution (receipt "r1" "t") (pending_run "r1" "t") JNull true)
  end.

Lemma begun_reachable polite :
  reachable (sys_step clock fresh json_str adapter_cancel polite) (mk_system one_pending ∅)
    (mk_system begun.1 {["r1" := begun.2]}).
Proof.
  apply reachable_one.
  eapply (sys_begin clock fresh json_str adapter_cancel polite one_pending ∅ (receipt "r1" "t") tt);
    reflexivity.
Qed.

Lemma no_run_left_running_witness :
  ∃ r, dget (svc_runs begun.1) "r1" = Some r ∧ run_status r = RUNNING ∧
    is_Some (({["r1" := begun.2]} : gmap string execution) !! "r1").
Proof.
  eexists. split; [reflexivity|]. split; [reflexivity|].
  refine (no_run_left_running clock fresh json_str adapter_cancel one_pending
    (mk_system begun.1 {["r1" := begun.2]}) "r1" _ (proj1 one_pending_quiescent)
    (begun_reachable False) _ _).
  - exact (view_lookup begun.1 "r1").
  - reflexivity.
Defined.

Lemma one_active_run_per_thread_witness :
  ∃ r, dget (svc_runs begun.1) "r1" = Some r ∧ occupies "t" r = true ∧ "r1" = "r1".
Proof.
  eexists. split; [reflexivity|]. split; [reflexivity|].
  refine (one_active_run_per_thread clock fresh json_str adapter_cancel one_pending
    (mk_system begun.1 {["r1" := begun.2]}) "t" "r1" "r1" _ _ (proj1 one_pending_quiescent)
    (proj2 one_pending_quiescent) (begun_reachable True) _ _ _ _).
  - exact (view_lookup begun.1 "r1").
  - exact (view_lookup begun.1 "r1").
  - reflexivity.
  - reflexivity.
Defined.

Lemma execute_receipt_refines_steps_witness :
  reachable (sys_step clock fresh json_str adapter_cancel False) (mk_system one_pending ∅)
    (mk_system (execute_receipt clock fresh json_str (receipt "r1" "t") tt
       [simple_draft (identity "r1" "t") RUN_COMPLETED JNull] Exhausted one_pending).2 ∅).
Proof.
  exact (execute_receipt_refines_steps clock fresh json_str adapter_cancel one_pending ∅
    (receipt "r1" "t") tt [simple_draft (identity "r1" "t") RUN_COMPLETED JNull] Exhausted
    (proj1 (proj1 one_pending_quiescent)) eq_refl).
Defined.

(** The statuses of the runs. *)
Definition statuses (s : service) : list (string * RunStatus) := prod_map id run_status <$> svc_runs s.

Definition interrupt_after_cancel : Py service unit :=
  start_run clock fresh (request "r1" "t") false;;;
  o <- exec_begin (receipt "r1" "t") tt;;
  match o with
  | None => raise AssertionError
  | Some x =>
      exec_running clock x;;;
      cancel_run clock fresh adapter_cancel "r1";;;
      start_run clock fresh (request "r2" "t") false;;;
      exec_event clock fresh json_str x
        (simple_draft (identity "r1" "t") RUN_INTERRUPTED JNull);;;
      ret tt
  end.

(** A late interrupt revives a cancelled run.  If a run is cancelled, a new
    run is started on its thread, and the cancelled run's stream then reports an
    interrupt, the cancelled run is interrupted again: the transition is not
    made by [Run], so its terminal status is not respected, and two active
    runs share the thread (the condition of the previous property is needed). *)
Lemma interrupt_revives_cancelled_run :
  let '(r, s) := interrupt_after_cancel (service_with ["t"] []) in
  is_ok r = true ∧ statuses s = [("r1", INTERRUPTED); ("r2", PENDING)] ∧
  forallb (occupies "t") (dvalues (svc_runs s)) = true.
Proof. vm_compute. by split_and!. Qed.
End Local.
