(* ===== verification/ServiceSpec.v ===== *)
(** * Functional behaviour of the execution service

    What starting a run does on every branch, which commands are executed at
    all, how an execution's events settle its run, and three behaviours of the
    service that the code does not intend. *)

From S2P Require Import Prelude PyDict PyStr Json Errors Identity Execution Ports.
From S2P Require Import MemoryRepositories MemoryQueue MemoryJournal MemoryStores Capacity Service ServiceSafety.

(** ** Events that settle a run *)

Definition settled_status (t : RuntimeEventType) : RunStatus :=
  match t with
  | RUN_COMPLETED => SUCCESS
  | RUN_CANCELLED => CANCELLED
  | RUN_INTERRUPTED => INTERRUPTED
  | _ => ERROR
  end.

(** The first half of the next theorem, for a run that is not over. *)
Lemma event_outcome_open (json_str : json → string) (t : RuntimeEventType) (data last : json)
  (current : Run) (at_ : datetime) :
  t ∈ SETTLING → terminal_status (run_status current) = false →
  ∃ r, event_outcome json_str (Known t) data last current at_ = Ok r ∧ run_status r = settled_status t ∧
    run_identity r = run_identity current ∧ run_metadata r = run_metadata current ∧
    run_created_at r = run_created_at current ∧ run_updated_at r = Some at_ ∧
    run_result r = match t with RUN_COMPLETED => last | RUN_INTERRUPTED => run_result current | _ => JNull end ∧
    run_error r = match t with
                  | RUN_FAILED | RUN_TIMEOUT =>
                      Some (mk_run_error "FRAMEWORK_EXECUTION_FAILED" (json_str data) false [])
                  | RUN_INTERRUPTED => run_error current
                  | _ => None
                  end.
Proof.
  unfold event_outcome, type_is, run_complete, run_cancel, run_fail, run_change.
  destruct current as [i [] m c u v e]; simpl; intros Ht H; try done;
    destruct t; revert Ht; try (intros Ht; exfalso; revert Ht; by apply (bool_decide_unpack _));
    intros _; simpl; eexists; by split_and!.
Qed.

(** How an execution's terminal event settles its run.  A run that is not
    over takes the status of the event, [TIMEOUT] excepted: a timeout is stored
    as an error, with the text of the event's data; a completion stores the last
    state values; nothing else of the run changes but the time.  A run that is
    already over refuses a different outcome, except that an interrupt is
    always stored. *)
Lemma event_outcome_spec (json_str : json → string) (t : RuntimeEventType) (data last : json)
  (current : Run) (at_ : datetime) :
  t ∈ SETTLING →
  let outcome := event_outcome json_str (Known t) data last current at_ in
  (terminal_status (run_status current) = false →
     ∃ r, outcome = Ok r ∧ run_status r = settled_status t ∧
       run_identity r = run_identity current ∧ run_metadata r = run_metadata current ∧
       run_created_at r = run_created_at current ∧ run_updated_at r = Some at_ ∧
       run_result r = match t with RUN_COMPLETED => last | RUN_INTERRUPTED => run_result current | _ => JNull end ∧
       run_error r = match t with
                     | RUN_FAILED | RUN_TIMEOUT =>
                         Some (mk_run_error "FRAMEWORK_EXECUTION_FAILED" (json_str data) false [])
                     | RUN_INTERRUPTED => run_error current
                     | _ => None
                     end) ∧
  (terminal_status (run_status current) = true →
     match t with
     | RUN_INTERRUPTED => ∃ r, outcome = Ok r ∧ run_status r = INTERRUPTED
     | _ => (∃ r, outcome = Ok r ∧ run_status r = run_status current) ↔
            run_status current = settled_status t
     end).
Proof.
  intros Ht outcome. split; [by apply event_outcome_open|]. unfold outcome, event_outcome, run_complete.
  unfold run_cancel, run_fail, run_change, type_is.
  unfold SETTLING in Ht. rewrite !elem_of_cons in Ht.
  destruct Ht as [->|[->|[->|[->|[->|Ht]]]]]; [| | | | |by apply elem_of_nil in Ht]; simpl;
    destruct current as [i [] m c u v e]; simpl; intros H; try done; eauto;
    split; first [done | intros (r & Hr & Hs); by simplify_eq/= | eauto].
Qed.

Lemma event_outcome_spec_witness :
  ∃ r, event_outcome (λ _, "late") (Known RUN_TIMEOUT) JNull JNull (Local.pending_run "r" "t") 7 = Ok r ∧
    run_status r = ERROR.
Proof.
  destruct (proj1 (event_outcome_spec (λ _, "late") RUN_TIMEOUT JNull JNull (Local.pending_run "r" "t") 7
    ltac:(set_solver)) eq_refl) as (r & Hr & Hs & _).
  exists r. split; [exact Hr|exact Hs].
Defined.

Section Spec.
Context {R T Q J O A : Type}
  `{!RunRepository R, RL : !RunRepositoryLaws R, !ThreadRepository T, TL : !ThreadRepositoryLaws T,
    !RunCommandQueue Q, !EventJournal J, JL : !EventJournalLaws J, !OutboxRepository O}
  (clock : nat → datetime) (fresh : nat → string) (json_str : json → string)
  (adapter_cancel : A → ExecutionRequest → res unit).

Notation Service := (Service (R:=R) (T:=T) (Q:=Q) (J:=J) (O:=O) (A:=A)).

(** *** Commands of runs that are not pending *)

(** Acknowledging a receipt, and nothing else. *)
Definition only_acknowledge (receipt : RunCommandReceipt) (s : Service) : res unit * Service :=
  let '(r, q) := queue_acknowledge receipt (svc_commands s) in (r, set_commands q s).

Definition command_run (receipt : RunCommandReceipt) : string :=
  id_value (run_id (req_identity (cmd_request (rcp_command receipt)))).

Lemma execute_not_pending (s : Service) receipt adapter ds e r :
  good s → view s !! command_run receipt = Some r → run_status r ≠ PENDING →
  execute_receipt clock fresh json_str receipt adapter ds e s = only_acknowledge receipt s.
Proof using RL.
  intros [Hi _] Hv Hp. unfold execute_receipt, exec_begin, bind, on_runs, zoom.
  rewrite (runs_get_some (svc_runs s) (command_run receipt) r) by done.
  rewrite decide_False by done.
  assert (set_runs (svc_runs s) s = s) as -> by by destruct s.
  unfold only_acknowledge, on_commands, zoom.
  by destruct (queue_acknowledge receipt (svc_commands s)) as [[[]|x] q].
Qed.

(** C5: only pending runs are executed.  The command of a run that is running,
    over or interrupted is acknowledged and has no other effect: the adapter
    is not called and no run, thread or event changes.  So a run cancelled
    before its command is taken is not executed; but neither is a resumed one,
    because [resume_run] leaves the run interrupted. *)
Theorem only_pending_runs_execute (s : Service) (receipt : RunCommandReceipt) (adapter : A)
  (ds : list RuntimeEventDraft) (e : stream_end) :
  good s →
  (∀ r, view s !! command_run receipt = Some r → run_status r ≠ PENDING →
     execute_receipt clock fresh json_str receipt adapter ds e s = only_acknowledge receipt s) ∧
  (∀ req run s', resume_run clock fresh req s = (Ok run, s') →
     command_run receipt = id_value (run_id (req_identity req)) →
     run_status run = INTERRUPTED ∧
     execute_receipt clock fresh json_str receipt adapter ds e s' = only_acknowledge receipt s').
Proof using RL JL.
  intros Hg. split; [intros r; by apply execute_not_pending|].
  intros req run s' Hres Hk.
  pose proof (resume_run_spec clock fresh req s Hg) as Hspec. unfold wp in Hspec.
  rewrite Hres in Hspec. destruct Hspec as [Hg' Hv].
  unfold resume_run in Hres. apply bind_ok in Hres as (r & s1 & Hget & Hres).
  assert (view s !! id_value (run_id (req_identity req)) = Some r) as Hr.
  { pose proof (wp_get (id_value (run_id (req_identity req)))
      (λ r' _, view s !! id_value (run_id (req_identity req)) = Some r')
      (λ _ _, True) s Hg (λ r0 Hr0, Hr0) (λ _ _, Logic.I)) as Hw. unfold wp in Hw. by rewrite Hget in Hw. }
  destruct (decide (run_status r = INTERRUPTED)) as [Hi|]; [|done].
  assert (run = r) as ->.
  { apply bind_ok in Hres as (t & s2 & _ & Hres). apply bind_ok in Hres as (i & s3 & _ & Hres).
    apply bind_ok in Hres as (u & s4 & _ & Hres). apply bind_ok in Hres as (u' & s5 & _ & Hres).
    unfold ret in Hres. congruence. }
  split; [done|]. apply (execute_not_pending s' receipt adapter ds e r); [done| |by rewrite Hi].
  by rewrite Hv, Hk.
Qed.

(** *** Starting a run *)

Definition thread_view (s : Service) : gmap string Thread := threads_view (svc_threads s).
Definition thread_status_at (s : Service) (k : string) : option ThreadStatus :=
  thr_status <$> thread_view s !! k.

(** [s'] differs from [s] outside the runs and the threads. *)
Definition same_core (s s' : Service) : Prop :=
  svc_runs s' = svc_runs s ∧ svc_threads s' = svc_threads s ∧
  (is_Some (svc_journal s) → is_Some (svc_journal s')).

Lemma same_core_trans s1 s2 s3 : same_core s1 s2 → same_core s2 s3 → same_core s1 s3.
Proof. intros (? & ? & ?) (? & ? & ?). split_and!; [congruence|congruence|tauto]. Qed.

Lemma append_core d s : same_core s (append_event clock fresh d s).2.
Proof.
  unfold append_event. destruct (svc_journal s) as [j|] eqn:Hj; [|by split_and!].
  destruct (journal_append _ _ d j) as [r j']. split_and!; [done|done|by eexists].
Qed.

Lemma enqueue_core req g t s : same_core s (enqueue clock fresh req g t s).2.
Proof.
  unfold enqueue, append_if_journal. unfold bind at 1.
  set (d := simple_draft _ _ _). pose proof (append_core d s) as Ha.
  destruct (svc_journal s) as [j|] eqn:Hj.
  - unfold bind at 1. destruct (append_event clock fresh d s) as [[ev|e] s1]; [|exact Ha].
    eapply same_core_trans; [exact Ha|]. clear Ha Hj. simpl.
    unfold bind, get_state, new, outbox_put, on_commands, zoom.
    repeat (case_match; simplify_eq/=; try by split_and!).
  - unfold bind, get_state, new, outbox_put, on_commands, zoom. simpl.
    repeat (case_match; simplify_eq/=; try by split_and!).
Qed.

(** The threads' operations. *)
Lemma thread_get_step (s : Service) k t :
  threads_inv (svc_threads s) → thread_view s !! k = Some t →
  on_threads (threads_get k) s = (Ok t, s).
Proof using TL.
  intros Hi Hv. unfold on_threads, zoom. rewrite (threads_get_some _ k t) by done. by destruct s.
Qed.
Lemma thread_update_step (s : Service) t :
  threads_inv (svc_threads s) → is_Some (thread_view s !! thread_key t) →
  ∃ T', on_threads (threads_update t) s = (Ok t, set_threads T' s) ∧ threads_inv T' ∧
    ∃ t', threads_view T' = <[thread_key t := t']> (thread_view s) ∧ thr_status t' = thr_status t.
Proof using TL.
  intros Hi Hv. destruct (threads_update_some (svc_threads s) t Hi Hv) as (t' & T' & Hu & Hi' & Hc & Hv').
  exists T'. unfold on_threads, zoom. rewrite Hu. split_and!; [done|done|]. exists t'.
  split; [done|]. unfold thread_core in Hc. congruence.
Qed.

(** What [queue_failed] does to the run and to its thread. *)
Lemma queue_failed_core (r : Run) (i : ThreadId) (s : Service) :
  good s → threads_inv (svc_threads s) → run_status r = PENDING →
  is_Some (view s !! run_key r) → is_Some (thread_view s !! id_value i) →
  ∃ s', queue_failed clock r (Some i) s = (Ok tt, s') ∧ good s' ∧
    (∃ r', view s' = <[run_key r := r']> (view s) ∧ run_identity r' = run_identity r ∧
       run_status r' = ERROR ∧ err_code <$> run_error r' = Some "RUN_QUEUE_FAILED") ∧
    thread_status_at s' (id_value i) = Some THREAD_ERROR.
Proof using RL TL.
  intros Hg Hti Hp Hr [th Hth]. unfold queue_failed. unfold bind at 1, now.
  unfold bind at 1, of_result, run_fail, run_change. rewrite Hp. simpl.
  set (r1 := mk_run _ ERROR _ _ _ _ _). unfold bind at 1.
  set (s1 := set_ticks _ s).
  destruct Hg as [Hi Hj].
  destruct (runs_update_some (svc_runs s1) r1) as (r2 & R' & Hu & Hi' & Hc & Hv); [done|done|].
  unfold on_runs at 1, zoom. rewrite Hu.
  assert (thread_view (set_runs R' s1) !! id_value i = Some th) as Hth1 by exact Hth.
  unfold bind at 1. rewrite (thread_get_step _ _ th) by done. unfold bind at 1, now.
  assert (thread_key th = id_value i) as Hk by by eapply threads_inv_key.
  match goal with |- context [bind (on_threads (threads_update ?t)) _ ?s2] =>
    destruct (thread_update_step s2 t) as (T' & Hu' & Hti' & t' & Hvt & Hst); [done| |] end.
  { change (is_Some (thread_view s !! thread_key th)). rewrite Hk, Hth. by eexists. }
  unfold bind. rewrite Hu'. eexists. split; [reflexivity|]. split; [by split|]. split.
  - exists r2. split; [exact Hv|]. unfold run_core in Hc. injection Hc as -> -> _ ->. done.
  - unfold thread_status_at, thread_view. simpl. rewrite Hvt.
    change (thread_key (mark_error th _)) with (thread_key th). rewrite Hk, lookup_insert_eq. simpl.
    by rewrite Hst.
Qed.

(** C4: starting a run on a thread.  A busy thread refuses without any change
    to runs and threads.  If the thread is free and no other run occupies it,
    either the run is stored as pending and the thread is busy, or, when its
    command could not be queued, the run is stored as failed with the code
    [RUN_QUEUE_FAILED], the thread is in error and the exception is passed on.
    If the repository refuses the run because an earlier, interrupted, run
    still occupies the thread, the exception is passed on as well, but the
    thread stays busy although no new run exists. *)
Theorem start_run_outcomes (req : ExecutionRequest) (given_outbox : bool) (s : Service)
  (i : ThreadId) (th : Thread) (o : res Run) (s' : Service) :
  good s → threads_inv (svc_threads s) →
  thread_id (req_identity req) = Some i → thread_view s !! id_value i = Some th →
  view s !! id_value (run_id (req_identity req)) = None →
  start_run clock fresh req given_outbox s = (o, s') →
  (thr_status th = BUSY →
     o = Raise (failure THREAD_BUSY ("thread is busy: " +:+ id_value i)) ∧
     view s' = view s ∧ thread_view s' = thread_view s) ∧
  (thr_status th ≠ BUSY →
     ((∀ k r, view s !! k = Some r → occupies (id_value i) r = false) →
        ∃ r', view s' = <[id_value (run_id (req_identity req)) := r']> (view s) ∧
          run_identity r' = req_identity req ∧
          match o with
          | Ok run => run_status r' = PENDING ∧ run_core r' = run_core run ∧
              thread_status_at s' (id_value i) = Some BUSY
          | Raise e => is_exception e = true →
              run_status r' = ERROR ∧ err_code <$> run_error r' = Some "RUN_QUEUE_FAILED" ∧
              thread_status_at s' (id_value i) = Some THREAD_ERROR
          end) ∧
     ((∃ k r, view s !! k = Some r ∧ occupies (id_value i) r = true) →
        is_ok o = false ∧ view s' = view s ∧ thread_status_at s' (id_value i) = Some BUSY)).
Proof using RL TL JL.
  intros Hg Hti Hi Hth Hnew. unfold start_run. rewrite Hi. unfold bind at 1, now.
  set (s1 := set_ticks _ s). unfold bind at 1. unfold bind at 1.
  rewrite (thread_get_step s1 _ th) by done.
  destruct (decide (thr_status th = BUSY)) as [Hb|Hb].
  { intros [= <- <-]. split; [intros _; by split_and!|done]. }
  assert (thread_key th = id_value i) as Hk by by eapply threads_inv_key.
  destruct (thread_update_step s1 (mark_busy th (clock (svc_ticks s)))) as (T' & Hu & Hti' & t' & Hvt & Hst);
    [done|by change (is_Some (thread_view s !! thread_key th)); rewrite Hk, Hth|].
  unfold bind at 1. rewrite Hu. simpl. set (s2 := set_threads T' s1).
  change (thread_key (mark_busy th _)) with (thread_key th) in Hvt. rewrite Hk in Hvt.
  assert (∀ s3 : Service, svc_threads s3 = svc_threads s2 → thread_status_at s3 (id_value i) = Some BUSY) as Hbusy.
  { intros s3 H3. unfold thread_status_at, thread_view. rewrite H3. simpl. rewrite Hvt, lookup_insert_eq.
    simpl. by rewrite Hst. }
  set (r := mk_run _ PENDING _ _ _ _ _). unfold bind at 1, on_runs, zoom. destruct Hg as [Hinv Hj].
  intros Hrun. split; [done|]. intros _. split.
  - intros Hfree.
    destruct (runs_create_ok (svc_runs s2) r) as (r1 & R1 & Hc & Hi1 & Hcore & Hv1); [done|done|intros t k r0 Ht|].
    { unfold run_thread_id in Ht. simpl in Ht. rewrite Hi in Ht. injection Ht as <-. by apply Hfree. }
    rewrite Hc in Hrun. set (s3 := set_runs R1 s2) in Hrun.
    pose proof (enqueue_core req given_outbox (clock (svc_ticks s)) s3) as (Her & Het & Hej).
    unfold bind, try_except in Hrun.
    destruct (enqueue clock fresh req given_outbox (clock (svc_ticks s)) s3) as [[[]|e] s4]; simpl in *.
    + unfold ret in Hrun. injection Hrun as <- <-. exists r1.
      unfold run_core in Hcore. injection Hcore as Hid Hs Hres Herr.
      split_and!; [by unfold view; rewrite Her|done|done|unfold run_core; by rewrite Hid, Hs, Hres, Herr|].
      apply Hbusy. by rewrite Het.
    + destruct (is_exception e) eqn:Hexc.
      * destruct (queue_failed_core r i s4) as (s5 & Hqf & Hg5 & (r' & Hv5 & Hid5 & Hs5 & He5) & Ht5).
        -- split; [by rewrite Her|by apply Hej].
        -- by rewrite Het.
        -- done.
        -- unfold view. rewrite Her. simpl. rewrite Hv1. by rewrite lookup_insert_eq.
        -- unfold thread_view. rewrite Het. simpl. rewrite Hvt, lookup_insert_eq. by eexists.
        -- rewrite Hqf in Hrun. unfold raise in Hrun. injection Hrun as <- <-. exists r'.
           assert (view s4 = <[run_key r := r1]> (view s)) as Hv4 by (unfold view; rewrite Her; exact Hv1).
           rewrite Hv4, insert_insert_eq in Hv5. by split_and!.
      * unfold raise in Hrun. injection Hrun as <- <-. exists r1.
        unfold run_core in Hcore. injection Hcore as Hid _ _ _.
        split_and!; [by unfold view; rewrite Her|done|congruence].
  - intros (k & r0 & Hk0 & Hocc).
    destruct (runs_create_err (svc_runs s2) r) as (e & Hc & _); [done| |].
    { right. exists i, k, r0. by split_and!. }
    rewrite Hc in Hrun. injection Hrun as <- <-. split_and!; [done|done|by apply Hbusy].
Qed.

(** *** Reading the state of a thread *)

(** The state of a thread cannot be read through an adapter.  For an
    adapter that manages state, [get_thread_state] always raises, because it
    builds the execution identity without scope, assistant and attempt, which
    the identity refuses. *)
Lemma get_thread_state_raises replay_by_thread (state_management : A → bool)
  (adapter_get_state : A → ExecutionRequest → res json) (replay : option J)
  (thread_id : string) (adapter : A) (s : Service) :
  state_management adapter = true →
  ∃ m, (get_thread_state fresh replay_by_thread state_management adapter_get_state replay thread_id
          (Some adapter) s).1 = Raise (ValueError m).
Proof.
  intros Hm. unfold get_thread_state. rewrite Hm. unfold bind, new, of_result, parse_id.
  destruct (str_truthy thread_id); simpl; eauto.
Qed.
End Spec.

(** ** Steps that leave the queue alone *)

Section Commands.
Context {R T Q J O A : Type}
  `{!RunRepository R, !ThreadRepository T, !RunCommandQueue Q, !EventJournal J, !OutboxRepository O}
  (clock : nat → datetime) (fresh : nat → string) (P : Q → Prop).
Notation Service := (Service (R:=R) (T:=T) (Q:=Q) (J:=J) (O:=O) (A:=A)).

Definition keeps_commands {B} (m : Py Service B) : Prop := preserves (λ s : Service, P (svc_commands s)) m.
Lemma keeps_commands_step {B} (m : Py Service B) : (∀ s, svc_commands (m s).2 = svc_commands s) → keeps_commands m.
Proof. intros Hm s Hs. by rewrite Hm. Qed.
Lemma keeps_commands_bind {B C} (m : Py Service B) (f : B → Py Service C) :
  keeps_commands m → (∀ b, keeps_commands (f b)) → keeps_commands (bind m f).
Proof. apply preserves_bind. Qed.
Lemma keeps_commands_except {B} (m : Py Service B) h :
  keeps_commands m → (∀ e, keeps_commands (h e)) → keeps_commands (try_except m h).
Proof. apply preserves_try_except. Qed.
Lemma keeps_commands_finally {B} (m : Py Service B) f :
  keeps_commands m → keeps_commands f → keeps_commands (try_finally m f).
Proof. apply preserves_try_finally. Qed.
Lemma keeps_commands_runs {B} (m : Py R B) : keeps_commands (on_runs m).
Proof. apply keeps_commands_step. intros s. unfold on_runs, zoom. by destruct (m (svc_runs s)). Qed.
Lemma keeps_commands_threads {B} (m : Py T B) : keeps_commands (on_threads m).
Proof. apply keeps_commands_step. intros s. unfold on_threads, zoom. by destruct (m (svc_threads s)). Qed.
Lemma keeps_commands_append d : keeps_commands (append_event clock fresh d).
Proof.
  apply keeps_commands_step. intros s. unfold append_event. destruct (svc_journal s) as [j|]; [|done].
  by destruct (journal_append _ _ d j).
Qed.
Lemma keeps_commands_journal d : keeps_commands (append_if_journal clock fresh d).
Proof.
  apply keeps_commands_step. intros s. unfold append_if_journal, bind, append_event.
  destruct (svc_journal s) as [j|]; [|done]. by destruct (journal_append _ _ d j) as [[e|x] j'].
Qed.
End Commands.

Ltac keep_commands :=
  repeat first
    [ apply keeps_commands_bind; [|intros ?] | apply keeps_commands_except; [|intros ?] | apply keeps_commands_finally
    | apply keeps_commands_runs | apply keeps_commands_threads | apply keeps_commands_append
    | apply keeps_commands_journal | by apply keeps_commands_step | case_match ].

(** ** The local runtime *)
Module LocalSpec.
Import Local.

Lemma only_pending_runs_execute_witness :
  let s := service_with ["t"] [("r1", mk_run (identity "r1" "t") SUCCESS [] None None JNull None)] in
  execute_receipt clock fresh json_str (receipt "r1" "t") tt [] Exhausted s =
    only_acknowledge (receipt "r1" "t") s.
Proof.
  intros s.
  refine (proj1 (only_pending_runs_execute clock fresh json_str s (receipt "r1" "t") tt [] Exhausted _)
    (mk_run (identity "r1" "t") SUCCESS [] None None JNull None) _ _).
  - apply service_good. split; [apply NoDup_singleton|]. intros k r. cbn [dget].
    case_decide; intros; by simplify_eq.
  - exact (view_lookup s "r1").
  - discriminate.
Defined.

Lemma start_run_outcomes_witness :
  let r := start_run clock fresh (request "r1" "t") false (service_with ["t"] []) in
  is_ok r.1 = true ∧ ∃ r', view r.2 = <["r1" := r']> (view (service_with ["t"] [])) ∧
    run_identity r' = identity "r1" "t".
Proof.
  intros r. split; [reflexivity|].
  assert (threads_inv (svc_threads (service_with ["t"] []))) as Hti.
  { change (Threads.inv (svc_threads (service_with ["t"] []))). split; [apply NoDup_singleton|]. intros k t. cbn. case_decide; intros; by simplify_eq. }
  assert (thread_view (service_with ["t"] []) !! "t" = Some (thread "t")) as Htv.
  { symmetry. exact (dget_map [("t", thread "t")] "t"). }
  assert (Runs.inv []) as Hri by (split; [apply NoDup_nil_2|done]).
  destruct (proj1 (proj2 (start_run_outcomes clock fresh (request "r1" "t") false
    (service_with ["t"] []) (mk_id "t") (thread "t") r.1 r.2
    (service_good ["t"] [] Hri) Hti eq_refl Htv eq_refl
    (surjective_pairing r)) ltac:(discriminate))) as (r' & Hv & Hid & _).
  - intros k r0 Hk. unfold view in Hk. by rewrite view_lookup in Hk.
  - exists r'. split; [exact Hv|exact Hid].
Defined.

Lemma get_thread_state_raises_witness :
  ∃ m, (get_thread_state fresh (λ _ _ _ _, Ok []) (λ _, true) (λ _ _, Ok JNull) None "t" (Some tt)
          (service_with ["t"] [])).1 = Raise (ValueError m).
Proof.
  exact (get_thread_state_raises fresh (λ _ _ _ _, Ok []) (λ _, true) (λ _ _, Ok JNull) None "t" tt
    (service_with ["t"] []) eq_refl).
Defined.

(** A worker with two queued commands whose adapter fails on the first. *)
Definition lease_fresh (n : nat) : string := "id" +:+ pretty n.
Definition failing_stream (a : unit) (r : RunCommandReceipt) : list RuntimeEventDraft * stream_end :=
  if decide (id_value (run_id (receipt_identity r)) = "r1")
  then ([], Raised (OtherError "boom"))
  else ([simple_draft (receipt_identity r) RUN_COMPLETED JNull], Exhausted).
Definition two_queued : service :=
  ((start_run clock lease_fresh (request "r1" "t1") false;;;
    start_run clock lease_fresh (request "r2" "t2") false) (service_with ["t1"; "t2"] [])).2.

(** One failed execution stops the worker.  [_consume_commands] passes the
    exception of an adapter's stream on, so its task ends: the run of the
    failed command is stored as failed, but the next command stays in the queue
    with its run pending and its thread busy, and nobody takes it. *)
Lemma failed_execution_stops_worker :
  let '(r, w) := consume_commands clock lease_fresh json_str failing_stream 5
                   (mk_worker two_queued [("agent", tt)] None) in
  r = Raise (OtherError "boom") ∧
  statuses (wk_service w) = [("r1", ERROR); ("r2", PENDING)] ∧
  mq_pending (svc_commands (wk_service w)) = 1 ∧
  (λ t, thr_status t.2) <$> svc_threads (wk_service w) = [IDLE; BUSY].
Proof. vm_compute. by split_and!. Qed.
End LocalSpec.
