(* ===== verification/Kafka.v ===== *)
(** * Kafka adapters

    [adapters/kafka]: topic names, the in-memory transport, the fair dispatcher,
    the queue facade over it, the event publisher, the JSON codec of commands
    and the production queue.  The broker's client is outside the repository:
    what the production queue sends and commits is recorded, and what it
    receives is an argument. *)

From S2P Require Import Prelude PyDict PyStr Json Errors JsonAccess Identity Execution Ports.

(** ** Topic names *)

Record TopicNames : Type := mk_topics {
  short_queue : string;
  long_queue : string;
  execution_events : string;
  lifecycle : string;
  commands : string;
  audit : string;
  deadletter : string;
}.

Definition topic_fields : list string :=
  ["short_queue"; "long_queue"; "execution_events"; "lifecycle"; "commands"; "audit"; "deadletter"].

(** The sorted names of [set(overrides).difference(defaults)]; [string_leb] is
    the order of the strings. *)
Definition unknown_overrides (overrides : dict string) : list string :=
  merge_sort (λ a b, Is_true (String.leb a b))
    (List.filter (λ k, negb (bool_decide (k ∈ topic_fields))) (dkeys overrides)).

(** [from_config] *)
Definition from_config (prefix environment : string) (overrides : option (dict string))
  : res TopicNames :=
  if negb (str_truthy prefix) || negb (str_truthy environment)
  then Raise (ValueError "topic prefix and environment must not be empty")
  else
    let root := prefix +:+ "." +:+ environment in
    let o := default [] overrides in
    match unknown_overrides o with
    | _ :: _ => Raise (ValueError ("unknown topic override(s): " +:+ join ", " (unknown_overrides o)))
    | [] =>
        let pick k d := default (root +:+ d) (dget o k) in
        Ok (mk_topics (pick "short_queue" ".runs.short_queue") (pick "long_queue" ".runs.long_queue")
              (pick "execution_events" ".execution.events") (pick "lifecycle" ".run.lifecycle")
              (pick "commands" ".run.commands") (pick "audit" ".audit.events")
              (pick "deadletter" ".deadletter"))
    end.

(** [as_dict] *)
Definition as_dict (t : TopicNames) : dict string :=
  [("short_queue", short_queue t); ("long_queue", long_queue t);
   ("execution_events", execution_events t); ("lifecycle", lifecycle t);
   ("commands", commands t); ("audit", audit t); ("deadletter", deadletter t)].

(** [run_topic_for] *)
Definition run_topic_for (prefix application_id : string) (priority : Z) : string :=
  prefix +:+ "." +:+ application_id +:+ ".runs." +:+
  (if priority_int NORMAL <=? priority then "short_queue" else "long_queue").

(** ** The in-memory transport *)

(** What a message carries. *)
Inductive kafka_value : Type :=
| CommandValue (c : RunCommand)
| EventValue (e : RuntimeEvent).

Record KafkaMessage : Type := mk_message {
  km_topic : string;
  km_key : string;
  km_value : kafka_value;
  km_headers : list (string * string);
}.

(** [PartitionKey.for_command] *)
Definition partition_key (c : RunCommand) : string :=
  id_value (application_id (scope (cmd_identity c))) +:+ ":" +:+ id_value (run_id (cmd_identity c)).

Record Transport : Type := mk_transport {
  tr_topics : TopicNames;
  tr_messages : list KafkaMessage;
}.

Definition transport_append (m : KafkaMessage) : Py Transport unit :=
  modify (λ t, mk_transport (tr_topics t) (tr_messages t ++ [m])).

Definition transport_publish (c : RunCommand) : Py Transport unit :=
  let i := cmd_identity c in
  transport_append (mk_message
    (run_topic_for "rt" (id_value (application_id (scope i))) (priority_int (cmd_priority c)))
    (partition_key c) (CommandValue c)
    [("runtime-schema-version", "1"); ("event-id", id_value (cmd_id c));
     ("application-id", id_value (application_id (scope i)));
     ("revision-id", id_value (revision_id (scope i)));
     ("deployment-id", id_value (deployment_id (scope i)));
     ("run-id", id_value (run_id i)); ("content-type", "application/json")]).

(** [KafkaRuntimeEventPublisher.publish] for its topics. *)
Definition publish_event (topics : TopicNames) (e : RuntimeEvent) : Py Transport unit :=
  let i := ev_identity e in
  let type := event_type_str (ev_type e) in
  transport_append (mk_message
    (if starts_with "run." type || starts_with "attempt." type then lifecycle topics
     else execution_events topics)
    (id_value (application_id (scope i)) +:+ ":" +:+
     match thread_id i with Some t => id_value t | None => id_value (run_id i) end)
    (EventValue e)
    [("runtime-schema-version", "1"); ("event-id", id_value (ev_id e));
     ("run-id", id_value (run_id i)); ("content-type", "application/json")]).

(** ** [WeightedFairDispatcher] *)

(** An entry of [_items]: priority, sequence, command, delivery count. *)
Record Entry : Type := mk_entry {
  en_priority : Z;
  en_sequence : Z;
  en_command : RunCommand;
  en_delivery_count : Z;
}.

(** The weights are kept but never read. *)
Record Dispatcher : Type := mk_dispatcher {
  dp_weights : Z * Z * Z;
  dp_age_after : Z;
  dp_items : list Entry;
  dp_sequence : Z;
  dp_cursor : Z;
}.

Definition new_dispatcher (weights : list Z) (age_after : Z) : res Dispatcher :=
  match weights with
  | [a; b; c] =>
      if (a <=? 0) || (b <=? 0) || (c <=? 0)
      then Raise (ValueError "weights must contain three positive values")
      else Ok (mk_dispatcher (a, b, c) age_after [] 0 0)
  | _ => Raise (ValueError "weights must contain three positive values")
  end.

Definition default_dispatcher : Dispatcher := mk_dispatcher (8, 3, 1) (seconds 30) [] 0 0.

Definition dp_add (c : RunCommand) (n : Z) (d : Dispatcher) : Dispatcher :=
  mk_dispatcher (dp_weights d) (dp_age_after d)
    (dp_items d ++ [mk_entry (priority_int (cmd_priority c)) (dp_sequence d) c n])
    (dp_sequence d + 1) (dp_cursor d).

(** [min(items, key=lambda item: item[1])] *)
Definition min_sequence (l : list Entry) : option Entry := max_first (λ x, - en_sequence x) l.

(** [self._items.remove(selected)]; the sequence numbers tell entries apart. *)
Fixpoint remove_entry (x : Entry) (l : list Entry) : list Entry :=
  match l with
  | [] => []
  | y :: l => if en_sequence y =? en_sequence x then l else y :: remove_entry x l
  end.

Definition aged (now : datetime) (d : Dispatcher) : list Entry :=
  List.filter (λ x, dp_age_after d <=? now - cmd_created_at (en_command x)) (dp_items d).

(** [(100, 50, 10)[self._cursor % 3]] *)
Definition cursor_priority (cursor : Z) : Z :=
  match cursor mod 3 with 0 => 100 | 1 => 50 | _ => 10 end.

(** The greatest priority of the items. *)
Definition top_priority (l : list Entry) : Z := foldr (λ x m, Z.max (en_priority x) m) 0 l.

Definition fair_candidates (d : Dispatcher) : list Entry :=
  match List.filter (λ x, en_priority x =? cursor_priority (dp_cursor d)) (dp_items d) with
  | [] => List.filter (λ x, en_priority x =? top_priority (dp_items d)) (dp_items d)
  | l => l
  end.

Definition dp_take (x : Entry) (cursor : Z) (d : Dispatcher) : Dispatcher :=
  mk_dispatcher (dp_weights d) (dp_age_after d) (remove_entry x (dp_items d)) (dp_sequence d) cursor.

(** [choose]: the selected entry, from which the code returns the command and
    the delivery count. *)
Definition choose (now : datetime) (d : Dispatcher) : option Entry * Dispatcher :=
  match dp_items d with
  | [] => (None, d)
  | _ =>
      match min_sequence (aged now d) with
      | Some x => (Some x, dp_take x (dp_cursor d) d)
      | None =>
          match min_sequence (fair_candidates d) with
          | Some x => (Some x, dp_take x (dp_cursor d + 1) d)
          | None => (None, d)
          end
      end
  end.

(** *** What [choose] does *)

Definition dp_ok (d : Dispatcher) : Prop :=
  NoDup (en_sequence <$> dp_items d) ∧ ∀ x, x ∈ dp_items d → en_sequence x < dp_sequence d.

Lemma min_sequence_spec l x :
  min_sequence l = Some x → x ∈ l ∧ ∀ y, y ∈ l → en_sequence x ≤ en_sequence y.
Proof.
  intros H. apply max_first_spec in H as [Hin Hmax]. split; [done|].
  intros y Hy. specialize (Hmax y Hy). lia.
Qed.

Lemma filter_elem p (x : Entry) l : x ∈ List.filter p l ↔ x ∈ l ∧ p x = true.
Proof. rewrite !list_elem_of_In. apply filter_In. Qed.

Lemma remove_entry_perm x l :
  x ∈ l → NoDup (en_sequence <$> l) → Permutation l (x :: remove_entry x l).
Proof.
  induction l as [|y l IH]; simpl; [by intros ?%elem_of_nil|].
  rewrite elem_of_cons, NoDup_cons. intros Hx [Hn Hnd].
  destruct (en_sequence y =? en_sequence x) eqn:He; to_prop.
  - destruct Hx as [->|Hx]; [done|]. exfalso. apply Hn. rewrite He. by apply list_elem_of_fmap_2.
  - destruct Hx as [->|Hx]; [lia|]. rewrite (IH Hx Hnd) at 1. apply Permutation_swap.
Qed.

Lemma top_priority_elem l : l ≠ [] → (∀ x, x ∈ l → 0 ≤ en_priority x) →
  ∃ x, x ∈ l ∧ en_priority x = top_priority l.
Proof.
  induction l as [|y l IH]; [done|]. intros _ Hpos. simpl.
  destruct l as [|z l].
  - exists y. split; [set_solver|]. simpl. specialize (Hpos y ltac:(set_solver)). lia.
  - destruct IH as (x & Hx & Heq); [done|intros; apply Hpos; set_solver|].
    destruct (Z.max_spec (en_priority y) (top_priority (z :: l))) as [[_ ->]|[_ ->]].
    + exists x. split; [set_solver|done].
    + exists y. split; [set_solver|done].
Qed.

Lemma min_sequence_None l : min_sequence l = None ↔ l = [].
Proof. apply max_first_None. Qed.

(** A non-empty dispatcher selects one of its entries and removes exactly it. *)
Lemma choose_spec now d :
  dp_ok d → (∀ x, x ∈ dp_items d → 0 ≤ en_priority x) → dp_items d ≠ [] →
  ∃ x d', choose now d = (Some x, d') ∧ Permutation (dp_items d) (x :: dp_items d') ∧
    dp_sequence d' = dp_sequence d ∧ dp_age_after d' = dp_age_after d ∧
    (aged now d ≠ [] → x ∈ aged now d ∧ ∀ y, y ∈ aged now d → en_sequence x ≤ en_sequence y).
Proof.
  intros [Hnd _] Hpos Hne. unfold choose.
  assert (∀ x c, x ∈ dp_items d → Permutation (dp_items d) (x :: dp_items (dp_take x c d))) as Hrem
    by (intros; by apply remove_entry_perm).
  destruct (dp_items d) as [|i0 items] eqn:Hitems; [done|].
  destruct (min_sequence (aged now d)) as [x|] eqn:Hm.
  - apply min_sequence_spec in Hm as [Hin Hmin]. exists x. eexists. split; [done|].
    split_and!; try done. apply Hrem. unfold aged in Hin. apply filter_elem in Hin as [Hin _].
    by rewrite Hitems in Hin.
  - apply min_sequence_None in Hm. rewrite Hm.
    assert (∃ x, x ∈ fair_candidates d) as [x0 Hx0].
    { unfold fair_candidates. rewrite Hitems.
      destruct (List.filter _ (i0 :: items)) as [|y l]; [|exists y; set_solver].
      destruct (top_priority_elem (i0 :: items)) as (x & Hx & Hp); [done|done|].
      exists x. apply filter_elem. split; [done|]. by apply Z.eqb_eq. }
    destruct (min_sequence (fair_candidates d)) as [x|] eqn:Hf.
    + apply min_sequence_spec in Hf as [Hin _]. exists x. eexists. split; [done|].
      split_and!; try done. apply Hrem. unfold fair_candidates in Hin. rewrite Hitems in Hin.
      destruct (List.filter _ (i0 :: items)) as [|y l] eqn:Hfl.
      * by apply filter_elem in Hin as [? _].
      * rewrite <- Hfl in Hin. by apply filter_elem in Hin as [? _].
    + apply min_sequence_None in Hf. rewrite Hf in Hx0. by apply elem_of_nil in Hx0.
Qed.

(** The operations on a dispatcher over time, and what was selected. *)
Inductive dp_op : Type := OpAdd (c : RunCommand) (n : Z) | OpChoose (now : datetime).
Fixpoint dp_run (ops : list dp_op) (d : Dispatcher) : list Entry * Dispatcher :=
  match ops with
  | [] => ([], d)
  | OpAdd c n :: ops => dp_run ops (dp_add c n d)
  | OpChoose now :: ops =>
      let '(o, d1) := choose now d in
      let '(l, d2) := dp_run ops d1 in
      (match o with Some x => x :: l | None => l end, d2)
  end.
Definition choices (ops : list dp_op) : nat :=
  length (List.filter (λ o, match o with OpChoose _ => true | _ => false end) ops).

(** The entries before [x]. *)
Definition before (x : Entry) (d : Dispatcher) : nat :=
  length (List.filter (λ y, en_sequence y <? en_sequence x) (dp_items d)).

Lemma dp_add_ok c n d : dp_ok d → dp_ok (dp_add c n d).
Proof.
  intros [Hnd Hlt]. split; simpl.
  - rewrite fmap_app. apply NoDup_app. split; [done|]. split; [|apply NoDup_singleton].
    intros s Hs Hbad. apply list_elem_of_fmap in Hs as (y & -> & Hy). specialize (Hlt y Hy).
    apply list_elem_of_singleton in Hbad. simpl in Hbad. lia.
  - intros y Hy. apply elem_of_app in Hy as [Hy|Hy]; [specialize (Hlt y Hy); lia|].
    apply list_elem_of_singleton in Hy as ->. simpl. lia.
Qed.

Lemma filter_length_perm p (l l' : list Entry) :
  Permutation l l' → length (List.filter p l) = length (List.filter p l').
Proof. induction 1; simpl; repeat case_match; simpl; congruence. Qed.

(** C29: no command starves.  Once a command is old enough, it is selected after
    at most as many further choices as entries were added before it, plus one,
    whatever is added meanwhile and whatever the priorities are, as long as the
    clock does not go back. *)
Theorem dispatcher_no_starvation (ops : list dp_op) (d : Dispatcher) (x : Entry) (t : datetime) :
  dp_ok d → (∀ y, y ∈ dp_items d → 0 ≤ en_priority y) →
  x ∈ dp_items d → dp_age_after d ≤ t - cmd_created_at (en_command x) →
  Forall (λ o, match o with OpChoose now => t ≤ now | OpAdd _ _ => True end) ops →
  (before x d < choices ops)%nat → x ∈ (dp_run ops d).1.
Proof.
  revert d. induction ops as [|o ops IH]; intros d Hok Hpos Hx Hage Hops Hn; [unfold choices in Hn; simpl in Hn; lia|].
  apply Forall_cons in Hops as [Ho Hops]. destruct o as [c n|now]; simpl in *.
  - apply IH; try done.
    + by apply dp_add_ok.
    + intros y Hy. apply elem_of_app in Hy as [Hy|Hy]; [by apply Hpos|].
      apply list_elem_of_singleton in Hy as ->. simpl. by destruct (cmd_priority c).
    + simpl. set_solver.
    + unfold before in *. simpl. rewrite List.filter_app, length_app. simpl.
      destruct Hok as [_ Hlt]. specialize (Hlt x Hx).
      rewrite (proj2 (Z.ltb_ge (dp_sequence d) (en_sequence x))) by lia. unfold choices in *. simpl in *. lia.
  - assert (x ∈ aged now d) as Hagd.
    { apply filter_elem. split; [done|]. apply Z.leb_le. lia. }
    destruct (choose_spec now d Hok Hpos) as (y & d' & Hc & Hp & Hs & Ha & Hmin).
    { intros H. rewrite H in Hx. by apply elem_of_nil in Hx. }
    destruct Hmin as [_ Hmin]; [intros H; rewrite H in Hagd; by apply elem_of_nil in Hagd|].
    specialize (Hmin x Hagd). rewrite Hc.
    destruct (dp_run ops d') as [l d2] eqn:Hrun. simpl.
    rewrite Hp, elem_of_cons in Hx. destruct Hx as [->|Hx]; [set_solver|].
    apply elem_of_cons. right. replace l with (dp_run ops d').1 by by rewrite Hrun.
    destruct Hok as [Hnd Hlt]. rewrite Hp in Hnd. apply NoDup_cons in Hnd as [Hny Hnd].
    assert (en_sequence y ≠ en_sequence x) as Hne.
    { intros Heq. apply Hny. rewrite Heq. by apply list_elem_of_fmap_2. }
    apply IH; try done.
    + split; [done|]. intros z Hz. rewrite Hs. apply Hlt. rewrite Hp. set_solver.
    + intros z Hz. apply Hpos. rewrite Hp. set_solver.
    + by rewrite Ha.
    + unfold before in *. rewrite (filter_length_perm _ _ _ Hp) in Hn. simpl in Hn.
      rewrite (proj2 (Z.ltb_lt (en_sequence y) (en_sequence x))) in Hn by lia. simpl in Hn.
      unfold choices in *. simpl in *. lia.
Qed.

Definition example_request_command : RunCommand :=
  let i := mk_identity (mk_scope (mk_id "w") (mk_id "p") (mk_id "a") (mk_id "r") (mk_id "d"))
             (mk_id "agent") (mk_id "run") (mk_id "attempt") (Some (mk_id "t")) in
  mk_command (mk_id "c") i (default_request i) BATCH 0 0.

Lemma dispatcher_no_starvation_witness :
  mk_entry 10 0 example_request_command 0 ∈
    (dp_run [OpAdd example_request_command 0; OpChoose (seconds 40)]
       (dp_add example_request_command 0 default_dispatcher)).1.
Proof.
  refine (dispatcher_no_starvation [OpAdd example_request_command 0; OpChoose (seconds 40)]
    (dp_add example_request_command 0 default_dispatcher) (mk_entry 10 0 example_request_command 0)
    (seconds 40) _ _ _ _ _ _).
  - apply dp_add_ok. split; [apply NoDup_nil_2|]. intros y Hy. by apply elem_of_nil in Hy.
  - intros y Hy. apply list_elem_of_singleton in Hy as ->. simpl. lia.
  - by apply list_elem_of_singleton.
  - by vm_compute.
  - repeat constructor. by vm_compute.
  - vm_compute. lia.
Defined.

(** ** [KafkaRunCommandQueue] *)

Record KafkaQueue : Type := mk_kafka_queue {
  kq_transport : Transport;
  kq_dispatcher : Dispatcher;
  kq_leases : dict RunCommandReceipt;
  kq_lease_seconds : Z;
  kq_dead_letters : list RunCommand;
}.

Definition kq_publish (c : RunCommand) : Py KafkaQueue unit := λ q,
  (Ok tt, mk_kafka_queue (transport_publish c (kq_transport q)).2 (dp_add c 0 (kq_dispatcher q))
            (kq_leases q) (kq_lease_seconds q) (kq_dead_letters q)).

Definition no_command : exn := failure QUEUE_CLOSED "no command is available".
Definition not_active : exn := failure INVALID_EXECUTION_INPUT "receipt is not active".

(** [receive]; the clock, read once more by [choose], is read once here. *)
Definition kq_receive (lease : LeaseId) (now : datetime) : Py KafkaQueue (option RunCommandReceipt) := λ q,
  match choose now (kq_dispatcher q) with
  | (None, _) => (Raise no_command, q)
  | (Some x, d) =>
      let r := mk_receipt (en_command x) lease (en_delivery_count x + 1) now
                 (now + seconds (kq_lease_seconds q)) in
      (Ok (Some r), mk_kafka_queue (kq_transport q) d (dset (kq_leases q) (id_value lease) r)
                      (kq_lease_seconds q) (kq_dead_letters q))
  end.

Definition kq_unlease (r : RunCommandReceipt) (q : KafkaQueue) : KafkaQueue :=
  mk_kafka_queue (kq_transport q) (kq_dispatcher q) (dpop (kq_leases q) (id_value (rcp_lease_id r)))
    (kq_lease_seconds q) (kq_dead_letters q).

Definition kq_acknowledge (r : RunCommandReceipt) : Py KafkaQueue unit := λ q,
  match dget (kq_leases q) (id_value (rcp_lease_id r)) with
  | None => (Raise not_active, q)
  | Some _ => (Ok tt, kq_unlease r q)
  end.

Definition kq_reject (r : RunCommandReceipt) (retryable : bool) : Py KafkaQueue unit := λ q,
  match dget (kq_leases q) (id_value (rcp_lease_id r)) with
  | None => (Raise not_active, q)
  | Some _ =>
      let q := kq_unlease r q in
      if retryable && (rcp_delivery_count r <? 3)
      then (Ok tt, mk_kafka_queue (kq_transport q)
              (dp_add (rcp_command r) (rcp_delivery_count r) (kq_dispatcher q)) (kq_leases q)
              (kq_lease_seconds q) (kq_dead_letters q))
      else (Ok tt, mk_kafka_queue (kq_transport q) (kq_dispatcher q) (kq_leases q)
              (kq_lease_seconds q) (kq_dead_letters q ++ [rcp_command r]))
  end.

#[export] Instance kafka_run_command_queue : RunCommandQueue KafkaQueue := {
  queue_publish := kq_publish;
  queue_receive := kq_receive;
  queue_acknowledge := kq_acknowledge;
  queue_reject := kq_reject;
}.

(** ** The codec of commands *)

Section Codec.
(** [orjson.dumps], [json.loads], [isoformat] and [fromisoformat]. *)
Context (dumps : json → res string) (loads : string → res json)
  (isoformat : datetime → string) (fromisoformat : string → res datetime).

Definition identity_json (i : ExecutionIdentity) : json :=
  JObj [("workspace_id", JStr (id_value (workspace_id (scope i))));
        ("project_id", JStr (id_value (project_id (scope i))));
        ("application_id", JStr (id_value (application_id (scope i))));
        ("revision_id", JStr (id_value (revision_id (scope i))));
        ("deployment_id", JStr (id_value (deployment_id (scope i))));
        ("assistant_id", JStr (id_value (assistant_id i)));
        ("thread_id", match thread_id i with Some t => JStr (id_value t) | None => JNull end);
        ("run_id", JStr (id_value (run_id i)));
        ("attempt_id", JStr (id_value (attempt_id i)))].

Definition request_json (r : ExecutionRequest) : json :=
  JObj [("input", req_input r); ("command", req_command r); ("config", JObj (req_config r));
        ("context", JObj (req_context r)); ("metadata", JObj (req_metadata r));
        ("stream_modes", JList (JStr <$> req_stream_modes r));
        ("stream_subgraphs", JBool (req_stream_subgraphs r));
        ("priority", JInt (priority_int (req_priority r)));
        ("timeout_seconds", JInt (req_timeout_seconds r))].

Definition command_json (c : RunCommand) : json :=
  JObj [("command_id", JStr (id_value (cmd_id c))); ("identity", identity_json (cmd_identity c));
        ("request", request_json (cmd_request c));
        ("priority", JInt (priority_int (cmd_priority c)));
        ("created_at", JStr (isoformat (cmd_created_at c)))].

(** [_json_command] *)
Definition json_command (c : RunCommand) : res string := dumps (command_json c).

Notation "x <-- c ;; k" := (result_bind c (λ x, k)) (at level 100, c at next level, right associativity).

(** [XId.parse(raw[k])] *)
Definition parse_field {k} (raw : json) (name : string) : res (TypedId k) :=
  v <-- jindex raw name;; s <-- jstr v;; parse_id s.

Definition identity_of (raw : json) : res ExecutionIdentity :=
  w <-- parse_field raw "workspace_id";; p <-- parse_field raw "project_id";;
  a <-- parse_field raw "application_id";; r <-- parse_field raw "revision_id";;
  d <-- parse_field raw "deployment_id";; asst <-- parse_field raw "assistant_id";;
  run <-- parse_field raw "run_id";; att <-- parse_field raw "attempt_id";;
  t <-- jindex raw "thread_id";;
  th <-- (if truthy t then s <-- jstr t;; result_map Some (parse_id s) else Ok None);;
  Ok (mk_identity (mk_scope w p a r d) asst run att th).

Definition request_of (i : ExecutionIdentity) (raw : json) : res ExecutionRequest :=
  input <-- jget raw "input" JNull;; command <-- jget raw "command" JNull;;
  config <-- jget raw "config" (JObj []);; config <-- jobject config;;
  context <-- jget raw "context" (JObj []);; context <-- jobject context;;
  metadata <-- jget raw "metadata" (JObj []);; metadata <-- jobject metadata;;
  modes <-- jget raw "stream_modes" (JList [JStr "values"]);; modes <-- jstring_list modes;;
  sub <-- jget raw "stream_subgraphs" (JBool false);;
  prio <-- jget raw "priority" (JInt 100);; prio <-- jint prio;; prio <-- priority_of prio;;
  timeout <-- jget raw "timeout_seconds" (JInt 1800);; timeout <-- jint timeout;;
  Ok (mk_request i input command config context metadata modes (truthy sub) prio timeout).

(** [_command], for the time it reads. *)
Definition command_of (payload : string) (now : datetime) : res RunCommand :=
  value <-- loads payload;;
  raw <-- jindex value "identity";; i <-- identity_of raw;;
  raw <-- jindex value "request";; request <-- request_of i raw;;
  cid <-- parse_field value "command_id";;
  prio <-- jindex value "priority";; prio <-- jint prio;; prio <-- priority_of prio;;
  created <-- jindex value "created_at";; created <-- jstr created;;
  created <-- fromisoformat created;;
  Ok (mk_command cid i request prio now created).

(** The identifiers of an identity are not empty. *)
Definition identity_ok (i : ExecutionIdentity) : Prop :=
  id_value (workspace_id (scope i)) ≠ "" ∧ id_value (project_id (scope i)) ≠ "" ∧
  id_value (application_id (scope i)) ≠ "" ∧ id_value (revision_id (scope i)) ≠ "" ∧
  id_value (deployment_id (scope i)) ≠ "" ∧ id_value (assistant_id i) ≠ "" ∧
  id_value (run_id i) ≠ "" ∧ id_value (attempt_id i) ≠ "" ∧
  match thread_id i with Some t => id_value t ≠ "" | None => True end.

Lemma identity_roundtrip i : identity_ok i → identity_of (identity_json i) = Ok i.
Proof.
  intros (Hw & Hp & Ha & Hr & Hd & Has & Hru & Hat & Ht).
  unfold identity_of, parse_field, identity_json. cbn -[parse_id truthy]. literal_keys.
  cbn -[parse_id truthy]. rewrite !parse_id_value by done. cbn -[parse_id truthy].
  destruct i as [[w p a r d] asst run att [t|]]; simpl in *; [|done].
  rewrite (proj2 (str_truthy_true _)) by done. simpl. by rewrite parse_id_value.
Qed.

Lemma request_roundtrip r i : request_of i (request_json r) =
  Ok (mk_request i (req_input r) (req_command r) (req_config r) (req_context r) (req_metadata r)
        (req_stream_modes r) (req_stream_subgraphs r) (req_priority r) (req_timeout_seconds r)).
Proof.
  unfold request_of, request_json. cbn -[priority_of jstrings]. literal_keys.
  cbn -[priority_of jstrings]. rewrite jstrings_map. cbn -[priority_of]. by rewrite priority_of_int.
Qed.

(** C27: what survives of a command on the wire.  If the JSON codec reads back the text it
    wrote for this command and the time of its creation is read back from its text, decoding
    what was encoded gives a command with the same identifier, identity, request, priority and
    time of creation.  The time at which it becomes available does not survive: it is not
    encoded, and decoding sets it to its own time. *)
Theorem command_roundtrip (c : RunCommand) (payload : string) (now : datetime) :
  json_command c = Ok payload → loads payload = Ok (command_json c) →
  fromisoformat (isoformat (cmd_created_at c)) = Ok (cmd_created_at c) →
  identity_ok (cmd_identity c) → id_value (cmd_id c) ≠ "" →
  req_identity (cmd_request c) = cmd_identity c →
  command_of payload now =
    Ok (mk_command (cmd_id c) (cmd_identity c) (cmd_request c) (cmd_priority c) now (cmd_created_at c)).
Proof.
  intros _ Hl Ht Hi Hid Hreq. unfold command_of. rewrite Hl. unfold command_json.
  cbn -[identity_of identity_json request_of request_json parse_id priority_of]. literal_keys.
  cbn -[identity_of identity_json request_of request_json parse_id priority_of].
  rewrite identity_roundtrip by done. cbn -[request_of request_json parse_id priority_of].
  rewrite request_roundtrip. cbn -[parse_id priority_of]. unfold parse_field. cbn -[parse_id priority_of].
  literal_keys. cbn -[parse_id priority_of]. rewrite parse_id_value by done. cbn -[priority_of]. rewrite priority_of_int. cbn. rewrite Ht. cbn.
  rewrite <- Hreq. by destruct c as [? ? [] ? ? ?].
Qed.

(** ** [AioKafkaRunCommandQueue] *)

(** A message of the consumer; a header value that is not UTF-8 is [None]. *)
Record Incoming : Type := mk_incoming {
  in_topic : string;
  in_partition : Z;
  in_offset : Z;
  in_value : string;
  in_headers : list (string * option string);
}.
(** What the queue has the broker do. *)
Inductive broker_call : Type :=
| Send (topic value key : string) (headers : list (string * string))
| Commit (topic : string) (partition offset : Z).

(** How the client's calls of one operation end; [stop] does not raise. *)
Record Client : Type := mk_client {
  cl_start_producer : res unit;
  cl_start_consumer : res unit;
  cl_send : res unit;
  cl_commit : res unit;
}.
Definition client_ok : Client := mk_client (Ok tt) (Ok tt) (Ok tt) (Ok tt).

(** [aq_producer] and [aq_consumer] tell whether the attribute is set;
    [aq_calls] is what the broker has accepted. *)
Record AioQueue : Type := mk_aio_queue {
  aq_prefix : string;
  aq_application_id : string;
  aq_producer : bool;
  aq_consumer : bool;
  aq_leases : dict Incoming;
  aq_lease_seconds : Z;
  aq_calls : list broker_call;
}.
Definition new_aio_queue (prefix application_id : string) : AioQueue :=
  mk_aio_queue prefix application_id false false [] 60 [].
Definition MAX_RETRIES : Z := 3.

Definition aq_set (producer consumer : bool) (leases : dict Incoming) (calls : list broker_call) (q : AioQueue) :=
  mk_aio_queue (aq_prefix q) (aq_application_id q) producer consumer leases (aq_lease_seconds q) calls.

(** [_ensure_producer] sets the attribute before it starts the producer. *)
Definition ensure_producer (cl : Client) : Py AioQueue unit :=
  q <- get_state;;
  if aq_producer q then ret tt
  else modify (aq_set true (aq_consumer q) (aq_leases q) (aq_calls q));;;
       of_result (cl_start_producer cl).
(** [_ensure_consumer] sets it when the consumer has started. *)
Definition ensure_consumer (cl : Client) : Py AioQueue unit :=
  ensure_producer cl;;;
  q <- get_state;;
  if aq_consumer q then ret tt
  else of_result (cl_start_consumer cl);;;
       modify (aq_set (aq_producer q) true (aq_leases q) (aq_calls q)).
(** The topics the consumer reads. *)
Definition consumer_topics (q : AioQueue) : list string :=
  [run_topic_for (aq_prefix q) (aq_application_id q) (priority_int INTERACTIVE);
   run_topic_for (aq_prefix q) (aq_application_id q) (priority_int BATCH)].

(** A call that the broker accepts is recorded. *)
Definition broker (outcome : res unit) (call : broker_call) : Py AioQueue unit :=
  of_result outcome;;;
  modify (λ q, aq_set (aq_producer q) (aq_consumer q) (aq_leases q) (aq_calls q ++ [call]) q).

Definition aq_send (cl : Client) (topic : string) (c : RunCommand) (retry : list (string * string))
  : Py AioQueue unit :=
  payload <- of_result (json_command c);;
  broker (cl_send cl) (Send topic payload (partition_key c)
    ([("runtime-schema-version", "1"); ("run-id", id_value (run_id (cmd_identity c)))] ++ retry)).

Definition aq_publish (cl : Client) (c : RunCommand) : Py AioQueue unit :=
  ensure_producer cl;;;
  q <- get_state;;
  aq_send cl (run_topic_for (aq_prefix q) (id_value (application_id (scope (cmd_identity c))))
             (priority_int (cmd_priority c))) c [].

(** The delivery count from the headers: the last readable one counts. *)
Definition delivery_count (headers : list (string * option string)) : Z :=
  foldl (λ n h, if decide (h.1 = "retry-count")
                then match h.2 with
                     | Some v => match py_int v with Ok k => k + 1 | Raise _ => n end
                     | None => n
                     end
                else n) 1 headers.

(** [receive] for the message [getone] returns; the clock is read once. *)
Definition aq_receive (cl : Client) (m : Incoming) (lease : LeaseId) (now : datetime)
  : Py AioQueue RunCommandReceipt :=
  ensure_consumer cl;;;
  c <- of_result (command_of (in_value m) now);;
  q <- get_state;;
  modify (λ q, aq_set (aq_producer q) (aq_consumer q) (dset (aq_leases q) (id_value lease) m) (aq_calls q) q);;;
  ret (mk_receipt c lease (delivery_count (in_headers m)) now (now + seconds (aq_lease_seconds q))).

(** The first half of [acknowledge] and of [reject]. *)
Definition aq_settle (cl : Client) (r : RunCommandReceipt) : Py AioQueue Incoming :=
  q <- get_state;;
  modify (aq_set (aq_producer q) (aq_consumer q) (dpop (aq_leases q) (id_value (rcp_lease_id r))) (aq_calls q));;;
  match dget (aq_leases q) (id_value (rcp_lease_id r)) with
  | Some m =>
      if aq_consumer q
      then broker (cl_commit cl) (Commit (in_topic m) (in_partition m) (in_offset m + 1));;; ret m
      else raise not_active
  | None => raise not_active
  end.
Definition aq_acknowledge (cl : Client) (r : RunCommandReceipt) : Py AioQueue unit := aq_settle cl r;;; ret tt.

Definition aq_reject (cl : Client) (r : RunCommandReceipt) (retryable : bool) : Py AioQueue unit :=
  m <- aq_settle cl r;;
  if negb retryable || (MAX_RETRIES <=? rcp_delivery_count r) then ret tt
  else
    q <- get_state;;
    if aq_producer q
    then aq_send cl (in_topic m) (rcp_command r) [("retry-count", pretty (rcp_delivery_count r))]
    else raise AssertionError.

Definition aq_close : Py AioQueue unit :=
  modify (λ q, aq_set false false (aq_leases q) (aq_calls q) q).

(** A producer whose start fails stays in place: the next publication sends
    through it without starting it. *)
Lemma failed_start_not_repeated e c prefix app payload :
  json_command c = Ok payload →
  let q1 := (aq_publish (mk_client (Raise e) (Ok tt) (Ok tt) (Ok tt)) c (new_aio_queue prefix app)).2 in
  aq_producer q1 = true ∧ aq_calls q1 = [] ∧
  length (aq_calls (aq_publish (mk_client (Raise e) (Ok tt) (Ok tt) (Ok tt)) c q1).2) = 1%nat.
Proof.
  intros Hj q1. split_and!; [done..|]. unfold q1, aq_publish, aq_send. unfold ensure_producer, bind. cbn.
  by rewrite Hj.
Qed.

(** Rejecting on Kafka.  When the broker accepts the calls, a leased receipt
    is committed first; a retryable one delivered fewer than three times is then
    sent again with its count, which the next [receive] reads back one higher,
    and otherwise nothing more is sent: after the third delivery (or at once,
    when it is not retryable) the command is gone from the broker, without a
    dead letter.  When the broker refuses the second call, the command is gone
    although it was to be retried: the commit is not taken back. *)
Lemma kafka_reject_spec (q : AioQueue) (r : RunCommandReceipt) (m : Incoming) (retryable : bool)
  (payload : string) (sent : res unit) :
  dict_wf (aq_leases q) → dget (aq_leases q) (id_value (rcp_lease_id r)) = Some m →
  aq_consumer q = true → aq_producer q = true → json_command (rcp_command r) = Ok payload → 1 ≤ rcp_delivery_count r →
  let commit := Commit (in_topic m) (in_partition m) (in_offset m + 1) in
  let result := aq_reject (mk_client (Ok tt) (Ok tt) sent (Ok tt)) r retryable q in
  dget (aq_leases result.2) (id_value (rcp_lease_id r)) = None ∧
  (retryable = true → rcp_delivery_count r < 3 →
   match sent with
   | Ok _ => ∃ headers, result.1 = Ok tt ∧
       aq_calls result.2 = aq_calls q ++
         [commit; Send (in_topic m) payload (partition_key (rcp_command r)) headers] ∧
       delivery_count (prod_map id Some <$> headers) = rcp_delivery_count r + 1
   | Raise e => result.1 = Raise e ∧ aq_calls result.2 = aq_calls q ++ [commit]
   end) ∧
  (retryable = false ∨ 3 ≤ rcp_delivery_count r →
   result.1 = Ok tt ∧ aq_calls result.2 = aq_calls q ++ [commit]).
Proof.
  intros Hwf Hm Hc Hp Hj Hpos commit result.
  assert (dget (dpop (aq_leases q) (id_value (rcp_lease_id r))) (id_value (rcp_lease_id r)) = None) as Hgone
    by (rewrite dget_dpop by done; by rewrite decide_True).
  subst commit result. unfold aq_reject, aq_settle, bind, get_state. cbn.
  rewrite Hm, Hc. cbn.
  destruct (negb retryable || (MAX_RETRIES <=? rcp_delivery_count r)) eqn:Hend.
  - split; [exact Hgone|]. split; [|done]. intros -> Hlt. unfold MAX_RETRIES in Hend.
    simpl in Hend. to_prop. lia.
  - apply orb_false_iff in Hend as [Hr Hd]. apply negb_false_iff in Hr. to_prop. unfold MAX_RETRIES in Hd.
    cbn. rewrite Hp. unfold aq_send, bind. rewrite Hj. cbn.
    destruct sent as [[]|e]; cbn; (split; [exact Hgone|]; split; [|intros [?|?]; [congruence|lia]]); [|done].
    intros _ _. eexists. split; [done|]. split; [by rewrite <- app_assoc|].
    assert (rcp_delivery_count r = 1 ∨ rcp_delivery_count r = 2) as [-> | ->] by lia; by vm_compute.
Qed.
End Codec.

Lemma command_roundtrip_witness :
  command_of (λ _, Ok (command_json (λ _, "then") example_request_command)) (λ _, Ok 0) "{}" 7 =
    Ok (mk_command (mk_id "c") (cmd_identity example_request_command) (cmd_request example_request_command)
          BATCH 7 0).
Proof.
  refine (command_roundtrip (λ _, Ok "{}") (λ _, Ok (command_json (λ _, "then") example_request_command))
    (λ _, "then") (λ _, Ok 0) example_request_command "{}" 7 eq_refl eq_refl eq_refl _ _ eq_refl);
    [|discriminate].
  unfold identity_ok. simpl. by split_and!.
Defined.

Lemma kafka_reject_spec_witness :
  let m := mk_incoming "topic" 0 5 "{}" [] in
  let q := mk_aio_queue "rt" "a" true true [("lease", m)] 60 [] in
  let result := aq_reject (λ _, Ok "{}") (λ _, "then") client_ok
      (mk_receipt example_request_command (mk_id "lease") 3 0 60) true q in
  result.1 = Ok tt ∧ aq_calls result.2 = [Commit "topic" 0 6].
Proof.
  intros m q.
  destruct (kafka_reject_spec (λ _, Ok "{}") (λ _, "then") q
    (mk_receipt example_request_command (mk_id "lease") 3 0 60) m true "{}" (Ok tt)
    ltac:(apply NoDup_singleton) eq_refl eq_refl eq_refl eq_refl ltac:(simpl; lia)) as (_ & _ & Hend).
  apply Hend. right. simpl. lia.
Defined.
