(* ===== verification/Grpc.v ===== *)
(** * gRPC adapter

    [adapters/grpc]: protobuf values ([payloads]) and the servicers of a worker
    ([worker]).  The messages are generated from the protocol files; a protobuf
    [Value] is the tagged union it is, and its numbers are binary64. *)

From S2P Require Import Prelude PyDict PyStr Json Errors JsonAccess Identity Execution Service Capacity.
From Stdlib Require Import SpecFloat.

(** ** [payloads.py] *)

(** [google.protobuf.Value]; [NoKind] is a value with no member set. *)
Inductive Value : Type :=
| NoKind
| NullValue
| NumberValue (f : spec_float)
| StringValue (s : string)
| BoolValue (b : bool)
| StructValue (fields : list (string * Value))
| ListValue (values : list Value).

(** [value_to_python] *)
Fixpoint value_to_python (v : Value) : json :=
  match v with
  | NoKind | NullValue => JNull
  | NumberValue f => JFloat f
  | StringValue s => JStr s
  | BoolValue b => JBool b
  | StructValue fields => JObj (prod_map id value_to_python <$> fields)
  | ListValue values => JList (value_to_python <$> values)
  end.

(** [float(n)]: the nearest binary64, ties to even; an integer too large for one raises. *)
Definition OverflowError : exn := OtherError "int too large to convert to float".
Definition nearest_float (n : Z) : spec_float := binary_normalize 53 1024 n 0 false.
Definition float_of_int (n : Z) : res spec_float :=
  match nearest_float n with S754_infinity _ => Raise OverflowError | f => Ok f end.

(** [python_to_value] of a JSON value. *)
Fixpoint python_to_value (v : json) : res Value :=
  match v with
  | JNull => Ok NullValue
  | JBool b => Ok (BoolValue b)
  | JInt n => result_map NumberValue (float_of_int n)
  | JFloat f => Ok (NumberValue f)
  | JStr s => Ok (StringValue s)
  | JObj o => result_map StructValue (result_mapM (λ kv, result_map (pair kv.1) (python_to_value kv.2)) o)
  | JList l => result_map ListValue (result_mapM python_to_value l)
  end.
(** The fields of a [Struct]. *)
Definition struct_fields (o : json_object) : res (list (string * Value)) :=
  result_mapM (λ kv, result_map (pair kv.1) (python_to_value kv.2)) o.

(** *** Exactness of the conversion of integers *)

Lemma digits2_pos_bound p : 2 ^ (Zpos (digits2_pos p) - 1) ≤ Zpos p < 2 ^ Zpos (digits2_pos p).
Proof.
  induction p as [p IH|p IH|]; cbn [digits2_pos]; [| |done];
    rewrite Pos2Z.inj_succ; replace (Z.succ (Z.pos (digits2_pos p)) - 1) with (Z.pos (digits2_pos p)) by lia;
    rewrite Z.pow_succ_r by lia;
    replace (2 ^ Z.pos (digits2_pos p)) with (2 * 2 ^ (Z.pos (digits2_pos p) - 1)) in *
      by (rewrite <- Z.pow_succ_r by lia; f_equal; lia); lia.
Qed.

Lemma digits2_pos_le p n : 0 ≤ n → Zpos p < 2 ^ n → Zpos (digits2_pos p) ≤ n.
Proof.
  intros Hn Hp. destruct (digits2_pos_bound p) as [Hl _].
  apply Z.lt_pred_le. apply (Z.pow_lt_mono_r_iff 2); [lia|lia|].
  replace (Z.pred (Z.pos (digits2_pos p))) with (Z.pos (digits2_pos p) - 1) by lia. lia.
Qed.

Lemma iter_xO p k :
  Zpos (Pos.iter xO p k) = Zpos p * 2 ^ Zpos k ∧
  Zpos (digits2_pos (Pos.iter xO p k)) = Zpos (digits2_pos p) + Zpos k.
Proof.
  induction k as [|k [IH1 IH2]] using Pos.peano_ind.
  - change (Pos.iter xO p 1) with (xO p). cbn [digits2_pos].
    rewrite Pos2Z.inj_xO, Pos2Z.inj_succ. change (2 ^ 1) with 2. lia.
  - rewrite Pos.iter_succ. cbn [digits2_pos]. rewrite Pos2Z.inj_succ, Pos2Z.inj_xO, Pos2Z.inj_succ, IH1, IH2.
    rewrite Z.pow_succ_r by lia. lia.
Qed.

(** A mantissa of 53 bits is not rounded. *)
Lemma round_full s m e d :
  Zpos (digits2_pos m) + e = d → fexp 53 1024 d = e → e ≤ 0 →
  binary_round_aux 53 1024 s (Zpos m) e loc_Exact = S754_finite s m e.
Proof.
  intros Hd He Hle. unfold binary_round_aux.
  assert (shr_fexp 53 1024 (Zpos m) e loc_Exact = (Build_shr_record (Zpos m) false false, e)) as Hs.
  { unfold shr_fexp. cbn [Zdigits2 shr_record_of_loc]. rewrite Hd, He, Z.sub_diag. done. }
  rewrite Hs. cbn [shr_m loc_of_shr_record round_nearest_even]. rewrite Hs. cbn [shr_m].
  rewrite (proj2 (Z.leb_le _ _)) by lia. done.
Qed.

(** Integers of at most 53 bits are floats. *)
Lemma binary_round_exact s p :
  Zpos (digits2_pos p) ≤ 53 →
  ∃ m e, binary_round 53 1024 s p 0 = S754_finite s m e ∧ e ≤ 0 ∧ Zpos m = Zpos p * 2 ^ (- e).
Proof.
  intros Hd. unfold binary_round.
  assert (fexp 53 1024 (Zpos (digits2_pos p) + 0) = Zpos (digits2_pos p) - 53) as Hf
    by (unfold fexp, emin; lia).
  rewrite Hf. unfold shl_align.
  destruct (Z.pos (digits2_pos p) - 53 - 0) as [|k|k] eqn:Hk; [| lia|].
  - exists p, 0. split; [|lia]. apply (round_full _ _ _ (Zpos (digits2_pos p))); [lia| |lia].
    unfold fexp, emin. lia.
  - destruct (iter_xO p k) as [Hm Hdig].
    exists (Pos.iter xO p k), (Zpos (digits2_pos p) - 53). split; [|split; [lia|]].
    + apply (round_full _ _ _ (Zpos (digits2_pos p))); [lia| |lia]. unfold fexp, emin. lia.
    + rewrite Hm. f_equal. f_equal. lia.
Qed.

Lemma float_of_int_exact n : Z.abs n < 2 ^ 53 → ∃ f, float_of_int n = Ok f ∧ float_eq_int f n = true.
Proof.
  intros Hn. unfold float_of_int, nearest_float, binary_normalize. destruct n as [|p|p]; [by eexists| |].
  - destruct (binary_round_exact false p) as (m & e & Hr & He & Hm); [by apply digits2_pos_le|].
    rewrite Hr. eexists. split; [done|]. unfold float_eq_int. destruct (Z.leb_spec 0 e); apply Z.eqb_eq; [|lia].
    assert (e = 0) as -> by lia. simpl in Hm. lia.
  - destruct (binary_round_exact true p) as (m & e & Hr & He & Hm); [by apply digits2_pos_le|].
    rewrite Hr. eexists. split; [done|]. unfold float_eq_int. destruct (Z.leb_spec 0 e); apply Z.eqb_eq;
      rewrite <- (Pos2Z.opp_pos m), <- (Pos2Z.opp_pos p); [|lia].
    assert (e = 0) as -> by lia. simpl in Hm. lia.
Qed.

(** *** What survives the conversion *)

(** Integers of at most 53 bits and floats other than NaN. *)
Fixpoint portable (v : json) : bool :=
  match v with
  | JInt n => Z.abs n <? 2 ^ 53
  | JFloat S754_nan => false
  | JList l => forallb portable l
  | JObj o => forallb (λ kv, portable kv.2) o
  | _ => true
  end.

Lemma SFeqb_refl f : f ≠ S754_nan → SFeqb f f = true.
Proof.
  intros Hf. unfold SFeqb. destruct f as [[]|[]| |[] m e]; try done; simpl; rewrite Z.compare_refl;
    change (Pos.compare_cont Eq m m) with (Pos.compare m m); by rewrite Pos.compare_refl.
Qed.

(** Objects with the same keys and equal values are equal. *)
Lemma fields_equal (fs : list (string * Value)) (o : json_object) :
  dict_wf o → fs.*1 = o.*1 → Forall2 (λ f kv, py_eq (value_to_python f.2) kv.2 = true) fs o →
  py_eq (value_to_python (StructValue fs)) (JObj o) = true.
Proof.
  intros Hwf Hkeys Hvals. simpl. rewrite length_fmap, (Forall2_length _ _ _ Hvals), Nat.eqb_refl. simpl.
  assert (∀ k v, (k, v) ∈ o → dget o k = Some v) as Hget by (intros k v Hin; by apply dget_elem).
  clear Hwf. revert Hget. generalize o at 2 3 as o'. intros o' Hget.
  induction Hvals as [|[k w] [k' v] fs o Hv Hvs IH]; simpl in *; [done|]. injection Hkeys as -> Hkeys.
  rewrite (Hget k' v) by set_solver. rewrite Hv. simpl. apply IH; [done|].
  intros k2 v2 Hin. apply Hget. set_solver.
Qed.

(** C28: values across gRPC.  A JSON value can be sent as a protobuf value, and read back
    it equals itself, in Python's sense, nested lists and objects included, provided
    its integers have at most 53 bits and it holds no NaN: integers come back as
    floats of the same value. *)
Theorem payload_roundtrip (v : json) :
  json_wf v → portable v = true → ∃ w, python_to_value v = Ok w ∧ py_eq (value_to_python w) v = true.
Proof.
  induction v as [|b|n|f|s|l IH|o IH] using json_ind'; intros Hwf Hp; simpl in *; try by eexists.
  - eexists. split; [done|]. by apply Bool.eqb_true_iff.
  - destruct (float_of_int_exact n) as (f & Hf & Heq); [to_prop; lia|]. rewrite Hf. by eexists.
  - eexists. split; [done|]. apply SFeqb_refl. by intros ->.
  - eexists. split; [done|]. by apply bool_decide_eq_true.
  - inv Hwf. enough (∃ ws, result_mapM python_to_value l = Ok ws ∧
      py_eq (JList (value_to_python <$> ws)) (JList l) = true) as (ws & -> & Hws) by (by eexists).
    induction l as [|x l IHl]; simpl in *; [by exists []|].
    apply Forall_cons in IH as [Hx IH], H0 as [Hwx Hwl]. to_prop.
    destruct Hx as (w & -> & Hw); [done..|]. destruct IHl as (ws & Hm & Hws); [done..|]. exists (w :: ws). simpl.
    rewrite Hm. split; [done|]. by rewrite Hw.
  - inv Hwf. enough (∃ fs, struct_fields o = Ok fs ∧ fs.*1 = o.*1 ∧
      Forall2 (λ f kv, py_eq (value_to_python f.2) kv.2 = true) fs o) as (fs & Hfs & Hkeys & Hvals).
    { unfold struct_fields in Hfs. rewrite Hfs. eexists. split; [done|]. by apply fields_equal. }
    clear H0. induction o as [|[k v] o IHo]; simpl in *; [by exists []|].
    apply Forall_cons in IH as [Hv IH], H1 as [Hwv Hwo]. to_prop. simpl in *.
    destruct Hv as (w & -> & Hw); [done..|]. destruct IHo as (fs & Hm & Hk & Hvs); [done..|]. exists ((k, w) :: fs). simpl.
    rewrite Hm. split; [done|]. split; [by f_equal|by constructor].
Qed.

Lemma payload_roundtrip_witness :
  ∃ w, python_to_value (JObj [("n", JInt 9007199254740991); ("l", JList [JNull])]) = Ok w ∧
    py_eq (value_to_python w) (JObj [("n", JInt 9007199254740991); ("l", JList [JNull])]) = true.
Proof.
  apply payload_roundtrip; [|reflexivity]. constructor; [apply (bool_decide_unpack _); by vm_compute|].
  repeat constructor.
Defined.

(** One bit more is rounded; much more cannot be sent. *)
Lemma large_integer_rounded :
  python_to_value (JInt 9007199254740993) = python_to_value (JInt 9007199254740992) ∧
  python_to_value (JList [JInt (2 ^ 1024)]) = Raise OverflowError ∧
  is_ok (python_to_value (JInt (2 ^ 1024 - 2 ^ 971))) = true.
Proof. by vm_compute. Qed.

(** ** Messages *)

Record ProtoIdentity : Type := mk_proto_identity {
  pi_workspace_id : string;
  pi_project_id : string;
  pi_application_id : string;
  pi_revision_id : string;
  pi_deployment_id : string;
  pi_assistant_id : string;
  pi_thread_id : string;
  pi_run_id : string;
  pi_attempt_id : string;
}.

Record InvokeRequest : Type := mk_invoke_request {
  ir_identity : ProtoIdentity;
  ir_input : Value;
  ir_command : Value;
  ir_config : list (string * Value);
  ir_context : list (string * Value);
  ir_metadata : list (string * Value);
  ir_stream_modes : list string;
  ir_stream_subgraphs : bool;
}.

Record ProtoEvent : Type := mk_proto_event {
  pe_type : string;
  pe_sequence : Z;
  pe_namespace : list string;
  pe_identity : ProtoIdentity;
  pe_timestamp : datetime;
  pe_data : Value;
  pe_native : list (string * Value);
}.

(** [_identity_to_proto] of the worker service; a missing thread is empty text. *)
Definition identity_to_proto (i : ExecutionIdentity) : ProtoIdentity :=
  mk_proto_identity (id_value (workspace_id (scope i))) (id_value (project_id (scope i)))
    (id_value (application_id (scope i))) (id_value (revision_id (scope i)))
    (id_value (deployment_id (scope i))) (id_value (assistant_id i))
    (match thread_id i with Some t => id_value t | None => "" end)
    (id_value (run_id i)) (id_value (attempt_id i)).

Notation "x <-- c ;; k" := (result_bind c (λ x, k)) (at level 100, c at next level, right associativity).

Definition identity_of_proto (raw : ProtoIdentity) : res ExecutionIdentity :=
  w <-- parse_id (pi_workspace_id raw);; p <-- parse_id (pi_project_id raw);;
  a <-- parse_id (pi_application_id raw);; r <-- parse_id (pi_revision_id raw);;
  d <-- parse_id (pi_deployment_id raw);; asst <-- parse_id (pi_assistant_id raw);;
  run <-- parse_id (pi_run_id raw);; att <-- parse_id (pi_attempt_id raw);;
  th <-- (if str_truthy (pi_thread_id raw) then result_map Some (parse_id (pi_thread_id raw)) else Ok None);;
  Ok (mk_identity (mk_scope w p a r d) asst run att th).

Definition fields_to_python (fields : list (string * Value)) : json_object :=
  prod_map id value_to_python <$> fields.

(** [_request_from_proto]; the priority and the timeout are the defaults. *)
Definition request_from_proto (r : InvokeRequest) : res ExecutionRequest :=
  i <-- identity_of_proto (ir_identity r);;
  Ok (mk_request i (value_to_python (ir_input r)) (value_to_python (ir_command r))
        (fields_to_python (ir_config r)) (fields_to_python (ir_context r))
        (fields_to_python (ir_metadata r))
        (match ir_stream_modes r with [] => ["values"] | modes => modes end)
        (ir_stream_subgraphs r) INTERACTIVE 1800).

(** An identity survives its message. *)
Lemma identity_proto_roundtrip (i : ExecutionIdentity) :
  Forall (λ s, s ≠ "") [id_value (workspace_id (scope i)); id_value (project_id (scope i));
    id_value (application_id (scope i)); id_value (revision_id (scope i));
    id_value (deployment_id (scope i)); id_value (assistant_id i); id_value (run_id i);
    id_value (attempt_id i)] →
  thread_id i ≠ Some (mk_id "") →
  identity_of_proto (identity_to_proto i) = Ok i.
Proof.
  intros H Ht. repeat apply Forall_cons in H as [? H].
  unfold identity_of_proto, identity_to_proto. simpl. rewrite !parse_id_ok by done. simpl.
  destruct i as [[w p a r d] asst run att [[t]|]]; simpl in *.
  - rewrite (proj2 (str_truthy_true t)) by congruence. rewrite parse_id_ok by congruence. simpl.
    by destruct w, p, a, r, d, asst, run, att.
  - by destruct w, p, a, r, d, asst, run, att.
Qed.

(** ** [WorkerControlServicer] *)

Record RegisterWorkerResponse : Type := mk_register_response {
  rr_accepted : bool;
  rr_reason : string;
  rr_heartbeat_interval_seconds : Z;
  rr_resolved_execution_defaults : list (string * Value);
}.

Definition Register (r : WorkerRegistration) : Py BoundedWorker RegisterWorkerResponse :=
  try_except
    (g <- register r;;
     ret (mk_register_response true "" 15 [("config_hash", StringValue (wr_config_hash g))]))
    (λ e, match e with
          | ValueError m => ret (mk_register_response false m 0 [])
          | e => raise e
          end).

(** What a worker sends: a heartbeat with its identifier, or anything else. *)
Inductive WorkerMessage : Type := Heartbeat (worker_id : string) | OtherMessage.

(** [Work]: one answer to each heartbeat; it ends at the first that raises. *)
Definition Work (messages : list WorkerMessage) (w : BoundedWorker) : list (res (list (string * Value))) :=
  messages ≫= λ m,
    match m with
    | Heartbeat id => [struct_fields [("worker_id", JStr id); ("available_slots", JInt (available_slots w))]]
    | OtherMessage => []
    end.

(** [Migrate] for the outcome of the handler, if there is one: success and error. *)
Definition Migrate (migrate_app : option (res unit)) : res (bool * string) :=
  match migrate_app with
  | None => Ok (false, "migration handler not configured")
  | Some (Ok _) => Ok (true, "")
  | Some (Raise e) => if is_exception e then Ok (false, exn_str e) else Raise e
  end.

(** [Drain] up to the waiting of [drain], and the seconds it may wait. *)
Definition Drain (worker_id : string) (timeout_seconds : Z) : Py BoundedWorker Z :=
  w <- get_state;;
  match wk_registration w with
  | Some g =>
      if decide (worker_id = wr_worker_id g)
      then modify drain_start;;; ret (if timeout_seconds =? 0 then 30 else timeout_seconds)
      else raise (ValueError "unknown worker")
  | None => raise (ValueError "unknown worker")
  end.

(** ** [ExecutionServicer] *)

Section ExecutionServicer.
Context {A : Type}
  (adapter_invoke : A → ExecutionRequest → res json)
  (adapter_stream : A → ExecutionRequest → list RuntimeEventDraft * stream_end)
  (clock : nat → datetime).

(** [self.adapter]: nothing, one adapter, or one for each assistant. *)
Inductive adapters : Type :=
| NoAdapter
| OneAdapter (a : A)
| AdapterMap (m : dict A).

Definition adapter_for (s : adapters) (assistant_id : string) : res A :=
  match s with
  | AdapterMap m =>
      match dget m assistant_id with
      | Some a => Ok a
      | None => Raise (RuntimeError ("no adapter registered for assistant: " +:+ assistant_id))
      end
  | NoAdapter => Raise (RuntimeError "worker graph adapter is not configured")
  | OneAdapter a => Ok a
  end.

(** [register_running] and the [finally] clause around [m]. *)
Definition in_slot {B} (run_id : string) (task : nat) (m : Py BoundedWorker B) : Py BoundedWorker B :=
  modify (register_running run_id task);;;
  try_finally m (modify (λ w, release (unregister_running run_id w))).

(** A call that has to wait for its slot answers [None] here and goes on with
    [acquire_resume] and the body. *)
Definition with_slot {B} (m : Py BoundedWorker B) : Py BoundedWorker (option B) :=
  ok <- acquire;; if ok : bool then b <- m;; ret (Some b) else ret None.

(** [Invoke]: the output of the response. *)
Definition invoke_body (s : adapters) (task : nat) (r : InvokeRequest) : Py BoundedWorker Value :=
  in_slot (pi_run_id (ir_identity r)) task
    (a <- of_result (adapter_for s (pi_assistant_id (ir_identity r)));;
     request <- of_result (request_from_proto r);;
     output <- of_result (adapter_invoke a request);;
     of_result (python_to_value output)).
Definition Invoke (s : adapters) (task : nat) (r : InvokeRequest) : Py BoundedWorker (option Value) :=
  with_slot (invoke_body s task r).

Definition proto_event (i : ProtoIdentity) (sequence : nat) (d : RuntimeEventDraft) : res ProtoEvent :=
  result_bind (python_to_value (draft_data d)) (λ data,
  result_map (λ native, mk_proto_event (event_type_str (draft_type d)) (Z.of_nat sequence) (draft_namespace d) i
                          (clock sequence) data native)
    (struct_fields (draft_native d))).

(** The drafts that a generator yields, with their events: up to the first whose event
    raises, which ends the generator. *)
Fixpoint converted (event : nat → RuntimeEventDraft → res ProtoEvent) (n : nat) (ds : list RuntimeEventDraft)
    (e : stream_end) : list (RuntimeEventDraft * ProtoEvent) * stream_end :=
  match ds with
  | [] => ([], e)
  | d :: ds =>
      match event n d with
      | Ok pe => let '(l, e) := converted event (S n) ds e in ((d, pe) :: l, e)
      | Raise err => ([], Raised err)
      end
  end.

(** [Stream]: the events it yields and how they end. *)
Definition stream_body (s : adapters) (task : nat) (r : InvokeRequest)
  : Py BoundedWorker (list ProtoEvent * stream_end) :=
  in_slot (pi_run_id (ir_identity r)) task
    (a <- of_result (adapter_for s (pi_assistant_id (ir_identity r)));;
     request <- of_result (request_from_proto r);;
     let '(ds, e) := adapter_stream a request in
     let '(l, e) := converted (proto_event (ir_identity r)) 0 ds e in
     ret (l.*2, e)).
Definition Stream (s : adapters) (task : nat) (r : InvokeRequest)
  : Py BoundedWorker (option (list ProtoEvent * stream_end)) :=
  with_slot (stream_body s task r).

Definition Cancel (r : ProtoIdentity) : Py BoundedWorker unit := cancel (pi_run_id r);;; ret tt.

(** A body that does not touch the worker gives its slot back. *)
Lemma slot_released {B} run task (m : Py BoundedWorker B) (w : BoundedWorker) :
  0 ≤ wk_active w → (∀ w, (m w).2 = w) →
  wk_active (with_slot (in_slot run task m) w).2 = wk_active w.
Proof.
  intros Ha Hm. unfold with_slot, bind, acquire. destruct (wk_draining w); [done|].
  destruct (sem_acquire (wk_slots w)) as [[] sem]; [|done].
  unfold in_slot, bind, modify, try_finally. set (w1 := register_running _ _ _). specialize (Hm w1).
  destruct (m w1) as [r w2]. simpl in Hm. subst w2.
  assert (wk_active (release (unregister_running run w1)) = wk_active w).
  { unfold release. simpl. rewrite (proj2 (Z.eqb_neq _ _)) by lia. simpl. lia. }
  by destruct r.
Qed.

(** Every way a stream or an invocation ends gives back the slot it took. *)
Lemma execution_gives_back_slot (s : adapters) task r (w : BoundedWorker) :
  0 ≤ wk_active w →
  wk_active (Invoke s task r w).2 = wk_active w ∧ wk_active (Stream s task r w).2 = wk_active w.
Proof.
  intros Ha. split; apply slot_released; try done; intros w0; unfold bind, of_result, ret; by repeat case_match.
Qed.
End ExecutionServicer.

(** ** Drafts that can be sent *)

(** Whether the event of a draft can be made does not depend on its number or its run. *)
Definition sendable (d : RuntimeEventDraft) : bool :=
  is_ok (python_to_value (draft_data d)) && is_ok (struct_fields (draft_native d)).
Fixpoint sendable_prefix (ds : list RuntimeEventDraft) : list RuntimeEventDraft :=
  match ds with
  | [] => []
  | d :: ds => if sendable d then d :: sendable_prefix ds else []
  end.

Lemma sendable_prefix_take ds : ∃ k, sendable_prefix ds = take k ds.
Proof.
  induction ds as [|d ds [k IH]]; [by exists 0%nat|]. simpl. destruct (sendable d); [|by exists 0%nat].
  exists (S k). simpl. by rewrite IH.
Qed.

Lemma proto_event_sendable clock i n d : is_ok (proto_event clock i n d) = sendable d.
Proof.
  unfold proto_event, sendable. destruct (python_to_value (draft_data d)); simpl; [|done].
  by destruct (struct_fields (draft_native d)).
Qed.

(** What [converted] makes of a stream: all of it, or the drafts before the first that
    cannot be sent, and then an [Exception]. *)
Lemma float_of_int_raises n e : float_of_int n = Raise e → is_exception e = true ∧ e ≠ CancelledError.
Proof. unfold float_of_int. destruct (nearest_float n); intros; by simplify_eq. Qed.
Lemma result_mapM_raises {A B} (f : A → res B) l e :
  result_mapM f l = Raise e → ∃ a, a ∈ l ∧ f a = Raise e.
Proof.
  induction l as [|a l IH]; simpl; [done|]. destruct (f a) as [b|e'] eqn:Hf; simpl; [|intros [= ->]; exists a; set_solver].
  destruct (result_mapM f l) as [bs|e']; simpl; [done|]. intros [= ->]. destruct IH as (a' & ? & ?); [done|].
  exists a'. set_solver.
Qed.
Lemma python_to_value_raises v e : python_to_value v = Raise e → is_exception e = true ∧ e ≠ CancelledError.
Proof.
  induction v as [|b|n|f|s|l IH|o IH] using json_ind'; simpl; try done.
  - destruct (float_of_int n) as [f|e'] eqn:Hn; [done|]. intros [= ->]. by eapply float_of_int_raises.
  - destruct (result_mapM _ l) as [ws|e'] eqn:Hm; [done|]. intros [= ->].
    apply result_mapM_raises in Hm as (x & Hx & Hv). by apply (proj1 (Forall_forall _ _) IH x Hx).
  - destruct (result_mapM _ o) as [ws|e'] eqn:Hm; [done|]. intros [= ->].
    apply result_mapM_raises in Hm as ([k x] & Hx & Hv). simpl in Hv.
    destruct (python_to_value x) as [?|e'] eqn:He; [done|]. injection Hv as ->.
    by apply (proj1 (Forall_forall _ _) IH (k, x) Hx).
Qed.
Lemma proto_event_raises clock i n d e : proto_event clock i n d = Raise e → is_exception e = true ∧ e ≠ CancelledError.
Proof.
  unfold proto_event. destruct (python_to_value (draft_data d)) as [w|e'] eqn:Hd; simpl.
  - destruct (struct_fields (draft_native d)) as [fs|e'] eqn:Hf; [done|]. intros [= ->].
    apply result_mapM_raises in Hf as ([k x] & Hx & Hv). simpl in Hv.
    destruct (python_to_value x) as [?|e'] eqn:He; [done|]. injection Hv as ->. by eapply python_to_value_raises.
  - intros [= ->]. by eapply python_to_value_raises.
Qed.

Lemma converted_drafts clock i n ds e :
  let '(l, e') := converted (proto_event clock i) n ds e in
  l.*1 = sendable_prefix ds ∧
  if forallb sendable ds then l.*1 = ds ∧ e' = e
  else (length l < length ds)%nat ∧ ∃ err, e' = Raised err ∧ is_exception err = true ∧ err ≠ CancelledError.
Proof.
  revert n. induction ds as [|d ds IH]; intros n; [done|]. simpl.
  pose proof (proto_event_sendable clock i n d) as Hs. pose proof (proto_event_raises clock i n d) as Hr.
  destruct (proto_event clock i n d) as [pe|err]; simpl in Hs; rewrite <- Hs.
  - specialize (IH (S n)). destruct (converted _ _ ds e) as [l e']. destruct IH as [Hl IH]. simpl. split; [by f_equal|].
    destruct (forallb sendable ds).
    + destruct IH as [Hd ->]. split; [by f_equal|done].
    + destruct IH as [? ?]. split; [lia|done].
  - simpl. split; [done|]. split; [lia|]. exists err. by destruct (Hr err eq_refl).
Qed.
