(* ===== verification/LangGraph.v ===== *)
(** * The LangGraph adapter

    [adapters/langgraph]: the protected configuration of a request, the mapping
    of LangGraph's chunks to runtime events, and the operations of
    [LangGraphAdapter].  The graph is a LangGraph object, outside the
    repository: what its methods return or yield is an argument. *)

From S2P Require Import Prelude PyDict PyStr Json Errors JsonAccess Identity Execution Service.

(** ** [config_mapper.py] *)

Module ConfigMapper.

(** [dict(v)]: of an object, or of an iterable of pairs.  The [i]th pair is any iterable of
    two: a list of a key and a value, a text of two characters, or an object of two keys,
    which are then the pair.  A key that is no text makes a dictionary that is no JSON
    object; it counts as an error here. *)
Definition bad_length (i n : nat) : exn :=
  ValueError ("dictionary update sequence element #" +:+ pretty i +:+ " has length " +:+ pretty n +:+ "; 2 is required").
Definition pair_key (k : json) : res string :=
  match k with
  | JStr k => Ok k
  | JList _ => Raise (TypeError "unhashable type: 'list'")
  | JObj _ => Raise (TypeError "unhashable type: 'dict'")
  | _ => Raise (TypeError "keys must be strings")
  end.
Definition pair_of (i : nat) (v : json) : res (string * json) :=
  match v with
  | JList [k; v] => result_map (λ k, (k, v)) (pair_key k)
  | JList l => Raise (bad_length i (length l))
  | JStr s => match py_chars s with [k; v] => Ok (k, JStr v) | l => Raise (bad_length i (length l)) end
  | JObj o => match dkeys o with [k; v] => Ok (k, JStr v) | l => Raise (bad_length i (length l)) end
  | _ => Raise (TypeError ("cannot convert dictionary update sequence element #" +:+ pretty i +:+ " to a sequence"))
  end.
Fixpoint dict_of_pairs (i : nat) (l : list json) (acc : json_object) : res json_object :=
  match l with
  | [] => Ok acc
  | v :: l => result_bind (pair_of i v) (λ kv, dict_of_pairs (S i) l (dset acc kv.1 kv.2))
  end.
Definition py_dict (v : json) : res json_object :=
  match v with
  | JObj o => Ok o
  | JList l => dict_of_pairs 0 l []
  | JStr s => dict_of_pairs 0 (JStr <$> py_chars s) []
  | _ => Raise (TypeError "object is not iterable")
  end.

Definition PROTECTED : list string :=
  ["run_id"; "thread_id"; "checkpoint_ns"; "checkpoint_id"; "assistant_id"].

(** The thread key: stateless runs get a lineage of their own. *)
Definition checkpoint_thread (i : ExecutionIdentity) : string :=
  match thread_id i with Some t => id_value t | None => id_value (run_id i) end.

Definition protected_config (i : ExecutionIdentity) (configurable : json_object) : json_object :=
  [("thread_id", JStr (checkpoint_thread i));
   ("checkpoint_ns", default (JStr "") (dget configurable "checkpoint_ns"));
   ("checkpoint_id", get_or_null configurable "checkpoint_id");
   ("assistant_id", JStr (id_value (assistant_id i)));
   ("run_id", JStr (id_value (run_id i)))].

Definition protected_metadata (i : ExecutionIdentity) : json_object :=
  [("runtime.workspace_id", JStr (id_value (workspace_id (scope i))));
   ("runtime.project_id", JStr (id_value (project_id (scope i))));
   ("runtime.application_id", JStr (id_value (application_id (scope i))));
   ("runtime.revision_id", JStr (id_value (revision_id (scope i))));
   ("runtime.deployment_id", JStr (id_value (deployment_id (scope i))));
   ("runtime.assistant_id", JStr (id_value (assistant_id i)));
   ("runtime.thread_id", JStr (checkpoint_thread i));
   ("runtime.run_id", JStr (id_value (run_id i)));
   ("runtime.attempt_id", JStr (id_value (attempt_id i)))].

(** [config.get(k, {})] converted by [dict]. *)
Definition section_of (config : json_object) (k : string) : res json_object :=
  py_dict (default (JObj []) (dget config k)).

Definition map_config (r : ExecutionRequest) : res json_object :=
  let i := req_identity r in
  let config := req_config r in
  result_bind (section_of config "configurable") (λ configurable,
  result_bind (section_of config "metadata") (λ metadata,
    let configurable := dupdate configurable (protected_config i configurable) in
    let metadata := dupdate metadata (protected_metadata i) in
    Ok (dset (dset (dset config "run_id" (JStr (id_value (run_id i))))
                "configurable" (JObj configurable))
          "metadata" (JObj metadata)))).

Lemma protected_config_wf i c : dict_wf (protected_config i c).
Proof. unfold dict_wf. simpl. by apply (bool_decide_unpack _). Qed.
Lemma protected_metadata_wf i : dict_wf (protected_metadata i).
Proof. unfold dict_wf. simpl. by apply (bool_decide_unpack _). Qed.

(** C26: a request cannot choose its identity in the graph's configuration.
    Whatever its configuration says, what the graph receives names the run,
    thread and assistant of the request's identity (the run in place of a missing
    thread) and carries that identity in the metadata; the checkpoint namespace
    and identifier, every other configurable value, metadata item and top-level
    key reach the graph unchanged. *)
Theorem protected_keys_hold (r : ExecutionRequest) (config configurable metadata : json_object) :
  section_of (req_config r) "configurable" = Ok configurable →
  section_of (req_config r) "metadata" = Ok metadata →
  map_config r = Ok config →
  let i := req_identity r in
  ∃ c m, dget config "configurable" = Some (JObj c) ∧ dget config "metadata" = Some (JObj m) ∧
    dget config "run_id" = Some (JStr (id_value (run_id i))) ∧
    dget c "run_id" = Some (JStr (id_value (run_id i))) ∧
    dget c "thread_id" = Some (JStr (match thread_id i with
                                     | Some t => id_value t
                                     | None => id_value (run_id i)
                                     end)) ∧
    dget c "assistant_id" = Some (JStr (id_value (assistant_id i))) ∧
    dget c "checkpoint_ns" = Some (default (JStr "") (dget configurable "checkpoint_ns")) ∧
    dget c "checkpoint_id" = Some (default JNull (dget configurable "checkpoint_id")) ∧
    (∀ k, k ∉ PROTECTED → dget c k = dget configurable k) ∧
    (∀ k v, dget (protected_metadata i) k = Some v → dget m k = Some v) ∧
    (∀ k, dget (protected_metadata i) k = None → dget m k = dget metadata k) ∧
    (∀ k, k ∉ ["run_id"; "configurable"; "metadata"] → dget config k = dget (req_config r) k).
Proof.
  intros Hc Hm. unfold map_config. rewrite Hc, Hm. cbn [result_bind]. intros [= <-].
  assert (∀ k, dget (dupdate configurable (protected_config (req_identity r) configurable)) k =
    match dget (protected_config (req_identity r) configurable) k with
    | Some v => Some v | None => dget configurable k end) as Hup
    by (intros k; apply dget_dupdate, protected_config_wf).
  exists (dupdate configurable (protected_config (req_identity r) configurable)),
    (dupdate metadata (protected_metadata (req_identity r))).
  rewrite !dget_dset, !Hup. do 3 (split; [done|]).
  do 5 (split; [done|]). split_and!.
  - intros k Hk. rewrite Hup. simpl. unfold PROTECTED in Hk.
    repeat rewrite decide_False by set_solver. done.
  - intros k v Hk. rewrite dget_dupdate by apply protected_metadata_wf. by rewrite Hk.
  - intros k Hk. rewrite dget_dupdate by apply protected_metadata_wf. by rewrite Hk.
  - intros k Hk. rewrite !dget_dset. repeat rewrite decide_False by set_solver. done.
Qed.

Example dict_of_iterables :
  py_dict (JList [JStr "ab"; JObj [("x", JNull); ("y", JNull)]; JList [JStr "k"; JInt 1]]) =
    Ok [("a", JStr "b"); ("x", JStr "y"); ("k", JInt 1)] ∧
  py_dict (JStr "ab") = Raise (ValueError "dictionary update sequence element #0 has length 1; 2 is required").
Proof. by vm_compute. Qed.

Definition example_request (config : json_object) : ExecutionRequest :=
  let i := mk_identity (mk_scope (mk_id "w") (mk_id "p") (mk_id "a") (mk_id "r") (mk_id "d"))
             (mk_id "agent") (mk_id "run") (mk_id "attempt") None in
  mk_request i JNull JNull config [] [] ["values"] false INTERACTIVE 1800.

Lemma protected_keys_hold_witness :
  let r := example_request [("configurable", JObj [("thread_id", JStr "other"); ("model", JStr "m")])] in
  ∃ config c, map_config r = Ok config ∧ dget config "configurable" = Some (JObj c) ∧
    dget c "thread_id" = Some (JStr "run") ∧ dget c "model" = Some (JStr "m").
Proof.
  intros r. eexists.
  destruct (protected_keys_hold r _ [("thread_id", JStr "other"); ("model", JStr "m")] []
    eq_refl eq_refl eq_refl) as (c & m & Hc & _ & _ & _ & Ht & _ & _ & _ & Ho & _).
  exists c. split; [reflexivity|]. split; [exact Hc|]. split; [exact Ht|].
  rewrite Ho; [reflexivity|]. apply (bool_decide_unpack _). by vm_compute.
Defined.
End ConfigMapper.

(** ** [stream_mapper.py] *)

(** A key of a Python dictionary and a value a graph may yield: the JSON values,
    tuples, objects with [value] and [id] (an interrupt), objects with a
    [model_dump], and everything else. *)
Inductive pykey : Type :=
| KStr (s : string)
| KInt (z : Z)
| KBool (b : bool)
| KNone.

Inductive pyval : Type :=
| VNone
| VBool (b : bool)
| VInt (z : Z)
| VFloat (f : SpecFloat.spec_float)
| VStr (s : string)
| VDict (items : list (pykey * pyval))
| VList (l : list pyval)
| VTuple (l : list pyval)
| VInterrupt (value : pyval) (id : string)
| VModel (dump : pyval)
| VOther (type_name : string).

(** [str(key)] *)
Definition key_str (k : pykey) : string :=
  match k with
  | KStr s => s
  | KInt z => pretty z
  | KBool true => "True" | KBool false => "False"
  | KNone => "None"
  end.

(** [d.get(k)] for a string key. *)
Fixpoint vget (items : list (pykey * pyval)) (k : string) : option pyval :=
  match items with
  | [] => None
  | (KStr k', v) :: items => if decide (k = k') then Some v else vget items k
  | _ :: items => vget items k
  end.

(** A JSON value as the Python value it is. *)
Fixpoint of_json (j : json) : pyval :=
  match j with
  | JNull => VNone
  | JBool b => VBool b
  | JInt z => VInt z
  | JFloat f => VFloat f
  | JStr s => VStr s
  | JList l => VList (of_json <$> l)
  | JObj o => VDict (prod_map KStr of_json <$> o)
  end.

Module StreamMapper.

(** [{str(key): f(item) for key, item in value.items()}] *)
Section Items.
Context {A : Type} (f : A → res json).
Fixpoint safe_items (items : list (pykey * A)) (acc : json_object) : res json_object :=
  match items with
  | [] => Ok acc
  | (k, x) :: items => result_bind (f x) (λ j, safe_items items (dset acc (key_str k) j))
  end.
End Items.

(** [_json_safe] *)
Fixpoint json_safe (v : pyval) : res json :=
  match v with
  | VNone => Ok JNull
  | VBool b => Ok (JBool b)
  | VInt z => Ok (JInt z)
  | VFloat f => Ok (JFloat f)
  | VStr s => Ok (JStr s)
  | VDict items => result_map JObj (safe_items json_safe items [])
  | VList l | VTuple l => result_map JList (result_mapM json_safe l)
  | VInterrupt value id =>
      result_map (λ j, JObj [("value", j); ("id", JStr id)]) (json_safe value)
  | VModel dump => json_safe dump
  | VOther name => Raise (TypeError ("unsupported LangGraph stream payload: " +:+ name))
  end.

(** The values made of nothing but what [_json_safe] knows. *)
Fixpoint supported (v : pyval) : bool :=
  match v with
  | VDict items => forallb (λ kv, supported kv.2) items
  | VList l | VTuple l => forallb supported l
  | VInterrupt value _ => supported value
  | VModel dump => supported dump
  | VOther _ => false
  | _ => true
  end.

Section Mapper.
(** [str(v)] of the values whose text the interpreter builds. *)
Context (py_repr : pyval → string).

Definition py_str (v : pyval) : string := match v with VStr s => s | _ => py_repr v end.

(** [list(v)] of an iterable; the characters of a string one by one. *)
Fixpoint characters (s : string) : list pyval :=
  match s with EmptyString => [] | String c s => VStr (String c "") :: characters s end.
Definition iterate (v : pyval) : res (list pyval) :=
  match v with
  | VList l | VTuple l => Ok l
  | VDict items => Ok ((λ kv, match kv.1 with
                              | KStr s => VStr s | KInt z => VInt z | KBool b => VBool b | KNone => VNone
                              end) <$> items)
  | VStr s => Ok (characters s)
  | _ => Raise (TypeError "object is not iterable")
  end.
Definition str_tuple (v : pyval) : res (list string) := result_map (fmap py_str) (iterate v).

(** [str(payload.get("event", ""))] of a dictionary. *)
Definition event_name (payload : pyval) : string :=
  match payload with
  | VDict items => match vget items "event" with Some v => py_str v | None => "" end
  | _ => ""
  end.

(** [_event_type] *)
Definition event_type_of (mode : string) (payload : pyval) : RuntimeEventType :=
  let name := event_name payload in
  if decide (mode = "values") then STATE_VALUES
  else if decide (mode = "updates") then STATE_UPDATES
  else if decide (mode ∈ ["messages"; "messages-tuple"]) then MESSAGE_DELTA
  else if decide (mode = "custom") then CUSTOM
  else if decide (mode = "checkpoints") then CHECKPOINT_CREATED
  else if decide (mode = "tasks") then if ends_with "end" name then TASK_COMPLETED else TASK_STARTED
  else if decide (mode ∈ ["events"; "debug"])
  then if contains "tool" name && ends_with "start" name then TOOL_STARTED
       else if contains "tool" name && ends_with "end" name then TOOL_COMPLETED
       else if contains "chain" name && ends_with "start" name then AGENT_STARTED
       else if contains "chain" name && ends_with "end" name then AGENT_COMPLETED
       else CUSTOM
  else CUSTOM.

Definition string_of (v : pyval) : option string := match v with VStr s => Some s | _ => None end.

(** [_unpack]: mode, namespace, payload. *)
Definition unpack (chunk : pyval) (default_mode : string) : res (string * list string * pyval) :=
  match chunk with
  | VDict items =>
      match vget items "type", vget items "data" with
      | Some type, Some data =>
          result_map (λ ns, (py_str type, ns, data)) (str_tuple (default (VTuple []) (vget items "ns")))
      | _, _ => Ok (default_mode, [], chunk)
      end
  | VTuple [first; payload] =>
      match first with
      | VTuple l | VList l =>
          match mapM string_of l with
          | Some ns => Ok (default_mode, ns, payload)
          | None => Ok (default_mode, [], chunk)
          end
      | VStr mode => Ok (mode, [], payload)
      | _ => Ok (default_mode, [], chunk)
      end
  | _ => Ok (default_mode, [], chunk)
  end.

(** The namespace and the payload of an envelope with [ns] and [data]. *)
Definition open_envelope (namespace : list string) (payload : pyval) : res (list string * pyval) :=
  match payload with
  | VDict items =>
      match vget items "ns", vget items "data" with
      | Some ns, Some data => result_map (λ ns, (ns, data)) (str_tuple ns)
      | _, _ => Ok (namespace, payload)
      end
  | _ => Ok (namespace, payload)
  end.

(** One iteration of [map_stream]. *)
Definition map_chunk (i : ExecutionIdentity) (default_mode : string) (chunk : pyval)
  : res RuntimeEventDraft :=
  result_bind (unpack chunk default_mode) (λ '(mode, namespace, payload),
  result_bind (open_envelope namespace payload) (λ '(namespace, payload),
  result_bind (json_safe payload) (λ data,
    Ok (mk_draft i (Known (event_type_of mode payload)) namespace data
          [("langgraph_mode", JStr mode); ("native_type", JStr mode)])))).

(** [map_stream] of chunks that end with [e]: what it yields and how it ends. *)
Fixpoint map_stream (i : ExecutionIdentity) (default_mode : string) (chunks : list pyval) (e : stream_end)
  : list RuntimeEventDraft * stream_end :=
  match chunks with
  | [] => ([], e)
  | c :: chunks =>
      match map_chunk i default_mode c with
      | Raise err => ([], Raised err)
      | Ok d => let '(ds, e) := map_stream i default_mode chunks e in (d :: ds, e)
      end
  end.
End Mapper.

(** A payload is mapped exactly when it is made of supported values. *)
Lemma json_safe_supported : ∀ v, is_ok (json_safe v) = supported v.
Proof.
  assert (∀ A B (f : A → res B) l, is_ok (result_mapM f l) = forallb (λ x, is_ok (f x)) l) as Hlist.
  { intros A B f l. induction l as [|x l IH]; simpl; [done|]. rewrite <- IH.
    destruct (f x); simpl; [|done]. by destruct (result_mapM f l). }
  assert (∀ A B (g : A → B) (r : res A), is_ok (result_map g r) = is_ok r) as Hmap by (by intros ??? []).
  fix IH 1. intros [| | | | |items|l|l|value id|dump|name]; simpl; try done.
  - rewrite Hmap. generalize (@nil (string * json)) as acc.
    induction items as [|[k x] items IHl]; intros acc; simpl; [done|].
    rewrite <- (IH x). destruct (json_safe x) as [j|e]; simpl; [apply IHl|done].
  - rewrite Hmap, Hlist. induction l as [|x l IHl]; simpl; [done|]. by rewrite (IH x), IHl.
  - rewrite Hmap, Hlist. induction l as [|x l IHl]; simpl; [done|]. by rewrite (IH x), IHl.
  - rewrite Hmap. apply IH.
Qed.

(** JSON payloads reach the events unchanged. *)
Lemma json_safe_of_json j : json_wf j → json_safe (of_json j) = Ok j.
Proof.
  induction j as [| | | | |l IH|o IH] using json_ind'; intros Hwf; simpl; try done.
  - inv Hwf. assert (result_mapM json_safe (of_json <$> l) = Ok l) as ->; [|done].
    induction l as [|x l IHl]; simpl; [done|].
    apply Forall_cons in IH as [Hx IH]. apply Forall_cons in H0 as [Hwx Hwl].
    rewrite Hx by done. simpl. fold (of_json <$> l). by rewrite IHl.
  - inv Hwf.
    enough (∀ acc, dkeys acc ## dkeys o → safe_items json_safe (prod_map KStr of_json <$> o) acc
      = Ok (acc ++ o)) as Hgo by (by rewrite Hgo by set_solver).
    clear -IH H0 H1. unfold dict_wf, dkeys in H0. revert IH H0 H1.
    induction o as [|[k v] o IHo]; intros IH Hnd Hwf acc Hdis; [by rewrite app_nil_r|].
    apply Forall_cons in IH as [Hv IH]. apply Forall_cons in Hwf as [Hwv Hwf].
    simpl in *. apply NoDup_cons in Hnd as [Hk Hnd]. rewrite Hv by done. simpl.
    unfold dkeys in *. simpl in *. rewrite dset_fresh by (unfold dkeys; set_solver).
    rewrite IHo; [by rewrite <- app_assoc|done..|].
    rewrite fmap_app. simpl. set_solver.
Qed.
End StreamMapper.

(** ** [LangGraphAdapter]: execution *)

Module Adapter.
Import ConfigMapper StreamMapper.

(** What the graph is run on: a value, or LangGraph's [Command(resume=value)]. *)
Inductive graph_input : Type :=
| GraphInput (payload : json)
| GraphResume (value : json).

(** The keyword arguments of [astream]; one stream mode is passed bare, [aa_context]
    is present when the request's context is not empty. *)
Record astream_arguments : Type := mk_arguments {
  aa_config : json_object;
  aa_stream_mode : list string;
  aa_subgraphs : bool;
  aa_context : option json_object;
}.
Definition without_context (a : astream_arguments) : astream_arguments :=
  mk_arguments (aa_config a) (aa_stream_mode a) (aa_subgraphs a) None.

(** [request.command if request.command is not None else request.input] *)
Definition payload_of (r : ExecutionRequest) : json :=
  match req_command r with JNull => req_input r | c => c end.
Definition context_of (r : ExecutionRequest) : option json_object :=
  match req_context r with [] => None | c => Some c end.
Definition stream_payload (r : ExecutionRequest) : graph_input :=
  match payload_of r with
  | JObj o => match dget o "resume" with Some v => GraphResume v | None => GraphInput (JObj o) end
  | p => GraphInput p
  end.

(** The statements of [stream] before its first event, and the first mode. *)
Definition stream_arguments (r : ExecutionRequest) : res (astream_arguments * string) :=
  result_bind (map_config r) (λ config,
    match req_stream_modes r with
    | [] => Raise (OtherError "tuple index out of range")
    | mode :: modes =>
        Ok (mk_arguments config (mode :: modes) (req_stream_subgraphs r) (context_of r), mode)
    end).

(** The [TypeError] that makes the adapter try again without the context. *)
Definition context_error (e : exn) : bool :=
  match e with TypeError m => contains "context" m | _ => false end.

Definition run_key_of (r : ExecutionRequest) : string := id_value (run_id (req_identity r)).

(** [event.type is STATE_VALUES and isinstance(event.data, dict) and "__interrupt__" in event.data] *)
Definition reports_interrupt (d : RuntimeEventDraft) : bool :=
  type_is (draft_type d) STATE_VALUES && has_key "__interrupt__" (draft_data d).
Definition interrupt_draft (i : ExecutionIdentity) (d : RuntimeEventDraft) : RuntimeEventDraft :=
  mk_draft i (Known INTERRUPT_CREATED) (draft_namespace d) (draft_data d) (draft_native d).
Definition with_interrupt (i : ExecutionIdentity) (d : RuntimeEventDraft) : list RuntimeEventDraft :=
  if reports_interrupt d then [d; interrupt_draft i d] else [d].

Section Execution.
Context (py_repr : pyval → string)
  (astream : graph_input → astream_arguments → list pyval * stream_end)
  (ainvoke : json → json_object → option json_object → res pyval).

(** One [async for event in map_stream(...)]. *)
Definition attempt (r : ExecutionRequest) (a : astream_arguments) (mode : string)
  : list RuntimeEventDraft * stream_end :=
  let '(chunks, e) := astream (stream_payload r) a in
  map_stream py_repr (req_identity r) mode chunks e.

(** Both attempts: the mapped events and how they end. *)
Definition attempts (r : ExecutionRequest) (a : astream_arguments) (mode : string)
  : list RuntimeEventDraft * stream_end :=
  let '(ds, e) := attempt r a mode in
  match e with
  | Raised err =>
      if context_error err
      then let '(ds', e') := attempt r (without_context a) mode in (ds ++ ds', e')
      else (ds, e)
  | Exhausted => (ds, e)
  end.

(** The last event: the [except] clauses and the [else] clause. *)
Definition final_draft (r : ExecutionRequest) (interrupted : bool) (e : stream_end) : RuntimeEventDraft :=
  let run := ("run_id", JStr (run_key_of r)) in
  match e with
  | Exhausted => simple_draft (req_identity r) (if interrupted then RUN_INTERRUPTED else RUN_COMPLETED) (JObj [run])
  | Raised CancelledError => simple_draft (req_identity r) RUN_CANCELLED (JObj [run])
  | Raised err => simple_draft (req_identity r) RUN_FAILED (JObj [run; ("error", JStr (exn_str err))])
  end.

Definition started_draft (r : ExecutionRequest) : RuntimeEventDraft :=
  simple_draft (req_identity r) RUN_STARTED (JObj [("run_id", JStr (run_key_of r))]).

(** What [stream] yields to a consumer that reads it to its end. *)
Definition stream_drafts (r : ExecutionRequest) (a : astream_arguments) (mode : string)
  : list RuntimeEventDraft * stream_end :=
  let '(ds, e) := attempts r a mode in
  (started_draft r :: (ds ≫= with_interrupt (req_identity r)) ++
     [final_draft r (existsb reports_interrupt ds) e], e).

(** [self._tasks]: the task of each run, by number. *)
Definition Tasks : Type := dict Z.
Definition enter (task : option Z) (key : string) : Py Tasks unit :=
  modify (λ t, match task with Some n => dset t key n | None => t end).
Definition leave (key : string) : Py Tasks unit := modify (λ t, dpop t key).

Definition stream (task : option Z) (r : ExecutionRequest)
  : Py Tasks (list RuntimeEventDraft * stream_end) :=
  enter task (run_key_of r);;;
  match stream_arguments r with
  | Raise e => ret ([], Raised e)
  | Ok (a, mode) => leave (run_key_of r);;; ret (stream_drafts r a mode)
  end.

Definition invoke (task : option Z) (r : ExecutionRequest) : Py Tasks pyval :=
  enter task (run_key_of r);;;
  config <- of_result (map_config r);;
  try_finally
    (of_result
       match ainvoke (payload_of r) config (context_of r) with
       | Raise err => if context_error err then ainvoke (payload_of r) config None else Raise err
       | Ok v => Ok v
       end)
    (leave (run_key_of r)).

(** [cancel]: the task it cancels, if any. *)
Definition cancel (current : option Z) (r : ExecutionRequest) : Py Tasks (option Z) := λ t,
  match dget t (run_key_of r) with
  | None => (Ok None, t)
  | Some n =>
      if decide (current = Some n)
      then (Raise (LangGraphAdapterError LG_CAPABILITY_NOT_SUPPORTED "a run cannot cancel itself"), t)
      else (Ok (Some n), t)
  end.
End Execution.

(** The types a chunk can have; none of them settles a run. *)
Lemma event_type_of_not_settling py_repr mode payload :
  event_type_of py_repr mode payload ∉ SETTLING ∧ event_type_of py_repr mode payload ≠ INTERRUPT_CREATED.
Proof.
  unfold event_type_of. repeat case_decide; try (split; [by apply (bool_decide_unpack _)|done]);
    repeat case_match; (split; [by apply (bool_decide_unpack _)|done]).
Qed.

(** The drafts of the stream's body. *)
Definition body_draft (i : ExecutionIdentity) (d : RuntimeEventDraft) : Prop :=
  draft_identity d = i ∧ ∃ t, draft_type d = Known t ∧ t ∉ SETTLING.

Lemma map_chunk_body py_repr i mode c d :
  map_chunk py_repr i mode c = Ok d → body_draft i d ∧ draft_type d ≠ Known INTERRUPT_CREATED.
Proof.
  unfold map_chunk. destruct (unpack _ _ _) as [[[m ns] p]|]; [simpl|done].
  destruct (open_envelope _ _ _) as [[ns' p']|]; [simpl|done].
  destruct (json_safe p') as [j|]; [simpl|done]. intros [= <-].
  destruct (event_type_of_not_settling py_repr m p') as [Hs Hi].
  split; [split; [done|]; by eexists|]. simpl. congruence.
Qed.

Lemma map_stream_body py_repr i mode chunks e d :
  d ∈ (map_stream py_repr i mode chunks e).1 → body_draft i d ∧ draft_type d ≠ Known INTERRUPT_CREATED.
Proof.
  induction chunks as [|c chunks IH]; simpl; [by intros ?%elem_of_nil|].
  destruct (map_chunk py_repr i mode c) as [d'|] eqn:Hc; [|by intros ?%elem_of_nil].
  destruct (map_stream py_repr i mode chunks e) as [ds e']. simpl in *.
  intros [->|Hd]%elem_of_cons; [by eapply map_chunk_body|by apply IH].
Qed.

Section StreamShape.
Context (py_repr : pyval → string) (astream : graph_input → astream_arguments → list pyval * stream_end).

Lemma attempts_body r a mode d :
  d ∈ (attempts py_repr astream r a mode).1 →
  body_draft (req_identity r) d ∧ draft_type d ≠ Known INTERRUPT_CREATED.
Proof.
  assert (∀ a, d ∈ (attempt py_repr astream r a mode).1 →
    body_draft (req_identity r) d ∧ draft_type d ≠ Known INTERRUPT_CREATED) as Hone.
  { intros a'. unfold attempt. destruct (astream _ a') as [chunks e]. apply map_stream_body. }
  unfold attempts. pose proof (Hone a) as H1. pose proof (Hone (without_context a)) as H2.
  destruct (attempt _ _ _ a _) as [ds [|err]]; [done|]. destruct (context_error err); [|done].
  destruct (attempt _ _ _ (without_context a) _) as [ds' e']. simpl in *.
  intros [Hd|Hd]%elem_of_app; auto.
Qed.

Definition body (r : ExecutionRequest) (a : astream_arguments) (mode : string) : list RuntimeEventDraft :=
  (attempts py_repr astream r a mode).1 ≫= with_interrupt (req_identity r).

Lemma body_drafts r a mode : Forall (body_draft (req_identity r)) (body r a mode).
Proof.
  apply Forall_forall. intros d Hd. unfold body in Hd. apply list_elem_of_bind in Hd as (d0 & Hd & Hin).
  destruct (attempts_body r a mode d0 Hin) as [Hb Hne]. unfold with_interrupt in Hd.
  destruct (reports_interrupt d0); apply elem_of_cons in Hd as [->|Hd]; try done.
  - apply list_elem_of_singleton in Hd as ->. split; [done|]. exists INTERRUPT_CREATED.
    split; [done|]. by apply (bool_decide_unpack _).
  - by apply elem_of_nil in Hd.
Qed.

(** An interrupt is announced exactly when a state reports one. *)
Lemma body_interrupted r a mode :
  existsb reports_interrupt (attempts py_repr astream r a mode).1 = true ↔
  ∃ d, d ∈ body r a mode ∧ draft_type d = Known INTERRUPT_CREATED.
Proof.
  rewrite existsb_elem. unfold body. split.
  - intros (d & Hd & Hi). exists (interrupt_draft (req_identity r) d). split; [|done].
    apply list_elem_of_bind. exists d. split; [|done]. unfold with_interrupt. rewrite Hi. set_solver.
  - intros (d & Hd & Ht). apply list_elem_of_bind in Hd as (d0 & Hd & Hin).
    exists d0. split; [done|]. destruct (attempts_body r a mode d0 Hin) as [_ Hne].
    unfold with_interrupt in Hd. destruct (reports_interrupt d0); [done|].
    apply list_elem_of_singleton in Hd as ->. contradiction.
Qed.

(** The stream's events: the start, the body and the event that ends it. *)
Lemma stream_drafts_shape r a mode :
  let '(ds, e) := stream_drafts py_repr astream r a mode in
  ∃ middle final, ds = started_draft r :: middle ++ [final] ∧
    Forall (body_draft (req_identity r)) middle ∧ draft_identity final = req_identity r ∧
    draft_type final = Known
      match e with
      | Raised CancelledError => RUN_CANCELLED
      | Raised _ => RUN_FAILED
      | Exhausted => if existsb (λ d, type_is (draft_type d) INTERRUPT_CREATED) middle
                     then RUN_INTERRUPTED else RUN_COMPLETED
      end ∧
    final = final_draft r (existsb (λ d, type_is (draft_type d) INTERRUPT_CREATED) middle) e.
Proof.
  unfold stream_drafts. pose proof (body_drafts r a mode) as Hb. pose proof (body_interrupted r a mode) as Hi.
  unfold body in *. destruct (attempts py_repr astream r a mode) as [l e0]. simpl in *.
  eexists _, _. split; [done|]. split; [done|].
  assert (existsb reports_interrupt l = existsb (λ d, type_is (draft_type d) INTERRUPT_CREATED)
    (l ≫= with_interrupt (req_identity r))) as <-.
  { apply eq_true_iff_eq. rewrite Hi, existsb_elem. split; intros (d & Hd & Ht); exists d; (split; [done|]).
    - rewrite Ht. by apply bool_decide_eq_true.
    - destruct (draft_type d); [|done]. apply bool_decide_eq_true in Ht. by rewrite Ht. }
  split_and!; [by destruct e0 as [|[]]..|done].
Qed.

(** The shape of a LangGraph stream.  Whatever the graph yields and however
    it ends, a stream that starts at all is [RUN_STARTED], then events of the
    request's identity none of which settles a run, then exactly one event that
    does: [RUN_CANCELLED] if the graph was cancelled, [RUN_FAILED] if it raised,
    otherwise [RUN_INTERRUPTED] if an interrupt was announced and
    [RUN_COMPLETED] if not; and the exception is passed on.  The run's entry in
    the task table is removed, unless the stream could not start. *)
Lemma langgraph_stream_shape (task : option Z) (r : ExecutionRequest) (tasks tasks' : dict Z)
  (ds : list RuntimeEventDraft) (e : stream_end) :
  stream py_repr astream task r tasks = (Ok (ds, e), tasks') →
  match stream_arguments r with
  | Raise err => ds = [] ∧ e = Raised err
  | Ok (a, mode) =>
      ∃ middle final, ds = started_draft r :: middle ++ [final] ∧
        Forall (body_draft (req_identity r)) middle ∧ draft_identity final = req_identity r ∧
        draft_type final = Known
          match e with
          | Raised CancelledError => RUN_CANCELLED
          | Raised _ => RUN_FAILED
          | Exhausted => if existsb (λ d, type_is (draft_type d) INTERRUPT_CREATED) middle
                         then RUN_INTERRUPTED else RUN_COMPLETED
          end ∧
        (dict_wf tasks → dget tasks' (run_key_of r) = None)
  end.
Proof.
  unfold stream, enter, leave, bind, modify. destruct (stream_arguments r) as [[a mode]|err]; simpl; [|by intros [= <- <- _]].
  pose proof (stream_drafts_shape r a mode) as Hs. destruct (stream_drafts py_repr astream r a mode) as [ds0 e0].
  destruct Hs as (middle & final & Hds & Hb & Hi & Ht & _). intros [= <- <- <-]. exists middle, final.
  split_and!; try done. intros Hwf. rewrite dget_dpop; [by rewrite decide_True|]. destruct task; auto with runtime.
Qed.
End StreamShape.

Lemma langgraph_stream_shape_witness :
  let r := example_request [] in
  let state := VDict [(KStr "__interrupt__", VList [VInterrupt (VStr "ok?") "i1"])] in
  ∃ middle final,
    (stream (λ _, "") (λ _ _, ([state], Exhausted)) (Some 1) r []).1 =
      Ok (started_draft r :: middle ++ [final], Exhausted) ∧
    length middle = 2%nat ∧ draft_type final = Known RUN_INTERRUPTED.
Proof.
  intros r state.
  destruct (stream (λ _, "") (λ _ _, ([state], Exhausted)) (Some 1) r []) as [[[ds e]|?] t] eqn:Hs;
    [|discriminate Hs].
  destruct (langgraph_stream_shape (λ _, "") (λ _ _, ([state], Exhausted)) (Some 1) r [] t ds e Hs)
    as (middle & final & Hds & _ & _ & Ht & _).
  vm_compute in Hs. injection Hs as Hds' He _. subst e.
  exists middle, final. rewrite Hds. split; [reflexivity|].
  assert (length ds = 4%nat) as Hlen by (by rewrite <- Hds').
  rewrite Hds in Hlen. simpl in Hlen. rewrite length_app in Hlen. simpl in Hlen.
  split; [lia|]. rewrite Ht.
  assert (draft_type final = Known RUN_INTERRUPTED ∨ draft_type final = Known RUN_COMPLETED) as [H|H]
    by (rewrite Ht; destruct (existsb _ middle); auto).
  - by rewrite <- Ht, H.
  - exfalso. rewrite <- Hds' in Hds. injection Hds as Hds.
    assert (last (middle ++ [final]) = Some final) as Hl by apply last_snoc.
    rewrite <- Hds in Hl. simpl in Hl. injection Hl as Hl. rewrite <- Hl in H. discriminate H.
Defined.

(** A [TypeError] that mentions the context is taken for a refused argument even
    when it comes from the middle of the run and no context was passed: the
    graph is run again and its events are delivered twice. *)
Lemma late_type_error_reruns_graph :
  let graph (_ : graph_input) (_ : astream_arguments) :=
    ([VDict [(KStr "n", VInt 1)]], Raised (TypeError "bad context value")) in
  result_map (λ p : list RuntimeEventDraft * stream_end, draft_type <$> p.1)
    (stream (λ _, "") graph None (example_request []) []).1 =
    Ok [Known RUN_STARTED; Known STATE_VALUES; Known STATE_VALUES; Known RUN_FAILED].
Proof. by vm_compute. Qed.

(** With several modes and subgraphs LangGraph yields (namespace, mode, payload);
    the triple is not taken apart. *)
Lemma triple_chunk_not_unpacked py_repr i first ns mode payload :
  unpack py_repr (VTuple [ns; VStr mode; payload]) first = Ok (first, [], VTuple [ns; VStr mode; payload]) ∧
  ∀ d, map_chunk py_repr i first (VTuple [ns; VStr mode; payload]) = Ok d → draft_namespace d = [].
Proof.
  split; [done|]. intros d. unfold map_chunk. cbn [unpack result_bind open_envelope].
  destruct (json_safe _); [|done]. by intros [= <-].
Qed.

(** A request whose configuration is refused leaves its task in the table. *)
Lemma refused_request_keeps_task :
  let r := example_request [("configurable", JInt 3)] in
  (stream (λ _, "") (λ _ _, ([], Exhausted)) (Some 1) r []).2 = [("run", 1)].
Proof. by vm_compute. Qed.
End Adapter.
