(* ===== verification/LangGraphLoad.v ===== *)
(** * Loading a graph

    [domain/capabilities] and the part of [adapters/langgraph] that finds out
    what an object is, loads it with or without persistence, and answers with a
    manifest: [descriptor], [detector], [persistence], [loader], [manifest], and
    the constructor and the state, store and resume operations of
    [LangGraphAdapter].  The object itself is the application's; the record
    [Target] holds the answers it gives to the code's questions. *)

From S2P Require Import Prelude PyDict PyStr Json Errors JsonAccess Identity Execution LangGraph.
From Stdlib Require Import Ascii.

(** ** [domain/capabilities] *)

Inductive SessionAffinity : Type := AFFINITY_NONE | AFFINITY_PREFERRED | AFFINITY_REQUIRED.

Definition RuntimeProfile : list string := ["langgraph"; "langchain-agent"; "deepagents"; "agno"].
Definition StreamMode : list string :=
  ["values"; "updates"; "messages"; "messages-tuple"; "custom"; "events"; "debug"; "checkpoints"; "tasks"].

Record IdentityCapabilities : Type := mk_identity_capabilities {
  accepts_thread_id : bool;
  accepts_run_id : bool;
}.

Record AdapterCapabilities : Type := mk_capabilities {
  streaming : bool;
  cancellation : bool;
  history : bool;
  checkpoint : bool;
  state_management : bool;
  interrupt : bool;
  cap_resume : bool;
  fork : bool;
  custom_http : bool;
  a2a : bool;
  subagents : bool;
}.

(** The sets of profiles and modes as lists. *)
Record AdapterManifest : Type := mk_manifest {
  adapter_id : string;
  adapter_version : string;
  profiles : list string;
  stream_modes : list string;
  capabilities : AdapterCapabilities;
  identity_capabilities : IdentityCapabilities;
  session_affinity : SessionAffinity;
}.

(** [tuple(sorted(str(x) for x in ...))] *)
Definition sorted_strings (l : list string) : list string :=
  merge_sort (λ a b, Is_true (String.leb a b)) l.
Definition supported_profiles (m : AdapterManifest) : list string := sorted_strings (profiles m).
Definition supported_stream_modes (m : AdapterManifest) : list string := sorted_strings (stream_modes m).

(** [langgraph_manifest(session_affinity=...)] with its other defaults. *)
Definition langgraph_manifest (affinity : SessionAffinity) : AdapterManifest :=
  mk_manifest "langgraph" "1" RuntimeProfile StreamMode
    (mk_capabilities true true true true true true true false false false true)
    (mk_identity_capabilities true true) affinity.

(** ** Targets *)

(** Persistence objects: the module of a checkpointer's class tells it apart;
    of a store only its presence matters. *)
Record Persistence : Type := mk_persistence {
  pt_checkpointer : option string;
  pt_store : bool;
}.
Definition no_persistence : Persistence := mk_persistence None false.
(** [if value is not None] left something. *)
Definition has_persistence (p : Persistence) : bool :=
  match pt_checkpointer p with Some _ => true | None => pt_store p end.

(** A value the detector reads as a schema. *)
Inductive schema_value : Type :=
| SchemaDict (o : json_object)
| SchemaFields (fields : list string) (repr : string)
| SchemaOther (repr : string).

(** The object the application exports.  A method that is absent, or an
    attribute that is not callable, is [None]; [tg_module] is
    [type(target).__module__]. *)
Inductive Target : Type := mk_target {
  tg_module : string;
  tg_methods : list string;
  tg_compile : option (Persistence → res Target);
  tg_call : option (Persistence → res Target);
  tg_name : option string;
  tg_graph_id : option string;
  tg_checkpointer : option string;
  tg_store : bool;
  tg_exported : option json_object;
  tg_runtime_profile : option json;
  tg_config_metadata : option json_object;
  tg_jsonschema : string → option (res json);
  tg_schema_attribute : string → res (option schema_value);
}.

(** [hasattr(target, name)] *)
Definition has_method (t : Target) (name : string) : bool := bool_decide (name ∈ tg_methods t).

(** [is_compiled_graph] *)
Definition is_compiled_graph (t : Target) : bool := has_method t "astream" && has_method t "ainvoke".

(** ** [descriptor.py] and [detector.py] *)

Inductive LangGraphProfile : Type := LANGGRAPH | LANGCHAIN_AGENT | DEEPAGENTS.
Inductive GraphObjectKind : Type := COMPILED | FACTORY | BUILDER | AGENT.
#[export] Instance LangGraphProfile_eq_dec : EqDecision LangGraphProfile.
Proof. solve_decision. Defined.
#[export] Instance GraphObjectKind_eq_dec : EqDecision GraphObjectKind.
Proof. solve_decision. Defined.

(** [LangGraphProfile(str(value))] of a JSON value; only a string can be one. *)
Definition profile_of (v : json) : option LangGraphProfile :=
  match v with
  | JStr "langgraph" => Some LANGGRAPH
  | JStr "langchain-agent" => Some LANGCHAIN_AGENT
  | JStr "deepagents" => Some DEEPAGENTS
  | _ => None
  end.

Record LangGraphDescriptor : Type := mk_descriptor {
  ds_profile : LangGraphProfile;
  ds_entrypoint : string;
  ds_object_kind : GraphObjectKind;
  ds_graph_id : string;
  has_checkpointer : bool;
  has_store : bool;
  input_schema : option json_object;
  output_schema : option json_object;
  state_schema : option json_object;
  config_schema : option json_object;
  context_schema : option json_object;
}.

(** [_export_metadata] *)
Definition export_metadata (t : Target) : json_object :=
  match tg_exported t with
  | Some o => o
  | None => match tg_runtime_profile t with
            | Some p => [("profile", p)]
            | None => default [] (tg_config_metadata t)
            end
  end.

(** [_profile_from_metadata] *)
Definition profile_from_metadata (m : json_object) : option LangGraphProfile :=
  match default (get_or_null m "runtime_profile") (dget m "profile") with
  | JNull => match dget m "ls_integration" with
             | Some (JStr "deepagents") => Some DEEPAGENTS
             | Some (JStr "langchain_create_agent") => Some LANGCHAIN_AGENT
             | _ => None
             end
  | v => profile_of v
  end.

(** A schema method's dictionary, if it gives one. *)
Definition method_schema (t : Target) (method : string) : option json_object :=
  match tg_jsonschema t method with
  | Some (Ok (JObj o)) => Some o
  | _ => None
  end.
Definition schema_method (name : string) : option string :=
  if decide (name = "input_schema") then Some "get_input_jsonschema"
  else if decide (name = "output_schema") then Some "get_output_jsonschema"
  else if decide (name = "config_schema") then Some "get_config_jsonschema"
  else if decide (name = "context_schema") then Some "get_context_jsonschema"
  else if decide (name = "state_schema") then Some "get_input_jsonschema"
  else None.

(** [_schema] *)
Definition schema (t : Target) (name : string) : option json_object :=
  match schema_method name ≫= method_schema t with
  | Some o => Some o
  | None =>
      match tg_schema_attribute t name with
      | Ok (Some (SchemaDict o)) => Some o
      | Ok (Some (SchemaFields (f :: fs) _)) => Some [("fields", JList (JStr <$> f :: fs))]
      | Ok (Some (SchemaFields [] repr)) | Ok (Some (SchemaOther repr)) => Some [("type", JStr repr)]
      | Ok None | Raise _ => None
      end
  end.

(** [a or b] on optional strings. *)
Definition or_else (a : option string) (b : string) : string :=
  match a with Some s => if str_truthy s then s else b | None => b end.

(** [detect_graph] *)
Definition detect_graph (t : Target) (entrypoint : string) (profile : option LangGraphProfile)
  : LangGraphDescriptor :=
  let module := lower (tg_module t) in
  let compiled := is_compiled_graph t in
  let resolved :=
    match profile with
    | Some p => p
    | None =>
        match profile_from_metadata (export_metadata t) with
        | Some p => p
        | None => if starts_with "deepagents" module then DEEPAGENTS
                  else if starts_with "langchain" module then LANGCHAIN_AGENT
                  else LANGGRAPH
        end
    end in
  mk_descriptor resolved entrypoint
    (if compiled then if decide (resolved ∈ [LANGCHAIN_AGENT; DEEPAGENTS]) then AGENT else COMPILED
     else match tg_call t with Some _ => FACTORY | None => BUILDER end)
    (or_else (tg_name t) (or_else (tg_graph_id t) entrypoint))
    (match tg_checkpointer t with Some _ => true | None => false end) (tg_store t)
    (schema t "input_schema") (schema t "output_schema") (schema t "state_schema")
    (schema t "config_schema") (schema t "context_schema").

(** ** [persistence.py] *)

Inductive PersistenceProvider : Type := MEMORY | POSTGRES | DISABLED.
#[export] Instance PersistenceProvider_eq_dec : EqDecision PersistenceProvider.
Proof. solve_decision. Defined.

Record PersistenceProviders : Type := mk_providers {
  pp_persistence : Persistence;
  pp_provider : PersistenceProvider;
  pp_affinity : SessionAffinity;
}.

(** The module of [InMemorySaver]. *)
Definition memory_saver : string := "langgraph.checkpoint.memory".

Definition local_persistence (mode : string) : PersistenceProviders :=
  if decide (mode = "disabled") then mk_providers no_persistence DISABLED AFFINITY_NONE
  else mk_providers (mk_persistence (Some memory_saver) true) MEMORY AFFINITY_REQUIRED.
Definition postgres_persistence (checkpointer : string) (store : bool) : PersistenceProviders :=
  mk_providers (mk_persistence (Some checkpointer) store) POSTGRES AFFINITY_NONE.

Definition validate_persistence (mode : string) (checkpointer : bool) : res unit :=
  if negb (bool_decide (mode ∈ ["disabled"; "platform-managed"; "application-managed"]))
  then Raise (LangGraphAdapterError LG_INVALID_PERSISTENCE ("unknown persistence mode: " +:+ mode))
  else if bool_decide (mode = "platform-managed") && checkpointer
  then Raise (LangGraphAdapterError LG_INVALID_PERSISTENCE
         "application supplied a checkpointer in platform-managed mode")
  else Ok tt.

(** ** [loader.py] *)

(** The [TypeError] of a call that does not know a keyword. *)
Definition unexpected_keyword (p : Persistence) (e : exn) : bool :=
  match e with TypeError m => has_persistence p && contains "unexpected keyword" m | _ => false end.

(** [_compile] for an object whose [compile] is [compile]. *)
Definition compile_target (compile : Persistence → res Target) (p : Persistence) : res Target :=
  match compile p with
  | Ok t => Ok t
  | Raise e => if unexpected_keyword p e
               then Raise (LangGraphAdapterError LG_INVALID_PERSISTENCE
                      "graph builder does not accept managed persistence providers")
               else Raise e
  end.

(** [_call_factory] *)
Definition call_factory (call : Persistence → res Target) (p : Persistence) : res Target :=
  let attempt := match call p with
                 | Ok t => Ok (t, false)
                 | Raise e => if unexpected_keyword p e
                              then result_map (λ t, (t, true)) (call no_persistence) else Raise e
                 end in
  result_bind attempt (λ '(t, fallback),
    match tg_compile t with
    | Some compile => compile_target compile p
    | None =>
        if negb (is_compiled_graph t)
        then Raise (LangGraphAdapterError LG_INVALID_GRAPH
               "factory did not return a compiled graph or graph builder")
        else if fallback : bool
        then Raise (LangGraphAdapterError LG_INVALID_PERSISTENCE
               "compiled factory did not accept managed persistence providers")
        else Ok t
    end).

Definition load_graph (t : Target) (p : Persistence) : res Target :=
  if is_compiled_graph t
  then if has_persistence p
       then Raise (LangGraphAdapterError LG_INVALID_PERSISTENCE
              "persistence providers must be injected by a graph factory or builder")
       else Ok t
  else match tg_compile t with
       | Some compile => compile_target compile p
       | None => match tg_call t with
                 | Some call => call_factory call p
                 | None => Raise (LangGraphAdapterError LG_INVALID_GRAPH "target is not a LangGraph executable")
                 end
       end.

(** [load_entrypoint]; [import] is [getattr(import_module(module), attribute)]. *)
Definition load_entrypoint (import : string → string → res Target) (entrypoint : string) (p : Persistence)
  : res Target :=
  let loaded := match split_at ":"%char entrypoint with
                | module :: attribute :: rest =>
                    result_bind (import module (join ":" (attribute :: rest))) (λ t, load_graph t p)
                | _ => Raise (ValueError "not enough values to unpack")
                end in
  match loaded with
  | Raise (LangGraphAdapterError c m) => Raise (LangGraphAdapterError c m)
  | Raise e => if is_exception e
               then Raise (LangGraphAdapterError LG_LOAD_FAILED ("could not load " +:+ entrypoint))
               else Raise e
  | Ok t => Ok t
  end.

(** ** [LangGraphAdapter]: construction *)

Record LangGraphAdapter : Type := mk_adapter {
  ad_persistence_mode : string;
  ad_providers : PersistenceProviders;
  ad_graph : Target;
  ad_descriptor : LangGraphDescriptor;
  ad_manifest : AdapterManifest;
}.

(** [_manifest_for_graph] *)
Definition manifest_for_graph (mode : string) (providers : PersistenceProviders) (graph : Target)
    (descriptor : LangGraphDescriptor) (m : AdapterManifest) : AdapterManifest :=
  let c := capabilities m in
  let enabled := has_checkpointer descriptor &&
    (negb (bool_decide (mode = "disabled")) || negb (bool_decide (pp_provider providers = DISABLED))) in
  let has_state := enabled && has_method graph "aget_state" in
  let has_history := enabled && has_method graph "aget_state_history" in
  let has_update := enabled && has_method graph "aupdate_state" in
  let affinity :=
    if bool_decide (mode = "application-managed") && has_checkpointer descriptor
    then if contains "checkpoint.memory" (default "builtins" (tg_checkpointer graph))
         then AFFINITY_REQUIRED else AFFINITY_NONE
    else session_affinity m in
  mk_manifest (adapter_id m) (adapter_version m) (profiles m) (stream_modes m)
    (mk_capabilities (streaming c) true has_history enabled (has_state || has_update) enabled enabled
       (fork c) (custom_http c) (a2a c) (subagents c))
    (identity_capabilities m) affinity.

(** [LangGraphAdapter(target, persistence_mode=mode, providers=providers)] *)
Definition new_adapter (target : Target) (mode : string) (providers : option PersistenceProviders)
  : res LangGraphAdapter :=
  let source := detect_graph target "<object>" None in
  result_bind (validate_persistence mode (has_checkpointer source)) (λ _,
    let selected := match providers with
                    | Some p => p
                    | None => if decide (mode = "platform-managed")
                              then local_persistence "platform-managed" else local_persistence "disabled"
                    end in
    result_bind (load_graph target (pp_persistence selected)) (λ graph,
      let descriptor := detect_graph graph "<object>" None in
      Ok (mk_adapter mode selected graph descriptor
            (manifest_for_graph mode selected graph descriptor
               (langgraph_manifest (pp_affinity selected)))))).

(** ** [LangGraphAdapter] and [state_adapter.py]: state, history, resume, store *)

Definition unsupported (message : string) : exn :=
  LangGraphAdapterError LG_CAPABILITY_NOT_SUPPORTED message.

(** The arguments of [aget_state_history] that are passed when they are given. *)
Record history_arguments : Type := mk_history {
  ha_before : option json;
  ha_limit : option json;
  ha_filter : option json;
}.

Section Operations.
(** The methods of the loaded graph. *)
Context (aget_state : json_object → res pyval)
  (aget_state_history : json_object → history_arguments → res (list pyval))
  (aupdate_state : json_object → json → res pyval)
  (ainvoke : Adapter.graph_input → json_object → option json_object → res pyval).

(** [except ValueError] *)
Definition without_checkpointer {B} (message : string) (r : res B) : res B :=
  match r with Raise (ValueError _) => Raise (unsupported message) | r => r end.

(** [state_adapter.get_state] and [get_state_history] *)
Definition graph_state (graph : Target) (config : json_object) : res pyval :=
  if negb (has_method graph "aget_state") then Raise (unsupported "state is not supported")
  else without_checkpointer "state is not available without a checkpointer" (aget_state config).
Definition graph_state_history (graph : Target) (config : json_object) (h : history_arguments)
  : res (list pyval) :=
  if negb (has_method graph "aget_state_history")
  then Raise (unsupported "state history is not supported")
  else without_checkpointer "state history is not available without a checkpointer"
         (aget_state_history config h).

Definition get_state (a : LangGraphAdapter) (r : ExecutionRequest) : res pyval :=
  if negb (state_management (capabilities (ad_manifest a)))
  then Raise (unsupported "state is not supported")
  else result_bind (ConfigMapper.map_config r) (graph_state (ad_graph a)).

(** [request.config.get(key)], [None] included. *)
Definition config_option (r : ExecutionRequest) (key : string) : option json :=
  match get_or_null (req_config r) key with JNull => None | v => Some v end.

Definition get_state_history (a : LangGraphAdapter) (r : ExecutionRequest) : res (list pyval) :=
  if negb (history (capabilities (ad_manifest a)))
  then Raise (unsupported "state history is not supported")
  else result_bind (ConfigMapper.map_config r) (λ config,
         graph_state_history (ad_graph a) config
           (mk_history (config_option r "__history_before__") (config_option r "__history_limit__")
              (config_option r "__history_filter__"))).

Definition update_state (a : LangGraphAdapter) (r : ExecutionRequest) (values : json) : res pyval :=
  if negb (state_management (capabilities (ad_manifest a))) || negb (has_method (ad_graph a) "aupdate_state")
  then Raise (unsupported "state update is not supported")
  else result_bind (ConfigMapper.map_config r) (λ config, aupdate_state config values).

Definition resume (a : LangGraphAdapter) (r : ExecutionRequest) (value : json) : res pyval :=
  if negb (cap_resume (capabilities (ad_manifest a))) then Raise (unsupported "resume is not supported")
  else match thread_id (req_identity r) with
       | None => Raise (LangGraphAdapterError LG_INVALID_GRAPH "resume requires a thread")
       | Some _ =>
           result_bind (ConfigMapper.map_config r) (λ config,
             match ainvoke (Adapter.GraphResume value) config (Adapter.context_of r) with
             | Raise e => if Adapter.context_error e then ainvoke (Adapter.GraphResume value) config None
                          else Raise e
             | Ok v => Ok v
             end)
       end.
End Operations.

(** An item of a LangGraph store, with its times as ISO text. *)
Record StoreItem : Type := mk_store_item {
  si_namespace : list string;
  si_key : string;
  si_value : json_object;
  si_created_at : option string;
  si_updated_at : option string;
  si_score : json;
}.

(** What [async for] is given: an asynchronous iterator, or an object that is none. *)
Inductive async_iterable (B : Type) : Type :=
| AsyncIterator (items : res (list B))
| NotIterable.
Arguments AsyncIterator {B} items.
Arguments NotIterable {B}.
Definition async_for {B} (i : async_iterable B) : res (list B) :=
  match i with
  | AsyncIterator items => items
  | NotIterable => Raise (TypeError "'async for' requires an object with __aiter__ method")
  end.

Section Store.
(** The methods of the graph's store, of state [K]. *)
Context {K : Type}
  (aput : list string → string → json_object → option json → Py K unit)
  (aget : list string → string → Py K (option StoreItem))
  (adelete : list string → string → Py K unit)
  (asearch : list string → option json_object → Z → Z → K → async_iterable StoreItem)
  (alist_namespaces : option (list string) → option (list string) → option Z → Z → Z → K →
     async_iterable (list string)).

Definition no_store : exn := unsupported "store is not available".

(** An operation on [getattr(graph, "store", None)]. *)
Definition with_store {B} (a : LangGraphAdapter) (m : Py K B) : Py K B :=
  if tg_store (ad_graph a) then m else raise no_store.

Definition optional_str (s : option string) : json := match s with Some s => JStr s | None => JNull end.
Definition item_json (i : StoreItem) : json_object :=
  [("namespace", JList (JStr <$> si_namespace i)); ("key", JStr (si_key i));
   ("value", JObj (si_value i)); ("created_at", optional_str (si_created_at i));
   ("updated_at", optional_str (si_updated_at i))].

Definition store_put (a : LangGraphAdapter) (namespace : list string) (key : string) (value : json_object)
    (index : json) : Py K unit :=
  with_store a (aput namespace key value (match index with JNull => None | i => Some i end)).
Definition store_get (a : LangGraphAdapter) (namespace : list string) (key : string)
  : Py K (option json_object) :=
  with_store a (item <- aget namespace key;; ret (item_json <$> item)).
Definition store_delete (a : LangGraphAdapter) (namespace : list string) (key : string) : Py K unit :=
  with_store a (adelete namespace key).
Definition store_search (a : LangGraphAdapter) (prefix : list string) (filter : option json_object)
    (limit offset : Z) : Py K json_object :=
  with_store a (k <- Prelude.get_state;;
    items <- of_result (async_for (asearch prefix filter limit offset k));;
    ret [("items", JList ((λ i, JObj (item_json i ++ [("score", si_score i)])) <$> items))]).

(** [tuple(prefix) if prefix else None] *)
Definition non_empty (l : option (list string)) : option (list string) :=
  match l with Some (x :: l) => Some (x :: l) | _ => None end.
Definition store_list_namespaces (a : LangGraphAdapter) (prefix suffix : option (list string))
    (max_depth : option Z) (limit offset : Z) : Py K json_object :=
  with_store a (k <- Prelude.get_state;;
    namespaces <- of_result (async_for
      (alist_namespaces (non_empty prefix) (non_empty suffix) max_depth limit offset k));;
    ret [("namespaces", JList ((λ ns, JList (JStr <$> ns)) <$> namespaces))]).
End Store.

(** ** What the manifest promises *)

(** The module of the checkpointer names the in-memory saver. *)
Definition in_memory (graph : Target) : bool :=
  contains "checkpoint.memory" (default "builtins" (tg_checkpointer graph)).

(** An adapter's manifest.  For an adapter built without explicit providers:
    checkpoints, interrupts and resuming are promised exactly when the loaded
    graph has a checkpointer and persistence is not disabled, history and state
    only then; a platform-managed target is neither compiled nor brings its own
    checkpointer, and its sessions must stay on one worker; an
    application-managed graph pins its sessions exactly when its checkpointer
    lives in memory; and with persistence disabled nothing is pinned. *)
Lemma adapter_capabilities (target : Target) (mode : string) (a : LangGraphAdapter) :
  new_adapter target mode None = Ok a →
  let c := capabilities (ad_manifest a) in
  let graph := ad_graph a in
  (cap_resume c = true ↔ is_Some (tg_checkpointer graph) ∧ mode ≠ "disabled") ∧
  checkpoint c = cap_resume c ∧ interrupt c = cap_resume c ∧
  history c = cap_resume c && has_method graph "aget_state_history" ∧
  state_management c = cap_resume c && (has_method graph "aget_state" || has_method graph "aupdate_state") ∧
  match session_affinity (ad_manifest a) with
  | AFFINITY_REQUIRED =>
      mode = "platform-managed" ∧ tg_checkpointer target = None ∧ is_compiled_graph target = false ∨
      mode = "application-managed" ∧ is_Some (tg_checkpointer graph) ∧ in_memory graph = true
  | AFFINITY_NONE =>
      mode = "disabled" ∨
      mode = "application-managed" ∧ (tg_checkpointer graph = None ∨ in_memory graph = false)
  | AFFINITY_PREFERRED => False
  end.
Proof.
  unfold new_adapter, validate_persistence. intros H.
  destruct (bool_decide (mode ∈ _)) eqn:Hmode; simpl in H; [|discriminate].
  apply bool_decide_eq_true in Hmode. rewrite !elem_of_cons, elem_of_nil in Hmode.
  destruct Hmode as [->|[->|[->|[]]]]; simpl in H.
  - destruct (load_graph target no_persistence) as [graph|]; simpl in H; [|discriminate]. injection H as <-.
    simpl. unfold manifest_for_graph. simpl. rewrite andb_false_r. simpl. split_and!; try done; [|by left].
    split; [done|]. by intros [].
  - destruct (tg_checkpointer target) eqn:Hc; simpl in H; [discriminate|].
    destruct (load_graph target _) as [graph|] eqn:Hl; simpl in H; [|discriminate]. injection H as <-. simpl.
    unfold manifest_for_graph. simpl. rewrite andb_true_r. split_and!; try done.
    + destruct (tg_checkpointer graph); simpl; [by split; [split; [eexists|]|]|by split; [|intros [[]]]].
    + by destruct (tg_checkpointer graph), (has_method graph "aget_state").
    + left. split_and!; try done. unfold load_graph in Hl. by destruct (is_compiled_graph target).
  - destruct (load_graph target no_persistence) as [graph|]; simpl in H; [|discriminate]. injection H as <-.
    simpl. unfold manifest_for_graph. simpl. rewrite andb_true_r. unfold in_memory.
    destruct (tg_checkpointer graph) eqn:Hg; simpl; split_and!; try done;
      try (by destruct (has_method graph "aget_state")).
    + destruct (contains _ _) eqn:Hm; [right; eauto|]. right. split; [done|]. by right.
    + split; [done|]. by intros [[]].
    + right. split; [done|]. by left.
Qed.

(** A builder whose graphs take the checkpointer they are compiled with. *)
Definition example_graph (p : Persistence) : Target :=
  mk_target "langgraph.graph.state" ["astream"; "ainvoke"; "aget_state"] None None (Some "agent") None
    (pt_checkpointer p) (pt_store p) None None None (λ _, None) (λ _, Ok None).
Definition example_builder : Target :=
  mk_target "langgraph.graph.state" ["compile"] (Some (λ p, Ok (example_graph p))) None None None
    None false None None None (λ _, None) (λ _, Ok None).

Lemma adapter_capabilities_witness :
  ∃ a, new_adapter example_builder "platform-managed" None = Ok a ∧
    cap_resume (capabilities (ad_manifest a)) = true ∧
    session_affinity (ad_manifest a) = AFFINITY_REQUIRED.
Proof.
  eexists. split; [reflexivity|].
  pose proof (adapter_capabilities example_builder "platform-managed" _ eq_refl) as (Hr & _).
  split; [|reflexivity]. apply Hr. split; [by eexists|discriminate].
Defined.

(** In platform-managed mode a compiled graph is always refused. *)
Lemma compiled_graph_refused target :
  is_compiled_graph target = true → is_ok (new_adapter target "platform-managed" None) = false.
Proof.
  intros Hc. unfold new_adapter. destruct (validate_persistence _ _) as [[]|]; [|done].
  simpl. unfold load_graph. by rewrite Hc.
Qed.

(** LangGraph's [asearch] is a coroutine: iterated as the code does, every search
    of a store raises. *)
Lemma store_search_raises (K : Type) (a : LangGraphAdapter) prefix flt limit offset (k : K) :
  tg_store (ad_graph a) = true →
  is_ok (store_search (λ _ _ _ _ _, NotIterable) a prefix flt limit offset k).1 = false.
Proof. intros Hs. unfold store_search, with_store. by rewrite Hs. Qed.
