(* ===== verification/LangGraphRuns.v ===== *)
(** * LangGraph runs through the execution service

    The adapter's stream composed with the service that consumes it: what
    becomes of a run when [_execute_receipt] executes it with a
    [LangGraphAdapter], for every graph and every run repository, thread
    repository and journal that satisfy their laws. *)

From S2P Require Import Prelude PyDict PyStr Json Errors Identity Execution Ports.
From S2P Require Import MemoryRepositories MemoryQueue MemoryJournal MemoryStores Service.
From S2P Require Import ServiceSafety ServiceSpec LangGraph.

Section Runs.
Context {R T Q J O A : Type}
  `{!RunRepository R, RL : !RunRepositoryLaws R, !ThreadRepository T, TL : !ThreadRepositoryLaws T,
    !RunCommandQueue Q, !EventJournal J, JL : !EventJournalLaws J, !OutboxRepository O}
  (clock : nat → datetime) (fresh : nat → string) (json_str : json → string).

Notation Service := (Service (R:=R) (T:=T) (Q:=Q) (J:=J) (O:=O) (A:=A)).
Notation exec_event := (exec_event clock fresh json_str).
Notation exec_events := (exec_events clock fresh json_str).
Notation execute_receipt := (execute_receipt clock fresh json_str).

(** The service is consistent, and the run's thread, if it has one, exists. *)
Definition ready (r : Run) (s : Service) : Prop :=
  good s ∧ threads_inv (svc_threads s) ∧
  match run_thread_id r with Some i => is_Some (thread_view s !! id_value i) | None => True end.

Lemma ready_core r s s' : ready r s → same_core s s' → ready r s'.
Proof.
  intros ((Hi & Hj) & Ht & Hth) (Hr & Hst & Hjj). unfold ready, good, thread_view in *.
  rewrite Hr, Hst. auto.
Qed.
Lemma view_core (s s' : Service) : same_core s s' → view s' = view s.
Proof. intros (Hr & _). unfold view. by rewrite Hr. Qed.

(** With a journal, appending returns the draft's event. *)
Lemma append_step d (s : Service) :
  is_Some (svc_journal s) →
  ∃ e s', append_event clock fresh d s = (Ok e, s') ∧ same_core s s' ∧
    ev_type e = draft_type d ∧ ev_data e = draft_data d.
Proof using JL.
  intros [j Hj]. pose proof (append_core clock fresh d s) as Hc. unfold append_event in *. rewrite Hj in *.
  destruct (journal_append_total j (mk_id (fresh (svc_ticks s))) (clock (S (svc_ticks s))) d)
    as (e & j' & He). rewrite He in *. apply journal_append_draft in He as (_ & Ht & Hd & _).
  by exists e; eexists.
Qed.

(** The data of the last [STATE_VALUES]. *)
Definition last_values (ds : list RuntimeEventDraft) (v : json) : json :=
  foldl (λ v d, if type_is (draft_type d) STATE_VALUES then draft_data d else v) v ds.

(** Events that do not settle the run only reach the journal. *)
Lemma body_events i ds x (s : Service) :
  Forall (Adapter.body_draft i) ds → is_Some (svc_journal s) →
  ∃ s', exec_events x ds s =
      (Ok (mk_execution (ex_receipt x) (ex_run x) (last_values ds (ex_last_result x)) (ex_terminal x)), s') ∧
    same_core s s'.
Proof using JL.
  revert x s. induction ds as [|d ds IH]; intros x s Hds Hj.
  { exists s. split; [by destruct x|]. split_and!; auto. }
  apply Forall_cons in Hds as [(_ & t & Ht & Hn) Hds].
  destruct (append_step d s Hj) as (e & s1 & Ha & Hc1 & He & Hd). cbn [Service.exec_events].
  unfold exec_event, bind. rewrite Ha, He, Hd, Ht.
  assert (type_in (Known t) SETTLING = false) as ->
    by (apply not_true_is_false; by rewrite type_in_known).
  unfold ret. destruct (IH (mk_execution (ex_receipt x) (ex_run x)
    (if type_is (Known t) STATE_VALUES then draft_data d else ex_last_result x) (ex_terminal x)) s1) as (s' & Hr & Hc);
    [done|by apply Hc1|].
  exists s'. split; [|by eapply same_core_trans]. rewrite Hr. unfold last_values. simpl.
  by rewrite Ht.
Qed.

(** The thread's status once the run is settled. *)
Definition settled_thread (t : RuntimeEventType) : ThreadStatus :=
  if decide (t = RUN_INTERRUPTED) then THREAD_INTERRUPTED else IDLE.

(** Storing a run and marking its thread. *)
Lemma store_run r r1 (s : Service) :
  ready r s → view s !! run_key r = Some r → run_identity r1 = run_identity r →
  ∃ s' r', on_runs (runs_update r1) s = (Ok r1, s') ∧ ready r s' ∧ svc_threads s' = svc_threads s ∧
    run_core r' = run_core r1 ∧ view s' = <[run_key r := r']> (view s).
Proof using RL.
  intros ((Hi & Hj) & Ht & Hth) Hv Hid.
  assert (run_key r1 = run_key r) as Hk by (unfold run_key, run_run_id; by rewrite Hid).
  destruct (runs_update_some (svc_runs s) r1) as (r' & R' & Hu & Hi' & Hc & Hv'); [done|by rewrite Hk; eexists|].
  exists (set_runs R' s), r'. unfold on_runs, zoom. rewrite Hu, <- Hk. by split_and!.
Qed.

Lemma mark_thread r i (f : Thread → datetime → Thread) status (s : Service) :
  ready r s → run_thread_id r = Some i →
  (∀ t n, thread_key (f t n) = thread_key t ∧ thr_status (f t n) = status) →
  ∃ s', (th <- on_threads (threads_get (id_value i));; t <- now clock;;
         on_threads (threads_update (f th t));;; ret tt) s = (Ok tt, s') ∧
    ready r s' ∧ svc_runs s' = svc_runs s ∧ thread_status_at s' (id_value i) = Some status.
Proof using TL.
  intros (Hg & Ht & Hth) Hi Hf. rewrite Hi in Hth. destruct Hth as [th Hth]. unfold bind at 1.
  rewrite (thread_get_step s (id_value i) th) by done. unfold bind at 1, now.
  assert (thread_key th = id_value i) as Hk by by eapply threads_inv_key.
  set (s1 := set_ticks _ s). destruct (Hf th (clock (svc_ticks s))) as [Hfk Hfs].
  destruct (thread_update_step s1 (f th (clock (svc_ticks s)))) as (T' & Hu & Ht' & t' & Hv & Hst);
    [done|rewrite Hfk, Hk; by eexists|].
  unfold bind. rewrite Hu. eexists. split; [reflexivity|].
  assert (thread_view (set_threads T' s1) = <[id_value i := t']> (thread_view s)) as Hv1
    by (unfold thread_view; simpl; rewrite Hv, Hfk, Hk; done).
  unfold ready. split_and!; [exact Hg|exact Ht'| |done|].
  - rewrite Hi, Hv1, lookup_insert_eq. by eexists.
  - unfold thread_status_at. rewrite Hv1, lookup_insert_eq. simpl. by rewrite Hst, Hfs.
Qed.

(** An event that settles a run, or settles it again, when the run takes the outcome. *)
Lemma settling_event x d r (P : RunStatus → json → Prop) (s : Service) :
  ready r s → view s !! run_key r = Some r → run_key (ex_run x) = run_key r →
  type_in (draft_type d) SETTLING = true →
  (∀ at_, ∃ r1, event_outcome json_str (draft_type d) (draft_data d) (ex_last_result x) r at_ = Ok r1 ∧
     run_identity r1 = run_identity r ∧ P (run_status r1) (run_result r1)) →
  ∃ s' r', exec_event x d s = (Ok (mk_execution (ex_receipt x) (ex_run x) (ex_last_result x) true), s') ∧
    ready r s' ∧ view s' = <[run_key r := r']> (view s) ∧ P (run_status r') (run_result r') ∧
    run_identity r' = run_identity r ∧
    (∀ i, run_thread_id r = Some i → thread_status_at s' (id_value i) =
       Some (if type_is (draft_type d) RUN_INTERRUPTED then THREAD_INTERRUPTED else IDLE)).
Proof using RL TL JL.
  intros Hs Hv Hk Hset Hout. destruct (append_step d s) as (e & s1 & Ha & Hc1 & He & Hd); [apply Hs|].
  unfold exec_event, bind at 1. rewrite Ha, He, Hd, Hset.
  assert (type_is (draft_type d) STATE_VALUES = false) as ->.
  { destruct (draft_type d) as [t|]; [|done]. apply bool_decide_eq_false. intros ->. by vm_compute in Hset. }
  assert (ready r s1) as Hs1 by by eapply ready_core.
  assert (on_runs (runs_get (run_key (ex_run x))) s1 = (Ok r, s1)) as Hget.
  { rewrite Hk. unfold on_runs, zoom. rewrite (runs_get_some _ (run_key r) r); [by destruct s1|apply Hs1|].
    change (view s1 !! run_key r = Some r). by rewrite (view_core s). }
  unfold bind at 1. rewrite Hget. unfold bind at 1, now. set (s2 := set_ticks _ s1).
  destruct (Hout (clock (svc_ticks s1))) as (r1 & Hr1 & Hr1i & HP).
  unfold bind at 1, of_result. rewrite Hr1.
  destruct (store_run r r1 s2) as (s3 & r' & Hu & Hs3 & Ht3 & Hc & Hv3);
    [exact Hs1|change (view s1 !! run_key r = Some r); by rewrite (view_core s)|done|].
  unfold bind at 1. rewrite Hu.
  assert (view s3 = <[run_key r := r']> (view s)) as Hv3'.
  { rewrite Hv3. change (view s2) with (view s1). by rewrite (view_core s s1). }
  unfold run_core in Hc. injection Hc as Hc1' Hc2 Hc3 _. rewrite <- Hc2, <- Hc3 in HP.
  destruct (run_thread_id r) as [i|] eqn:Hi.
  - destruct (mark_thread r i (if type_is (draft_type d) RUN_INTERRUPTED then mark_interrupted else mark_idle)
      (if type_is (draft_type d) RUN_INTERRUPTED then THREAD_INTERRUPTED else IDLE) s3) as (s4 & Hm & Hs4 & Hr4 & Ht4); [done|done|by case_match|].
    exists s4, r'. split.
    + unfold bind in Hm |- *.
      destruct (on_threads (threads_get (id_value i)) s3) as [[th|] s3']; [|discriminate Hm].
      revert Hm. destruct (type_is (draft_type d) RUN_INTERRUPTED); intros Hm; unfold now, ret in *;
        by destruct (on_threads (threads_update _) _) as [[?|?] ?]; simplify_eq.
    + split_and!; try done; [unfold view; rewrite Hr4; exact Hv3'|congruence|].
      by intros ? [= <-].
  - exists s3, r'. split; [done|]. split_and!; try done; congruence.
Qed.

(** The event that settles a running run. *)
Lemma final_event x d t r (s : Service) :
  ready r s → view s !! run_key r = Some r → run_key (ex_run x) = run_key r → run_status r = RUNNING →
  draft_type d = Known t → t ∈ SETTLING →
  ∃ s' r', exec_event x d s = (Ok (mk_execution (ex_receipt x) (ex_run x) (ex_last_result x) true), s') ∧
    ready r s' ∧ view s' = <[run_key r := r']> (view s) ∧ run_status r' = settled_status t ∧
    run_identity r' = run_identity r ∧ (t = RUN_COMPLETED → run_result r' = ex_last_result x) ∧
    (∀ i, run_thread_id r = Some i → thread_status_at s' (id_value i) = Some (settled_thread t)).
Proof using RL TL JL.
  intros Hs Hv Hk Hst Ht Hset.
  destruct (settling_event x d r (λ st v, st = settled_status t ∧ (t = RUN_COMPLETED → v = ex_last_result x)) s)
    as (s' & r' & He & Hs' & Hv' & [Hst' Hres] & Hi' & Hth); try done.
  - rewrite Ht. by apply type_in_known.
  - intros at_. rewrite Ht. destruct (event_outcome_open json_str t (draft_data d) (ex_last_result x) r at_ Hset)
      as (r1 & Hr1 & Hr1s & Hr1i & _ & _ & _ & Hr1v & _); [by rewrite Hst|].
    exists r1. split_and!; try done. by intros ->.
  - exists s', r'. split_and!; try done. intros i Hi. rewrite (Hth i Hi), Ht. unfold settled_thread, type_is.
    by case_decide; [rewrite bool_decide_eq_true_2|rewrite bool_decide_eq_false_2].
Qed.

(** The statements before the stream. *)
Lemma begin_and_run receipt (adapter : A) run (s : Service) :
  ready run s → view s !! command_run receipt = Some run → run_status run = PENDING →
  ∃ s1 s2 r, exec_begin receipt adapter s = (Ok (Some (mk_execution receipt run JNull false)), s1) ∧
    exec_running clock (mk_execution receipt run JNull false) s1 = (Ok tt, s2) ∧
    ready run s2 ∧ run_identity r = run_identity run ∧ run_status r = RUNNING ∧
    view s2 = <[run_key run := r]> (view s) ∧ run_result r = JNull ∧
    svc_commands s1 = svc_commands s ∧ svc_threads s2 = svc_threads s.
Proof using RL.
  intros Hs Hv Hp. pose proof (view_key s _ _ (proj1 Hs) Hv) as Hk.
  unfold exec_begin, bind, on_runs, zoom.
  rewrite (runs_get_some (svc_runs s) _ run); [|apply Hs|exact Hv]. rewrite decide_True by done.
  exists (set_active (dset (svc_active s) (run_key run) adapter) (set_runs (svc_runs s) s)).
  unfold exec_running, bind, now, of_result. cbn [ex_run].
  assert (∃ r1, run_mark_running run (clock (svc_ticks s)) = Ok r1 ∧ run_identity r1 = run_identity run ∧
    run_status r1 = RUNNING ∧ run_result r1 = JNull) as (r1 & Hr1 & Hi1 & Hst1 & Hn1).
  { unfold run_mark_running, run_change. rewrite Hp. by eexists. }
  simpl. rewrite Hr1. set (s2 := set_ticks _ _). destruct (store_run run r1 s2) as (s3 & r & Hu & Hs3 & Ht3 & Hc & Hv3).
  { by destruct s. }
  { destruct s. by rewrite <- Hk in Hv. }
  { done. }
  rewrite Hu. unfold run_core in Hc. injection Hc as Hc1 Hc2 Hc3 _.
  exists s3, r. split_and!; [done|done|done|congruence|congruence| |congruence|done|by rewrite Ht3]. rewrite Hv3. by destruct s.
Qed.

(** The [finally] clause touches the thread only while it is busy. *)
Lemma finally_step x r (s : Service) :
  ready r s → run_thread_id (ex_run x) = run_thread_id r →
  (∀ i, run_thread_id r = Some i → thread_status_at s (id_value i) ≠ Some BUSY) →
  let s' := (exec_finally clock x s).2 in
  svc_runs s' = svc_runs s ∧ svc_threads s' = svc_threads s.
Proof using TL.
  intros (Hg & Ht & Hth) Hi Hnb. unfold exec_finally, bind, modify, on_commands, zoom. rewrite Hi.
  set (s1 := set_active _ s). destruct (run_thread_id r) as [i|].
  - destruct Hth as [th Hth]. rewrite (thread_get_step s1 (id_value i) th) by done.
    rewrite decide_False; [simpl; by destruct (queue_acknowledge (ex_receipt x) (svc_commands s))|].
    intros Hb. apply (Hnb i); [done|]. unfold thread_status_at. rewrite Hth. simpl. by rewrite Hb.
  - simpl. by destruct (queue_acknowledge (ex_receipt x) (svc_commands s)).
Qed.

(** How the end of the stream leaves a run that its last event has settled. *)
Definition end_type (middle : list RuntimeEventDraft) (e : stream_end) : RuntimeEventType :=
  match e with
  | Raised CancelledError => RUN_CANCELLED
  | Raised _ => RUN_FAILED
  | Exhausted => if existsb (λ d, type_is (draft_type d) INTERRUPT_CREATED) middle
                 then RUN_INTERRUPTED else RUN_COMPLETED
  end.
Lemma end_type_settling middle e : end_type middle e ∈ SETTLING.
Proof. unfold end_type. destruct e as [|[]]; repeat case_match; by apply (bool_decide_unpack _). Qed.

Lemma end_step x x' e middle r (s : Service) :
  ready r s → view s !! run_key (ex_run x) = Some r → ex_terminal x' = true →
  run_status r = settled_status (end_type middle e) →
  (try_except (exec_end clock x' e) (exec_failed clock fresh x) s).2 = s.
Proof using RL.
  intros Hs Hv Hx Hst. unfold try_except, exec_end. destruct e as [|e].
  - by rewrite Hx.
  - unfold raise, exec_failed, bind, on_runs, zoom.
    rewrite (runs_get_some (svc_runs s) _ r); [|apply Hs|exact Hv].
    assert (set_runs (svc_runs s) s = s) as -> by by destruct s. unfold ret, raise.
    destruct e; simpl in Hst; rewrite Hst; simpl; try done; by rewrite decide_True.
Qed.

Lemma exec_events_app x ds ds' (s : Service) :
  exec_events x (ds ++ ds') s = (x' <- exec_events x ds;; exec_events x' ds') s.
Proof.
  revert x s. induction ds as [|d ds IH]; intros x s; [done|]. cbn [Service.exec_events app].
  unfold bind. destruct (exec_event x d s) as [[x1|e1] s1]; [|done]. rewrite IH. done.
Qed.

(** A stream of events that do not settle the run and one that does. *)
Lemma execute_settles i receipt (adapter : A) run first middle final e (s : Service) :
  ready run s → view s !! command_run receipt = Some run → run_status run = PENDING →
  Forall (Adapter.body_draft i) (first :: middle) → draft_type final = Known (end_type middle e) →
  let s' := (execute_receipt receipt adapter (first :: middle ++ [final]) e s).2 in
  runs_inv (svc_runs s') ∧
  ∃ r, view s' = <[command_run receipt := r]> (view s) ∧ run_identity r = run_identity run ∧
    run_status r = settled_status (end_type middle e) ∧
    (end_type middle e = RUN_COMPLETED → run_result r = last_values (first :: middle) JNull) ∧
    (∀ t, run_thread_id run = Some t →
       thread_status_at s' (id_value t) = Some (settled_thread (end_type middle e))).
Proof using RL TL JL.
  intros Hs Hv Hp Hb Hf. pose proof (view_key s _ _ (proj1 Hs) Hv) as Hk.
  destruct (begin_and_run receipt adapter run s Hs Hv Hp) as (s1 & s2 & r1 & Hbeg & Hrun & Hs2 & Hi1 & Hst1 & Hv2 & _).
  set (x := mk_execution receipt run JNull false) in *.
  assert (run_key r1 = run_key run) as Hk1 by (unfold run_key, run_run_id; by rewrite Hi1).
  assert (run_thread_id r1 = run_thread_id run) as Hth by (unfold run_thread_id; by rewrite Hi1).
  destruct (body_events i (first :: middle) x s2 Hb) as (s3 & Hbody & Hc3); [apply Hs2|].
  set (x3 := mk_execution _ _ _ _) in Hbody.
  assert (view s3 !! run_key r1 = Some r1) as Hv3
    by (rewrite (view_core s2 s3) by done; rewrite Hv2, Hk1; apply lookup_insert_eq).
  assert (ready r1 s3) as Hs3.
  { eapply ready_core; [|done]. unfold ready. rewrite Hth. exact Hs2. }
  destruct (final_event x3 final (end_type middle e) r1 s3 Hs3 Hv3) as
    (s4 & r & Hfin & Hs4 & Hv4 & Hst4 & Hi4 & Hres & Hth4); [done..|apply end_type_settling|].
  assert (view s4 = <[command_run receipt := r]> (view s)) as Hv4'.
  { rewrite Hv4, (view_core s2 s3), Hv2, Hk1, Hk by done. by rewrite insert_insert_eq. }
  assert ((execute_receipt receipt adapter (first :: middle ++ [final]) e s).2 =
    (exec_finally clock x s4).2) as Hex.
  { unfold execute_receipt, bind at 1. rewrite Hbeg. unfold try_finally.
    assert ((try_except (exec_running clock x;;; x' <- exec_events x ((first :: middle) ++ [final]);;
      exec_end clock x' e) (exec_failed clock fresh x) s1).2 = s4) as Hbodyeq.
    { rewrite <- (end_step x (mk_execution (ex_receipt x3) (ex_run x3) (ex_last_result x3) true) e middle r s4);
        [|eapply ready_core; [|by split_and!]; unfold ready, run_thread_id; rewrite Hi4; exact Hs4
         |change (run_key (ex_run x)) with (run_key run); rewrite <- Hk1, Hv4; apply lookup_insert_eq|done|done].
      unfold try_except, bind. rewrite Hrun, exec_events_app. unfold bind. rewrite Hbody.
      cbn [Service.exec_events]. unfold bind. rewrite Hfin. done. }
    destruct (try_except _ _ s1) as [o s5]. simpl in Hbodyeq. subst s5.
    by destruct (exec_finally clock x s4) as [[?|?] ?]. }
  destruct (finally_step x r1 s4 Hs4) as [Hr5 Ht5]; [by rewrite Hth|..].
  { intros t Ht. rewrite (Hth4 t Ht). unfold settled_thread. by case_decide. }
  intros s'. unfold s'. rewrite Hex. unfold view, thread_status_at, thread_view. rewrite Hr5, Ht5.
  split; [apply Hs4|]. exists r.
  split_and!; [exact Hv4'|congruence|done|exact Hres|]. intros t Ht. apply Hth4. congruence.
Qed.

(** The adapter's drafts, executed. *)
Lemma langgraph_executed (py_repr : pyval → string)
  (astream : Adapter.graph_input → Adapter.astream_arguments → list pyval * stream_end)
  (task : option Z) (tasks tasks' : Adapter.Tasks) (receipt : RunCommandReceipt) (adapter : A)
  (run : Run) (ds : list RuntimeEventDraft) (e : stream_end) (s : Service) :
  let request := cmd_request (rcp_command receipt) in
  ready run s → view s !! command_run receipt = Some run → run_status run = PENDING →
  is_ok (Adapter.stream_arguments request) = true →
  Adapter.stream py_repr astream task request tasks = (Ok (ds, e), tasks') →
  let s' := (execute_receipt receipt adapter ds e s).2 in
  let interrupted := existsb (λ d, type_is (draft_type d) INTERRUPT_CREATED) ds in
  runs_inv (svc_runs s') ∧
  ∃ r, view s' = <[command_run receipt := r]> (view s) ∧ run_identity r = run_identity run ∧
    run_status r = match e with
                   | Raised CancelledError => CANCELLED
                   | Raised _ => ERROR
                   | Exhausted => if interrupted then INTERRUPTED else SUCCESS
                   end ∧
    (run_status r = SUCCESS → run_result r = last_values ds JNull) ∧
    (∀ t, run_thread_id run = Some t →
       thread_status_at s' (id_value t) =
         Some (if decide (run_status r = INTERRUPTED) then THREAD_INTERRUPTED else IDLE)).
Proof using RL TL JL.
  intros request Hs Hv Hp Ha Hstream s' interrupted. unfold Adapter.stream, Adapter.enter, Adapter.leave, bind, modify in Hstream.
  destruct (Adapter.stream_arguments request) as [[a mode]|err]; [|discriminate Ha].
  pose proof (Adapter.stream_drafts_shape py_repr astream request a mode) as Hshape.
  destruct (Adapter.stream_drafts py_repr astream request a mode) as [ds0 e0]. simpl in Hstream.
  injection Hstream as -> -> _. destruct Hshape as (middle & final & Hds & Hb & _ & Hf & _).
  assert (Adapter.body_draft (req_identity request) (Adapter.started_draft request)) as Hstart
    by (split; [done|]; exists RUN_STARTED; split; [done|]; by apply (bool_decide_unpack _)).
  destruct (execute_settles (req_identity request) receipt adapter run (Adapter.started_draft request) middle final e s)
    as (Hinv & r & Hv' & Hi & Hst & Hres & Hth); [done..|by constructor|exact Hf|].
  rewrite <- Hds in Hinv, Hv', Hth. split; [exact Hinv|]. exists r.
  assert (existsb (λ d, type_is (draft_type d) INTERRUPT_CREATED) middle = interrupted) as Hint.
  { unfold interrupted. rewrite Hds. simpl. rewrite existsb_app. simpl. rewrite Hf.
    destruct (existsb _ middle); simpl; [done|]. by destruct e as [|[]]. }
  unfold end_type in Hst, Hres, Hth. rewrite Hint in Hst, Hres, Hth.
  assert (last_values ds JNull = last_values (Adapter.started_draft request :: middle) JNull) as Hlast.
  { unfold last_values. rewrite Hds. simpl. rewrite foldl_app. simpl. rewrite Hf, Hint.
    destruct e as [|[]]; try done. by destruct interrupted. }
  rewrite Hlast. unfold settled_thread in Hth.
  split_and!; [done|done| | |].
  - rewrite Hst. destruct e as [|[]]; try done. by destruct interrupted.
  - intros Hsuc. apply Hres. rewrite Hst in Hsuc. destruct e as [|[]]; try done. by destruct interrupted.
  - intros t Ht. unfold s'. rewrite (Hth t Ht), Hst. destruct e as [|[]]; try done. by destruct interrupted.
Qed.

(** C10: what becomes of a run.  The service executes a pending run with a
    LangGraph adapter: if the graph's stream ends normally, the run succeeds with
    the values of its last state, or is interrupted if a state reported an
    interrupt; if the graph is cancelled the run is cancelled; if anything raises
    (the graph, or the mapping of a payload) the run is in error.  The run's
    thread is interrupted or idle, never left busy, and no other run changes. *)
Theorem langgraph_run_outcome (py_repr : pyval → string)
  (astream : Adapter.graph_input → Adapter.astream_arguments → list pyval * stream_end)
  (task : option Z) (tasks tasks' : Adapter.Tasks) (receipt : RunCommandReceipt) (adapter : A)
  (run : Run) (ds : list RuntimeEventDraft) (e : stream_end) (s : Service) :
  let request := cmd_request (rcp_command receipt) in
  ready run s → view s !! command_run receipt = Some run → run_status run = PENDING →
  is_ok (Adapter.stream_arguments request) = true →
  Adapter.stream py_repr astream task request tasks = (Ok (ds, e), tasks') →
  let s' := (execute_receipt receipt adapter ds e s).2 in
  let interrupted := existsb (λ d, type_is (draft_type d) INTERRUPT_CREATED) ds in
  ∃ r, view s' = <[command_run receipt := r]> (view s) ∧ run_identity r = run_identity run ∧
    run_status r = match e with
                   | Raised CancelledError => CANCELLED
                   | Raised _ => ERROR
                   | Exhausted => if interrupted then INTERRUPTED else SUCCESS
                   end ∧
    (run_status r = SUCCESS → run_result r = last_values ds JNull) ∧
    (∀ t, run_thread_id run = Some t →
       thread_status_at s' (id_value t) =
         Some (if decide (run_status r = INTERRUPTED) then THREAD_INTERRUPTED else IDLE)).
Proof using RL TL JL. intros. by eapply langgraph_executed. Qed.
End Runs.

(** The drafts of a LangGraph run, as they are consumed: events that do not settle
    the run, then the one that does. *)
Lemma langgraph_drafts (py_repr : pyval → string)
  (astream : Adapter.graph_input → Adapter.astream_arguments → list pyval * stream_end)
  (task : option Z) (tasks tasks' : Adapter.Tasks) (request : ExecutionRequest) ds e :
  is_ok (Adapter.stream_arguments request) = true →
  Adapter.stream py_repr astream task request tasks = (Ok (ds, e), tasks') →
  ∃ body final, ds = body ++ [final] ∧ Forall (Adapter.body_draft (req_identity request)) body ∧
    draft_type final = Known (end_type body e) ∧ end_type ds e = end_type body e ∧
    last_values ds JNull = last_values body JNull ∧
    (end_type body e = RUN_COMPLETED →
       draft_data final = JObj [("run_id", JStr (id_value (run_id (req_identity request))))]).
Proof.
  intros Hok Hstream. unfold Adapter.stream, Adapter.enter, Adapter.leave, bind, modify in Hstream.
  destruct (Adapter.stream_arguments request) as [[args mode]|]; [|discriminate Hok].
  pose proof (Adapter.stream_drafts_shape py_repr astream request args mode) as Hshape.
  destruct (Adapter.stream_drafts py_repr astream request args mode) as [ds' e']. simpl in Hstream.
  injection Hstream as -> -> _. destruct Hshape as (middle & final & -> & Hb & _ & Hf & Hfin).
  exists (Adapter.started_draft request :: middle), final. split; [done|].
  change (draft_type final = Known (end_type middle e)) in Hf.
  change (end_type (_ :: middle) e) with (end_type middle e).
  split; [constructor; [|done]; split; [done|]; exists RUN_STARTED; split; [done|]; by apply (bool_decide_unpack _)|].
  split; [done|]. split; [|split].
  - unfold end_type in *. destruct e as [|[]]; try done. cbn [existsb app]. rewrite existsb_app. cbn [existsb].
    rewrite Hf. by destruct (existsb _ middle).
  - unfold last_values. rewrite app_comm_cons, foldl_app. cbn [foldl]. rewrite Hf.
    unfold end_type. destruct e as [|[]]; try done. by destruct (existsb _ middle).
  - rewrite Hfin. unfold end_type. destruct e as [|[]]; try done; by destruct (existsb _ middle).
Qed.

(** The status that the end of the stream gives a run. *)
Lemma end_type_status ds e :
  settled_status (end_type ds e) = match e with
                                   | Raised CancelledError => CANCELLED
                                   | Raised _ => ERROR
                                   | Exhausted => if existsb (λ d, type_is (draft_type d) INTERRUPT_CREATED) ds
                                                  then INTERRUPTED else SUCCESS
                                   end.
Proof. unfold end_type. destruct e as [|[]]; try done. by destruct (existsb _ ds). Qed.
Lemma end_type_success ds e : settled_status (end_type ds e) = SUCCESS → end_type ds e = RUN_COMPLETED.
Proof. unfold end_type. destruct e as [|[]]; try done. by destruct (existsb _ ds). Qed.

(** ** The local runtime *)
Module LocalRuns.
Import Local.

Definition state_graph (i : Adapter.graph_input) (a : Adapter.astream_arguments) : list pyval * stream_end :=
  ([VDict [(KStr "n", VInt 1)]; VDict [(KStr "n", VInt 2)]], Exhausted).

Lemma langgraph_run_outcome_witness :
  ∃ ds e t r, Adapter.stream (λ _, "") state_graph (Some 1) (request "r1" "t") [] = (Ok (ds, e), t) ∧
    view (execute_receipt clock fresh json_str (receipt "r1" "t") tt ds e one_pending).2 !! "r1" = Some r ∧
    run_status r = SUCCESS ∧ run_result r = JObj [("n", JInt 2)].
Proof.
  destruct (Adapter.stream (λ _, "") state_graph (Some 1) (request "r1" "t") []) as [[[ds e]|?] t] eqn:Hs;
    [|discriminate Hs].
  destruct (langgraph_run_outcome clock fresh json_str (λ _, "") state_graph (Some 1) [] t
    (receipt "r1" "t") tt (pending_run "r1" "t") ds e one_pending) as (r & Hv & _ & Hst & Hres & _).
  - split; [apply one_pending_quiescent|]. split; [split; [apply NoDup_singleton|]|].
    + intros k th. cbn. case_decide; intros; by simplify_eq.
    + exists (thread "t"). symmetry. exact (dget_map [("t", thread "t")] "t").
  - exact (view_lookup one_pending "r1").
  - reflexivity.
  - reflexivity.
  - exact Hs.
  - exists ds, e, t, r. split; [reflexivity|].
    split; [rewrite Hv; apply lookup_insert_eq|].
    vm_compute in Hs. injection Hs as Hds He _. subst e. simpl in Hst.
    assert (run_status r = SUCCESS) as Hsuc by (rewrite Hst, <- Hds; reflexivity).
    split; [exact Hsuc|]. rewrite (Hres Hsuc), <- Hds. reflexivity.
Defined.
End LocalRuns.
