(* ===== verification/Executions.v ===== *)
(** * What becomes of an executed run

    [_execute_receipt] of the execution service for any adapter: a reference that goes
    over the events' types and values only, and says how the run and its thread end,
    also for streams that settle the run more than once, contradict themselves, or fail
    behind the event that settled it. *)

From S2P Require Import Prelude PyDict PyStr Json Errors Identity Execution Ports.
From S2P Require Import MemoryRepositories MemoryQueue MemoryJournal MemoryStores Service ServiceSafety ServiceSpec.
From S2P Require Import LangGraph LangGraphRuns.

(** ** The reference *)

(** The status and the result of a run, and the status of its thread. *)
Record fate : Type := mk_fate {
  fate_status : RunStatus;
  fate_result : json;
  fate_thread : ThreadStatus;
}.

(** The status that an event asks for; a type that is a plain text asks for a failure,
    whatever it names. *)
Definition asked_status (t : event_type) : RunStatus :=
  match t with Known t => settled_status t | Text _ => ERROR end.

(** The settling events of a stream, with the last values before each. *)
Fixpoint settlings (last : json) (ds : list RuntimeEventDraft) : list (event_type * json) :=
  match ds with
  | [] => []
  | d :: ds =>
      if type_in (draft_type d) SETTLING then (draft_type d, last) :: settlings last ds
      else settlings (if type_is (draft_type d) STATE_VALUES then draft_data d else last) ds
  end.

(** An interrupt is always taken; a run that is over refuses any other status than its
    own. *)
Definition event_fate (f : fate) (ev : event_type * json) : option fate :=
  let '(t, last) := ev in
  if type_is t RUN_INTERRUPTED then Some (mk_fate INTERRUPTED (fate_result f) THREAD_INTERRUPTED)
  else if terminal_status (fate_status f) && negb (bool_decide (asked_status t = fate_status f)) then None
  else Some (mk_fate (asked_status t) (if type_is t RUN_COMPLETED then last else JNull) IDLE).

(** Up to the first event that is refused. *)
Fixpoint events_fate (f : fate) (evs : list (event_type * json)) : fate * bool :=
  match evs with
  | [] => (f, false)
  | ev :: evs => match event_fate f ev with Some f => events_fate f evs | None => (f, true) end
  end.

(** A stream without a settling event succeeds at its end; an exception fails or cancels
    a run that is not over. *)
Definition run_fate (ds : list RuntimeEventDraft) (e : stream_end) : fate :=
  let '(f, refused) := events_fate (mk_fate RUNNING JNull IDLE) (settlings JNull ds) in
  if refused then f else
  match e with
  | Exhausted =>
      match settlings JNull ds with [] => mk_fate SUCCESS (last_values ds JNull) IDLE | _ :: _ => f end
  | Raised err =>
      if terminal_status (fate_status f) then f
      else mk_fate (match err with CancelledError => CANCELLED | _ => ERROR end) JNull (fate_thread f)
  end.

(** A settled run's thread is not busy. *)
Lemma run_fate_thread ds e : fate_thread (run_fate ds e) ≠ BUSY.
Proof.
  assert (∀ evs f, fate_thread f ≠ BUSY → fate_thread (events_fate f evs).1 ≠ BUSY) as Hev.
  { induction evs as [|[t last] evs IH]; intros f Hf; [done|]. simpl. destruct (type_is t RUN_INTERRUPTED); [by apply IH|].
    destruct (terminal_status _ && _); [done|]. by apply IH. }
  unfold run_fate. specialize (Hev (settlings JNull ds) (mk_fate RUNNING JNull IDLE)).
  destruct (events_fate _ _) as [f []]; simpl in Hev; [by apply Hev|].
  destruct e; [destruct (settlings JNull ds)|destruct (terminal_status _)]; by try apply Hev.
Qed.

(** How the event's outcome for a run is its fate. *)
Definition fits (f : fate) (st : RunStatus) (v : json) : Prop :=
  st = fate_status f ∧ v = fate_result f ∧ (fate_status f = CANCELLED → fate_result f = JNull).

Lemma event_outcome_fate (json_str : json → string) (ev : event_type * json) (data : json) (r : Run) f at_ :
  type_in ev.1 SETTLING = true → fits f (run_status r) (run_result r) →
  match event_fate f ev with
  | Some f' => ∃ r1, event_outcome json_str ev.1 data ev.2 r at_ = Ok r1 ∧ run_identity r1 = run_identity r ∧
                 fits f' (run_status r1) (run_result r1)
  | None => ∃ m, event_outcome json_str ev.1 data ev.2 r at_ = Raise (ValueError m) ∧
              terminal_status (fate_status f) = true
  end.
Proof.
  intros Ht. destruct ev as [t last]. assert (match t with Known t => t ∈ SETTLING | Text _ => True end) as Hin.
  { destruct t; [|done]. by apply type_in_known. }
  clear Ht. destruct f as [st v th], r as [i st' m c u v' e]. unfold fits. simpl. intros (-> & -> & Hc).
  unfold event_fate, event_outcome, run_complete, run_cancel, run_fail, run_change. simpl.
  destruct t as [t|txt]; [|destruct st; simpl; eexists; by split_and!].
  unfold SETTLING in Hin. rewrite !elem_of_cons, elem_of_nil in Hin.
  destruct Hin as [->|[->|[->|[->|[->|[]]]]]]; destruct st; simpl; eexists; by split_and!; auto.
Qed.

(** ** The execution *)

Section Executions.
Context {R T Q J O A : Type}
  `{!RunRepository R, RL : !RunRepositoryLaws R, !ThreadRepository T, TL : !ThreadRepositoryLaws T,
    !RunCommandQueue Q, !EventJournal J, JL : !EventJournalLaws J, !OutboxRepository O}
  (clock : nat → datetime) (fresh : nat → string) (json_str : json → string).

Notation Service := (Service (R:=R) (T:=T) (Q:=Q) (J:=J) (O:=O) (A:=A)).
Notation exec_event := (exec_event clock fresh json_str).
Notation exec_events := (exec_events clock fresh json_str).
Notation execute_receipt := (execute_receipt clock fresh json_str).

Section Progress.
Context (run : Run) (s0 : Service).

(** What the events have made of the run [run] since [s0]; its thread is as in [s0] until an
    event settles the run. *)
Definition in_progress (f : fate) (r : Run) (s : Service) : Prop :=
  ready run s ∧ view s = <[run_key run := r]> (view s0) ∧ run_identity r = run_identity run ∧
  fits f (run_status r) (run_result r) ∧
  ∀ i, run_thread_id run = Some i →
    thread_status_at s (id_value i) = Some (fate_thread f) ∨
    thread_status_at s (id_value i) = thread_status_at s0 (id_value i) ∧ fate_thread f = IDLE.

Lemma in_progress_core f r s s' : in_progress f r s → same_core s s' → in_progress f r s'.
Proof.
  intros (Hs & Hv & Hi & Hf & Ht) Hc. split; [by eapply ready_core|]. split; [by rewrite (view_core s s')|].
  split_and!; try done. intros i Hth. unfold thread_status_at, thread_view. destruct Hc as (_ & -> & _). by apply Ht.
Qed.
Lemma in_progress_run f r s : in_progress f r s →
  run_key r = run_key run ∧ run_thread_id r = run_thread_id run ∧ view s !! run_key r = Some r ∧ ready r s.
Proof.
  intros (Hs & Hv & Hi & _). assert (run_key r = run_key run) as Hk by (unfold run_key, run_run_id; by rewrite Hi).
  split_and!; [done|unfold run_thread_id; by rewrite Hi|rewrite Hv, Hk; apply lookup_insert_eq|].
  unfold ready, run_thread_id in *. by rewrite Hi.
Qed.

(** The run as it is stored. *)
Lemma in_progress_get f r s : in_progress f r s → on_runs (runs_get (run_key run)) s = (Ok r, s).
Proof using RL.
  intros Hp. destruct (in_progress_run _ _ _ Hp) as (Hk & _ & Hv & Hs). rewrite <- Hk.
  unfold on_runs, zoom. rewrite (runs_get_some _ _ r); [by destruct s|apply Hs|done].
Qed.
(** Storing another state of the run, with its thread as it is. *)
Lemma in_progress_store f f' r r1 s :
  in_progress f r s → run_identity r1 = run_identity r → fits f' (run_status r1) (run_result r1) →
  fate_thread f' = fate_thread f →
  ∃ r' s', on_runs (runs_update r1) s = (Ok r1, s') ∧ in_progress f' r' s'.
Proof using RL.
  intros Hp Hi Hf Hft. destruct (in_progress_run _ _ _ Hp) as (Hk & Hth & Hv & Hs).
  destruct Hp as (Hs0 & Hv0 & Hi0 & _ & Ht).
  destruct (store_run r r1 s Hs Hv Hi) as (s' & r' & Hu & Hs' & Ht' & Hc & Hv').
  unfold run_core in Hc. injection Hc as Hc1 Hc2 Hc3 _. exists r', s'. split; [done|].
  split; [unfold ready in *; by rewrite <- Hth|]. split; [rewrite Hv', Hv0, Hk; apply insert_insert_eq|].
  split; [congruence|]. split; [by rewrite Hc2, Hc3|].
  intros i Hi'. unfold thread_status_at, thread_view. rewrite Ht', Hft. by apply Ht.
Qed.
End Progress.

(** The events of a stream, up to one that is refused. *)
Lemma events_in_progress run s0 ds x f r (s : Service) :
  in_progress run s0 f r s → ex_run x = run →
  let '(f', refused) := events_fate f (settlings (ex_last_result x) ds) in
  ∃ o r' s', exec_events x ds s = (o, s') ∧ in_progress run s0 f' r' s' ∧
    if refused then ∃ m, o = Raise (ValueError m) ∧ terminal_status (fate_status f') = true
    else ∃ x', o = Ok x' ∧ ex_run x' = run ∧ ex_last_result x' = last_values ds (ex_last_result x) ∧
           ex_terminal x' = ex_terminal x || match settlings (ex_last_result x) ds with [] => false | _ :: _ => true end.
Proof using RL TL JL.
  revert x f r s. induction ds as [|d ds IH]; intros x f r s Hp Hx.
  { simpl. exists (Ok x), r, s. split_and!; try done. exists x. split_and!; try done. by rewrite orb_false_r. }
  destruct (in_progress_run _ _ _ _ _ Hp) as (Hk & Hth & Hv & Hs).
  cbn [settlings Service.exec_events]. destruct (type_in (draft_type d) SETTLING) eqn:Hset.
  - cbn [events_fate]. destruct (event_fate f _) as [f1|] eqn:Hf1.
    + destruct (settling_event clock fresh json_str x d r (fits f1) s) as (s1 & r1 & He & Hs1 & Hv1 & Hfit & Hi1 & Hth1);
        try done; [by rewrite Hx|..].
      { intros at_. pose proof (event_outcome_fate json_str (draft_type d, ex_last_result x) (draft_data d) r f at_ Hset) as Ho.
        rewrite Hf1 in Ho. apply Ho, Hp. }
      set (x1 := mk_execution _ _ _ _) in He. unfold bind. rewrite He.
      specialize (IH x1 f1 r1 s1). cbn [ex_last_result x1] in IH.
      destruct (events_fate f1 _) as [f' refused]. destruct IH as (o & r' & s' & Hrun & Hp' & Hcase); [|done|].
      { destruct Hp as (Hs' & Hv0 & Hi0 & _). split; [unfold ready in *; by rewrite <- Hth|].
        split; [rewrite Hv1, Hv0, Hk; apply insert_insert_eq|]. split_and!; [congruence|done|].
        intros i Hi. left. rewrite Hth1 by congruence. unfold event_fate in Hf1.
        destruct (type_is (draft_type d) RUN_INTERRUPTED); [by injection Hf1 as <-|].
        destruct (terminal_status _ && _); [done|]. by injection Hf1 as <-. }
      exists o, r', s'. split_and!; try done. destruct refused; [done|]. destruct Hcase as (x' & -> & Hr & Hl & Ht).
      exists x'. split_and!; [done|done| |by rewrite Ht, orb_true_r].
      rewrite Hl. unfold last_values. simpl. f_equal.
      destruct (draft_type d) as [t|]; [|done]. simpl. case_bool_decide; [|done]. subst t. by vm_compute in Hset.
    + destruct (append_step clock fresh d s) as (e & s1 & Ha & Hc1 & He & Hd); [apply Hs|].
      unfold Service.exec_event, bind. rewrite Ha, He, Hd, Hset, Hx.
      assert (in_progress run s0 f r s1) as Hp1 by by eapply in_progress_core.
      rewrite (in_progress_get run s0 f r s1 Hp1). unfold now, of_result.
      assert (type_is (draft_type d) STATE_VALUES = false) as ->.
      { destruct (draft_type d) as [t|]; [|done]. apply bool_decide_eq_false. intros ->. by vm_compute in Hset. }
      pose proof (event_outcome_fate json_str (draft_type d, ex_last_result x) (draft_data d) r f (clock (svc_ticks s1)) Hset) as Ho.
      rewrite Hf1 in Ho. destruct Ho as (m & Hm & Hterm); [apply Hp|]. cbn [fst snd] in Hm. rewrite Hm.
      do 3 eexists. split; [reflexivity|]. split; [|by eauto].
      eapply in_progress_core; [exact Hp1|]. by split_and!.
  - destruct (append_step clock fresh d s) as (e & s1 & Ha & Hc1 & He & Hd); [apply Hs|].
    assert (exec_event x d s = (Ok (mk_execution (ex_receipt x) (ex_run x)
      (if type_is (draft_type d) STATE_VALUES then draft_data d else ex_last_result x) (ex_terminal x)), s1)) as Hev.
    { unfold Service.exec_event, bind. by rewrite Ha, He, Hd, Hset. }
    unfold bind. rewrite Hev. by apply (IH (mk_execution _ _ _ _) f r s1); [eapply in_progress_core|].
Qed.

(** An event for the journal, and the run that [m] makes. *)
Lemma append_and_store run s0 d m st f r (s : Service) :
  in_progress run s0 f r s →
  (∀ t, ∃ r1, m t = Ok r1 ∧ run_identity r1 = run_identity r ∧ run_status r1 = st ∧ run_result r1 = JNull) →
  ∃ r' s', (append_event clock fresh d;;; t <- now clock;; r <- of_result (m t);; on_runs (runs_update r);;; ret tt) s =
      (Ok tt, s') ∧ in_progress run s0 (mk_fate st JNull (fate_thread f)) r' s'.
Proof using RL JL.
  intros Hp Hm. destruct (in_progress_run _ _ _ _ _ Hp) as (_ & _ & _ & Hs).
  destruct (append_step clock fresh d s) as (e & s1 & Ha & Hc & _); [apply Hs|].
  unfold bind, now, of_result. rewrite Ha. destruct (Hm (clock (svc_ticks s1))) as (r1 & -> & Hi1 & <- & Hv1).
  destruct (in_progress_store run s0 f (mk_fate (run_status r1) JNull (fate_thread f)) r r1 (set_ticks (S (svc_ticks s1)) s1))
    as (r' & s' & -> & Hp'); try done; [|by exists r', s'].
  eapply in_progress_core; [exact Hp|]. eapply same_core_trans; [exact Hc|]. by split_and!.
Qed.

(** The [except] clauses. *)
Lemma failed_in_progress run s0 x err f r (s : Service) :
  in_progress run s0 f r s → ex_run x = run →
  let f' := if terminal_status (fate_status f) then f
            else mk_fate (match err with CancelledError => CANCELLED | _ => ERROR end) JNull (fate_thread f) in
  ∃ r', in_progress run s0 f' r' (exec_failed clock fresh x err s).2.
Proof using RL JL.
  intros Hp Hx. cbv zeta. destruct (in_progress_run _ _ _ _ _ Hp) as (_ & _ & _ & Hs).
  pose proof Hp as (_ & _ & _ & (Hst & _) & _). rewrite <- Hst.
  unfold exec_failed. rewrite Hx. unfold bind at 1. rewrite (in_progress_get run s0 f r s Hp).
  destruct (terminal_status (run_status r)) eqn:Hterm.
  - exists r. destruct err; try exact Hp. destruct (decide _) as [|Hne]; [exact Hp|].
    set (d := simple_draft _ _ _). destruct (append_step clock fresh d s) as (e & s1 & Ha & Hc & _); [apply Hs|].
    unfold bind, now, of_result, run_cancel, run_change. rewrite Ha, decide_False, Hterm by done.
    rewrite bool_decide_false by done. simpl. eapply in_progress_core; [exact Hp|].
    eapply same_core_trans; [exact Hc|]. by split_and!.
  - assert (run_status r ≠ CANCELLED) as Hnc by (intros Hc; by rewrite Hc in Hterm).
    set (d := simple_draft _ RUN_FAILED _). set (error := new_run_error _ _ _ _).
    destruct (append_and_store run s0 d (run_fail r error) ERROR f r s Hp) as (r' & s' & Hf & Hp').
    { intros t. unfold run_fail, run_change. rewrite Hterm. by eexists. }
    destruct err; try (exists r'; unfold bind at 1; rewrite Hf; exact Hp').
    rewrite decide_False by done. clear r' s' Hf Hp'.
    destruct (append_and_store run s0 (simple_draft (req_identity (ex_request x)) RUN_CANCELLED JNull) (run_cancel r) CANCELLED f r s Hp)
      as (r' & s' & Hc & Hp'); [|exists r'; by rewrite Hc].
    intros t. unfold run_cancel, run_change. rewrite decide_False, Hterm by done. by eexists.
Qed.

(** The [finally] clause: a busy thread is idle, and the command is acknowledged. *)
Lemma finally_outcome x r (s : Service) :
  ready r s → run_thread_id (ex_run x) = run_thread_id r →
  let s' := (exec_finally clock x s).2 in
  svc_runs s' = svc_runs s ∧ svc_commands s' = (queue_acknowledge (ex_receipt x) (svc_commands s)).2 ∧
  ∀ i, run_thread_id r = Some i →
    thread_status_at s' (id_value i) =
      if decide (thread_status_at s (id_value i) = Some BUSY) then Some IDLE else thread_status_at s (id_value i).
Proof using TL.
  intros (Hg & Ht & Hth) Hi. unfold exec_finally, bind, modify. rewrite Hi. set (s1 := set_active _ s).
  assert (∀ s : Service, (on_commands (queue_acknowledge (ex_receipt x)) s).2 =
    set_commands (queue_acknowledge (ex_receipt x) (svc_commands s)).2 s) as Hack.
  { intros s2. unfold on_commands, zoom. by destruct (queue_acknowledge _ _). }
  destruct (run_thread_id r) as [i|]; [|unfold ret; cbv beta iota; by rewrite Hack].
  destruct Hth as [th Hth]. rewrite (thread_get_step s1 (id_value i) th) by done.
  assert (thread_status_at s (id_value i) = Some (thr_status th)) as Hst by (unfold thread_status_at; by rewrite Hth).
  destruct (decide (thr_status th = BUSY)) as [Hb|Hb].
  - unfold now. assert (thread_key th = id_value i) as Hk by by eapply threads_inv_key.
    destruct (thread_update_step (set_ticks (S (svc_ticks s1)) s1) (mark_idle th (clock (svc_ticks s1))))
      as (T' & Hu & _ & t' & Hv & Hs'); [done| |].
    { change (is_Some (thread_view s !! thread_key th)). rewrite Hk. by eexists. }
    rewrite Hu. unfold ret. rewrite Hack. split_and!; [done..|]. intros ? [= <-].
    rewrite decide_True by congruence. unfold thread_status_at, thread_view. cbn [svc_threads set_commands set_threads].
    rewrite Hv. change (thread_key (mark_idle th (clock (svc_ticks s1)))) with (thread_key th). rewrite Hk, lookup_insert_eq.
    simpl. by rewrite Hs'.
  - unfold ret. rewrite Hack. split_and!; [done..|]. intros ? [= <-]. rewrite decide_False by congruence. done.
Qed.

(** Nothing but the [finally] clause touches the commands. *)
Lemma keeps_commands_body (P : Q → Prop) x ds e :
  keeps_commands (R:=R) (T:=T) (J:=J) (O:=O) (A:=A) P
    (try_except (exec_running clock x;;; x' <- exec_events x ds;; exec_end clock x' e) (exec_failed clock fresh x)).
Proof.
  assert (∀ x, keeps_commands (R:=R) (T:=T) (J:=J) (O:=O) (A:=A) P (exec_events x ds)) as Hev.
  { induction ds as [|d ds IH]; intros x1; cbn [Service.exec_events]; [by apply keeps_commands_step|].
    apply keeps_commands_bind; [|intros x'; apply IH]. unfold Service.exec_event. keep_commands. }
  apply keeps_commands_except; [|intros err; unfold exec_failed; keep_commands].
  apply keeps_commands_bind; [unfold exec_running; keep_commands|intros _].
  apply keeps_commands_bind; [apply Hev|intros x']. unfold exec_end. keep_commands.
Qed.

(** The [try] block. *)
Lemma body_in_progress run s0 receipt ds e r (s : Service) :
  in_progress run s0 (mk_fate RUNNING JNull IDLE) r s →
  let x := mk_execution receipt run JNull false in
  ∃ r', in_progress run s0 (run_fate ds e) r'
    (try_except (x' <- exec_events x ds;; exec_end clock x' e) (exec_failed clock fresh x) s).2.
Proof using RL TL JL.
  intros Hp x. pose proof (events_in_progress run s0 ds x _ r s Hp eq_refl) as Hev. unfold run_fate.
  change (ex_last_result x) with JNull in Hev. change (ex_terminal x) with false in Hev.
  unfold try_except, bind. destruct (events_fate _ _) as [f refused] eqn:Hf.
  destruct Hev as (o & r1 & s1 & -> & Hp1 & Ho). destruct refused.
  - destruct Ho as (m & -> & Hterm).
    pose proof (failed_in_progress run s0 x (ValueError m) f r1 s1 Hp1 eq_refl) as Hfail. by rewrite Hterm in Hfail.
  - destruct Ho as (x' & -> & Hx' & Hl & Ht). destruct e as [|err].
    + unfold exec_end. rewrite Ht. simpl. destruct (settlings JNull ds) as [|ev evs]; [|by exists r1].
      simpl in Hf. injection Hf as <-. simpl.
      rewrite Hx'. unfold bind. rewrite (in_progress_get run s0 _ r1 s1 Hp1). unfold now, of_result.
      pose proof Hp1 as (_ & _ & _ & (Hst & _) & _). unfold run_complete, run_change. rewrite Hst. simpl.
      match goal with |- context [on_runs (runs_update ?q) ?t] =>
        destruct (in_progress_store run s0 (mk_fate RUNNING JNull IDLE) (mk_fate SUCCESS (last_values ds JNull) IDLE) r1 q t)
          as (r' & s' & -> & Hp'); [by eapply in_progress_core|done|by rewrite Hl|done|] end.
      by exists r'.
    + unfold exec_end, raise. exact (failed_in_progress run s0 x err f r1 s1 Hp1 eq_refl).
Qed.

(** C11: what becomes of a run that any adapter executes.  Whatever a pending run's adapter
    yields and however its stream ends, the run, its result and its thread end as
    [run_fate] says: a stream without a settling event succeeds with its last values;
    each settling event is taken in turn, an interrupt always and any other unless the run
    is over with another status, and the first that is refused ends the stream; behind them
    an exception cancels or fails a run that is not over and leaves one that is.  The
    thread is not left busy, no other run changes, and the command is acknowledged, always. *)
Theorem execute_receipt_outcome (receipt : RunCommandReceipt) (adapter : A) (run : Run)
  (ds : list RuntimeEventDraft) (e : stream_end) (s : Service) :
  ready run s → view s !! command_run receipt = Some run → run_status run = PENDING →
  let s' := (execute_receipt receipt adapter ds e s).2 in
  let f := run_fate ds e in
  svc_commands s' = (queue_acknowledge receipt (svc_commands s)).2 ∧
  ∃ r, view s' = <[command_run receipt := r]> (view s) ∧ run_identity r = run_identity run ∧
    run_status r = fate_status f ∧ run_result r = fate_result f ∧
    ∀ t, run_thread_id run = Some t →
      thread_status_at s' (id_value t) ≠ Some BUSY ∧
      (thread_status_at s (id_value t) = Some BUSY → thread_status_at s' (id_value t) = Some (fate_thread f)).
Proof using RL TL JL.
  intros Hs Hv Hp s' f. pose proof (view_key s _ _ (proj1 Hs) Hv) as Hk.
  destruct (begin_and_run clock receipt adapter run s Hs Hv Hp)
    as (s1 & s2 & r1 & Hbeg & Hrun & Hs2 & Hi1 & Hst1 & Hv2 & Hn1 & Hc1 & Ht2).
  set (x := mk_execution receipt run JNull false) in *.
  assert (in_progress run s (mk_fate RUNNING JNull IDLE) r1 s2) as Hp2.
  { split_and!; try done. intros i _. right. unfold thread_status_at, thread_view. by rewrite Ht2. }
  destruct (body_in_progress run s receipt ds e r1 s2 Hp2) as (r & Hp3). fold x f in Hp3.
  pose proof (keeps_commands_body (λ q, q = svc_commands s) x ds e s1 Hc1) as Hc3.
  assert (s' = (exec_finally clock x (try_except (exec_running clock x;;; x' <- exec_events x ds;; exec_end clock x' e)
    (exec_failed clock fresh x) s1).2).2) as Hs'.
  { unfold s', Service.execute_receipt. unfold bind at 1. rewrite Hbeg. unfold try_finally.
    destruct (try_except _ _ s1) as [o s3]. cbn [snd]. clear. destruct (exec_finally clock x s3) as [[?|?] ?]; reflexivity. }
  assert (try_except (exec_running clock x;;; x' <- exec_events x ds;; exec_end clock x' e) (exec_failed clock fresh x) s1 =
    try_except (x' <- exec_events x ds;; exec_end clock x' e) (exec_failed clock fresh x) s2) as Htry.
  { unfold try_except. unfold bind at 1. by rewrite Hrun. }
  rewrite Htry in Hs', Hc3. set (s3 := (try_except _ _ s2).2) in *.
  destruct (in_progress_run _ _ _ _ _ Hp3) as (Hk3 & Hth3 & _ & Hs3).
  destruct (finally_outcome x r s3 Hs3 (eq_sym Hth3)) as (Hr4 & Hc4 & Ht4). rewrite <- Hs' in Hr4, Hc4, Ht4.
  destruct Hp3 as (_ & Hv3 & Hi3 & (Hst3 & Hres3 & _) & Ht3).
  split; [by rewrite Hc4, Hc3|]. exists r. split_and!; try done.
  - unfold view in *. by rewrite Hr4, Hv3, Hk.
  - intros t Ht. rewrite Ht4 by congruence. specialize (Ht3 t Ht).
    assert (fate_thread f ≠ BUSY) as Hnb by apply run_fate_thread. split; [by case_decide|].
    intros Hb. case_decide as Hd; destruct Ht3 as [H3|[H3 H4]]; congruence.
Qed.
End Executions.

Module LocalExecutions.
Import Local.

Definition i : ExecutionIdentity := req_identity (request "r1" "t").
Definition values (n : Z) : RuntimeEventDraft := simple_draft i STATE_VALUES (JObj [("n", JInt n)]).
Definition settle (t : RuntimeEventType) : RuntimeEventDraft := simple_draft i t JNull.

(** Streams that a LangGraph adapter never yields. *)
Example run_fates :
  run_fate [values 1; values 2] Exhausted = mk_fate SUCCESS (JObj [("n", JInt 2)]) IDLE ∧
  run_fate [values 1; settle RUN_COMPLETED; values 2; settle RUN_FAILED] Exhausted = mk_fate SUCCESS (JObj [("n", JInt 1)]) IDLE ∧
  run_fate [settle RUN_FAILED; settle RUN_INTERRUPTED] Exhausted = mk_fate INTERRUPTED JNull THREAD_INTERRUPTED ∧
  run_fate [settle RUN_INTERRUPTED] (Raised (ValueError "")) = mk_fate ERROR JNull THREAD_INTERRUPTED ∧
  run_fate [mk_draft i (Text "run.completed") [] JNull []] Exhausted = mk_fate ERROR JNull IDLE ∧
  run_fate [settle RUN_COMPLETED] (Raised CancelledError) = mk_fate SUCCESS JNull IDLE.
Proof. by vm_compute. Qed.

(** A run that completes and then fails: it keeps its values. *)
Lemma execute_receipt_outcome_witness :
  ∃ r, view (execute_receipt clock fresh json_str (receipt "r1" "t") tt
               [values 1; settle RUN_COMPLETED; settle RUN_FAILED] Exhausted one_pending).2 !! "r1" = Some r ∧
    run_status r = SUCCESS ∧ run_result r = JObj [("n", JInt 1)].
Proof.
  destruct (execute_receipt_outcome clock fresh json_str (receipt "r1" "t") tt (pending_run "r1" "t")
    [values 1; settle RUN_COMPLETED; settle RUN_FAILED] Exhausted one_pending) as (_ & r & Hv & _ & Hst & Hres & _).
  - split; [apply one_pending_quiescent|]. split; [split; [apply NoDup_singleton|]|].
    + intros k th. cbn. case_decide; intros; by simplify_eq.
    + exists (thread "t"). symmetry. exact (dget_map [("t", thread "t")] "t").
  - exact (view_lookup one_pending "r1").
  - reflexivity.
  - exists r. split; [rewrite Hv; apply lookup_insert_eq|]. rewrite Hst, Hres. split; reflexivity.
Defined.
End LocalExecutions.
