(* ===== verification/Launcher.v ===== *)
(** * Launching the processes

    [bootstrap/runtime_config.py], and what the entry points of [services/worker]
    and [bootstrap/cli.py] compute before the processes run: the configuration from
    the environment and its validation, the limits of a worker, the registration
    with the gateway, and the choice of a service. *)

From S2P Require Import Prelude PyDict PyStr Json Errors Grpc Kafka Capacity LangGraphLoad.
From Stdlib Require Import Ascii SpecFloat.

(** ** [float(s)] *)

(** Digits with single underscores between them: their value, number, and what follows. *)
Fixpoint digit_run (s : string) (acc : Z) (n : nat) : Z * nat * string :=
  match s with
  | String c s' =>
      match digit_value c with
      | Some d => digit_run s' (10 * acc + d) (S n)
      | None =>
          if Ascii.eqb c "_" && negb (n =? 0)%nat
          then match s' with
               | String c' s'' =>
                   match digit_value c' with
                   | Some d => digit_run s'' (10 * acc + d) (S n)
                   | None => (acc, n, s)
                   end
               | EmptyString => (acc, n, s)
               end
          else (acc, n, s)
      end
  | EmptyString => (acc, n, s)
  end.

(** The binary64 nearest to [m * 10 ^ e]: a quotient of at least 60 bits whose
    last bit says whether it is exact rounds as the number does. *)
Definition decimal_float (neg : bool) (m e : Z) : spec_float :=
  let r := if 0 <=? e then binary_normalize 53 1024 (m * 10 ^ e) 0 false
           else
             let d := 10 ^ (- e) in
             let s := 64 + Z.log2 d in
             let n := m * 2 ^ s in
             binary_normalize 53 1024 (2 * (n / d) + (if n mod d =? 0 then 0 else 1)) (- (s + 1)) false in
  if neg then SFopp r else r.

Definition exponent (s : string) : option Z :=
  match s with
  | EmptyString => Some 0
  | String c s =>
      if Ascii.eqb (lower_ascii c) "e"
      then let '(neg, s) := match s with
                            | String "-" s => (true, s)
                            | String "+" s => (false, s)
                            | s => (false, s)
                            end in
           match digit_run s 0 0 with
           | (n, S _, EmptyString) => Some (if neg then - n else n)
           | _ => None
           end
      else None
  end.

Definition float_unsigned (neg : bool) (s : string) : option spec_float :=
  let l := lower s in
  if decide (l ∈ ["inf"; "infinity"]) then Some (S754_infinity neg)
  else if decide (l = "nan") then Some S754_nan
  else
    let '(whole, n, rest) := digit_run s 0 0 in
    let '(m, k, rest) := match rest with String "." f => digit_run f whole 0 | _ => (whole, 0%nat, rest) end in
    if ((n =? 0)%nat && (k =? 0)%nat) then None
    else (λ e, decimal_float neg m (e - Z.of_nat k)) <$> exponent rest.

Definition py_float (s : string) : res spec_float :=
  match (match strip_spaces s with
         | String "-" s => float_unsigned true s
         | String "+" s => float_unsigned false s
         | s => float_unsigned false s
         end) with
  | Some f => Ok f
  | None => Raise (ValueError ("could not convert string to float: '" +:+ s +:+ "'"))
  end.

(** ** [LauncherConfig] *)

(** [environ.get(key, default)], and [environ.get(key) or ...]. *)
Abbreviation environ := (dict string).
Definition getenv (env : environ) (key d : string) : string := default d (dget env key).
Definition getenv_true (env : environ) (key : string) : option string :=
  match dget env key with Some s => if str_truthy s then Some s else None | None => None end.

Record LauncherConfig : Type := mk_launcher_config {
  lc_mode : string;
  lc_profile : string;
  lc_host : string;
  lc_port : Z;
  lc_grpc_host : string;
  lc_grpc_port : Z;
  lc_worker_max_concurrency : Z;
  lc_worker_drain_timeout_seconds : spec_float;
  lc_instance_id : string;
  lc_database_url : option string;
  lc_kafka_bootstrap_servers : option string;
  lc_topic_prefix : string;
  lc_kafka_environment : string;
  lc_observability_enabled : bool;
}.

(** [from_environment] over the values it reads. *)
Definition from_values (v : environ) : res LauncherConfig :=
  result_bind (py_int (getenv v "UR_GATEWAY_PORT" (getenv v "UR_HTTP_PORT" "8080"))) (λ port,
  result_bind (py_int (getenv v "UR_GRPC_PORT" "9090")) (λ grpc_port,
  result_bind (py_int (getenv v "UR_WORKER_MAX_CONCURRENCY" "8")) (λ concurrency,
  result_bind (py_float (getenv v "UR_WORKER_DRAIN_TIMEOUT_SECONDS" "30")) (λ drain,
  Ok (mk_launcher_config
        (getenv v "UR_MODE" "worker") (getenv v "UR_PROFILE" "local")
        (getenv v "UR_GATEWAY_HOST" (getenv v "UR_HTTP_HOST" "0.0.0.0")) port
        (getenv v "UR_GRPC_HOST" "0.0.0.0") grpc_port concurrency drain
        (getenv v "UR_INSTANCE_ID" "local") (dget v "UR_DATABASE_URL") (dget v "UR_KAFKA_BOOTSTRAP_SERVERS")
        (getenv v "UR_TOPIC_PREFIX" (getenv v "UR_KAFKA_TOPIC_PREFIX" "rt"))
        (getenv v "UR_KAFKA_ENVIRONMENT" (getenv v "UR_ENVIRONMENT" "local"))
        (bool_decide (lower (getenv v "UR_OBSERVABILITY_ENABLED" "false") = "true"))))))).

(** [from_environment(environ)]: an empty mapping counts as none. *)
Definition from_environment (os_environ : environ) (given : option environ) : res LauncherConfig :=
  from_values (match given with Some (kv :: d) => kv :: d | _ => os_environ end).

Definition modes : list string :=
  ["all"; "worker"; "api"; "gateway"; "dispatcher"; "projector"; "standalone"; "inspect"; "migrate"].
Definition is_port (p : Z) : bool := (1 <=? p) && (p <=? 65535).
(** [f < 0], which is false of a NaN. *)
Definition float_negative (f : spec_float) : bool := SFltb f (S754_zero false).

Definition validate (c : LauncherConfig) : res unit :=
  if negb (bool_decide (lc_mode c ∈ modes)) then Raise (ValueError ("unsupported UR_MODE: " +:+ lc_mode c))
  else if negb (is_port (lc_port c)) || negb (is_port (lc_grpc_port c))
  then Raise (ValueError "service ports must be between 1 and 65535")
  else if lc_worker_max_concurrency c <? 1 then Raise (ValueError "UR_WORKER_MAX_CONCURRENCY must be positive")
  else if float_negative (lc_worker_drain_timeout_seconds c)
  then Raise (ValueError "UR_WORKER_DRAIN_TIMEOUT_SECONDS must not be negative")
  else Ok tt.

Example float_parses : py_float " 2.5e1 " = py_float "25" ∧ py_float "1_0.5" = py_float "10.5" ∧
  py_float "0.1" = Ok (S754_finite false 7205759403792794 (-56)) ∧ is_ok (py_float "1e") = false ∧
  is_ok (py_float ".") = false ∧ is_ok (py_float "_1") = false.
Proof. vm_compute. by split_and!. Qed.

(** ** The limits of a worker *)

(** [create_server] of [services/worker/main.py], with [str(n)] of the configured
    concurrency. *)
Definition create_server (env : environ) : res BoundedWorker :=
  result_bind (from_environment env None) (λ config,
  result_bind (py_int (getenv env "UR_WORKER_CONFIGURED_CONCURRENCY" (pretty (lc_worker_max_concurrency config)))) (λ configured,
  result_bind (py_int (getenv env "UR_WORKER_POLICY_CEILING" "64")) (λ ceiling,
  new_worker (mk_worker_config configured ceiling "UR_WORKER_MAX_CONCURRENCY") env))).

(** The slots of [_execution_loop], [exec_sem]. *)
Definition loop_slots (env : environ) : res Z := py_int (getenv env "UR_WORKER_MAX_CONCURRENCY" "8").

(** ** Registration with the gateway *)

(** [asdict(manifest.capabilities)] *)
Definition capabilities_json (c : AdapterCapabilities) : json :=
  JObj [("streaming", JBool (streaming c)); ("cancellation", JBool (cancellation c)); ("history", JBool (history c));
        ("checkpoint", JBool (checkpoint c)); ("state_management", JBool (state_management c));
        ("interrupt", JBool (interrupt c)); ("resume", JBool (cap_resume c)); ("fork", JBool (fork c));
        ("custom_http", JBool (custom_http c)); ("a2a", JBool (a2a c)); ("subagents", JBool (subagents c))].

(** The body that [_register_with_gateway] posts. *)
Definition registration_payload (env : environ) (config : LauncherConfig) (a : LangGraphAdapter) : json_object :=
  let instance_id := getenv env "UR_INSTANCE_ID" "worker" in
  let manifest := ad_manifest a in
  let app_id := getenv env "UR_APPLICATION_ID" "default" in
  [("worker_id", JStr instance_id);
   ("pod_name", JStr (getenv env "HOSTNAME" instance_id));
   ("target", JStr (getenv env "UR_WORKER_ADVERTISE_TARGET" (lc_grpc_host config +:+ ":" +:+ pretty (lc_grpc_port config))));
   ("application_id", JStr app_id);
   ("workspace_key", JStr (getenv env "UR_WORKSPACE_KEY" "default"));
   ("app_version", JStr (getenv env "ARTIFACT_VERSION" "unknown"));
   ("alembic_version", JStr (getenv env "ARTIFACT_VERSION" "unknown"));
   ("run_topic", JStr (match getenv_true env "UR_RUN_TOPIC" with
                       | Some t => t
                       | None => run_topic_for (getenv env "UR_TOPIC_PREFIX" "rt") app_id 100
                       end));
   ("graph_id", JStr (ds_graph_id (ad_descriptor a)));
   ("manifest", JObj [("adapter_id", JStr (adapter_id manifest));
                      ("adapter_version", JStr (adapter_version manifest));
                      ("profiles", JList (JStr <$> supported_profiles manifest));
                      ("capabilities", capabilities_json (capabilities manifest))])].

(** What a [POST] with [raise_for_status] comes to: an answer below 400, an
    [httpx.HTTPError] or [OSError], or another exception. *)
Inductive post_outcome : Type :=
| Accepted
| Refused
| Crashed (e : exn).

(** The [for attempt in range(10)]: the outcome and the attempts that were made; one
    second passes after each refused attempt but the last. *)
Fixpoint attempts (url : string) (post : Z → post_outcome) (attempt : Z) (turns : nat) : res unit * Z :=
  match turns with
  | 0%nat => (Ok tt, attempt)
  | S turns =>
      match post attempt with
      | Accepted => (Ok tt, attempt + 1)
      | Crashed e => (Raise e, attempt + 1)
      | Refused =>
          if 9 <=? attempt then (Raise (RuntimeError ("worker registration failed: " +:+ url)), attempt + 1)
          else attempts url post (attempt + 1) turns
      end
  end.

Definition _register_with_gateway (env : environ) (post : string → Z → post_outcome) : res unit * Z :=
  match getenv_true env "UR_GATEWAY_REGISTER_URL" with
  | None => (Ok tt, 0)
  | Some url => attempts url (post url) 0 10
  end.

(** ** [main] of [bootstrap/cli.py] *)

(** [effective_argv], for the arguments [argv] of the call and those of the process. *)
Definition effective_argv (env : environ) (sys_argv : list string) (argv : option (list string)) : option (list string) :=
  match argv with
  | Some (a :: l) => Some (a :: l)
  | _ =>
      match getenv_true env "UR_MODE" with
      | Some mode => Some (if decide (head sys_argv = Some mode) then sys_argv else mode :: sys_argv)
      | None => argv
      end
  end.

(** The subcommands of [_parser], and the services that [main] starts. *)
Definition parser_commands : list string :=
  ["info"; "validate"; "standalone"; "inspect"; "inspect-graph"; "migrate"; "api"; "worker"; "gateway";
   "dispatcher"; "projector"; "validate-config"].

Inductive service : Type := AllService | GatewayService | ProjectorService | WorkerService.
Definition service_main (command : string) : option service :=
  if decide (command = "all") then Some AllService
  else if decide (command = "gateway") then Some GatewayService
  else if decide (command = "projector") then Some ProjectorService
  else if decide (command ∈ ["dispatcher"; "worker"]) then Some WorkerService
  else None.

(** ** What they do *)

Lemma validate_ok c : validate c = Ok tt →
  lc_mode c ∈ modes ∧ 1 ≤ lc_port c ≤ 65535 ∧ 1 ≤ lc_grpc_port c ≤ 65535 ∧ 1 ≤ lc_worker_max_concurrency c ∧
  float_negative (lc_worker_drain_timeout_seconds c) = false.
Proof.
  unfold validate, is_port. intros H. repeat break_match_in H; try done. to_prop. split_and!; done || lia.
Qed.

Lemma from_values_concurrency v c : from_values v = Ok c →
  py_int (getenv v "UR_WORKER_MAX_CONCURRENCY" "8") = Ok (lc_worker_max_concurrency c).
Proof.
  unfold from_values. intros H.
  destruct (py_int (getenv v "UR_GATEWAY_PORT" _)); [|done]. destruct (py_int (getenv v "UR_GRPC_PORT" _)); [|done].
  destruct (py_int (getenv v "UR_WORKER_MAX_CONCURRENCY" _)); [|done]. destruct (py_float _); [|done].
  cbn [result_bind] in H. by injection H as <-.
Qed.

(** The limits of a worker with a valid configuration.  The server admits at most
    the policy's ceiling of calls, and at most the configured concurrency if the
    environment sets it; the loop that takes commands from the queue has exactly the
    configured concurrency of slots, at least one, and no ceiling. *)
Lemma worker_limits (env : environ) c w :
  from_environment env None = Ok c → validate c = Ok tt → create_server env = Ok w →
  loop_slots env = Ok (lc_worker_max_concurrency c) ∧ 1 ≤ lc_worker_max_concurrency c ∧
  (∃ ceiling, py_int (getenv env "UR_WORKER_POLICY_CEILING" "64") = Ok ceiling ∧ 0 ≤ wk_max_concurrency w ≤ ceiling) ∧
  (is_Some (dget env "UR_WORKER_MAX_CONCURRENCY") → wk_max_concurrency w ≤ lc_worker_max_concurrency c).
Proof.
  intros Hc Hv Hw. pose proof (from_values_concurrency _ _ Hc) as Hn. apply validate_ok in Hv as (_ & _ & _ & Hpos & _).
  split; [exact Hn|]. split; [done|]. unfold create_server in Hw. rewrite Hc in Hw. cbn [result_bind] in Hw.
  destruct (py_int (getenv env "UR_WORKER_CONFIGURED_CONCURRENCY" _)) as [configured|]; [|done].
  destruct (py_int (getenv env "UR_WORKER_POLICY_CEILING" _)) as [ceiling|]; [|done]. cbn [result_bind] in Hw.
  unfold new_worker, resolve in Hw. cbn [environment_name] in Hw. unfold getenv in Hn.
  destruct (dget env "UR_WORKER_MAX_CONCURRENCY") as [raw|] eqn:Hraw.
  - change (py_int raw = Ok (lc_worker_max_concurrency c)) in Hn. rewrite Hn in Hw. cbn [result_bind] in Hw. destruct (_ <? 1); [done|]. cbn [result_bind] in Hw.
    destruct (_ <? 0) eqn:Hneg; [done|]. injection Hw as <-. cbn in *. to_prop.
    split; [exists ceiling; split; [done|lia]|lia].
  - cbn [result_bind configured_concurrency] in Hw. destruct (_ <? 1); [done|]. cbn [result_bind] in Hw.
    destruct (_ <? 0) eqn:Hneg; [done|]. injection Hw as <-. cbn in *. to_prop.
    split; [exists ceiling; split; [done|lia]|by intros []].
Qed.

Definition busy_environment : environ := [("UR_WORKER_MAX_CONCURRENCY", "100"); ("UR_MODE", "worker")].

Lemma worker_limits_witness : ∃ c w,
  from_environment busy_environment None = Ok c ∧ create_server busy_environment = Ok w ∧
  loop_slots busy_environment = Ok 100 ∧ wk_max_concurrency w ≤ lc_worker_max_concurrency c.
Proof.
  destruct (from_environment busy_environment None) as [c|] eqn:Hc; [|vm_compute in Hc; discriminate Hc].
  destruct (create_server busy_environment) as [w|] eqn:Hw; [|vm_compute in Hw; discriminate Hw].
  assert (validate c = Ok tt) as Hv by (vm_compute in Hc; injection Hc as <-; vm_compute; reflexivity).
  destruct (worker_limits busy_environment c w Hc Hv Hw) as (_ & _ & _ & Hle).
  exists c, w. split; [done|]. split; [done|]. split; [vm_compute; reflexivity|]. apply Hle. by eexists.
Defined.

(** The policy's ceiling of 64 does not bound the commands that run at once. *)
Lemma ceiling_not_applied :
  result_map wk_max_concurrency (create_server busy_environment) = Ok 64 ∧ loop_slots busy_environment = Ok 100.
Proof. vm_compute. by split. Qed.

(** A drain timeout that is no number is valid. *)
Lemma nan_timeout_valid :
  result_bind (from_values [("UR_WORKER_DRAIN_TIMEOUT_SECONDS", "nan")]) validate = Ok tt.
Proof. vm_compute. reflexivity. Qed.

(** The command line has no command for the mode [all]: the branch of [main] for it is
    never taken. *)
Lemma all_mode_unreachable env sys_argv :
  getenv_true env "UR_MODE" = Some "all" → "all" ∈ modes ∧ is_Some (service_main "all") ∧
  ∃ l, effective_argv env sys_argv None = Some ("all" :: l) ∧ "all" ∉ parser_commands.
Proof.
  intros H. split; [by apply (bool_decide_unpack _)|]. split; [by eexists|]. unfold effective_argv. rewrite H.
  case_decide as Hd; [destruct sys_argv as [|a l]; [done|]; injection Hd as ->|]; eexists;
    (split; [done|by apply (bool_decide_unpack _)]).
Qed.

Lemma attempts_spec url post turns k : 0 ≤ k → Z.of_nat turns = 10 - k → 0 < Z.of_nat turns →
  let '(r, n) := attempts url post k turns in
  k < n ≤ 10 ∧ (∀ j, k ≤ j < n - 1 → post j = Refused) ∧
  match r with
  | Ok _ => post (n - 1) = Accepted
  | Raise e => post (n - 1) = Crashed e ∨ post (n - 1) = Refused ∧ n = 10 ∧
                 e = RuntimeError ("worker registration failed: " +:+ url)
  end.
Proof.
  revert k. induction turns as [|turns IH]; intros k Hk Ht Hpos; [lia|]. cbn [attempts].
  destruct (post k) eqn:Hp.
  - replace (k + 1 - 1) with k by lia. split_and!; lia || done.
  - destruct (9 <=? k) eqn:H9; to_prop.
    + assert (k = 9) as -> by lia. split_and!; [lia..|]. by right.
    + specialize (IH (k + 1) ltac:(lia) ltac:(lia) ltac:(lia)).
      destruct (attempts url post (k + 1) turns) as [r n]. destruct IH as (Hn & Href & Hr).
      split; [lia|]. split; [|done]. intros j Hj. destruct (decide (j = k)) as [->|]; [done|]. apply Href. lia.
  - replace (k + 1 - 1) with k by lia. split; [lia|]. split; [lia|by left].
Qed.

(** Registering with the gateway ends.  Without an address nothing is posted.
    Otherwise there are at most ten attempts; they stop at the first that is not
    refused, and if that one is accepted the worker is registered; the tenth refusal
    raises, and so does any other exception, at once. *)
Lemma registration_attempts env (post : string → Z → post_outcome) :
  let '(r, n) := _register_with_gateway env post in
  match getenv_true env "UR_GATEWAY_REGISTER_URL" with
  | None => r = Ok tt ∧ n = 0
  | Some url =>
      1 ≤ n ≤ 10 ∧ (∀ j, 0 ≤ j < n - 1 → post url j = Refused) ∧
      match r with
      | Ok _ => post url (n - 1) = Accepted
      | Raise e => post url (n - 1) = Crashed e ∨ post url (n - 1) = Refused ∧ n = 10 ∧
                     e = RuntimeError ("worker registration failed: " +:+ url)
      end
  end.
Proof.
  unfold _register_with_gateway. destruct (getenv_true env _) as [url|]; [|done].
  pose proof (attempts_spec url (post url) 10 0 ltac:(lia) ltac:(lia) ltac:(lia)) as H.
  destruct (attempts url (post url) 0 10) as [r n]. destruct H as (Hn & H). split; [lia|exact H].
Qed.
