(* ===== verification/Telemetry.v ===== *)
(** * Telemetry

    [telemetry/]: the loggers of Python's [logging] as [configure_logging] leaves them,
    who handles a record that is logged, and the calls that are made of OpenLIT and
    OpenTelemetry.  Of structlog the code relies on two things: what it renders goes to
    the logger that its factory gives for the name, and what it renders is a text; both
    are parameters.  A call of a logger takes a depth, Python's recursion limit: a
    handler may log in turn. *)

From S2P Require Import Prelude PyDict PyStr Json Errors Launcher.
From Stdlib Require Import Ascii.

(** [s.upper()] on ASCII letters. *)
Definition upper_ascii (a : ascii) : ascii :=
  let n := nat_of_ascii a in
  if (97 <=? n)%nat && (n <=? 122)%nat then ascii_of_nat (n - 32) else a.
Fixpoint upper (s : string) : string :=
  match s with EmptyString => EmptyString | String a s => String (upper_ascii a) (upper s) end.

(** ** The loggers *)

Inductive Level : Type := DEBUG | INFO | WARNING | ERROR | CRITICAL.
Definition levelno (l : Level) : Z :=
  match l with DEBUG => 10 | INFO => 20 | WARNING => 30 | ERROR => 40 | CRITICAL => 50 end.

(** The handler of [basicConfig], and the two of [_redirect_uvicorn]. *)
Inductive Handler : Type := StreamHandler | StructlogHandler | AccessHandler.
Inductive Renderer : Type := ConsoleRenderer | JSONRenderer.

Record Logger : Type := mk_logger {
  lg_level : Z;
  lg_propagate : bool;
  lg_handlers : list Handler;
}.
(** What [getLogger] makes of a new name. *)
Definition new_logger : Logger := mk_logger 0 true [].

(** The loggers, how structlog is configured, and what has been written. *)
Record Logging : Type := mk_logging {
  log_loggers : gmap string Logger;
  log_root : Logger;
  log_structlog : option Renderer;
  log_stdout : list string;
  log_stderr : list string;
}.
(** A process in which nobody has configured anything. *)
Definition fresh_logging : Logging := mk_logging ∅ (mk_logger 30 true []) None [] [].

Definition getLogger (st : Logging) (name : string) : Logger := default new_logger (log_loggers st !! name).
Definition put (name : string) (f : Logger → Logger) (st : Logging) : Logging :=
  mk_logging (<[name := f (getLogger st name)]> (log_loggers st)) (log_root st) (log_structlog st)
    (log_stdout st) (log_stderr st).
Definition put_root (f : Logger → Logger) (st : Logging) : Logging :=
  mk_logging (log_loggers st) (f (log_root st)) (log_structlog st) (log_stdout st) (log_stderr st).
Definition update_logger (name : string) (f : Logger → Logger) : Py Logging unit := modify (put name f).
Definition update_root (f : Logger → Logger) : Py Logging unit := modify (put_root f).
Definition print_stdout (s : string) : Py Logging unit := modify (λ st,
  mk_logging (log_loggers st) (log_root st) (log_structlog st) (log_stdout st ++ [s]) (log_stderr st)).
Definition print_stderr (s : string) : Py Logging unit := modify (λ st,
  mk_logging (log_loggers st) (log_root st) (log_structlog st) (log_stdout st) (log_stderr st ++ [s])).

(** The names from [s] upwards, the root excepted: the prefixes that end before a dot.
    (A name without empty parts; the empty name is never configured.) *)
Fixpoint logger_path (s : string) : list string :=
  match s with
  | EmptyString => [EmptyString]
  | String c s => map (String c) (logger_path s) ++ (if Ascii.eqb c "." then [EmptyString] else [])
  end.

(** [Logger.getEffectiveLevel] *)
Fixpoint effective_level (st : Logging) (path : list string) : Z :=
  match path with
  | [] => lg_level (log_root st)
  | n :: path =>
      if decide (lg_level (getLogger st n) = 0) then effective_level st path else lg_level (getLogger st n)
  end.
Definition getEffectiveLevel (st : Logging) (name : string) : Z := effective_level st (logger_path name).

(** The handlers that [Logger.callHandlers] meets on its way up. *)
Fixpoint path_handlers (st : Logging) (path : list string) : list Handler :=
  match path with
  | [] => lg_handlers (log_root st)
  | n :: path =>
      lg_handlers (getLogger st n) ++ (if lg_propagate (getLogger st n) then path_handlers st path else [])
  end.

(** The arguments of a record: a tuple, or the one dictionary it was logged with. *)
Inductive RecordArgs : Type := ArgsTuple (l : list json) | ArgsDict (d : dict json).

Definition RecursionError : exn := OtherError "maximum recursion depth exceeded".
Definition AttributeError (m : string) : exn := OtherError m.

(** ** Logging a record *)

Section Log.
Context (factory : string → string)
  (render : option Renderer → string → Level → string → dict json → string).

(** [emit] of a handler, where [log] is what logs in turn: structlog's methods render
    the event and call the method of the same name of the logger from the factory. *)
Definition emit (log : string → Level → string → RecordArgs → Py Logging unit)
    (lv : Level) (message : string) (args : RecordArgs) (h : Handler) : Py Logging unit :=
  let structlog (name : string) (lv : Level) (event : string) (kw : dict json) : Py Logging unit :=
    st <- get_state;; log (factory name) lv (render (log_structlog st) name lv event kw) (ArgsTuple []) in
  match h with
  | StreamHandler => print_stdout message
  | StructlogHandler => structlog "uvicorn" lv message []
  | AccessHandler =>
      match args with
      | ArgsTuple _ => raise (AttributeError "'tuple' object has no attribute 'get'")
      | ArgsDict d =>
          let arg (k : string) := default (JStr "?") (dget d k) in
          structlog "uvicorn" INFO "http.request"
            [("method", arg "m"); ("path", arg "U"); ("status", arg "s"); ("duration_ms", arg "T")]
      end
  end.

(** [Logger.log] of a record with this message and these arguments.  What a handler
    raises reaches the caller. *)
Fixpoint log (depth : nat) (name : string) (lv : Level) (message : string) (args : RecordArgs) : Py Logging unit :=
  match depth with
  | O => raise RecursionError
  | S depth =>
      st <- get_state;;
      if levelno lv <? getEffectiveLevel st name then ret tt
      else match path_handlers st (logger_path name) with
           | [] => if 30 <=? levelno lv then print_stderr message else ret tt
           | hs => for_each (emit (log depth) lv message args) hs
           end
  end.

(** A method of [structlog.get_logger(name)]; before [structlog.configure] it prints. *)
Definition structlog_log (depth : nat) (name : string) (lv : Level) (event : string) (kw : dict json) : Py Logging unit :=
  st <- get_state;;
  let text := render (log_structlog st) name lv event kw in
  match log_structlog st with
  | None => print_stdout text
  | Some _ => log depth (factory name) lv text (ArgsTuple [])
  end.

(** ** [RequestLogMiddleware] *)

Section Middleware.
Context {Response : Type} (status_code : Response → Z) (millis : Z → Z → Z) (decode_replace : string → string).

Record Request : Type := mk_request {
  rq_method : string;
  rq_path : string;
  rq_body : res string;   (* [await request.body()] *)
}.

(** [self._debug] *)
Definition middleware_debug (st : Logging) : bool := lg_level (log_root st) <=? 10.

Definition dispatch (depth : nat) (debug : bool) (request : Request) (start ended : Z)
    (call_next : Py Logging Response) : Py Logging Response :=
  body <- (if debug then (b <- of_result (rq_body request);; ret (Some b)) else ret None);;
  response <- call_next;;
  let duration_ms := millis start ended in
  let log_kwargs := [("method", JStr (rq_method request)); ("path", JStr (rq_path request));
                     ("status", JInt (status_code response)); ("duration_ms", JInt duration_ms)] in
  let log_kwargs :=
    if debug then
      dset log_kwargs "request_body"
        (match body with Some b => if str_truthy b then JStr (decode_replace b) else JNull | None => JNull end)
    else log_kwargs in
  structlog_log depth "universal-runtime.http" INFO "http.request" log_kwargs;;;
  ret response.
End Middleware.
End Log.

(** ** [configure_logging] *)

(** What [getattr(logging, name)] finds for a name in capitals. *)
Inductive LevelValue : Type := LevelInt (n : Z) | LevelStr (s : string) | LevelDict.
Definition logging_attribute (name : string) : option LevelValue :=
  if decide (name = "NOTSET") then Some (LevelInt 0)
  else if decide (name = "DEBUG") then Some (LevelInt 10)
  else if decide (name = "INFO") then Some (LevelInt 20)
  else if decide (name = "WARNING" ∨ name = "WARN") then Some (LevelInt 30)
  else if decide (name = "ERROR") then Some (LevelInt 40)
  else if decide (name = "CRITICAL" ∨ name = "FATAL") then Some (LevelInt 50)
  else if decide (name = "BASIC_FORMAT") then Some (LevelStr "%(levelname)s:%(name)s:%(message)s")
  else if decide (name = "_STYLES") then Some LevelDict
  else None.

(** [_checkLevel], which [setLevel] calls; the name of a level is none of the texts above. *)
Definition check_level (v : LevelValue) : res Z :=
  match v with
  | LevelInt n => Ok n
  | LevelStr s => Raise (ValueError ("Unknown level: '" +:+ s +:+ "'"))
  | LevelDict => Raise (TypeError "Level not an integer or a valid string")
  end.
Definition with_level (n : Z) (l : Logger) : Logger := mk_logger n (lg_propagate l) (lg_handlers l).
Definition setLevel (name : string) (v : LevelValue) : Py Logging unit :=
  n <- of_result (check_level v);; update_logger name (with_level n).

(** [basicConfig(format="%(message)s", stream=sys.stdout, level=level, force=True)] *)
Definition basicConfig (v : LevelValue) : Py Logging unit :=
  update_root (λ l, mk_logger (lg_level l) (lg_propagate l) [StreamHandler]);;;
  n <- of_result (check_level v);; update_root (with_level n).

(** [handlers.clear(); propagate = False], and [addHandler]. *)
Definition cleared (l : Logger) : Logger := mk_logger (lg_level l) false [].
Definition with_handler (h : Handler) (l : Logger) : Logger :=
  mk_logger (lg_level l) (lg_propagate l) (lg_handlers l ++ [h]).
Definition _redirect_uvicorn (level : LevelValue) : Py Logging unit :=
  update_logger "uvicorn" cleared;;;
  update_logger "uvicorn" (with_handler StructlogHandler);;;
  setLevel "uvicorn" level;;;
  update_logger "uvicorn.access" cleared;;;
  setLevel "uvicorn.access" level;;;
  update_logger "uvicorn.access" (with_handler AccessHandler).
Definition _redirect_httpx (level : LevelValue) : Py Logging unit :=
  match level with
  | LevelInt n => setLevel "httpx" (LevelInt (if n <=? 10 then 10 else 30))
  | _ => raise (TypeError "'<=' not supported")
  end.
Definition _redirect_aiokafka (level : LevelValue) : Py Logging unit :=
  for_each (λ name, setLevel name level) ["aiokafka"; "kafka"].

Definition log_level (env : environ) : LevelValue :=
  default (LevelInt 20) (logging_attribute (upper (getenv env "UR_LOG_LEVEL" "INFO"))).
Definition put_structlog (r : Renderer) (st : Logging) : Logging :=
  mk_logging (log_loggers st) (log_root st) (Some r) (log_stdout st) (log_stderr st).
Definition structlog_configure (r : Renderer) : Py Logging unit := modify (put_structlog r).

Definition configure_logging (env : environ) : Py Logging unit :=
  let level := log_level env in
  let is_local := bool_decide (getenv env "UR_PROFILE" "local" = "local") in
  structlog_configure (if is_local then ConsoleRenderer else JSONRenderer);;;
  basicConfig level;;;
  _redirect_uvicorn level;;;
  _redirect_httpx level;;;
  _redirect_aiokafka level.

(** ** Starting the telemetry of a process, and spans *)

(** What is called on a tracer and its spans; [EndSpan] is given what the block raised. *)
Inductive span_call : Type :=
| StartSpan (name : string)
| SetAttribute (key value : string)
| SetStatus (description : string)
| RecordException (e : exn)
| EndSpan (o : option exn).

Record Telemetry : Type := mk_telemetry {
  tel_logging : Logging;
  tel_initialized : bool;                 (* [_initialized] *)
  tel_openlit : list (string * string);   (* [openlit.init(service_name, environment)] *)
  tel_spans : list span_call;
}.
Definition on_logging {A} : Py Logging A → Py Telemetry A := zoom tel_logging (λ l t,
  mk_telemetry l (tel_initialized t) (tel_openlit t) (tel_spans t)).
Definition set_initialized : Py Telemetry unit := modify (λ t,
  mk_telemetry (tel_logging t) true (tel_openlit t) (tel_spans t)).
Definition call_openlit (service environment : string) : Py Telemetry unit := modify (λ t,
  mk_telemetry (tel_logging t) (tel_initialized t) (tel_openlit t ++ [(service, environment)]) (tel_spans t)).
Definition on_span (c : span_call) : Py Telemetry unit := modify (λ t,
  mk_telemetry (tel_logging t) (tel_initialized t) (tel_openlit t) (tel_spans t ++ [c])).

Section Observability.
(** [openlit.init], when OpenLIT is installed. *)
Context (factory : string → string)
  (render : option Renderer → string → Level → string → dict json → string)
  (openlit : option (res unit)) (depth : nat).

Definition logger_call (name : string) (lv : Level) (event : string) (kw : dict json) : Py Telemetry unit :=
  on_logging (structlog_log factory render depth name lv event kw).

Definition init_observability (env : environ) : Py Telemetry unit :=
  t <- get_state;;
  if tel_initialized t then ret tt else
  set_initialized;;;
  on_logging (configure_logging env);;;
  if negb (bool_decide (lower (getenv env "UR_OBSERVABILITY_ENABLED" "") = "true")) then ret tt else
  let logger := logger_call "universal_runtime.telemetry" in
  match openlit with
  | None => logger WARNING "openlit is not installed; observability disabled" []
  | Some init =>
      call_openlit (getenv env "OTEL_SERVICE_NAME" (getenv env "UR_APPLICATION_ID" "universal-runtime"))
        (getenv env "OTEL_DEPLOYMENT_ENVIRONMENT" "default");;;
      of_result init;;;
      logger INFO "observability initialized"
        [("service", JStr (getenv env "OTEL_SERVICE_NAME" "universal-runtime"));
         ("otlp_endpoint", JStr (getenv env "OTEL_EXPORTER_OTLP_ENDPOINT" "none"))]
  end.

(** The names of the tracer and of the logger that [initialize] returns are the same. *)
Definition initialize (env : environ) (component : string) : Py Telemetry string :=
  init_observability env;;;
  let name := "universal-runtime." +:+ component in
  logger_call name INFO "component started" [("component", JStr component)];;;
  ret name.

Definition runtime_run_span {A} (attributes : option (dict string)) (span_name : string)
    (body : Py Telemetry A) : Py Telemetry A :=
  on_span (StartSpan span_name);;;
  λ t, match ((for_each (λ kv, on_span (SetAttribute kv.1 kv.2)) (default [] attributes);;; body) : Py Telemetry A) t with
       | (Ok a, t) => (on_span (EndSpan None);;; ret a) t
       | (Raise e, t) => (on_span (EndSpan (Some e));;; raise e) t
       end.

Definition record_failure (e : exn) (error_code : string) : Py Telemetry unit :=
  on_span (SetStatus (exn_str e));;;
  on_span (RecordException e);;;
  on_span (SetAttribute "error.code" error_code);;;
  logger_call "universal_runtime.telemetry.tracing" ERROR "execution_failed"
    [("error_code", JStr error_code); ("error", JStr (exn_str e))].

(** What [Invoke] of the worker does around the call of the adapter. *)
Definition traced_invoke {A} (env : environ) (run_id assistant_id : string) (body : Py Telemetry A) : Py Telemetry A :=
  initialize env "worker";;;
  on_logging (configure_logging env);;;
  runtime_run_span (Some [("runtime.run_id", run_id); ("runtime.assistant_id", assistant_id)]) "runtime.run"
    (try_except body (λ e,
      if is_exception e then record_failure e "RUNTIME_EXECUTION_FAILED";;; raise e else raise e)).
End Observability.

(** ** Where a record goes *)

Definition below (name a : string) : bool := bool_decide (a ∈ logger_path name).

Lemma path_starts s p : p ∈ logger_path s → starts_with p s = true.
Proof.
  induction s as [|c s IH] in p |- *; cbn [logger_path].
  - by intros ->%list_elem_of_singleton.
  - intros [(q & -> & Hq)%list_elem_of_fmap|Hp]%elem_of_app; simpl.
    + rewrite decide_True by done. by apply IH.
    + destruct (Ascii.eqb c "."); [by apply list_elem_of_singleton in Hp as ->|by apply elem_of_nil in Hp].
Qed.
(** Longer names come first. *)
Lemma path_sorted s : StronglySorted (λ p q : string, String.length q < String.length p)%nat (logger_path s).
Proof.
  induction s as [|c s IH]; cbn [logger_path]; [repeat constructor|].
  apply StronglySorted_app_2.
  - intros p q (p' & -> & _)%list_elem_of_fmap Hq.
    destruct (Ascii.eqb c "."); [apply list_elem_of_singleton in Hq as ->; simpl; lia|by apply elem_of_nil in Hq].
  - clear -IH. induction IH as [|p l Hl IH Hp]; simpl; constructor; [done|].
    apply Forall_fmap. eapply Forall_impl; [exact Hp|]. simpl. lia.
  - destruct (Ascii.eqb c "."); repeat constructor.
Qed.
Lemma below_starts name a : below name a = true → starts_with a name = true.
Proof. unfold below. intros ?%bool_decide_eq_true. by apply path_starts. Qed.

(** A name is below at most one of the redirected libraries. *)
Lemma below_excl name a b :
  String.get 0 a ≠ None → String.get 0 b ≠ None → String.get 0 a ≠ String.get 0 b →
  below name a = true → below name b = false.
Proof.
  intros Ha Hb Hab Hna. apply not_true_iff_false. intros Hnb.
  apply below_starts in Hna, Hnb. destruct a as [|x a], b as [|y b], name as [|z name]; simpl in *; try done.
  repeat case_decide; congruence.
Qed.

Section Walk.
Context (st : Logging).
Local Notation logger := (getLogger st).
(** A logger that leaves its records to those above it. *)
Definition passes (l : Logger) : Prop := lg_propagate l = true ∧ lg_handlers l = [].

Lemma level_uniform path n :
  (∀ p, p ∈ path → lg_level (logger p) = 0 ∨ lg_level (logger p) = n) →
  lg_level (log_root st) = n ∨ n ≠ 0 ∧ (∃ p, p ∈ path ∧ lg_level (logger p) = n) →
  effective_level st path = n.
Proof.
  induction path as [|q path IH]; simpl; intros Hall Hn.
  - destruct Hn as [|(_ & p & Hp & _)]; [done|by apply elem_of_nil in Hp].
  - case_decide as Hq; [|destruct (Hall q); [left|done|done]]. apply IH.
    { intros p Hp. apply Hall. by right. }
    destruct Hn as [|(Hn & p & [->|Hp]%elem_of_cons & Hl)]; [by left|congruence|right; eauto].
Qed.
Lemma handlers_pass path :
  (∀ p, p ∈ path → passes (logger p)) → path_handlers st path = lg_handlers (log_root st).
Proof.
  induction path as [|q path IH]; simpl; intros Hall; [done|].
  destruct (Hall q) as [-> ->]; [by left|]. apply IH. intros p Hp. apply Hall. by right.
Qed.
Lemma handlers_stop path a :
  StronglySorted (λ p q : string, String.length q < String.length p)%nat path → a ∈ path →
  lg_propagate (logger a) = false →
  (∀ p, p ∈ path → (String.length a < String.length p)%nat → passes (logger p)) →
  path_handlers st path = lg_handlers (logger a).
Proof.
  induction path as [|q path IH]; intros Hs Ha Hf Hall; [by apply elem_of_nil in Ha|]. simpl.
  apply StronglySorted_inv in Hs as [Hs Hq]. apply elem_of_cons in Ha as [->|Ha].
  - by rewrite Hf, app_nil_r.
  - destruct (Hall q) as [-> ->]; [by left|by rewrite Forall_forall in Hq; apply Hq|].
    apply IH; try done. intros p Hp. apply Hall. by right.
Qed.
End Walk.

(** What [configure_logging] leaves, when no library has configured a logger of its own. *)
Definition redirects : list string := ["uvicorn"; "uvicorn.access"].
Definition levelled : list string := ["httpx"; "aiokafka"; "kafka"] ++ redirects.
Definition httpx_level (n : Z) : Z := if n <=? 10 then 10 else 30.

Definition plain (st : Logging) : Prop :=
  (∀ name, name ∉ redirects → passes (getLogger st name)) ∧
  (∀ name, name ∉ levelled → lg_level (getLogger st name) = 0).

Definition renderer (env : environ) : Renderer :=
  if bool_decide (getenv env "UR_PROFILE" "local" = "local") then ConsoleRenderer else JSONRenderer.
Definition configured (env : environ) (n : Z) (st : Logging) : Logging :=
  put "kafka" (with_level n) (put "aiokafka" (with_level n) (put "httpx" (with_level (httpx_level n))
  (put "uvicorn.access" (λ _, mk_logger n false [AccessHandler])
  (put "uvicorn" (λ _, mk_logger n false [StructlogHandler])
  (put_root (λ l, mk_logger n (lg_propagate l) [StreamHandler]) (put_structlog (renderer env) st)))))).

Lemma getLogger_put name f st a :
  getLogger (put name f st) a = if decide (a = name) then f (getLogger st name) else getLogger st a.
Proof.
  unfold getLogger at 1, put; simpl.
  case_decide; [subst; by rewrite lookup_insert_eq|by rewrite lookup_insert_ne].
Qed.
Lemma put_put name f g st : put name g (put name f st) = put name (λ l, g (f l)) st.
Proof.
  unfold put at 1. rewrite getLogger_put, decide_True by done. unfold put; simpl. by rewrite insert_insert_eq.
Qed.

(** [configure_logging] succeeds exactly if the level is one. *)
Lemma configure_ok env n st :
  log_level env = LevelInt n → configure_logging env st = (Ok tt, configured env n st).
Proof.
  intros Hl. unfold configure_logging. rewrite Hl.
  cbv beta iota zeta delta [structlog_configure basicConfig _redirect_uvicorn _redirect_httpx _redirect_aiokafka
    setLevel check_level update_logger update_root bind modify of_result ret for_each].
  by rewrite !put_put.
Qed.
Lemma configure_refused env st :
  (∀ n, log_level env ≠ LevelInt n) →
  ∃ e, configure_logging env st = (Raise e, put_root (λ l, mk_logger (lg_level l) (lg_propagate l) [StreamHandler])
                                             (put_structlog (renderer env) st)).
Proof.
  intros Hl. unfold configure_logging. destruct (log_level env) as [n|s|]; [by destruct (Hl n)|by eexists..].
Qed.

Lemma levelled_names name :
  name ∈ levelled ↔
  name = "httpx" ∨ name = "aiokafka" ∨ name = "kafka" ∨ name = "uvicorn" ∨ name = "uvicorn.access".
Proof. unfold levelled, redirects; simpl. rewrite !elem_of_cons, elem_of_nil. tauto. Qed.

Section Configured.
Context (env : environ) (n : Z) (st0 : Logging).
Local Notation st := (configured env n st0).

Lemma configured_logger name :
  getLogger st name =
  if decide (name = "kafka") then with_level n (getLogger st0 name) else
  if decide (name = "aiokafka") then with_level n (getLogger st0 name) else
  if decide (name = "httpx") then with_level (httpx_level n) (getLogger st0 name) else
  if decide (name = "uvicorn.access") then mk_logger n false [AccessHandler] else
  if decide (name = "uvicorn") then mk_logger n false [StructlogHandler] else getLogger st0 name.
Proof.
  unfold configured. rewrite !getLogger_put.
  change (getLogger (put_root _ _)) with (getLogger st0).
  repeat (case_decide; [subst; repeat (rewrite decide_False by done); done|]). done.
Qed.
Lemma configured_passes name : plain st0 → name ∉ redirects → passes (getLogger st name).
Proof.
  intros [Hplain _] Hn. destruct (Hplain name Hn) as [Hp Hh]. rewrite configured_logger. unfold redirects in Hn.
  repeat case_decide; try done; set_solver.
Qed.
Lemma configured_level name :
  plain st0 → lg_level (getLogger st name) =
  if decide (name = "httpx") then httpx_level n else if decide (name ∈ levelled) then n else 0.
Proof.
  intros [_ Hplain]. specialize (Hplain name). rewrite configured_logger.
  destruct (decide (name ∈ levelled)) as [Hin|Hin].
  - apply levelled_names in Hin as [->|[->|[->|[->| ->]]]]; reflexivity.
  - specialize (Hplain Hin). rewrite levelled_names in Hin.
    repeat (rewrite decide_False by (intros ->; apply Hin; tauto)). exact Hplain.
Qed.

(** What a record must have to be handled. *)
Definition threshold (name : string) : Z := if below name "httpx" then httpx_level n else n.
Lemma threshold_effective name : plain st0 → getEffectiveLevel st name = threshold name.
Proof.
  intros Hp. unfold getEffectiveLevel, threshold. destruct (below name "httpx") eqn:Hh.
  - apply level_uniform; [|right; split; [unfold httpx_level; by destruct (n <=? 10)|]].
    + intros p Hin. rewrite configured_level by done. case_decide; [by right|]. case_decide as Hl; [|by left].
      assert (below name p = false) as Hb.
      { apply levelled_names in Hl. apply (below_excl name "httpx"); [done| | |done];
          by destruct_or! Hl; subst. }
      unfold below in Hb. by apply bool_decide_eq_false in Hb.
    + exists "httpx". rewrite configured_level by done. split; [by apply bool_decide_eq_true in Hh|done].
  - apply level_uniform; [|by left]. intros p Hin. rewrite configured_level by done.
    case_decide; [subst; by apply bool_decide_eq_false in Hh|]. case_decide; [by right|by left].
Qed.
End Configured.

Lemma loggers_put a f st name :
  log_loggers (put a f st) !! name =
  if decide (name = a) then Some (getLogger (put a f st) name) else log_loggers st !! name.
Proof.
  unfold put, getLogger; simpl. case_decide; [subst; by rewrite lookup_insert_eq|by rewrite lookup_insert_ne].
Qed.
Lemma loggers_configured env n st name :
  log_loggers (configured env n st) !! name =
  if decide (name ∈ levelled) then Some (getLogger (configured env n st) name) else log_loggers st !! name.
Proof.
  case_decide as Hl.
  - apply levelled_names in Hl as [->|[->|[->|[->| ->]]]]; unfold configured, getLogger;
      rewrite !loggers_put; reflexivity.
  - rewrite levelled_names in Hl. unfold configured. rewrite !loggers_put.
    repeat (rewrite decide_False by (intros ->; apply Hl; tauto)). done.
Qed.
(** Configuring again, as [Invoke] does for every call, changes nothing. *)
Lemma configured_idem env n st : configured env n (configured env n st) = configured env n st.
Proof.
  assert (log_loggers (configured env n (configured env n st)) = log_loggers (configured env n st)) as Hm.
  { apply map_eq. intros name. rewrite !loggers_configured. case_decide; [|done].
    f_equal. rewrite !configured_logger. by repeat case_decide. }
  change (configured env n (configured env n st)) with
    (mk_logging (log_loggers (configured env n (configured env n st))) (log_root (configured env n st))
       (log_structlog (configured env n st)) (log_stdout st) (log_stderr st)).
  by rewrite Hm.
Qed.

(** ** Who handles a record *)

Section Delivery.
Context (factory : string → string)
  (render : option Renderer → string → Level → string → dict json → string)
  (factory_names : ∀ name, factory name = name)
  (env : environ) (n : Z) (st0 : Logging) (Hplain : plain st0).
Local Notation st := (configured env n st0).

Lemma stdout_handlers name :
  below name "uvicorn" = false → below name "uvicorn.access" = false →
  path_handlers st (logger_path name) = [StreamHandler].
Proof using Hplain.
  intros Hu Ha. apply (handlers_pass st). intros p Hp. apply configured_passes; [done|].
  unfold redirects. intros [->|[->|[]%elem_of_nil]%elem_of_cons]%elem_of_cons;
    by apply bool_decide_eq_false in Hu, Ha.
Qed.
Lemma redirected_handlers name a h :
  getLogger st a = mk_logger n false [h] → below name a = true →
  (∀ b, b ∈ redirects → below name b = true → String.length b ≤ String.length a)%nat →
  path_handlers st (logger_path name) = [h].
Proof using Hplain.
  intros Hg Ha Hr. rewrite (handlers_stop st (logger_path name) a).
  - by rewrite Hg.
  - apply path_sorted.
  - by apply bool_decide_eq_true in Ha.
  - by rewrite Hg.
  - intros p Hp Hlen. apply configured_passes; [done|]. intros Hin. specialize (Hr p Hin).
    unfold below in Hr. rewrite bool_decide_eq_true in Hr. specialize (Hr Hp). lia.
Qed.
Lemma uvicorn_handlers name :
  below name "uvicorn" = true → below name "uvicorn.access" = false →
  path_handlers st (logger_path name) = [StructlogHandler].
Proof using Hplain.
  intros Hu Ha. apply (redirected_handlers name "uvicorn"); [by rewrite configured_logger|done|].
  unfold redirects. intros b [->|[->|[]%elem_of_nil]%elem_of_cons]%elem_of_cons Hb; [done|congruence].
Qed.
Lemma access_handlers name :
  below name "uvicorn.access" = true → path_handlers st (logger_path name) = [AccessHandler].
Proof using Hplain.
  intros Ha. apply (redirected_handlers name "uvicorn.access"); [by rewrite configured_logger|done|].
  unfold redirects. intros b [->|[->|[]%elem_of_nil]%elem_of_cons]%elem_of_cons _; simpl; lia.
Qed.
Lemma below_uvicorn name a : below name a = true → a ∈ redirects → below name "httpx" = false.
Proof.
  intros Ha Hr. apply (below_excl name a); [| | |done];
    unfold redirects in Hr; apply elem_of_cons in Hr as [->|[->|[]%elem_of_nil]%elem_of_cons]; done.
Qed.

Lemma log_handled depth name lv message args :
  log factory render (S depth) name lv message args st =
  if levelno lv <? threshold n name then (Ok tt, st)
  else match path_handlers st (logger_path name) with
       | [] => if 30 <=? levelno lv then print_stderr message st else (Ok tt, st)
       | hs => for_each (emit factory render (log factory render depth) lv message args) hs st
       end.
Proof using Hplain.
  cbn [log]. unfold get_state, bind at 1. rewrite threshold_effective by done.
  destruct (_ <? _); [done|]. destruct (path_handlers _ _); [by destruct (30 <=? _)|done].
Qed.
Lemma threshold_redirected name a : below name a = true → a ∈ redirects → threshold n name = n.
Proof. intros Ha Hr. unfold threshold. by rewrite (below_uvicorn name a). Qed.

(** A record of uvicorn is handled by logging it to uvicorn's logger. *)
Lemma uvicorn_recurses depth name lv message args :
  below name "uvicorn" = true → below name "uvicorn.access" = false → n ≤ levelno lv →
  log factory render depth name lv message args st = (Raise RecursionError, st).
Proof using Hplain factory_names.
  revert name message args. induction depth as [|depth IH]; intros name message args Hu Ha Hl; [done|].
  rewrite log_handled, (threshold_redirected name "uvicorn") by (done || by left).
  rewrite (proj2 (Z.ltb_ge _ _) Hl), uvicorn_handlers by done. unfold for_each, emit, get_state, bind.
  by rewrite factory_names, IH.
Qed.

(** What becomes of a record: too low, to the standard output, or to a handler of
    [_redirect_uvicorn], of which one has no access to the record's arguments and both
    log to the logger they handle. *)
Definition delivered (name : string) (lv : Level) (message : string) (args : RecordArgs) : Py Logging unit :=
  if levelno lv <? threshold n name then ret tt
  else if below name "uvicorn.access" then
    match args with
    | ArgsTuple _ => raise (AttributeError "'tuple' object has no attribute 'get'")
    | ArgsDict _ => if levelno INFO <? n then ret tt else raise RecursionError
    end
  else if below name "uvicorn" then raise RecursionError
  else print_stdout message.

Lemma log_delivered depth name lv message args :
  (2 ≤ depth)%nat →
  log factory render depth name lv message args st = delivered name lv message args st.
Proof using Hplain factory_names.
  intros Hd. destruct depth as [|depth]; [lia|]. unfold delivered. rewrite log_handled.
  destruct (levelno lv <? threshold n name) eqn:Hl; [done|].
  destruct (below name "uvicorn.access") eqn:Ha.
  - rewrite access_handlers by done. destruct args as [l|d]; [done|]. unfold for_each, emit, get_state, bind.
    rewrite factory_names. destruct (levelno INFO <? n) eqn:Hn.
    + destruct depth as [|depth]; [lia|].
      by rewrite log_handled, (threshold_redirected "uvicorn" "uvicorn"), Hn by (reflexivity || by left).
    + apply Z.ltb_ge in Hn. by rewrite uvicorn_recurses.
  - destruct (below name "uvicorn") eqn:Hu.
    + rewrite uvicorn_handlers by done. unfold for_each, emit, get_state, bind. rewrite factory_names.
      apply Z.ltb_ge in Hl. rewrite (threshold_redirected name "uvicorn") in Hl by (done || by left).
      by rewrite uvicorn_recurses.
    + by rewrite stdout_handlers.
Qed.
End Delivery.

(** ** An invocation is traced and otherwise left alone *)

Section Tracing.
Context (factory : string → string)
  (render : option Renderer → string → Level → string → dict json → string)
  (factory_names : ∀ name, factory name = name)
  (openlit : option (res unit)) (depth : nat) (Hdepth : (2 ≤ depth)%nat) (env : environ) (n : Z)
  (Hlevel : log_level env = LevelInt n).

(** A process that has started its telemetry. *)
Definition started (t : Telemetry) : Prop :=
  tel_initialized t = true ∧ ∃ st0, plain st0 ∧ tel_logging t = configured env n st0.

Local Notation "m 'leaves' spans" := (∀ t, started t →
  ∃ t', m t = (Ok tt, t') ∧ started t' ∧ tel_spans t' = tel_spans t ++ spans) (at level 60).

Lemma logger_call_leaves name lv event kw :
  below name "uvicorn" = false → below name "uvicorn.access" = false →
  logger_call factory render depth name lv event kw leaves [].
Proof using factory_names Hdepth.
  intros Hu Ha [lg i o sp] [Hi (st0 & Hp & Hlg)]. simpl in *. subst lg.
  unfold logger_call, on_logging, zoom, structlog_log, get_state, bind; simpl.
  rewrite factory_names, log_delivered by done. unfold delivered. rewrite Hu, Ha.
  destruct (_ <? _).
  - eexists. split; [done|]. split; [by split; [|exists st0]|by rewrite app_nil_r].
  - eexists. split; [done|]. split; [|by rewrite app_nil_r]. split; [done|].
    set (text := render _ _ _ _ _). exists (print_stdout text st0).2. split; [|done]. exact Hp.
Qed.
Lemma on_span_leaves c : on_span c leaves [c].
Proof. intros t Ht. by eexists. Qed.
Lemma leaves_seq (m k : Py Telemetry unit) s1 s2 : m leaves s1 → k leaves s2 → (m;;; k) leaves (s1 ++ s2).
Proof.
  intros Hm Hk t Ht. destruct (Hm t Ht) as (t1 & E1 & H1 & S1), (Hk t1 H1) as (t2 & E2 & H2 & S2).
  exists t2. unfold bind. rewrite E1. split; [done|]. split; [done|]. by rewrite S2, S1, (assoc_L (++)).
Qed.
Lemma reconfigure_leaves : on_logging (configure_logging env) leaves [].
Proof using Hlevel.
  intros [lg i o sp] [Hi (st0 & Hp & Hlg)]. simpl in *. subst lg.
  unfold on_logging, zoom; simpl. rewrite (configure_ok env n), configured_idem by done.
  eexists. split; [done|]. split; [by split; [|exists st0]|by rewrite app_nil_r].
Qed.
Lemma initialize_started component t :
  below ("universal-runtime." +:+ component) "uvicorn" = false →
  below ("universal-runtime." +:+ component) "uvicorn.access" = false →
  started t → ∃ t', initialize factory render openlit depth env component t =
                    (Ok ("universal-runtime." +:+ component), t') ∧ started t' ∧ tel_spans t' = tel_spans t.
Proof using factory_names Hdepth.
  intros Hu Ha Ht. unfold initialize, init_observability, get_state, bind. rewrite (proj1 Ht).
  unfold ret at 1. edestruct logger_call_leaves as (t' & E & Ht' & Hs); [exact Hu|exact Ha|exact Ht|].
  rewrite E. exists t'. by rewrite Hs, app_nil_r.
Qed.
Lemma record_failure_leaves e code :
  record_failure factory render depth e code leaves
    [SetStatus (exn_str e); RecordException e; SetAttribute "error.code" code].
Proof using factory_names Hdepth.
  unfold record_failure. apply (leaves_seq _ _ [_]); [apply on_span_leaves|].
  apply (leaves_seq _ _ [_]); [apply on_span_leaves|].
  rewrite <-(app_nil_r [_]). apply (leaves_seq _ _ [_]); [apply on_span_leaves|by apply logger_call_leaves].
Qed.

(** What [Invoke] raises or returns is what the adapter does; the span says so. *)
Lemma traced_invoke_transparent {A} run_id assistant_id (r : res A) t :
  started t →
  ∃ t', traced_invoke factory render openlit depth env run_id assistant_id (of_result r) t = (r, t') ∧ started t' ∧
    tel_spans t' = tel_spans t ++
      [StartSpan "runtime.run"; SetAttribute "runtime.run_id" run_id; SetAttribute "runtime.assistant_id" assistant_id] ++
      match r with
      | Ok _ => [EndSpan None]
      | Raise e =>
          (if is_exception e
           then [SetStatus (exn_str e); RecordException e; SetAttribute "error.code" "RUNTIME_EXECUTION_FAILED"]
           else []) ++ [EndSpan (Some e)]
      end.
Proof using factory_names Hdepth Hlevel.
  intros Ht. unfold traced_invoke.
  destruct (initialize_started "worker" t) as (t1 & E1 & H1 & S1); [reflexivity..|done|].
  destruct (reconfigure_leaves t1 H1) as (t2 & E2 & H2 & S2). rewrite app_nil_r in S2.
  unfold runtime_run_span, bind at 1 2. rewrite E1. unfold bind at 1 2. rewrite E2.
  unfold bind at 1. cbn [on_span modify default for_each]. unfold bind, of_result, try_except, ret, raise; simpl.
  set (t3 := mk_telemetry _ _ _ _). assert (started t3) as H3 by (by destruct H2 as [? ?]; split).
  assert (tel_spans t3 = tel_spans t ++ [StartSpan "runtime.run"; SetAttribute "runtime.run_id" run_id;
    SetAttribute "runtime.assistant_id" assistant_id]) as S3.
  { unfold t3; simpl. by rewrite <-!(assoc_L (++)), S2, S1. }
  clearbody t3. destruct r as [a|e].
  - eexists. split; [done|]. split; [by destruct H3|]. by simpl; rewrite S3, <-(assoc_L (++)).
  - destruct (is_exception e).
    + destruct (record_failure_leaves e "RUNTIME_EXECUTION_FAILED" t3 H3) as (t4 & E4 & H4 & S4). rewrite E4.
      eexists. split; [done|]. split; [by destruct H4|]. simpl. by rewrite S4, S3, <-!(assoc_L (++)).
    + eexists. split; [done|]. split; [by destruct H3|]. by simpl; rewrite S3, <-(assoc_L (++)).
Qed.
End Tracing.

(** The middleware answers what the application answers, and logs it once. *)
Lemma dispatch_transparent {Response} factory render (status_code : Response → Z) millis decode_replace
    depth debug request start ended call_next env n st st1 response :
  (∀ name, factory name = name) → (2 ≤ depth)%nat → plain st1 →
  (debug = true → is_ok (rq_body request) = true) →
  call_next st = (Ok response, configured env n st1) →
  ∃ text, dispatch factory render status_code millis decode_replace depth debug request start ended call_next st =
    (Ok response, if 20 <? n then configured env n st1 else (print_stdout text (configured env n st1)).2).
Proof.
  intros Hf Hd Hp Hb Hc. unfold dispatch.
  assert (∀ (k : option string → Py Logging Response) (P : _ → Prop), (∀ b, P (k b st)) →
    P (bind (if debug then (b <- of_result (rq_body request);; ret (Some b)) else ret None) k st)) as Hbody.
  { intros k P Hk. destruct debug; [|apply Hk]. destruct (rq_body request); [apply Hk|by specialize (Hb eq_refl)]. }
  apply (Hbody _ (λ r, ∃ text, r = _)). intros b. unfold bind at 1. rewrite Hc.
  unfold structlog_log, get_state, bind. simpl. rewrite Hf, log_delivered by done.
  eexists. unfold delivered. change (threshold n "universal-runtime.http") with n. simpl.
  by destruct (20 <? n).
Qed.

(** A wrong level is reported once: the second call finds the telemetry initialized. *)
Lemma wrong_level_once factory render openlit depth env t :
  (∀ n, log_level env ≠ LevelInt n) → tel_initialized t = false →
  ∃ e t', init_observability factory render openlit depth env t = (Raise e, t') ∧
          init_observability factory render openlit depth env t' = (Ok tt, t').
Proof.
  intros Hl Hi. unfold init_observability. unfold bind at 1 3, get_state. rewrite Hi.
  unfold bind at 1, set_initialized, modify. unfold bind at 1, on_logging, zoom.
  destruct (configure_refused env (tel_logging t) Hl) as [e E]. simpl. rewrite E. by eexists _, _.
Qed.

(** ** The theorems *)

Section Theorems.
Context (factory : string → string)
  (render : option Renderer → string → Level → string → dict json → string)
  (factory_names : ∀ name, factory name = name).

(** C32: what logging is after [configure_logging], whatever was logged or configured
    before by this function: configuring succeeds for every name of a level and for
    unknown names, and doing it again changes nothing; a record below the level of its
    logger (for httpx: a warning, unless all is logged) is dropped; a record of uvicorn
    raises, because the handler that uvicorn's loggers are given logs to them, without
    end, and the handler of the access log reads the arguments of uvicorn's records,
    which are a tuple, as a dictionary; every other record is written once. *)
Theorem logging_redirected (env : environ) (n : Z) (st0 : Logging) :
  plain st0 → log_level env = LevelInt n →
  let st := configured env n st0 in
  configure_logging env st0 = (Ok tt, st) ∧
  configure_logging env st = (Ok tt, st) ∧
  ∀ depth name lv message args, (2 ≤ depth)%nat →
    log factory render depth name lv message args st = delivered n name lv message args st.
Proof using factory_names.
  intros Hp Hl st. split; [by apply configure_ok|]. split.
  - rewrite (configure_ok env n) by done. unfold st. by rewrite configured_idem.
  - intros depth name lv message args Hd. by apply log_delivered.
Qed.
End Theorems.

(** A process as it starts, at the default level, after which uvicorn logs that it
    serves. *)
Definition same_name (s : string) : string := s.
Definition show_event (r : option Renderer) (name : string) (lv : Level) (event : string) (kw : dict json) : string := event.

Lemma fresh_plain : plain fresh_logging.
Proof.
  split; intros name _; unfold getLogger, fresh_logging; simpl; by rewrite lookup_empty.
Qed.
Example logging_redirected_witness :
  let st := configured [] 20 fresh_logging in
  log same_name show_event 1000 "uvicorn.error" INFO "Started server process" (ArgsTuple []) st = (Raise RecursionError, st) ∧
  log_stdout (log same_name show_event 1000 "universal-runtime.worker" INFO "component started" (ArgsTuple []) st).2
  = ["component started"].
Proof.
  destruct (logging_redirected same_name show_event (λ _, eq_refl) [] 20 fresh_logging fresh_plain eq_refl)
    as (_ & _ & Hlog).
  split; [|rewrite Hlog by lia; reflexivity]. rewrite Hlog by lia. reflexivity.
Defined.
