(* ===== verification/GrpcServer.v ===== *)
(** * The worker's gRPC server

    [adapters/grpc/server.py] and [services/worker/main.py] below the repository's
    [services]: what a worker's server is made of, how it listens, and how it stops, which
    is where [drain] waits for the executions in progress.  The server itself is gRPC's:
    what is kept is the calls that are made of it. *)

From S2P Require Import Prelude PyDict PyStr Json Errors Capacity Grpc Launcher.

(** What is called on [grpc.aio.server()] and on the health servicer. *)
Inductive server_call : Type :=
| AddServicer (service : string)
| SetHealth (service status : string)
| AddInsecurePort (address : string)
| StartServer
| WaitForTermination
| Stop.

Record WorkerServer : Type := mk_worker_server {
  sv_worker : BoundedWorker;
  sv_calls : list server_call;
}.

Section Server.
(** What a call of the server raises after the others. *)
Context (world : list server_call → server_call → option exn).

Definition call (c : server_call) : Py WorkerServer unit := λ s,
  (match world (sv_calls s) c with Some e => Raise e | None => Ok tt end,
   mk_worker_server (sv_worker s) (sv_calls s ++ [c])).
Definition on_worker {A} : Py BoundedWorker A → Py WorkerServer A :=
  zoom sv_worker (λ w s, mk_worker_server w (sv_calls s)).

(** [WorkerServer.create] *)
Definition server_calls : list server_call :=
  [AddServicer "WorkerControlService"; AddServicer "ExecutionService"; SetHealth "" "SERVING"; AddServicer "Health"].
Definition create (env : environ) (configured_concurrency policy_ceiling : Z) : res WorkerServer :=
  result_map (λ w, mk_worker_server w server_calls)
    (new_worker (mk_worker_config configured_concurrency policy_ceiling "UR_WORKER_MAX_CONCURRENCY") env).

Definition start_listening (host : string) (port : Z) : Py WorkerServer unit :=
  call (AddInsecurePort (host +:+ ":" +:+ pretty port));;; call StartServer.
Definition start (host : string) (port : Z) : Py WorkerServer unit :=
  start_listening host port;;; call WaitForTermination.

(** [drain]: each turn reads the clock, which is before the deadline or not, and sleeps,
    while others change the worker; [None] if it has not ended after these turns. *)
Fixpoint drain_turns (turns : list (bool * (BoundedWorker → BoundedWorker))) (w : BoundedWorker)
  : option (res unit * BoundedWorker) :=
  if wk_active w =? 0 then Some (drain_end w)
  else match turns with
       | [] => None
       | (true, others) :: turns => drain_turns turns (others w)
       | (false, _) :: _ => Some (drain_end w)
       end.
Definition drain (turns : list (bool * (BoundedWorker → BoundedWorker))) (w : BoundedWorker)
  : option (res unit * BoundedWorker) := drain_turns turns (drain_start w).

(** [stop]: [await self.worker.drain(grace)] and [await self.server.stop(grace)] *)
Definition stop (turns : list (bool * (BoundedWorker → BoundedWorker))) (s : WorkerServer)
  : option (res unit * WorkerServer) :=
  match drain turns (sv_worker s) with
  | None => None
  | Some (r, w) =>
      let s := mk_worker_server w (sv_calls s) in
      Some (match r with Ok _ => call Stop s | Raise e => (Raise e, s) end)
  end.

(** The [main] of [services/worker/main.py], which serves without an adapter. *)
Definition services_main (env : environ) (run_forever : bool) : res (res Z * list server_call) :=
  result_bind (from_environment env None) (λ config,
  result_bind (validate config) (λ _,
  if run_forever then
    result_bind (py_int (getenv env "UR_WORKER_CONFIGURED_CONCURRENCY" (pretty (lc_worker_max_concurrency config)))) (λ configured,
    result_bind (py_int (getenv env "UR_WORKER_POLICY_CEILING" "64")) (λ policy,
    result_map (λ server,
      let '(r, server) := start (lc_grpc_host config) (lc_grpc_port config) server in
      (result_map (λ _, 0) r, sv_calls server))
      (create env configured policy)))
  else Ok (Ok 0, []))).

(** ** How it stops *)

(** The clock reaches the deadline, or no execution is in progress at some turn. *)
Lemma drain_turns_end turns w :
  (∃ turn, turn ∈ turns ∧ turn.1 = false) → is_Some (drain_turns turns w).
Proof.
  revert w. induction turns as [|[early others] turns IH]; intros w (turn & Hin & Ht); [by apply elem_of_nil in Hin|].
  simpl. destruct (wk_active w =? 0); [done|]. destruct early; [|done].
  apply elem_of_cons in Hin as [->|Hin]; [done|]. apply IH. by exists turn.
Qed.
Lemma drain_turns_outcome turns w r w' :
  drain_turns turns w = Some (r, w') →
  (r = Ok tt ∧ wk_active w' = 0) ∨ (r = Raise (TimeoutError "worker drain timed out") ∧ wk_active w' ≠ 0).
Proof.
  revert w. induction turns as [|[early others] turns IH]; intros w; simpl;
    unfold drain_end; destruct (wk_active w =? 0) eqn:Ha; to_prop.
  1,3: intros [= <- <-]; by left.
  - done.
  - destruct early; [apply IH|]. intros [= <- <-]. by right.
Qed.
Lemma drain_turns_keep (P : BoundedWorker → Prop) turns w r w' :
  P w → (∀ turn v, turn ∈ turns → P v → P (turn.2 v)) → drain_turns turns w = Some (r, w') → P w'.
Proof.
  revert w. induction turns as [|[early others] turns IH]; intros w Hw Ht; simpl;
    unfold drain_end; destruct (wk_active w =? 0).
  1,3: by intros [= <- <-].
  - done.
  - destruct early; [|by intros [= <- <-]]. apply IH; [apply (Ht (true, others)); [by left|done]|].
    intros turn v Hin. apply Ht. by right.
Qed.

(** Stopping ends when the clock reaches the deadline at the latest.  From then on the
    worker accepts no execution; the server is stopped exactly if no execution is in
    progress; otherwise the call fails and the server goes on serving. *)
Lemma stop_outcome turns s :
  (∃ turn, turn ∈ turns ∧ turn.1 = false) →
  (∀ turn v, turn ∈ turns → wk_draining v = true → wk_draining (turn.2 v) = true) →
  ∃ r s', stop turns s = Some (r, s') ∧ wk_draining (sv_worker s') = true ∧
    (acquire (sv_worker s')).1 = Raise (RuntimeError "worker is draining") ∧
    (if wk_active (sv_worker s') =? 0
     then sv_calls s' = sv_calls s ++ [Stop] ∧
          r = match world (sv_calls s) Stop with Some e => Raise e | None => Ok tt end
     else sv_calls s' = sv_calls s ∧ r = Raise (TimeoutError "worker drain timed out")).
Proof.
  intros Hend Hothers. unfold stop, drain.
  destruct (drain_turns_end turns (drain_start (sv_worker s)) Hend) as [[r w] Hd]. rewrite Hd.
  pose proof (drain_turns_keep (λ v, wk_draining v = true) turns (drain_start (sv_worker s)) r w eq_refl Hothers Hd) as Hk.
  assert ((acquire w).1 = Raise (RuntimeError "worker is draining")) as Hacq by (unfold acquire; by rewrite Hk).
  apply drain_turns_outcome in Hd as [[-> Ha]|[-> Ha]].
  - eexists _, _. split; [done|]. simpl. by rewrite (proj2 (Z.eqb_eq _ _) Ha).
  - eexists _, _. split; [done|]. simpl. by rewrite (proj2 (Z.eqb_neq _ _) Ha).
Qed.
End Server.
