(* ===== verification/Checks.v ===== *)
(** * The repository's checks

    [scripts/validate_contracts.py], [scripts/check_architecture.py],
    [scripts/verify_image.py], [scripts/run_e2e.py] and [container/healthcheck.py].  The
    parsers, JSON Schema, [protoc], Docker, the HTTP client and Python's [ast] are
    parameters. *)

From S2P Require Import Prelude PyDict PyStr Json Errors JsonAccess Launcher.
From Stdlib Require Import Ascii.

(** It is a [BaseException], and nothing here catches it. *)
Definition SystemExit (message : string) : exn := OtherError message.

(** ** Sets of values *)

Definition hashable (v : json) : bool := match v with JList _ | JObj _ => false | _ => true end.
Definition in_set (v : json) (s : list json) : bool := existsb (py_eq v) s.
Definition issubset (s t : list json) : bool := forallb (λ v, in_set v t) s.
Fixpoint distinct (s : list json) : list json :=
  match s with
  | [] => []
  | v :: s => let s := distinct s in if in_set v s then s else v :: s
  end.
(** The elements that iterating over a value gives. *)
Definition elements_of (v : json) : res (list json) :=
  match v with
  | JList l => Ok l
  | JObj o => Ok (JStr <$> o.*1)
  | JStr s => Ok ((λ c, JStr (String c "")) <$> String.list_ascii_of_string s)
  | _ => Raise (TypeError "object is not iterable")
  end.
Definition make_set (l : list json) : res (list json) :=
  if forallb hashable l then Ok (distinct l) else Raise (TypeError "unhashable type").
(** [set(v)] *)
Definition py_set (v : json) : res (list json) := result_bind (elements_of v) make_set.

(** ** [validate_contracts.py] *)

Definition EXPECTED_OPERATION_IDS : dict string := [
  ("health", "health"); ("server_info", "info"); ("assistant_create", "createAssistant");
  ("assistant_get", "getAssistant"); ("assistant_search", "searchAssistants");
  ("assistant_schemas", "getAssistantSchemas"); ("thread_create", "createThread"); ("thread_get", "getThread");
  ("thread_state_get", "getThreadState"); ("thread_state_update", "updateThreadState");
  ("thread_history", "getThreadHistory"); ("run_create", "createRun"); ("run_stream", "streamRun");
  ("stateless_run_stream", "streamStatelessRun"); ("stateless_run_wait", "waitStatelessRun"); ("run_get", "getRun");
  ("run_cancel", "cancelRun"); ("agent_card", "getAgentCard"); ("config_get", "getApplicationConfig");
  ("config_revision_create", "createApplicationConfigRevision"); ("config_validate", "validateApplicationConfig");
  ("config_activate", "activateApplicationConfigRevision")].

(** [if b: raise SystemExit(message)] *)
Definition exit_if (b : bool) (message : string) : res unit := if b then Raise (SystemExit message) else Ok tt.
Definition jvalues (v : json) : res (list json) :=
  match v with JObj o => Ok (o.*2) | _ => Raise (OtherError "object has no attribute 'values'") end.

(** The operation identifiers below one path, and below all. *)
Definition path_operations (path_item : json) : res (list json) :=
  result_bind (jvalues path_item) (λ operations,
  make_set (omap (λ operation, match operation with JObj o => dget o "operationId" | _ => None end) operations)).
Definition operation_ids (openapi : json) : res (list json) :=
  result_bind (jindex openapi "paths") (λ paths,
  result_bind (jvalues paths) (λ items,
  result_map (λ ids, distinct (concat ids)) (result_mapM path_operations items))).

Definition list_repr (l : list string) : string :=
  "[" +:+ join ", " ((λ s, "'" +:+ s +:+ "'") <$> l) +:+ "]".
Definition sorted (l : list string) : list string := merge_sort (λ a b, String.leb a b) l.

Definition check_openapi (openapi : json) : res unit :=
  result_bind (jget openapi "openapi" JNull) (λ version,
  result_bind (exit_if (negb (py_eq version (JStr "3.1.0"))) "OpenAPI document must be 3.1.0") (λ _,
  result_bind (jget openapi "paths" JNull) (λ paths,
  result_bind (exit_if (negb (truthy paths)) "OpenAPI paths are empty") (λ _,
  result_bind (operation_ids openapi) (λ ids,
  let missing := List.filter (λ s, negb (in_set (JStr s) ids)) (EXPECTED_OPERATION_IDS.*2) in
  exit_if (negb (bool_decide (missing = []))) ("OpenAPI operation IDs missing: " +:+ list_repr (sorted missing))))))).

Definition required_scope_fields : list json := JStr <$> ["contracted"; "implemented"; "verified"; "todo"].
Definition check_scope (scope : json) : res unit :=
  result_bind (py_set scope) (λ fields,
  result_bind (exit_if (negb (issubset required_scope_fields fields))
    "compatibility scope must contain contracted, implemented, verified and todo") (λ _,
  result_bind (result_bind (jget scope "verified" (JList [])) py_set) (λ verified,
  result_bind (result_bind (jget scope "implemented" (JList [])) py_set) (λ implemented,
  result_bind (exit_if (negb (issubset verified implemented))
    "verified compatibility entries must be implemented") (λ _,
  let expected := JStr <$> EXPECTED_OPERATION_IDS.*1 in
  result_bind (exit_if (negb (issubset implemented expected && issubset expected implemented))
    "compatibility scope does not match the OpenAPI implementation set") (λ _,
  result_bind (result_bind (jget scope "todo" (JList [])) elements_of) (λ items,
  result_bind (result_mapM (λ item, jget item "id" JNull) items) (λ todo_ids,
  result_bind (make_set todo_ids) (λ ids,
  exit_if (negb (length todo_ids =? length ids)%nat || negb (forallb truthy todo_ids))
    "compatibility TODO entries need unique IDs"))))))))).

(** [main]; the documents are what reading and parsing them gives. *)
Definition validate_contracts (schema event_schema runtime_example openapi scope : res json)
    (check_schema : json → res unit) (validate : json → json → res unit) (protoc : res (Z * string)) : res string :=
  result_bind schema (λ schema, result_bind event_schema (λ event_schema,
  result_bind runtime_example (λ runtime_example, result_bind openapi (λ openapi, result_bind scope (λ scope,
  result_bind (check_schema schema) (λ _, result_bind (check_schema event_schema) (λ _,
  result_bind (validate schema runtime_example) (λ _,
  result_bind (check_openapi openapi) (λ _, result_bind (check_scope scope) (λ _,
  result_bind protoc (λ '(returncode, stderr),
  result_bind (exit_if (negb (returncode =? 0))
    ("protobuf compilation failed:" +:+ String (ascii_of_nat 10) "" +:+ stderr)) (λ _,
  Ok "contracts: valid")))))))))))).

(** ** [check_architecture.py] *)

Inductive ast_node : Type := Import (names : list string) | ImportFrom (module : option string) | OtherNode.

Definition FORBIDDEN_DOMAIN_PREFIXES : list string :=
  ["fastapi"; "sqlalchemy"; "langgraph"; "langchain"; "aiokafka"; "grpc"; "opentelemetry"].
Definition FORBIDDEN_NAMES : list string := ["utils"; "helpers"; "misc"].
Definition IGNORED_PARTS : list string := [".git"; ".venv"; "node_modules"; "build"; "dist"; "__pycache__"].

(** [imports]: a set, here without repetitions in the order of the nodes. *)
Definition imports (walk : list ast_node) : list string :=
  remove_dups (concat ((λ node, match node with
    | Import names => names
    | ImportFrom (Some m) => if str_truthy m then [m] else []
    | _ => []
    end) <$> walk)).

(** A path below the root: its absolute parts, its name, how it reads below the root. *)
Record tree_path : Type := mk_tree_path {
  tp_parts : list string;
  tp_name : string;
  tp_relative : string;
  tp_is_dir : bool;
}.

Definition directory_errors (p : tree_path) : list string :=
  if existsb (λ part, bool_decide (part ∈ IGNORED_PARTS)) (tp_parts p) then []
  else if tp_is_dir p && bool_decide (tp_name p ∈ FORBIDDEN_NAMES)
       then ["forbidden generic directory: " +:+ tp_relative p] else [].
Definition forbidden_module (m : string) : bool := existsb (λ prefix, starts_with prefix m) FORBIDDEN_DOMAIN_PREFIXES.
Definition import_errors (p : tree_path) (walk : list ast_node) : list string :=
  (λ m, "domain import violation: " +:+ tp_relative p +:+ " -> " +:+ m) <$> List.filter forbidden_module (imports walk).

(** [main]: all paths of the tree, and the Python files of the domain with their syntax. *)
Definition check_architecture (tree : list tree_path) (domain : list (tree_path * res (list ast_node))) : res string :=
  result_bind (result_mapM (λ '(p, walk), result_map (import_errors p) walk) domain) (λ found,
  let errors := concat (directory_errors <$> tree) ++ concat found in
  result_bind (exit_if (negb (bool_decide (errors = []))) (join (String (ascii_of_nat 10) "") errors)) (λ _,
  Ok "architecture: valid")).

(** ** [verify_image.py], [run_e2e.py], [healthcheck.py] *)

Definition image_checks : list (list string) :=
  [["docker"; "image"; "inspect"; "universal-runtime:local"];
   ["docker"; "run"; "--rm"; "--entrypoint"; "universal-runtime"; "universal-runtime:local"; "info"]].
(** The first return code that is not zero. *)
Fixpoint run_all (run : list string → Z) (checks : list (list string)) : Z :=
  match checks with
  | [] => 0
  | command :: checks => if run command =? 0 then run_all run checks else run command
  end.
Definition verify_image (run : list string → Z) : Z := run_all run image_checks.

(** The status of a response, or an exception, which ends the script. *)
Fixpoint probe_all (urlopen : string → res Z) (base_url : string) (paths : list string) (k : Z) : res Z :=
  match paths with
  | [] => Ok k
  | path :: paths => result_bind (urlopen (base_url +:+ path)) (λ status,
      if status =? 200 then probe_all urlopen base_url paths k else Ok 1)
  end.
Definition run_e2e (env : environ) (urlopen : string → res Z) (acceptance : Z) : res Z :=
  let base_url := getenv env "UR_E2E_BASE_URL" "http://127.0.0.1:8080" in
  if negb (starts_with "http://" base_url || starts_with "https://" base_url) then Ok 2
  else probe_all urlopen base_url ["/ok"; "/ready"] acceptance.

(** The client's [OSError] and [ValueError] are the [None] of the outer option, other
    exceptions end the script. *)
Definition healthcheck (env : environ) (urlopen : string → option (res Z)) : res Z :=
  let port := getenv env "UR_GATEWAY_PORT" (getenv env "UR_HTTP_PORT" "8080") in
  let path := if bool_decide (dget env "UR_MODE" ∈ Some <$> ["gateway"; "api"; "standalone"]) then "/ready" else "/ok" in
  match urlopen ("http://127.0.0.1:" +:+ port +:+ path) with
  | Some r => result_map (λ status, if status =? 200 then 0 else 1) r
  | None => Ok 1
  end.

(** ** What a successful check shows *)

Lemma exit_if_ok b m : exit_if b m = Ok tt ↔ b = false.
Proof. by destruct b. Qed.
Lemma make_set_ok l s : make_set l = Ok s → s = distinct l.
Proof. unfold make_set. destruct (forallb _ _); intros; by simplify_eq. Qed.
Lemma in_set_spec v s : in_set v s = true ↔ ∃ w, w ∈ s ∧ py_eq v w = true.
Proof. unfold in_set. rewrite existsb_exists. by setoid_rewrite <-list_elem_of_In. Qed.
(** A text equals only itself. *)
Lemma py_eq_text t v : py_eq (JStr t) v = true → v = JStr t.
Proof. destruct v; try done. simpl. by intros ->%bool_decide_eq_true. Qed.
Lemma distinct_sub v l : v ∈ distinct l → v ∈ l.
Proof.
  induction l as [|w l IH]; simpl; [done|]. case_match; [right; by apply IH|].
  intros [->|?]%elem_of_cons; [left|right; by apply IH].
Qed.
Lemma text_in_set t s : in_set (JStr t) s = true → JStr t ∈ s.
Proof. intros (w & Hw & ->%py_eq_text)%in_set_spec. done. Qed.
Lemma mapM_elem {A B} (f : A → res B) l l' y :
  result_mapM f l = Ok l' → y ∈ l' → ∃ x, x ∈ l ∧ f x = Ok y.
Proof.
  revert l'. induction l as [|x l IH]; simpl; intros l' Hl Hy; [by simplify_eq; apply elem_of_nil in Hy|].
  destruct (f x) as [z|] eqn:Hx; [|done]. simpl in Hl. destruct (result_mapM f l) as [zs|] eqn:Hs; [|done].
  simplify_eq/=. apply elem_of_cons in Hy as [->|Hy]; [exists x; split; [by left|done]|].
  destruct (IH zs eq_refl Hy) as (w & ? & ?). exists w. split; [by right|done].
Qed.

(** The document has an operation with this identifier. *)
Definition declares (openapi : json) (id : string) : Prop :=
  ∃ paths path item method operation,
    jindex openapi "paths" = Ok (JObj paths) ∧ (path, JObj item) ∈ paths ∧
    (method, JObj operation) ∈ item ∧ dget operation "operationId" = Some (JStr id).

Lemma operation_declared openapi ids id :
  operation_ids openapi = Ok ids → in_set (JStr id) ids = true → declares openapi id.
Proof.
  unfold operation_ids. intros (paths & Hp & H)%result_bind_Ok Hin.
  apply result_bind_Ok in H as (items & Hi & H). destruct paths as [| | | | | |paths]; try done. simplify_eq/=.
  destruct (result_mapM path_operations paths.*2) as [sets|] eqn:Hs; [|done]. simplify_eq/=.
  apply text_in_set, distinct_sub, list_elem_of_In, in_concat in Hin
    as (set & Hset%list_elem_of_In & Hid%list_elem_of_In).
  destruct (mapM_elem _ _ _ _ Hs Hset) as (item & ([path item'] & -> & Hitem)%list_elem_of_fmap & Hops).
  unfold path_operations in Hops. apply result_bind_Ok in Hops as (ops & Hv & Hm).
  destruct item' as [| | | | | |item]; try done. simplify_eq/=. apply make_set_ok in Hm as ->.
  apply distinct_sub, list_elem_of_omap in Hid as (op & ([method op'] & -> & Hop)%list_elem_of_fmap & Hid).
  destruct op' as [| | | | | |op]; try done. simpl in Hid. by exists paths, path, item, method, op.
Qed.

(** The scope names exactly the expected operations as implemented, none as verified that
    is not implemented, and gives every open point an identifier of its own. *)
Definition scope_consistent (scope : json) : Prop :=
  ∃ verified implemented todo_ids,
    result_bind (jget scope "verified" (JList [])) py_set = Ok verified ∧
    result_bind (jget scope "implemented" (JList [])) py_set = Ok implemented ∧
    issubset verified implemented = true ∧
    (∀ name, name ∈ EXPECTED_OPERATION_IDS.*1 → JStr name ∈ implemented) ∧
    (∀ v, v ∈ implemented → ∃ name, name ∈ EXPECTED_OPERATION_IDS.*1 ∧ py_eq v (JStr name) = true) ∧
    result_bind (result_bind (jget scope "todo" (JList [])) elements_of) (result_mapM (λ item, jget item "id" JNull))
      = Ok todo_ids ∧ length (distinct todo_ids) = length todo_ids ∧ forallb truthy todo_ids = true.

(** Takes a chain of checks apart. *)
Ltac chain H :=
  repeat match type of H with
  | result_bind _ _ = Ok _ => let x := fresh "x" in let E := fresh "E" in apply result_bind_Ok in H as (x & E & H)
  end.

Lemma check_openapi_ok openapi :
  check_openapi openapi = Ok tt → ∀ id, id ∈ EXPECTED_OPERATION_IDS.*2 → declares openapi id.
Proof.
  unfold check_openapi. intros H. chain H. apply exit_if_ok, negb_false_iff, bool_decide_eq_true in H.
  intros id Hid. eapply operation_declared; [exact E3|]. apply not_false_iff_true. intros Hf.
  assert (id ∈ ([] : list string)) as []%elem_of_nil. rewrite <-H. apply list_elem_of_In, filter_In.
  by rewrite <-list_elem_of_In, Hf.
Qed.
Lemma check_scope_ok scope : check_scope scope = Ok tt → scope_consistent scope.
Proof.
  unfold check_scope. intros H. chain H.
  repeat match goal with E : exit_if _ _ = Ok ?x |- _ => destruct x; apply exit_if_ok in E end.
  to_prop. apply Nat.eqb_eq in H. apply make_set_ok in E7 as ->.
  exists x1, x2, x6. split_and!; try done.
  - intros name Hn. apply text_in_set, (proj1 (forallb_forall _ _) H2), list_elem_of_In, list_elem_of_fmap. by exists name.
  - intros v Hv. assert (in_set v (JStr <$> EXPECTED_OPERATION_IDS.*1) = true) as Hin
      by (apply (proj1 (forallb_forall _ _) H1); by apply list_elem_of_In).
    apply in_set_spec in Hin as (w & (name & -> & Hn)%list_elem_of_fmap & Heq). by exists name.
  - by rewrite E5.
Qed.

(** If the contracts are valid, the document declares every operation the gateway is
    expected to have, and the scope is consistent. *)
Lemma contracts_valid schema event_schema example openapi scope check_schema validate protoc m :
  validate_contracts (Ok schema) (Ok event_schema) (Ok example) (Ok openapi) (Ok scope) check_schema validate protoc = Ok m →
  m = "contracts: valid" ∧ check_schema schema = Ok tt ∧ check_schema event_schema = Ok tt ∧
  validate schema example = Ok tt ∧ (∃ stderr, protoc = Ok (0, stderr)) ∧
  (∀ id, id ∈ EXPECTED_OPERATION_IDS.*2 → declares openapi id) ∧ scope_consistent scope.
Proof.
  unfold validate_contracts. cbn [result_bind]. intros H. chain H. destruct x4 as [rc stderr]. chain H.
  repeat match goal with x : unit |- _ => destruct x end. apply exit_if_ok in E5. to_prop. subst. simplify_eq/=.
  split_and!; try done; [by exists stderr|by apply check_openapi_ok|by apply check_scope_ok].
Qed.

Lemma concat_nil_elem {A} (ls : list (list A)) l : concat ls = [] → l ∈ ls → l = [].
Proof.
  induction ls as [|l' ls IH]; simpl; [by intros _ []%elem_of_nil|].
  intros [-> Hc]%app_eq_nil [->|Hl]%elem_of_cons; [done|by apply IH].
Qed.
Lemma mapM_elem_of {A B} (f : A → res B) l l' x :
  result_mapM f l = Ok l' → x ∈ l → ∃ y, y ∈ l' ∧ f x = Ok y.
Proof.
  revert l'. induction l as [|z l IH]; simpl; intros l' Hl Hx; [by apply elem_of_nil in Hx|].
  destruct (f z) as [w|] eqn:Hz; [|done]. simpl in Hl. destruct (result_mapM f l) as [ws|] eqn:Hs; [|done].
  simplify_eq/=. apply elem_of_cons in Hx as [->|Hx]; [exists w; split; [by left|done]|].
  destruct (IH ws eq_refl Hx) as (y & ? & ?). exists y. split; [by right|done].
Qed.
Lemma import_errors_none p nodes :
  import_errors p nodes = [] ↔ ∀ m, m ∈ imports nodes → forbidden_module m = false.
Proof.
  unfold import_errors. split.
  - intros Hf%fmap_nil_inv m Hm. apply not_true_iff_false. intros Hb.
    assert (m ∈ ([] : list string)) as []%elem_of_nil. rewrite <-Hf. apply list_elem_of_In, filter_In.
    by rewrite <-list_elem_of_In.
  - intros Hall. induction (imports nodes) as [|m l IH]; [done|]. simpl. rewrite Hall by by left.
    apply IH. intros. apply Hall. by right.
Qed.
Lemma directory_errors_none p : directory_errors p = [] ↔
  (∃ part, part ∈ tp_parts p ∧ part ∈ IGNORED_PARTS) ∨ tp_is_dir p = false ∨ tp_name p ∉ FORBIDDEN_NAMES.
Proof.
  unfold directory_errors. destruct (existsb _ (tp_parts p)) eqn:He.
  - split; [intros _; left|done]. apply existsb_exists in He as (x & Hx & Hi).
    exists x. rewrite list_elem_of_In. by apply bool_decide_eq_true in Hi.
  - assert (¬ ∃ part, part ∈ tp_parts p ∧ part ∈ IGNORED_PARTS) as Hno.
    { intros (x & Hx & Hi). apply not_true_iff_false in He. apply He, existsb_exists. exists x.
      rewrite <-list_elem_of_In. split; [done|by apply bool_decide_eq_true]. }
    destruct (tp_is_dir p); simpl; [case_bool_decide|]; (split; [intros ?|intros [?|[?|?]]]); try done; auto.
Qed.
Lemma directories_valid tree : concat (directory_errors <$> tree) = [] ↔
  ∀ p, p ∈ tree → (∃ part, part ∈ tp_parts p ∧ part ∈ IGNORED_PARTS) ∨ tp_is_dir p = false ∨ tp_name p ∉ FORBIDDEN_NAMES.
Proof.
  setoid_rewrite <-directory_errors_none. split.
  - intros Hc p Hp. eapply concat_nil_elem; [exact Hc|]. apply list_elem_of_fmap. by exists p.
  - intros Hall. induction tree as [|p l IH]; [done|]. simpl. rewrite Hall by by left.
    apply IH. intros. apply Hall. by right.
Qed.

(** The architecture is valid exactly if no directory outside the ignored ones has a
    forbidden name and no module of the domain imports a framework. *)
Lemma architecture_valid tree domain :
  is_ok (check_architecture tree domain) = true ↔
  (∀ p, p ∈ tree → (∃ part, part ∈ tp_parts p ∧ part ∈ IGNORED_PARTS) ∨ tp_is_dir p = false ∨ tp_name p ∉ FORBIDDEN_NAMES) ∧
  (∀ p walk, (p, walk) ∈ domain → ∃ nodes, walk = Ok nodes ∧ ∀ m, m ∈ imports nodes → forbidden_module m = false).
Proof.
  unfold check_architecture. rewrite <-(directories_valid tree). split.
  - destruct (result_mapM _ domain) as [found|] eqn:Hm; [|done]. cbn [result_bind].
    case_bool_decide as He; [|done]. intros _. apply app_eq_nil in He as [Ht Hf]. split; [done|].
    intros p walk Hin. destruct (mapM_elem_of _ _ _ _ Hm Hin) as (y & Hy & Hfy).
    destruct walk as [nodes|e]; [|done]. exists nodes. split; [done|]. simplify_eq/=.
    apply (import_errors_none p). by eapply concat_nil_elem.
  - intros [Ht Hd]. assert (result_mapM (λ '(p, walk), result_map (import_errors p) walk) domain = Ok ((λ _, []) <$> domain)) as ->.
    { induction domain as [|[p walk] l IH]; [done|]. destruct (Hd p walk) as (nodes & -> & Hn); [by left|].
      cbn. rewrite IH by (intros q w Hq; apply (Hd q w); by right). cbn. by rewrite (proj2 (import_errors_none p nodes) Hn). }
    cbn [result_bind]. rewrite Ht. assert (concat ((λ _ : tree_path * res (list ast_node), [] : list string) <$> domain) = []) as ->
      by (clear; induction domain as [|a l IH]; [done|exact IH]). done.
Qed.
