(* ===== verification/Bootstrap.v ===== *)
(** * Assembling a runtime, and the command line

    [bootstrap/local.py] and [bootstrap/production.py], the choice between them in
    [create_app], [configuration/loader.py], the commands of [bootstrap/cli.py], and
    [telemetry/context.py].  Reading files, the JSON schema, the database's engine and
    the processes that the commands start are parameters. *)

From S2P Require Import Prelude PyDict PyStr Json Errors Configuration Identity Execution Ports.
From S2P Require Import MemoryRepositories MemoryQueue MemoryJournal MemoryStores Capacity Service ServiceSafety Launcher.
Import Configuration.Interpolation.

(** ** [LocalRuntime] *)

Section Runtime.
Context {R T Q J O A : Type} `{RunRepository R, ThreadRepository T, RunCommandQueue Q, EventJournal J, OutboxRepository O}
  (close : Py Q unit).
Abbreviation Worker := (Worker (R:=R) (T:=T) (Q:=Q) (J:=J) (O:=O) (A:=A)).

(** The runtime's parts, [execute_locally], and whether [_worker_task] is set. *)
Record LocalRuntime : Type := mk_runtime {
  lr_worker : Worker;
  lr_execute_locally : bool;
  lr_worker_task : bool;
}.

(** [RuntimeExecutionService.start_worker] and [stop_worker] *)
Definition start_worker : Py LocalRuntime unit :=
  modify (λ r, if lr_worker_task r || bool_decide (Registry.all (wk_adapters (lr_worker r)) = []) then r
               else mk_runtime (lr_worker r) (lr_execute_locally r) true).
Definition stop_worker : Py LocalRuntime unit :=
  modify (λ r, mk_runtime (lr_worker r) (lr_execute_locally r) false).

Definition start : Py LocalRuntime unit :=
  r <- get_state;; if lr_execute_locally r then start_worker else ret tt.

Definition on_worker {B} (m : Py Worker B) : Py LocalRuntime B :=
  zoom lr_worker (λ w r, mk_runtime w (lr_execute_locally r) (lr_worker_task r)) m.

(** [drain] up to its wait for the executions that are left. *)
Definition drain_capacity : Py Worker unit := λ w,
  match wk_capacity w with
  | None => (Ok tt, w)
  | Some c => let '(o, c') := start_draining c in (o, set_capacity (Some c') w)
  end.

(** [shutdown], of a queue that has the method [close]. *)
Definition shutdown : Py LocalRuntime unit :=
  stop_worker;;; on_worker (on_service (on_commands close));;; on_worker drain_capacity.

(** Commands are executed by the worker's task, while there is one. *)
Definition executes (r : LocalRuntime) : Prop := lr_worker_task r = true.

(** A runtime executes commands after its start if it is to do so locally and has an
    adapter at that time; starting it again changes nothing. *)
Lemma start_executes r :
  lr_worker_task r = false →
  let r' := (start r).2 in
  (executes r' ↔ lr_execute_locally r = true ∧ wk_adapters (lr_worker r) ≠ []) ∧ lr_worker r' = lr_worker r ∧
  (start r').2 = r'.
Proof.
  intros Ht r'. unfold r', start, executes, start_worker, bind, get_state, modify. destruct r as [w local task]. cbn in *. subst task.
  assert (Registry.all (wk_adapters w) = [] ↔ wk_adapters w = []) as Hall
    by (unfold Registry.all, dvalues; split; [by intros ?%fmap_nil_inv|by intros ->]).
  destruct local; cbn; [|split; [naive_solver|done]]. case_bool_decide as Hd; cbn.
  - split; [apply Hall in Hd; naive_solver|]. split; [done|]. by rewrite bool_decide_eq_true_2.
  - split; [split; [intros _; split; [done|by rewrite <- Hall]|done]|done].
Qed.
End Runtime.

(** Nothing is executed, published or admitted after a shutdown. *)
Lemma shutdown_refuses {R T J O A} `{RunRepository R, ThreadRepository T, EventJournal J, OutboxRepository O}
    (r : LocalRuntime (R:=R) (T:=T) (Q:=MemoryQueue) (J:=J) (O:=O) (A:=A)) c :
  let r' := (shutdown mq_close r).2 in
  (shutdown mq_close r).1 = Ok tt ∧ ¬ executes r' ∧
  svc_runs (wk_service (lr_worker r')) = svc_runs (wk_service (lr_worker r)) ∧
  (queue_publish c (svc_commands (wk_service (lr_worker r')))).1 = Raise queue_closed ∧
  ∀ cap, wk_capacity (lr_worker r') = Some cap → (slot_enter cap).1 = Raise draining_failure.
Proof.
  destruct r as [[s adapters [cap|]] local task]; cbn; (split; [done|]); (split; [done|]); (split; [done|]);
    (split; [done|]); intros ? [= <-]. done.
Qed.

(** ** [production.py] and the choice of [create_app] *)

Section Production.
Context {V : Type} (create_engine : string → Z → Z → res unit) (local_runtime : V).

(** The runtime of the production profile is made without its required argument
    [events]. *)
Definition create_production_runtime (env : environ) : res V :=
  match getenv_true env "UR_DATABASE_URL" with
  | None => Raise (RuntimeError "UR_DATABASE_URL is required in production profile")
  | Some url =>
      result_bind (py_int (getenv env "UR_DB_POOL_SIZE" "10")) (λ pool_size,
      result_bind (py_int (getenv env "UR_DB_MAX_OVERFLOW" "20")) (λ max_overflow,
      result_bind (create_engine url pool_size max_overflow) (λ _,
      result_bind (py_int (getenv env "UR_WORKER_MAX_CONCURRENCY" "8")) (λ maximum,
      result_bind (new_capacity maximum) (λ _,
      Raise (TypeError "LocalRuntime.__init__() missing 1 required positional argument: 'events'"))))))
  end.

(** [runtime or (...)] *)
Definition create_runtime (given : option V) (env : environ) : res V :=
  match given with
  | Some r => Ok r
  | None => if decide (getenv env "UR_PROFILE" "local" = "production") then create_production_runtime env
            else Ok local_runtime
  end.

(** A gateway of the production profile cannot be made, whatever else is set. *)
Lemma production_never_starts env :
  getenv env "UR_PROFILE" "local" = "production" → is_ok (create_runtime None env) = false.
Proof.
  intros Hp. unfold create_runtime. rewrite decide_True by done. unfold create_production_runtime.
  destruct (getenv_true env _); [|done].
  destruct (py_int (getenv env "UR_DB_POOL_SIZE" _)); [cbn [result_bind]|done].
  destruct (py_int (getenv env "UR_DB_MAX_OVERFLOW" _)); [cbn [result_bind]|done].
  destruct (create_engine _ _ _); [cbn [result_bind]|done].
  destruct (py_int (getenv env "UR_WORKER_MAX_CONCURRENCY" _)); [cbn [result_bind]|done].
  by destruct (new_capacity _).
Qed.
End Production.

(** ** Configuration files *)

Section Files.
(** [yaml.safe_load] of a file, and the errors of the schema with their paths. *)
Context (read_yaml : string → res json) (iter_errors : json → list (string * string)).

(** [RuntimeConfigLoader.load]; [validate] raises the error it prefers. *)
Definition load (variables : dict string) (path : string) : res json :=
  result_bind (read_yaml path) (λ document,
  result_bind (interpolate_environment variables document) (λ resolved,
    match iter_errors resolved with
    | [] => Ok resolved
    | e :: _ => Raise (OtherError e.2)
    end)).

(** [_validate_config]: the exit code and the lines that are printed. *)
Definition _validate_config (path : string) : res (Z * list string) :=
  result_map (λ document,
    match iter_errors document with
    | [] => (0, ["config: valid (" +:+ path +:+ ")"])
    | errors => (1, (λ e, e.1 +:+ ": " +:+ e.2) <$> errors)
    end) (read_yaml path).

(** A file without expressions is valid for the command line exactly if it can be
    loaded. *)
Lemma validation_agrees variables path document :
  read_yaml path = Ok document → interpolate_environment variables document = Ok document →
  (fst <$> (match _validate_config path with Ok r => Some r | Raise _ => None end) = Some 0 ↔
   load variables path = Ok document).
Proof.
  intros Hr Hi. unfold _validate_config, load. rewrite Hr. cbn [result_map result_bind]. rewrite Hi. cbn [result_bind].
  destruct (iter_errors document); cbn; split; intros H; by simplify_eq.
Qed.

(** *** [main] of [cli.py] *)

(** The arguments that [_parser] gives. *)
Inductive arguments : Type :=
| Info
| Validate
| Standalone
| Inspect (path : string) (entrypoint : option string) (isolated_import : bool)
| InspectGraph (entrypoint : string)
| Migrate (config application_id environment : string)
| Api (entrypoint root_path host : string) (port : Z)
| Service (command : string)
| ValidateConfigFile (path : string)
| NoCommand.

(** What the commands call, and their outputs as text. *)
Context (path_exists : string → bool) (run_standalone : res unit) (inspect : string → option string → bool → res string)
  (inspect_graph : string → res string) (serve_api : string → string → string → Z → res unit)
  (run_service : service → res Z) (migrate : string → string → string → res unit) (dumps : json → string) (usage : list string).

Definition main (env : environ) (a : arguments) : res (Z * list string) :=
  match a with
  | ValidateConfigFile path => _validate_config path
  | Info => Ok (0, [dumps (JObj [("version", JStr "0.1.0"); ("profile", JStr "bootstrap")])])
  | Validate =>
      let config_path := getenv env "UR_CONFIG_PATH" "runtime.yaml" in
      if path_exists config_path then _validate_config config_path
      else Ok (1, ["config: missing (" +:+ config_path +:+ ")"])
  | Standalone =>
      result_map (λ _, (0, [dumps (JObj [("version", JStr "0.1.0"); ("profile", JStr "standalone")])])) run_standalone
  | Inspect path entrypoint isolated_import =>
      match inspect path entrypoint isolated_import with
      | Ok s => Ok (0, [s])
      | Raise e => if is_exception e then Ok (1, [exn_str e]) else Raise e
      end
  | InspectGraph entrypoint => result_map (λ s, (0, [s])) (inspect_graph entrypoint)
  | Api entrypoint root_path host port => result_map (λ _, (0, [])) (serve_api entrypoint root_path host port)
  | Service command =>
      match service_main command with
      | Some s => result_map (λ code, (code, [])) (run_service s)
      | None => Ok (0, usage)
      end
  | Migrate config application_id environment =>
      match getenv_true env "UR_DATABASE_URL" with
      | None => Ok (2, ["UR_DATABASE_URL is required for migrations"])
      | Some url =>
          result_map (λ _, (0, [dumps (JObj [("profile", JStr "migrate"); ("config", JStr config);
                                              ("application_id", JStr application_id); ("environment", JStr environment)])]))
            (migrate url application_id environment)
      end
  | NoCommand => Ok (0, usage)
  end.

(** [migrate] reports a completed migration even if another process held the lock, and
    never reads the file it is given. *)
Lemma migrate_ignores_config env config config' app environment :
  result_map fst (main env (Migrate config app environment)) = result_map fst (main env (Migrate config' app environment)).
Proof. unfold main. destruct (getenv_true _ _); [|done]. by destruct (migrate _ _ _). Qed.
End Files.

(** A port that the environment gives is not a number for the command line, which
    validates the file as it is written, and is one text too many for the loader. *)
Definition port_errors (v : json) : list (string * string) :=
  match v with
  | JObj [("port", JInt _)] => []
  | _ => [("$.port", "is not of type 'integer'")]
  end.
Lemma interpolated_port_invalid :
  let read (_ : string) := Ok (JObj [("port", JStr "${PORT}")]) in
  result_map fst (_validate_config read port_errors "runtime.yaml") = Ok 1 ∧
  is_ok (load read port_errors [("PORT", "8080")] "runtime.yaml") = false.
Proof. by split. Qed.

(** ** [telemetry/context.py] *)

(** The context variables of structlog. *)
Abbreviation contextvars := (dict json).
Definition bind_contextvars (kwargs : contextvars) (ctx : contextvars) : contextvars :=
  foldl (λ d kv, dset d kv.1 kv.2) ctx kwargs.

(** [bind_context]: [saved] holds the old values of its own keys. *)
Definition bind_context {B} (kwargs : contextvars) (body : Py contextvars B) : Py contextvars B := λ ctx,
  let saved := omap (λ kv : string * json, match dget ctx kv.1 with
                                           | None | Some JNull => None
                                           | Some v => Some (kv.1, v)
                                           end) kwargs in
  let '(o, _) := body (bind_contextvars kwargs ctx) in
  (o, bind_contextvars saved []).

Definition optional_text (o : option string) : json := match o with Some s => JStr s | None => JNull end.
Definition set_run_context (run_id : string) (thread_id assistant_id attempt_id : option string) : Py contextvars unit :=
  modify (bind_contextvars [("run_id", JStr run_id); ("thread_id", optional_text thread_id);
                            ("assistant_id", optional_text assistant_id); ("attempt_id", optional_text attempt_id)]).

(** After a nested context only its own keys are left: the others are forgotten, so that
    what is logged afterwards does not name the run any more. *)
Lemma nested_context_forgets :
  let inner : Py contextvars unit := bind_context [("step", JStr "load")] (ret tt) in
  (set_run_context "r1" None None None;;; inner) [] = (Ok tt, []).
Proof. reflexivity. Qed.
