(* ===== verification/GatewayStream.v ===== *)
(** * The gateway's event streams

    [services/gateway/app.py]: the ingress of the workers' events and the
    server-sent event streams.  [_sse_response] makes a bounded queue for each
    stream and enters it in the list of its run; [_EventIngressServicer] puts the
    events that a worker sends into the queues of the first event's run, and a
    [None] into each when the worker has sent them all.  The lists are shared
    objects: an iteration that waits for a full queue goes on over a list that
    has grown, and a list that was popped lives on in the iteration.

    A run of the gateway is a sequence of labels; between two labels each part
    stands at an [await].  Events are sent to queues one at a time, which allows
    more interleavings than [put] on a queue that is not full. *)

From S2P Require Import Prelude PyDict PyStr Json Errors Identity Execution Grpc.

(** ** Frames *)

(** The arguments of [_sse_response] that the generator uses. *)
Record Stream : Type := mk_stream {
  st_run : string;
  st_native : bool;
  st_modes : list string;
  st_after : Z;
}.

Definition nl : string := String (Ascii.ascii_of_nat 10) "".

(** The cursor: the argument, or the header, or the beginning. *)
Definition stream_cursor (after_sequence : option Z) (last_event_id : option string) : res Z :=
  result_bind
    (match after_sequence, last_event_id with
     | Some n, _ => Ok n
     | None, None => Ok (-1)
     | None, Some text =>
         match parse_int text with
         | Some n => Ok n
         | None => Raise (failure STREAM_CURSOR_INVALID "Last-Event-ID must be an integer")
         end
     end)
    (λ n, if n <? -1 then Raise (failure STREAM_CURSOR_INVALID "Last-Event-ID must be >= 0") else Ok n).

Definition stream_headers (thread_id : option string) (run_id : string) : dict string :=
  let headers := [("Cache-Control", "no-cache"); ("X-Accel-Buffering", "no")] in
  match thread_id with
  | Some t => dset headers "Content-Location" ("/threads/" +:+ t +:+ "/runs/" +:+ run_id +:+ "/stream")
  | None => headers
  end.

Section Frames.
(** [orjson.dumps(v).decode()] *)
Context (dumps : json → res string).

Definition event_run (e : ProtoEvent) : string := pi_run_id (pe_identity e).

(** [mode not in selected_modes], negated: the modes are a set, so that a value
    that cannot be hashed raises. *)
Definition mode_selected (modes : list string) (mode : json) : res bool :=
  match mode with
  | JStr m => Ok (bool_decide (m ∈ modes))
  | JList _ => Raise (TypeError "unhashable type: 'list'")
  | JObj _ => Raise (TypeError "unhashable type: 'dict'")
  | _ => Ok false
  end.

(** [str(mode) + ("|" + "|".join(ns) if ns else "")] of a selected mode. *)
Definition event_name (mode : json) (namespace : list string) : string :=
  (match mode with JStr m => m | _ => "" end) +:+
  match namespace with [] => "" | _ => "|" +:+ join "|" namespace end.

Definition native_event (e : ProtoEvent) : json :=
  JObj [("schema_version", JInt 1); ("sequence", JInt (pe_sequence e)); ("run_id", JStr (event_run e));
        ("type", JStr (pe_type e)); ("data", value_to_python (pe_data e))].

Definition text_frame (sequence : Z) (name payload : string) : string :=
  "id: " +:+ pretty sequence +:+ nl +:+ "event: " +:+ name +:+ nl +:+ "data: " +:+ payload +:+ nl +:+ nl.

(** What the generator yields for an event: nothing at or before the cursor and
    for a mode that is not selected. *)
Definition event_frame (p : Stream) (e : ProtoEvent) : res (option string) :=
  if pe_sequence e <=? st_after p then Ok None
  else if st_native p
  then result_map (λ s, Some (text_frame (pe_sequence e) (pe_type e) s)) (dumps (native_event e))
  else
    let mode := default (JStr "values") (dget (fields_to_python (pe_native e)) "langgraph_mode") in
    result_bind (mode_selected (st_modes p) mode) (λ selected,
      if selected
      then result_map (λ s, Some (text_frame (pe_sequence e) (event_name mode (pe_namespace e)) s))
             (dumps (value_to_python (pe_data e)))
      else Ok None).

Definition metadata_frame (p : Stream) : res (list string) :=
  if st_native p then Ok []
  else result_map (λ s, ["event: metadata" +:+ nl +:+ "data: " +:+ s +:+ nl +:+ nl])
         (dumps (JObj [("run_id", JStr (st_run p))])).

Definition end_frame (p : Stream) : list string :=
  if st_native p then [] else ["event: end" +:+ nl +:+ "data: null" +:+ nl +:+ nl].

(** ** Queues, lists and ingress calls *)

Inductive connection_state : Type :=
| Streaming                    (* waiting at [queue.get()] *)
| Ended
| Broken (e : exn)             (* the generator raised *)
| Disconnected.                (* the client went away *)
Record connection : Type := mk_connection {
  con_stream : Stream;
  con_frames : list string;
  con_state : connection_state;
}.

(** [StreamEvents] at its [await]s. *)
Inductive call : Type :=
| Receiving (run : option string)
| Fanning (run : string) (e : ProtoEvent) (l : option nat) (i : nat)
| Ending (run : string) (l : option nat) (i : nat)
| Acknowledged (run : string)
| Aborted.

(** [run_queues] maps a run to a list object, [lists] a list object to its
    queues; a stream has the name of its queue. *)
Record gateway : Type := mk_gateway {
  run_queues : gmap string nat;
  lists : gmap nat (list nat);
  queues : gmap nat (list (option ProtoEvent));
  connections : gmap nat connection;
  calls : gmap nat call;
  next_ref : nat;
}.
Definition new_gateway : gateway := mk_gateway ∅ ∅ ∅ ∅ ∅ 0.

Definition set_call (c : nat) (k : call) (s : gateway) : gateway :=
  mk_gateway (run_queues s) (lists s) (queues s) (connections s) (<[c := k]> (calls s)) (next_ref s).
Definition set_queue (q : nat) (items : list (option ProtoEvent)) (s : gateway) : gateway :=
  mk_gateway (run_queues s) (lists s) (<[q := items]> (queues s)) (connections s) (calls s) (next_ref s).
Definition set_connection (q : nat) (k : connection) (s : gateway) : gateway :=
  mk_gateway (run_queues s) (lists s) (queues s) (<[q := k]> (connections s)) (calls s) (next_ref s).
Definition get_call (c : nat) (s : gateway) : call := default (Receiving None) (calls s !! c).

(** [run_queues.setdefault(run, [])] *)
Definition setdefault (run : string) (s : gateway) : nat * gateway :=
  match run_queues s !! run with
  | Some l => (l, s)
  | None => (next_ref s, mk_gateway (<[run := next_ref s]> (run_queues s)) (<[next_ref s := []]> (lists s))
                           (queues s) (connections s) (calls s) (S (next_ref s)))
  end.

(** [_sse_response] and the first frame of its generator. *)
Definition open_stream (p : Stream) (s : gateway) : gateway :=
  let q := next_ref s in
  let '(l, s) := setdefault (st_run p)
    (mk_gateway (run_queues s) (lists s) (<[q := []]> (queues s)) (connections s) (calls s) (S q)) in
  set_connection q
    (match metadata_frame p with
     | Ok frames => mk_connection p frames Streaming
     | Raise e => mk_connection p [] (Broken e)
     end)
    (mk_gateway (run_queues s) (<[l := default [] (lists s !! l) ++ [q]]> (lists s)) (queues s)
       (connections s) (calls s) (next_ref s)).

(** The next event of the worker's stream arrives. *)
Definition message (c : nat) (e : ProtoEvent) (s : gateway) : option gateway :=
  match get_call c s with
  | Receiving None =>
      let s := (setdefault (event_run e) s).2 in
      Some (set_call c (Fanning (event_run e) e (run_queues s !! event_run e) 0) s)
  | Receiving (Some run) => Some (set_call c (Fanning run e (run_queues s !! run) 0) s)
  | _ => None
  end.

(** The worker's stream ends. *)
Definition finish (c : nat) (s : gateway) : option gateway :=
  match get_call c s with
  | Receiving (Some run) =>
      if str_truthy run
      then Some (set_call c (Ending run (run_queues s !! run) 0)
             (mk_gateway (delete run (run_queues s)) (lists s) (queues s) (connections s) (calls s) (next_ref s)))
      else Some (set_call c (Acknowledged run) s)
  | Receiving None => Some (set_call c (Acknowledged "") s)
  | _ => None
  end.

(** [asyncio.Queue(maxsize=10000)] *)
Definition maxsize : Z := 10000.
Definition put (q : nat) (item : option ProtoEvent) (s : gateway) : option gateway :=
  match queues s !! q with
  | Some items => if Z.of_nat (length items) <? maxsize then Some (set_queue q (items ++ [item]) s) else None
  | None => None
  end.

(** One turn of a [for q in ...: await q.put(...)]; [None] is also a full queue. *)
Definition queue_at (l : option nat) (i : nat) (s : gateway) : option nat :=
  match l with Some l => lists s !! l ≫= (.!! i) | None => None end.
Definition advance (c : nat) (s : gateway) : option gateway :=
  match get_call c s with
  | Fanning run e l i =>
      match queue_at l i s with
      | Some q => set_call c (Fanning run e l (S i)) <$> put q (Some e) s
      | None => Some (set_call c (Receiving (Some run)) s)
      end
  | Ending run l i =>
      match queue_at l i s with
      | Some q => set_call c (Ending run l (S i)) <$> put q None s
      | None => Some (set_call c (Acknowledged run) s)
      end
  | _ => None
  end.

(** The worker's stream fails, or its call is cancelled. *)
Definition abort (c : nat) (s : gateway) : option gateway :=
  match get_call c s with
  | Acknowledged _ | Aborted => None
  | _ => Some (set_call c Aborted s)
  end.

(** One turn of the generator's [while True]. *)
Definition take_item (k : connection) (item : option ProtoEvent) : connection :=
  match item with
  | None => mk_connection (con_stream k) (con_frames k ++ end_frame (con_stream k)) Ended
  | Some e =>
      match event_frame (con_stream k) e with
      | Ok o => mk_connection (con_stream k) (con_frames k ++ option_list o) Streaming
      | Raise err => mk_connection (con_stream k) (con_frames k) (Broken err)
      end
  end.
Definition deliver (q : nat) (s : gateway) : option gateway :=
  match connections s !! q, queues s !! q with
  | Some (mk_connection p frames Streaming), Some (item :: items) =>
      Some (set_connection q (take_item (mk_connection p frames Streaming) item) (set_queue q items s))
  | _, _ => None
  end.
(** A client that goes away leaves its queue in the list. *)
Definition disconnect (q : nat) (s : gateway) : option gateway :=
  match connections s !! q with
  | Some (mk_connection p frames Streaming) =>
      Some (set_connection q (mk_connection p frames Disconnected) s)
  | _ => None
  end.

Inductive label : Type :=
| LOpen (p : Stream)
| LMessage (c : nat) (e : ProtoEvent)
| LAdvance (c : nat)
| LFinish (c : nat)
| LAbort (c : nat)
| LDeliver (q : nat)
| LDisconnect (q : nat).

Definition step (x : label) (s : gateway) : option gateway :=
  match x with
  | LOpen p => Some (open_stream p s)
  | LMessage c e => message c e s
  | LAdvance c => advance c s
  | LFinish c => finish c s
  | LAbort c => abort c s
  | LDeliver q => deliver q s
  | LDisconnect q => disconnect q s
  end.
Fixpoint steps (xs : list label) (s : gateway) : option gateway :=
  match xs with
  | [] => Some s
  | x :: xs => step x s ≫= steps xs
  end.

(** The events that the worker of call [c] has sent. *)
Definition sent_by (c : nat) (x : label) : list ProtoEvent :=
  match x with LMessage c' e => if decide (c' = c) then [e] else [] | _ => [] end.
Definition messages (c : nat) (xs : list label) : list ProtoEvent := xs ≫= sent_by c.

(** Only call [c] carries events of run [r], and nothing else. *)
Definition sole_sender (c : nat) (r : string) (xs : list label) : Prop :=
  Forall (λ x, match x with LMessage c' e => event_run e = r ↔ c' = c | _ => True end) xs.

(** The frames of a stream for some events, and before them. *)
Definition frames_of (p : Stream) (es : list ProtoEvent) : list string :=
  es ≫= λ e, match event_frame p e with Ok o => option_list o | Raise _ => [] end.
Definition first_frames (p : Stream) : list string :=
  match metadata_frame p with Ok frames => frames | Raise _ => [] end.
Definition has_ended (x : connection) : bool := match con_state x with Ended => true | _ => false end.

(** What a stream shows after some of the items of its queue. *)
Definition shown (p : Stream) (items : list (option ProtoEvent)) : connection :=
  foldl take_item
    (match metadata_frame p with
     | Ok frames => mk_connection p frames Streaming
     | Raise e => mk_connection p [] (Broken e)
     end) items.
End Frames.

(** ** Lists and references *)

Section Invariants.
Context (dumps : json → res string).
Abbreviation step := (step dumps).
Abbreviation steps := (steps dumps).

Definition call_run (k : call) : option string :=
  match k with Receiving o => o | Fanning r _ _ _ | Ending r _ _ => Some r | _ => None end.
Definition call_list (k : call) : option nat :=
  match k with Fanning _ _ l _ | Ending _ l _ => l | _ => None end.

(** Lists are fresh, belong to one run each and share no queue; a call that
    iterates over the list of a run is distributing an event of that run. *)
Record wf (s : gateway) : Prop := {
  wf_run r l : run_queues s !! r = Some l → is_Some (lists s !! l);
  wf_inj r r' l : run_queues s !! r = Some l → run_queues s !! r' = Some l → r = r';
  wf_fresh l : is_Some (lists s !! l) → (l < next_ref s)%nat;
  wf_queue l items q : lists s !! l = Some items → q ∈ items → (q < next_ref s)%nat;
  wf_once l l' items items' i j q :
    lists s !! l = Some items → lists s !! l' = Some items' →
    items !! i = Some q → items' !! j = Some q → l = l' ∧ i = j;
  wf_call c l : call_list (get_call c s) = Some l → is_Some (lists s !! l);
  wf_live c l r : call_list (get_call c s) = Some l → run_queues s !! r = Some l →
    ∃ e i, get_call c s = Fanning r e (Some l) i;
}.

Lemma get_set_call c c' k s : get_call c' (set_call c k s) = if decide (c = c') then k else get_call c' s.
Proof. unfold get_call, set_call. simpl. by rewrite lookup_insert; case_decide. Qed.

Lemma new_gateway_wf : wf new_gateway.
Proof. split; intros *; unfold get_call; simpl; rewrite ?lookup_empty; try done; intros [? ?]; done. Qed.

(** Steps that leave the lists alone. *)
Lemma wf_set_call c k s :
  wf s → (∀ l, call_list k = Some l → is_Some (lists s !! l) ∧
                 ∀ r, run_queues s !! r = Some l → ∃ e i, k = Fanning r e (Some l) i) →
  wf (set_call c k s).
Proof.
  intros [] Hk. split; try done; intros c' l; rewrite get_set_call; case_decide; subst; eauto.
  - intros Hl. by apply Hk.
  - intros r Hl. by apply Hk.
Qed.
Lemma wf_set_queue q items s : wf s → wf (set_queue q items s).
Proof. by intros []; split. Qed.
Lemma wf_set_connection q k s : wf s → wf (set_connection q k s).
Proof. by intros []; split. Qed.

Lemma wf_delete run s : wf s →
  wf (mk_gateway (delete run (run_queues s)) (lists s) (queues s) (connections s) (calls s) (next_ref s)).
Proof.
  intros [H1 H2 H3 H4 H5 H6 H7]. split; simpl; eauto; intros *; rewrite ?lookup_delete_Some; naive_solver.
Qed.

Lemma setdefault_spec r s : wf s →
  let '(l, s') := setdefault r s in
  wf s' ∧ run_queues s' !! r = Some l ∧ calls s' = calls s ∧ queues s' = queues s ∧
  connections s' = connections s ∧ (next_ref s ≤ next_ref s')%nat ∧
  (∀ r', r' ≠ r → run_queues s' !! r' = run_queues s !! r') ∧
  (∀ l', is_Some (lists s !! l') → lists s' !! l' = lists s !! l') ∧
  (run_queues s !! r = None → l = next_ref s).
Proof.
  intros Hwf. unfold setdefault. destruct (run_queues s !! r) as [l|] eqn:Hr; [by split_and!|].
  pose proof Hwf as [H1 H2 H3 H4 H5 H6 H7].
  assert (lists s !! next_ref s = None) as Hn.
  { apply eq_None_not_Some. intros H. apply H3 in H. lia. }
  assert (∀ r', run_queues s !! r' ≠ Some (next_ref s)) as Hr'.
  { intros r' H. apply H1 in H. rewrite Hn in H. by destruct H. }
  split; [split; simpl|simpl; split_and!; try done; [apply lookup_insert_eq|lia| |]].
  - intros r' l. rewrite !lookup_insert. repeat case_decide; intros; simplify_eq; eauto.
  - intros r1 r2 l. rewrite !lookup_insert.
    repeat case_decide; intros; simplify_eq; eauto; by exfalso; eapply Hr'.
  - intros l. rewrite lookup_insert. case_decide; [lia|]. intros Hl. apply H3 in Hl. lia.
  - intros l items q. rewrite lookup_insert. case_decide; intros Hl Hq; simplify_eq; [by apply not_elem_of_nil in Hq|].
    pose proof (H4 _ _ _ Hl Hq). lia.
  - intros l l' items items' i j q. rewrite !lookup_insert. repeat case_decide; intros; simplify_eq; eauto.
  - intros c l Hl. rewrite lookup_insert. case_decide; [done|]. by eapply H6.
  - intros c l r' Hl. rewrite lookup_insert. case_decide; intros; simplify_eq; eauto.
    apply H6 in Hl. rewrite Hn in Hl. by destruct Hl.
  - intros r' Hne. by rewrite lookup_insert_ne.
  - intros l' Hl'. rewrite lookup_insert_ne; [done|]. intros <-. rewrite Hn in Hl'. by destruct Hl'.
Qed.

(** A queue with a new name enters a list. *)
Lemma wf_append q l s : wf s → (∀ l items, lists s !! l = Some items → q ∉ items) → (q < next_ref s)%nat →
  is_Some (lists s !! l) →
  wf (mk_gateway (run_queues s) (<[l := default [] (lists s !! l) ++ [q]]> (lists s)) (queues s)
        (connections s) (calls s) (next_ref s)).
Proof.
  intros Hwf Hq Hlt [items Hl]. pose proof Hwf as [H1 H2 H3 H4 H5 H6 H7]. rewrite Hl. cbn [default].
  assert (∀ l' x, is_Some (lists s !! l') → is_Some (<[l:=x]> (lists s) !! l')) as Hmono.
  { intros l' x H. rewrite lookup_insert. by case_decide. }
  split; simpl; eauto.
  - intros l'. rewrite lookup_insert. case_decide; [subst; intros _; apply H3; by eexists|apply H3].
  - intros l' items' x. rewrite lookup_insert. case_decide; intros Hl' Hx; simplify_eq; eauto.
    apply elem_of_app in Hx as [Hx|Hx%list_elem_of_singleton]; [by eapply H4|by subst].
  - assert (∀ i, (items ++ [q]) !! i = Some q → i = length items) as Hlast.
    { intros i Hi. apply lookup_app_Some in Hi as [Hi|[Hge Hi]].
      - by apply list_elem_of_lookup_2, (Hq _ _ Hl) in Hi.
      - apply list_lookup_singleton_Some in Hi as [Hi _]. lia. }
    assert (∀ i x, (items ++ [q]) !! i = Some x → x = q ∨ items !! i = Some x) as Happ.
    { intros i x Hi. apply lookup_app_Some in Hi as [Hi|[Hge Hi]]; [by right|].
      left. by apply list_lookup_singleton_Some in Hi as [_ ->]. }
    intros l1 l2 items1 items2 i j x. rewrite !lookup_insert.
    repeat case_decide; intros Hl1 Hl2 Hi Hj; simplify_eq; eauto.
    + split; [done|]. destruct (Happ _ _ Hi) as [->|Hi']; [rewrite (Hlast i), (Hlast j); done|].
      destruct (Happ _ _ Hj) as [->|Hj']; [by apply list_elem_of_lookup_2, (Hq _ _ Hl) in Hi'|].
      by destruct (H5 _ _ _ _ _ _ _ Hl Hl Hi' Hj').
    + destruct (Happ _ _ Hi) as [->|Hi']; [by apply list_elem_of_lookup_2, (Hq _ _ Hl2) in Hj|].
      destruct (H5 _ _ _ _ _ _ _ Hl Hl2 Hi' Hj) as [? ->]. done.
    + destruct (Happ _ _ Hj) as [->|Hj']; [by apply list_elem_of_lookup_2, (Hq _ _ Hl1) in Hi|].
      destruct (H5 _ _ _ _ _ _ _ Hl1 Hl Hi Hj') as [? ->]. done.
Qed.

Lemma open_spec p s : wf s →
  let q := next_ref s in let s' := open_stream dumps p s in
  wf s' ∧ calls s' = calls s ∧ queues s' = <[q := []]> (queues s) ∧
  connections s' = <[q := shown dumps p []]> (connections s) ∧
  (∀ r, r ≠ st_run p → run_queues s' !! r = run_queues s !! r) ∧
  (∃ l items, run_queues s' !! st_run p = Some l ∧ lists s' !! l = Some (items ++ [q]) ∧
     (∀ l', is_Some (lists s !! l') → l' ≠ l → lists s' !! l' = lists s !! l') ∧
     (is_Some (lists s !! l) → lists s !! l = Some items ∧ run_queues s !! st_run p = Some l) ∧
     (¬ is_Some (lists s !! l) → run_queues s !! st_run p = None)).
Proof.
  intros Hwf q s'. unfold s', open_stream.
  set (s0 := mk_gateway _ _ _ _ _ _).
  assert (wf s0) as Hwf0.
  { destruct Hwf as [H1 H2 H3 H4 H5 H6 H7]. split; simpl; eauto.
    - intros l Hl. apply H3 in Hl. subst q. lia.
    - intros l items x Hl Hx. pose proof (H4 _ _ _ Hl Hx). lia. }
  pose proof (setdefault_spec (st_run p) s0 Hwf0) as Hset.
  destruct (setdefault (st_run p) s0) as [l s1] eqn:Hs1.
  destruct Hset as (Hwf1 & Hr & Hc & Hqs & Hcon & Hnext & Hothers & Hkeep & Hnew).
  assert (∀ l' items, lists s1 !! l' = Some items → q ∉ items) as Hfresh.
  { intros l' items Hl' Hin. unfold setdefault in Hs1.
    destruct (run_queues s0 !! st_run p); injection Hs1 as <- <-.
    - pose proof (wf_queue _ Hwf _ _ _ Hl' Hin). subst q. lia.
    - simpl in Hl'. rewrite lookup_insert in Hl'. case_decide; simplify_eq; [by apply not_elem_of_nil in Hin|].
      pose proof (wf_queue _ Hwf _ _ _ Hl' Hin). subst q. lia. }
  split.
  { apply wf_set_connection, wf_append; try done. by eapply wf_run. }
  simpl. rewrite Hc, Hqs, Hcon. split_and!; try done.
  exists l, (default [] (lists s1 !! l)). split_and!; [done|apply lookup_insert_eq| | |].
  - intros l' Hl' Hne. rewrite lookup_insert_ne by done. by apply Hkeep.
  - intros Hl. rewrite (Hkeep l) by done. destruct Hl as [items Hl]. change (lists s0) with (lists s).
    rewrite Hl. split; [done|]. destruct (run_queues s !! st_run p) as [l'|] eqn:Hl'.
    + unfold setdefault in Hs1. change (run_queues s0) with (run_queues s) in Hs1. rewrite Hl' in Hs1. congruence.
    + specialize (Hnew Hl'). simpl in Hnew. pose proof (wf_fresh _ Hwf l ltac:(by eexists)). subst q. lia.
  - intros Hl. destruct (run_queues s !! st_run p) as [l'|] eqn:Hl'; [|done].
    exfalso. apply Hl. unfold setdefault in Hs1. change (run_queues s0) with (run_queues s) in Hs1.
    rewrite Hl' in Hs1. injection Hs1 as <- _. by eapply wf_run.
Qed.

Lemma put_spec q item s s' : put q item s = Some s' →
  ∃ items, queues s !! q = Some items ∧ s' = set_queue q (items ++ [item]) s.
Proof.
  unfold put. destruct (queues s !! q) as [items|]; [|done]. case_match; intros; simplify_eq. by exists items.
Qed.

Lemma message_spec c e s s' : wf s → message c e s = Some s' →
  ∃ r, match get_call c s with
       | Receiving None => r = event_run e
       | Receiving (Some r') => r = r'
       | _ => False
       end ∧
  wf s' ∧ queues s' = queues s ∧ connections s' = connections s ∧
  (∀ l, is_Some (lists s !! l) → lists s' !! l = lists s !! l) ∧
  (∀ c', get_call c' s' = if decide (c = c') then Fanning r e (run_queues s' !! r) 0 else get_call c' s) ∧
  (∀ r', run_queues s !! r' ≠ None ∨ r' ≠ r → run_queues s' !! r' = run_queues s !! r') ∧
  (get_call c s = Receiving None → is_Some (run_queues s' !! r)) ∧
  (∀ r' l, run_queues s' !! r' = Some l → is_Some (lists s !! l) → run_queues s !! r' = Some l).
Proof.
  intros Hwf. unfold message. destruct (get_call c s) as [[r|]| | | |] eqn:Hc; try done; intros [= <-].
  - exists r. simpl. split; [done|]. split; [|split_and!; try done; intros c'; by rewrite get_set_call].
    apply wf_set_call; [done|]. simpl. intros l Hl. split; [by eapply wf_run|].
    intros r' Hr'. rewrite (wf_inj _ Hwf _ _ _ Hr' Hl), Hl. by eexists _, _.
  - exists (event_run e). split; [done|].
    pose proof (setdefault_spec (event_run e) s Hwf) as Hset.
    destruct (setdefault (event_run e) s) as [l s1] eqn:Hs1. cbn [snd].
    destruct Hset as (Hwf1 & Hr & Hcs & Hqs & Hcon & _ & Hothers & Hkeep & _). simpl.
    split; [|split_and!; try done].
    + apply wf_set_call; [done|]. simpl. intros l' Hl'. split; [by eapply wf_run|].
      intros r' Hr'. rewrite (wf_inj _ Hwf1 _ _ _ Hr' Hl'), Hl'. by eexists _, _.
    + intros c'. rewrite get_set_call. case_decide; [done|]. unfold get_call. by rewrite Hcs.
    + intros r' [Hr'|Hr']; [|by apply Hothers]. destruct (decide (r' = event_run e)) as [->|]; [|by apply Hothers].
      unfold setdefault in Hs1. destruct (run_queues s !! event_run e); [|done]. by injection Hs1 as <- <-.
    + intros r' l' Hl' Hex. destruct (decide (r' = event_run e)) as [->|Hne]; [|by rewrite <- Hothers].
      unfold setdefault in Hs1. destruct (run_queues s !! event_run e) as [l0|] eqn:Hl0;
        injection Hs1 as <- <-; [congruence|]. simpl in Hl'. rewrite lookup_insert_eq in Hl'.
      injection Hl' as <-. pose proof (wf_fresh _ Hwf _ Hex). lia.
Qed.

(** ** A stream and the call that carries its run *)

Definition sender (c : nat) (r : string) (ms : list ProtoEvent) (s : gateway) : Prop :=
  (∀ c', c' ≠ c → call_run (get_call c' s) ≠ Some r) ∧
  match get_call c s with
  | Receiving None => ms = []
  | Receiving (Some r') => r' = r ∧ is_Some (run_queues s !! r)
  | Fanning r' e l i => r' = r ∧ is_Some l ∧ run_queues s !! r = l ∧ ∃ before, ms = before ++ [e]
  | Ending r' _ _ => r' = r
  | Acknowledged _ | Aborted => True
  end.

(** The items put into the stream's queue, which stands at position [j] of list
    [L], when the stream was opened after [k] of the events; [late] says that it
    was opened after all of them. *)
Definition phase (late : bool) (j L k : nat) (r : string) (ms : list ProtoEvent) (current : option nat)
    (x : call) (items : list (option ProtoEvent)) : Prop :=
  match x with
  | Receiving _ => late = false ∧ current = Some L ∧ (k ≤ length ms)%nat ∧ items = Some <$> drop k ms
  | Fanning _ e l i =>
      late = false ∧ ∃ before, ms = before ++ [e] ∧ l = Some L ∧
      (k ≤ length (if decide (i ≤ j)%nat then before else ms))%nat ∧
      items = Some <$> drop k (if decide (i ≤ j)%nat then before else ms)
  | Ending _ l i =>
      if late then l ≠ Some L ∧ items = []
      else l = Some L ∧ (k ≤ length ms)%nat ∧ items = (Some <$> drop k ms) ++ (if decide (i ≤ j)%nat then [] else [None])
  | Acknowledged r' =>
      if late || bool_decide (r' ≠ r) then items = [] else items = (Some <$> drop k ms) ++ [None]
  | Aborted => if late then items = [] else items `prefix_of` (Some <$> drop k ms) ++ [None]
  end.

(** What the stream shows after it has consumed some of the items. *)
Definition shows (p : Stream) (consumed : list (option ProtoEvent)) (x : connection) : Prop :=
  con_stream x = p ∧ con_frames x = con_frames (shown dumps p consumed) ∧
  (con_state x = con_state (shown dumps p consumed) ∨
   con_state x = Disconnected ∧ con_state (shown dumps p consumed) = Streaming).

Record live (late : bool) (q j L k c : nat) (p : Stream) (ms : list ProtoEvent) (s : gateway) : Prop := {
  lv_wf : wf s;
  lv_sender : sender c (st_run p) ms s;
  lv_pos : ∃ items, lists s !! L = Some items ∧ items !! j = Some q;
  lv_run r : run_queues s !! r = Some L → r = st_run p;
  lv_calls c' : c' ≠ c → call_list (get_call c' s) ≠ Some L;
  lv_items : ∃ consumed rest x, queues s !! q = Some rest ∧ connections s !! q = Some x ∧
    shows p consumed x ∧
    phase late j L k (st_run p) ms (run_queues s !! st_run p) (get_call c s) (consumed ++ rest);
}.

Lemma shown_snoc p items item : shown dumps p (items ++ [item]) = take_item dumps (shown dumps p items) item.
Proof. unfold shown. by rewrite foldl_app. Qed.
Lemma take_item_stream x item : con_stream (take_item dumps x item) = con_stream x.
Proof. destruct item as [e|]; [|done]. simpl. by destruct (event_frame _ _ _). Qed.
Lemma shown_stream p items : con_stream (shown dumps p items) = p.
Proof.
  induction items as [|item items IH] using rev_ind; [unfold shown; simpl; by destruct (metadata_frame _ _)|].
  by rewrite shown_snoc, take_item_stream.
Qed.

(** A queue is in one place. *)
Lemma queue_elsewhere s L j q l i q' : wf s → (∃ items, lists s !! L = Some items ∧ items !! j = Some q) →
  queue_at l i s = Some q' → l ≠ Some L ∨ i ≠ j → q' ≠ q.
Proof.
  intros Hwf (items & HL & Hj) Hq Hne ->. unfold queue_at in Hq. destruct l as [l|]; [|done].
  destruct (lists s !! l) as [items'|] eqn:Hl; simpl in Hq; [|done].
  destruct (wf_once _ Hwf _ _ _ _ _ _ _ HL Hl Hj Hq) as [-> ->]. by destruct Hne.
Qed.

(** What a step of a call does to [sender], for the carrying call and another. *)
Lemma sender_call c r ms x s s1 : sender c r ms s → run_queues s1 = run_queues s → calls s1 = calls s →
  match x with
  | Receiving (Some r') => r' = r ∧ is_Some (run_queues s !! r)
  | Fanning r' e l i => r' = r ∧ is_Some l ∧ run_queues s !! r = l ∧ ∃ before, ms = before ++ [e]
  | Ending r' _ _ => r' = r
  | Receiving None => False
  | _ => True
  end → sender c r ms (set_call c x s1).
Proof.
  intros [Hs1 _] Hr Hc Hx. split.
  - intros c' Hc'. rewrite get_set_call, decide_False by done. unfold get_call. rewrite Hc. by apply Hs1.
  - rewrite get_set_call, decide_True by done. simpl. rewrite Hr. by destruct x as [[]| | | |].
Qed.
Lemma sender_other c r ms c' x s s1 : sender c r ms s → c' ≠ c → calls s1 = calls s →
  run_queues s1 !! r = run_queues s !! r → call_run x ≠ Some r → sender c r ms (set_call c' x s1).
Proof.
  intros [Hs1 Hs2] Hne Hc Hr Hx.
  assert (∀ c2, get_call c2 s1 = get_call c2 s) as Hget by (intros c2; unfold get_call; by rewrite Hc). split.
  - intros c2 Hc2. rewrite get_set_call, Hget. case_decide; [done|by apply Hs1].
  - rewrite get_set_call, Hget, decide_False by done. simpl. by rewrite Hr.
Qed.
Lemma sender_frame c r ms s s1 : sender c r ms s → calls s1 = calls s →
  (is_Some (run_queues s !! r) → run_queues s1 !! r = run_queues s !! r) → sender c r ms s1.
Proof.
  intros [Hs1 Hs2] Hc Hr.
  assert (∀ c2, get_call c2 s1 = get_call c2 s) as Hget by (intros c2; unfold get_call; by rewrite Hc).
  split; [intros c2; rewrite Hget; apply Hs1|]. rewrite Hget. destruct (get_call c s) as [[]| | | |]; try done.
  - destruct Hs2 as [? Hs2]. by rewrite Hr.
  - destruct Hs2 as (? & Hl & Hs2 & ?). by rewrite Hr by by rewrite Hs2.
Qed.

Lemma open_runs p s r : wf s → is_Some (run_queues s !! r) →
  run_queues (open_stream dumps p s) !! r = run_queues s !! r.
Proof.
  intros Hwf [l0 Hr]. destruct (open_spec p s Hwf) as (_ & _ & _ & _ & Hothers & l & items & Hl & _ & _ & Hold & Hnew).
  destruct (decide (r = st_run p)) as [->|]; [|by apply Hothers].
  destruct (lists s !! l) eqn:Hls; [destruct Hold as [_ ->]; [by eexists|done]|].
  rewrite Hnew in Hr; [done|]. by intros [].
Qed.

Section Steps.
Context (late : bool) (q j L k c : nat) (p : Stream).
Abbreviation live := (live late q j L k c p).

Lemma live_open ms p' s : live ms s → live ms (open_stream dumps p' s).
Proof.
  intros [Hwf [Hs1 Hs2] (items & HL & Hj) Hrun Hcalls (consumed & rest & x & Hq & Hx & Hshow & Hph)].
  destruct (open_spec p' s Hwf) as (Hwf' & Hc & Hqs & Hcon & Hothers & l & items' & Hl & Hl' & Hkeep & Hold & Hnew).
  assert (q ≠ next_ref s) as Hne.
  { pose proof (wf_queue _ Hwf _ _ _ HL (list_elem_of_lookup_2 _ _ _ Hj)). lia. }
  assert (∀ r, is_Some (run_queues s !! r) → run_queues (open_stream dumps p' s) !! r = run_queues s !! r) as Hsame
    by (intros r; by apply open_runs).
  assert (∀ c', get_call c' (open_stream dumps p' s) = get_call c' s) as Hget
    by (intros c'; unfold get_call; by rewrite Hc).
  split; [done| | | | |].
  - eapply sender_frame; [by split|done|apply Hsame].
  - destruct (decide (L = l)) as [<-|Hnel].
    + destruct Hold as [Hold _]; [by eexists|]. simplify_eq. eexists. split; [done|]. by apply lookup_app_l_Some.
    + exists items. by rewrite Hkeep by (done || by eexists).
  - intros r Hr. destruct (decide (r = st_run p')) as [->|]; [|apply Hrun; by rewrite <- Hothers].
    simplify_eq. apply Hrun. by destruct Hold as [_ ->]; [eexists|].
  - intros c'. rewrite Hget. apply Hcalls.
  - exists consumed, rest, x. rewrite Hqs, Hcon, !lookup_insert_ne, Hget by done. split_and!; try done.
    unfold phase in *. destruct (get_call c s); try done. destruct Hph as (? & Hr & ?).
    by rewrite Hsame by by rewrite Hr.
Qed.

Lemma live_message ms c' e s s' : (event_run e = st_run p ↔ c' = c) → live ms s → message c' e s = Some s' →
  live (ms ++ sent_by c (LMessage c' e)) s'.
Proof.
  intros He [Hwf [Hs1 Hs2] (items & HL & Hj) Hrun Hcalls (consumed & rest & x & Hq & Hx & Hshow & Hph)] Hm.
  destruct (message_spec c' e s s' Hwf Hm)
    as (r & Hr & Hwf' & Hqs & Hcon & Hkeep & Hget & Hsame & Hnew & Hback).
  assert (lists s' !! L = Some items) as HL' by by rewrite Hkeep by by eexists.
  assert (∀ r', run_queues s' !! r' = Some L → r' = st_run p) as Hrun'
    by (intros r' H; apply Hrun, Hback; [done|by eexists]).
  destruct (decide (c' = c)) as [->|Hne].
  - assert (r = st_run p) as ->.
    { destruct (get_call c s) as [[r'|]| | | |]; try done; [|by rewrite Hr; apply He]. by destruct Hs2 as [-> _]. }
    assert (run_queues s !! st_run p = Some L ∧ late = false ∧ (k ≤ length ms)%nat ∧
            consumed ++ rest = Some <$> drop k ms) as (HrL & Hlate & Hk & Hitems).
    { unfold phase in Hph. destruct (get_call c s); try done. naive_solver. }
    assert (run_queues s' !! st_run p = Some L) as HrL' by (rewrite Hsame; [done|left; by rewrite HrL]).
    simpl. rewrite decide_True by done. split; [done| |by exists items|done| |].
    + split; [intros c' Hc'; rewrite Hget, decide_False by done; by apply Hs1|].
      rewrite Hget, decide_True by done. rewrite HrL'. split_and!; try done. by eexists.
    + intros c' Hc'. rewrite Hget, decide_False by done. by apply Hcalls.
    + exists consumed, rest, x. rewrite Hqs, Hcon, Hget, decide_True by done. split_and!; try done.
      split; [done|]. exists ms. rewrite decide_True by lia. by rewrite HrL'.
  - assert (event_run e ≠ st_run p) as Her by (intros H; by apply Hne, He).
    assert (r ≠ st_run p) as Hrp.
    { intros ->. specialize (Hs1 c' Hne). destruct (get_call c' s) as [[r'|]| | | |]; simplify_eq/=; done. }
    assert (run_queues s' !! st_run p = run_queues s !! st_run p) as Hsp by (apply Hsame; by right).
    simpl. rewrite decide_False, app_nil_r by done. split; [done| |by exists items|done| |].
    + split.
      * intros c2 Hc2. rewrite Hget. case_decide; [simpl; congruence|by apply Hs1].
      * rewrite Hget, decide_False by done. by rewrite Hsp.
    + intros c2 Hc2. rewrite Hget. case_decide; [|by apply Hcalls]. simpl. intros HL2. by apply Hrp, Hrun'.
    + exists consumed, rest, x. rewrite Hqs, Hcon, Hget, decide_False, Hsp by done. done.
Qed.

(** A step of the call [c'] that puts nothing into the stream's queue. *)
Lemma live_set_call ms c' x s :
  live ms s → wf (set_call c' x s) →
  (c' ≠ c → call_run x ≠ Some (st_run p) ∧ call_list x ≠ Some L) →
  (c' = c → sender c (st_run p) ms (set_call c' x s) ∧
     ∀ items, phase late j L k (st_run p) ms (run_queues s !! st_run p) (get_call c s) items →
              phase late j L k (st_run p) ms (run_queues s !! st_run p) x items) →
  live ms (set_call c' x s).
Proof.
  intros [Hwf [Hs1 Hs2] Hpos Hrun Hcalls (consumed & rest & y & Hq & Hy & Hshow & Hph)] Hwf' Hother Hself.
  destruct (decide (c' = c)) as [->|Hne].
  - destruct (Hself eq_refl) as [Hs Hp]. split; try done.
    + intros c2 Hc2. rewrite get_set_call, decide_False by done. by apply Hcalls.
    + exists consumed, rest, y. rewrite get_set_call, decide_True by done. split_and!; try done. by apply Hp.
  - destruct (Hother Hne) as [Hr Hl]. split; try done.
    + split; [|by rewrite get_set_call, decide_False].
      intros c2 Hc2. rewrite get_set_call. case_decide; [done|by apply Hs1].
    + intros c2 Hc2. rewrite get_set_call. case_decide; [done|by apply Hcalls].
    + exists consumed, rest, y. by rewrite get_set_call, decide_False.
Qed.

Lemma live_abort ms c' s s' : live ms s → abort c' s = Some s' → live ms s'.
Proof.
  intros Hlive Ha. assert (s' = set_call c' Aborted s) as ->
    by (unfold abort in Ha; by destruct (get_call c' s); simplify_eq).
  apply live_set_call; [done|apply wf_set_call; [apply Hlive|done]|done|].
  intros ->. split.
  - destruct Hlive as [_ [Hs1 _] _ _ _ _]. split; [|by rewrite get_set_call, decide_True].
    intros c' Hc'. rewrite get_set_call, decide_False by done. by apply Hs1.
  - intros items Hph. unfold phase in *. destruct (get_call c s) as [o|r e l i|r l i|r|].
    + destruct Hph as (-> & _ & _ & ->). by eexists.
    + destruct Hph as (-> & before & -> & _ & Hk & ->). case_decide; [|by eexists].
      rewrite drop_app_le, fmap_app, <- app_assoc by done. by eexists.
    + destruct late; [by destruct Hph|]. destruct Hph as (_ & _ & ->). case_decide; [|done].
      rewrite app_nil_r. by eexists.
    + destruct late; simpl in Hph; [done|]. case_bool_decide; subst; [apply prefix_nil|done].
    + done.
Qed.

Lemma live_finish ms c' s s' : st_run p ≠ "" → live ms s → finish c' s = Some s' → live ms s'.
Proof.
  intros Hp Hlive Hf. unfold finish in Hf.
  destruct (get_call c' s) as [[run|]| | | |] eqn:Hc'; simplify_eq; cycle 1.
  { apply live_set_call; [done|apply wf_set_call; [apply Hlive|done]|done|]. intros ->. split.
    - split; [|by rewrite get_set_call, decide_True].
      intros c2 Hc2. rewrite get_set_call, decide_False by done. by apply (lv_sender _ _ _ _ _ _ _ _ _ Hlive).
    - rewrite Hc'. pose proof (lv_sender _ _ _ _ _ _ _ _ _ Hlive) as [_ Hs2]. rewrite Hc' in Hs2. subst ms.
      intros items (-> & _ & _ & ->). unfold phase. rewrite bool_decide_true by done. by rewrite drop_nil. }
  destruct Hlive as [Hwf [Hs1 Hs2] (items & HL & Hj) Hrun Hcalls (consumed & rest & x & Hq & Hx & Hshow & Hph)].
  destruct (str_truthy run) eqn:Ht; simplify_eq.
  - assert (∀ r l, delete run (run_queues s) !! r = Some l → r ≠ run ∧ run_queues s !! r = Some l) as Hdel.
    { intros r l Hl. by rewrite lookup_delete_Some in Hl; destruct Hl. }
    assert (∀ c2, get_call c2 (mk_gateway (delete run (run_queues s)) (lists s) (queues s) (connections s) (calls s)
              (next_ref s)) = get_call c2 s) as Hget by done.
    split; simpl.
    + apply wf_set_call; [by apply wf_delete|].
      simpl. intros l Hl. split; [by eapply wf_run|]. intros r [Hr Hrl]%Hdel. by pose proof (wf_inj _ Hwf _ _ _ Hrl Hl).
    + split.
      * intros c2 Hc2. rewrite get_set_call, Hget. case_decide; [|by apply Hs1]. subst c2. simpl.
        specialize (Hs1 _ Hc2). by rewrite Hc' in Hs1.
      * rewrite get_set_call, Hget. case_decide; [subst c'; rewrite Hc' in Hs2; apply Hs2|]. simpl.
        assert (run ≠ st_run p) as Hne.
        { intros ->. apply (Hs1 c'); [done|]. by rewrite Hc'. }
        by rewrite lookup_delete_ne.
    + by exists items.
    + intros r Hr. apply Hdel in Hr as [_ Hr]. by apply Hrun.
    + intros c2 Hc2. rewrite get_set_call, Hget. case_decide; [|by apply Hcalls]. subst c2. simpl.
      intros HL2. apply Hrun in HL2 as ->. apply (Hs1 _ Hc2). by rewrite Hc'.
    + exists consumed, rest, x. split_and!; try done. rewrite get_set_call, Hget. case_decide.
      * subst c'. rewrite Hc' in Hs2, Hph. destruct Hs2 as [-> _]. destruct Hph as (-> & HrL & Hk & ->). unfold phase.
        rewrite HrL, decide_True, app_nil_r by lia. done.
      * assert (run ≠ st_run p) as Hne by (intros ->; apply (Hs1 c'); [done|by rewrite Hc']).
        by rewrite lookup_delete_ne.
  - apply str_truthy_false in Ht as ->. apply live_set_call.
    + split; [done|by split|by exists items|done|done|by exists consumed, rest, x].
    + by apply wf_set_call.
    + done.
    + intros ->. rewrite Hc' in Hs2. destruct Hs2 as [Heq _]. by destruct Hp.
Qed.

Lemma live_put ms q' item s s' : q' ≠ q → live ms s → put q' item s = Some s' → live ms s'.
Proof.
  intros Hne [Hwf Hs Hpos Hrun Hcalls (consumed & rest & x & Hq & Hx & Hshow & Hph)] Hput.
  destruct (put_spec _ _ _ _ Hput) as (items & _ & ->). split; try done; [by apply wf_set_queue|].
  exists consumed, rest, x. simpl. by rewrite lookup_insert_ne.
Qed.

Lemma put_calls q' item s s' : put q' item s = Some s' →
  run_queues s' = run_queues s ∧ lists s' = lists s ∧ calls s' = calls s ∧ (wf s → wf s').
Proof. intros (items & _ & ->)%put_spec. split_and!; try done. apply wf_set_queue. Qed.

Lemma live_advance_other ms c' s s' : c' ≠ c → live ms s → advance c' s = Some s' → live ms s'.
Proof.
  intros Hne Hlive. pose proof (lv_calls _ _ _ _ _ _ _ _ _ Hlive c' Hne) as Hl.
  pose proof (lv_sender _ _ _ _ _ _ _ _ _ Hlive) as [Hs _]. specialize (Hs c' Hne).
  pose proof (lv_wf _ _ _ _ _ _ _ _ _ Hlive) as Hwf. pose proof (lv_pos _ _ _ _ _ _ _ _ _ Hlive) as Hpos.
  unfold advance. intros H.
  destruct (get_call c' s) as [o|r e l i|r l i|r|] eqn:Hc'; try done;
    (destruct (queue_at l i s) as [q'|] eqn:Hq'; [|injection H as <-; apply live_set_call; [done|by apply wf_set_call|done|done]]);
    (assert (q' ≠ q) as Hq'q by (eapply queue_elsewhere; [done|done|done|by left]));
    apply fmap_Some in H as (s1 & Hput & ->);
    destruct (put_calls _ _ _ _ Hput) as (Hr1 & Hl1 & Hc1 & Hw1);
    (apply live_set_call; [by eapply live_put| |done|done]);
    (apply wf_set_call; [by apply Hw1|]); simpl; intros l' ->; rewrite Hl1, Hr1;
    (split; [apply (wf_call _ Hwf c'); by rewrite Hc'|]); intros r' Hr';
    destruct (wf_live _ Hwf c' l' r') as (e' & i' & Heq); try done; try (by rewrite Hc'); rewrite Hc' in Heq;
    simplify_eq; by eexists _, _.
Qed.

Lemma queue_at_self s l i : wf s → (∃ items, lists s !! L = Some items ∧ items !! j = Some q) → l = Some L →
  match queue_at l i s with Some q' => i = j ∧ q' = q ∨ i ≠ j ∧ q' ≠ q | None => (j < i)%nat end.
Proof.
  intros Hwf Hpos ->. destruct (queue_at (Some L) i s) as [q'|] eqn:Hq.
  - destruct (decide (i = j)) as [->|Hne].
    + left. split; [done|]. destruct Hpos as (items & HL & Hj). simpl in Hq. rewrite HL in Hq. simpl in Hq. congruence.
    + right. split; [done|]. eapply queue_elsewhere; [done|done|done|by right].
  - destruct Hpos as (items & HL & Hj). simpl in Hq. rewrite HL in Hq. simpl in Hq.
    apply lookup_ge_None in Hq. apply lookup_lt_Some in Hj. lia.
Qed.

Lemma live_advance_put ms x x' item q' s s1 :
  get_call c s = x → live ms s → put q' item s = Some s1 →
  sender c (st_run p) ms (set_call c x' s1) → wf (set_call c x' s1) →
  (∀ items, phase late j L k (st_run p) ms (run_queues s !! st_run p) x items →
     phase late j L k (st_run p) ms (run_queues s !! st_run p) x'
       (if decide (q' = q) then items ++ [item] else items)) →
  live ms (set_call c x' s1).
Proof.
  intros Hx [Hwf Hs Hpos Hrun Hcalls (consumed & rest & y & Hq & Hy & Hshow & Hph)] Hput Hs' Hwf' Hstep.
  destruct (put_calls _ _ _ _ Hput) as (Hr1 & Hl1 & Hc1 & _).
  destruct (put_spec _ _ _ _ Hput) as (items & Hitems & ->). rewrite Hx in Hph. split; try done.
  - intros c2 Hc2. rewrite get_set_call, decide_False by done. by apply Hcalls.
  - specialize (Hstep _ Hph). rewrite get_set_call, decide_True by done. case_decide.
    + subst q'. assert (items = rest) as -> by congruence. exists consumed, (rest ++ [item]), y.
      simpl. rewrite lookup_insert_eq. rewrite app_assoc. done.
    + exists consumed, rest, y. simpl. by rewrite lookup_insert_ne.
Qed.

Lemma live_advance_self ms s s' : live ms s → advance c s = Some s' → live ms s'.
Proof.
  intros Hlive. pose proof (lv_wf _ _ _ _ _ _ _ _ _ Hlive) as Hwf.
  pose proof (lv_pos _ _ _ _ _ _ _ _ _ Hlive) as Hpos.
  pose proof (lv_sender _ _ _ _ _ _ _ _ _ Hlive) as Hsend. pose proof Hsend as [_ Hs2].
  unfold advance. destruct (get_call c s) as [o|r e l i|r l i|r|] eqn:Hc; try done.
  - destruct Hs2 as (-> & Hl & Hr & He).
    destruct (queue_at l i s) as [q'|] eqn:Hat; intros Ha.
    + apply fmap_Some in Ha as (s1 & Hput & ->). destruct (put_calls _ _ _ _ Hput) as (Hr1 & Hl1 & Hc1 & Hw1).
      eapply live_advance_put; [done|done|done|by eapply (sender_call c (st_run p) ms _ s)| |].
      * apply wf_set_call; [by apply Hw1|]. simpl. intros l' ->. rewrite Hl1, Hr1.
        split; [by eapply wf_run|]. intros r' Hr'. rewrite (wf_inj _ Hwf _ _ _ Hr' Hr). by eexists _, _.
      * intros items (Hlate & before & Hms & HlL & Hk & ->). split; [done|].
        exists before. pose proof (queue_at_self s l i Hwf Hpos HlL) as Hself.
        rewrite Hat in Hself. destruct Hself as [[-> ->]|[Hne Hq']].
        -- rewrite (decide_True (P := (j ≤ j)%nat)) in Hk |- * by lia.
           rewrite (decide_False (P := (S j ≤ j)%nat)), decide_True by (done || lia). subst ms. rewrite length_app.
           split_and!; [done|done|lia|]. by rewrite drop_app_le, fmap_app by done.
        -- rewrite (decide_False (P := q' = q)) by done. split_and!; [done|done| |];
             by repeat case_decide; try lia.
    + injection Ha as <-. apply live_set_call; [done|by apply wf_set_call|done|]. intros _. split.
      * eapply (sender_call c (st_run p) ms _ s); try done. simpl. split; [done|]. by rewrite Hr.
      * rewrite Hc. intros items (Hlate & before & Hms & HlL & Hk & ->).
        pose proof (queue_at_self s l i Hwf Hpos HlL) as Hself. rewrite Hat in Hself.
        rewrite decide_False in Hk |- * by lia. split_and!; [done|congruence|done|done].
  - subst r. destruct (queue_at l i s) as [q'|] eqn:Hat; intros Ha.
    + apply fmap_Some in Ha as (s1 & Hput & ->). destruct (put_calls _ _ _ _ Hput) as (Hr1 & Hl1 & Hc1 & Hw1).
      eapply live_advance_put; [done|done|done|by eapply (sender_call c (st_run p) ms _ s)| |].
      * apply wf_set_call; [by apply Hw1|]. simpl. intros l' ->. rewrite Hl1, Hr1.
        split; [apply (wf_call _ Hwf c); by rewrite Hc|]. intros r' Hr'.
        destruct (wf_live _ Hwf c l' r') as (? & ? & Heq); [by rewrite Hc|done|congruence].
      * unfold phase. destruct late.
        -- intros items [HlL ->]. rewrite decide_False; [done|]. eapply queue_elsewhere; [done|done|done|by left].
        -- intros items (HlL & Hk & ->). split; [done|]. split; [done|].
           pose proof (queue_at_self s l i Hwf Hpos HlL) as Hself.
           rewrite Hat in Hself. destruct Hself as [[-> ->]|[Hne Hq']].
           ++ rewrite !decide_True, decide_False by lia. by rewrite app_nil_r.
           ++ rewrite (decide_False (P := q' = q)) by done. by repeat case_decide; try lia.
    + injection Ha as <-. apply live_set_call; [done|by apply wf_set_call|done|]. intros _. split.
      * by eapply (sender_call c (st_run p) ms _ s).
      * rewrite Hc. unfold phase. rewrite bool_decide_false by naive_solver. rewrite orb_false_r.
        destruct late; [by intros items [_ ->]|]. intros items (HlL & Hk & ->).
        pose proof (queue_at_self s l i Hwf Hpos HlL) as Hself. rewrite Hat in Hself. by rewrite decide_False by lia.
Qed.

Lemma live_deliver ms q' s s' : live ms s → deliver dumps q' s = Some s' → live ms s'.
Proof.
  intros [Hwf Hs Hpos Hrun Hcalls (consumed & rest & y & Hq & Hy & Hshow & Hph)]. unfold deliver. intros Hd.
  destruct (connections s !! q') as [[p' frames []]|] eqn:Hcon; try done.
  destruct (queues s !! q') as [[|item items]|] eqn:Hitems; try done. injection Hd as <-.
  split; try done; [by apply wf_set_connection, wf_set_queue|]. destruct (decide (q' = q)) as [->|Hne].
  - simplify_eq. exists (consumed ++ [item]), items. eexists. simpl. rewrite !lookup_insert_eq.
    rewrite <- app_assoc. split_and!; try done. destruct Hshow as (Hp & Hf & Hst). simpl in *.
    destruct Hst as [Hst|[? _]]; [|done]. subst p'. unfold shows. rewrite take_item_stream. split; [done|].
    rewrite shown_snoc.
    assert (shown dumps p consumed = mk_connection p frames Streaming) as ->.
    { pose proof (shown_stream p consumed). destruct (shown dumps p consumed). simpl in *. congruence. }
    split; [done|]. by left.
  - exists consumed, rest, y. simpl. by rewrite !lookup_insert_ne.
Qed.

Lemma live_disconnect ms q' s s' : live ms s → disconnect q' s = Some s' → live ms s'.
Proof.
  intros [Hwf Hs Hpos Hrun Hcalls (consumed & rest & y & Hq & Hy & Hshow & Hph)]. unfold disconnect. intros Hd.
  destruct (connections s !! q') as [[p' frames []]|] eqn:Hcon; try done. injection Hd as <-.
  split; try done; [by apply wf_set_connection|]. destruct (decide (q' = q)) as [->|Hne].
  - simplify_eq. exists consumed, rest. eexists. simpl. rewrite lookup_insert_eq. split_and!; try done.
    destruct Hshow as (Hp & Hf & [Hst|[? _]]); [|done]. split_and!; try done. by right.
  - exists consumed, rest, y. simpl. by rewrite lookup_insert_ne.
Qed.

Lemma live_step ms x s s' : st_run p ≠ "" →
  match x with LMessage c' e => event_run e = st_run p ↔ c' = c | _ => True end →
  live ms s → step x s = Some s' → live (ms ++ sent_by c x) s'.
Proof.
  intros Hp Hx Hlive Hstep. destruct x as [p'|c' e|c'|c'|c'|q'|q']; [|by eapply live_message|..];
    simpl in *; rewrite app_nil_r.
  - injection Hstep as <-. by apply live_open.
  - destruct (decide (c' = c)) as [->|]; [by eapply live_advance_self|by eapply live_advance_other].
  - by eapply live_finish.
  - by eapply live_abort.
  - by eapply live_deliver.
  - by eapply live_disconnect.
Qed.

Lemma live_steps ms xs s s' : st_run p ≠ "" → sole_sender c (st_run p) xs → live ms s → steps xs s = Some s' →
  live (ms ++ messages c xs) s'.
Proof.
  intros Hp. revert ms s. induction xs as [|x xs IH]; intros ms s Hxs Hlive Hsteps; simpl in Hsteps.
  - injection Hsteps as <-. by rewrite app_nil_r.
  - apply Forall_cons in Hxs as [Hx Hxs]. apply bind_Some in Hsteps as (s1 & Hs1 & Hsteps).
    unfold messages. cbn [mbind list_bind]. rewrite app_assoc. eapply IH; [done|by eapply live_step|done].
Qed.
End Steps.

(** ** From the start *)

Lemma advance_cases c s s' : advance c s = Some s' →
  ∃ s1 x, s' = set_call c x s1 ∧ run_queues s1 = run_queues s ∧ lists s1 = lists s ∧ calls s1 = calls s ∧
    (wf s → wf s1) ∧
    match get_call c s with
    | Fanning r e l i => x = Fanning r e l (S i) ∨ x = Receiving (Some r)
    | Ending r l i => x = Ending r l (S i) ∨ x = Acknowledged r
    | _ => False
    end.
Proof.
  unfold advance. destruct (get_call c s) as [|r e l i|r l i| |]; try done;
    (destruct (queue_at l i s); [|intros [= <-]; eexists s, _; split_and!; try done; by right]);
    intros (s1 & Hput & ->)%fmap_Some; destruct (put_calls _ _ _ _ Hput) as (? & ? & ? & ?);
    eexists s1, _; split_and!; try done; by left.
Qed.

Lemma finish_wf c s s' : wf s → finish c s = Some s' → wf s'.
Proof.
  intros Hwf. unfold finish. destruct (get_call c s) as [[run|]| | | |]; try done; [|by intros [= <-]; apply wf_set_call].
  destruct (str_truthy run); intros [= <-]; [|by apply wf_set_call]. apply wf_set_call; [by apply wf_delete|].
  simpl. intros l Hl. split; [by eapply wf_run|]. intros r [Hr Hrl]%lookup_delete_Some.
  by pose proof (wf_inj _ Hwf _ _ _ Hrl Hl).
Qed.

Lemma wf_step x s s' : wf s → step x s = Some s' → wf s'.
Proof.
  intros Hwf Hstep. destruct x as [p|c e|c|c|c|q|q]; simpl in Hstep.
  - injection Hstep as <-. by apply open_spec.
  - by destruct (message_spec c e s s' Hwf Hstep) as (r & _ & Hwf' & _).
  - destruct (advance_cases c s s' Hstep) as (s1 & x & -> & Hr & Hl & Hc & Hw & Hx).
    apply wf_set_call; [by apply Hw|]. rewrite Hr, Hl. intros l Hx'.
    assert (call_list (get_call c s) = Some l) as Hcl by (destruct (get_call c s); try done; destruct Hx; by subst).
    split; [by apply (wf_call _ Hwf c)|]. intros r Hrl. destruct (wf_live _ Hwf c l r Hcl Hrl) as (e & i & Heq).
    rewrite Heq in Hx. destruct Hx as [-> | ->]; [by eexists _, _|done].
  - by eapply finish_wf.
  - unfold abort in Hstep. destruct (get_call c s); simplify_eq; by apply wf_set_call.
  - unfold deliver in Hstep. repeat case_match; simplify_eq. by apply wf_set_connection, wf_set_queue.
  - unfold disconnect in Hstep. repeat case_match; simplify_eq. by apply wf_set_connection.
Qed.

Lemma sender_message c r ms c' e s s' : (event_run e = r ↔ c' = c) → wf s → sender c r ms s →
  message c' e s = Some s' → sender c r (ms ++ sent_by c (LMessage c' e)) s'.
Proof.
  intros He Hwf [Hs1 Hs2] Hm.
  destruct (message_spec c' e s s' Hwf Hm) as (r' & Hr & Hwf' & _ & _ & _ & Hget & Hsame & Hnew & _). simpl.
  destruct (decide (c' = c)) as [->|Hne].
  - assert (r' = r) as ->.
    { destruct (get_call c s) as [[r2|]| | | |]; try done; [|by rewrite Hr; apply He]. by destruct Hs2 as [-> _]. }
    split; [intros c2 Hc2; rewrite Hget, decide_False by done; by apply Hs1|].
    rewrite Hget, decide_True by done. split_and!; [done| |done|by eexists].
    destruct (get_call c s) as [[r2|]| | | |]; try done; [|by apply Hnew].
    destruct Hs2 as [_ Hs2]. rewrite Hsame; [done|]. left. by destruct Hs2 as [? ->].
  - assert (r' ≠ r) as Hrr.
    { specialize (Hs1 c' Hne). intros ->. destruct (get_call c' s) as [[r2|]| | | |]; try done; [by subst|].
      by apply Hne, He. }
    rewrite app_nil_r. split.
    + intros c2 Hc2. rewrite Hget. case_decide; [simpl; congruence|by apply Hs1].
    + rewrite Hget, decide_False by done. by rewrite (Hsame r) by by right.
Qed.

Lemma sender_finish c r ms c' s s' : r ≠ "" → sender c r ms s → finish c' s = Some s' → sender c r ms s'.
Proof.
  intros Hr Hs Hf. unfold finish in Hf. destruct (get_call c' s) as [[run|]| | | |] eqn:Hc'; try done.
  - assert (c' = c → run = r) as Hrun by (intros ->; destruct Hs as [_ Hs]; rewrite Hc' in Hs; by destruct Hs).
    assert (c' ≠ c → run ≠ r) as Hne by (intros Hne ->; apply (proj1 Hs c' Hne); by rewrite Hc').
    destruct (decide (c' = c)) as [->|Hcc].
    + rewrite (Hrun eq_refl) in *. destruct (str_truthy r) eqn:Ht; [|by apply str_truthy_false in Ht].
      injection Hf as <-. split; [|by rewrite get_set_call, decide_True].
      intros c2 Hc2. rewrite get_set_call, decide_False by done. by apply Hs.
    + specialize (Hne Hcc). destruct (str_truthy run); injection Hf as <-.
      * eapply sender_other; [done|done|done|simpl; by rewrite lookup_delete_ne|simpl; congruence].
      * by eapply sender_other.
  - injection Hf as <-. destruct (decide (c' = c)) as [->|Hcc]; [by eapply sender_call|by eapply sender_other].
Qed.

Lemma sender_step c r ms x s s' : r ≠ "" → wf s → sender c r ms s →
  match x with LMessage c' e => event_run e = r ↔ c' = c | _ => True end →
  step x s = Some s' → sender c r (ms ++ sent_by c x) s'.
Proof.
  intros Hr Hwf Hs Hx Hstep. destruct x as [p|c' e|c'|c'|c'|q|q]; [|by eapply sender_message|..];
    simpl in *; rewrite app_nil_r.
  - injection Hstep as <-. eapply sender_frame; [done|by apply open_spec|by apply open_runs].
  - destruct (advance_cases c' s s' Hstep) as (s1 & y & -> & Hr1 & Hl & Hc & Hw & Hy). destruct Hs as [Hs1 Hs2].
    destruct (decide (c' = c)) as [->|Hne].
    + eapply sender_call; [by split|done|done|]. destruct (get_call c s) as [|r' e l i|r' l i| |]; try done.
      * destruct Hs2 as (-> & Hl' & Hrq & He). destruct Hy as [-> | ->]; [done|]. by rewrite Hrq.
      * destruct Hy as [-> | ->]; done.
    + eapply sender_other; [by split|done|done|by rewrite Hr1|]. specialize (Hs1 c' Hne).
      destruct (get_call c' s); try done; destruct Hy as [-> | ->]; done.
  - by eapply sender_finish.
  - unfold abort in Hstep. destruct (decide (c' = c)) as [->|Hne]; destruct (get_call _ s); simplify_eq;
      by (eapply sender_call || eapply sender_other).
  - unfold deliver in Hstep. repeat case_match; simplify_eq. by eapply sender_frame.
  - unfold disconnect in Hstep. repeat case_match; simplify_eq. by eapply sender_frame.
Qed.

Lemma sender_steps c r xs s : r ≠ "" → sole_sender c r xs → steps xs new_gateway = Some s →
  wf s ∧ sender c r (messages c xs) s.
Proof.
  intros Hr Hxs.
  assert (∀ ms s0, wf s0 → sender c r ms s0 → steps xs s0 = Some s → wf s ∧ sender c r (ms ++ messages c xs) s) as H.
  { revert Hxs. induction xs as [|x xs IH]; intros Hxs ms s0 Hwf Hs Hsteps; simpl in Hsteps.
    - injection Hsteps as <-. by rewrite app_nil_r.
    - apply Forall_cons in Hxs as [Hx Hxs]. apply bind_Some in Hsteps as (s1 & Hs1 & Hsteps).
      unfold messages. cbn [mbind list_bind]. rewrite app_assoc.
      eapply IH; [done|by eapply wf_step|by eapply sender_step|done]. }
  intros Hsteps. apply (H [] new_gateway); [apply new_gateway_wf|by split|done].
Qed.

(** The stream when it is opened. *)
Lemma live_init c p ms s : wf s → sender c (st_run p) ms s →
  let late := match get_call c s with Receiving _ | Fanning _ _ _ _ => false | _ => true end in
  ∃ j L k, live late (next_ref s) j L k c p ms (open_stream dumps p s) ∧ (k ≤ length ms ≤ S k)%nat.
Proof.
  intros Hwf Hs late.
  destruct (open_spec p s Hwf) as (Hwf' & Hc & Hqs & Hcon & _ & L & items & HL & HL' & _ & Hold & Hnew).
  assert (∀ c', get_call c' (open_stream dumps p s) = get_call c' s) as Hget
    by (intros c'; unfold get_call; by rewrite Hc).
  assert (∀ c', call_list (get_call c' s) = Some L → ∃ e i, get_call c' s = Fanning (st_run p) e (Some L) i) as Hcl.
  { intros c' Hl. apply (wf_live _ Hwf); [done|]. apply Hold. by eapply wf_call. }
  pose (k := match get_call c s with
             | Fanning _ _ _ i => if decide (i ≤ length items)%nat then Nat.pred (length ms) else length ms
             | _ => length ms
             end).
  exists (length items), L, k. split.
  - split; [done|eapply sender_frame; [done|done|by apply open_runs]| | | |].
    + exists (items ++ [next_ref s]). split; [done|]. by apply list_lookup_middle.
    + intros r Hr. by eapply wf_inj.
    + intros c' Hc'. rewrite Hget. intros Hl. destruct (Hcl _ Hl) as (e & i & Heq).
      apply (proj1 Hs c' Hc'). by rewrite Heq.
    + exists [], [], (shown dumps p []). rewrite Hqs, Hcon, !lookup_insert_eq, Hget, HL. split_and!; try done.
      { split_and!; [apply shown_stream|done|by left]. }
      destruct Hs as [_ Hs]. unfold phase, late, k. specialize (Hcl c).
      destruct (get_call c s) as [o|r e l i|r l i|r|]; try done.
      * split_and!; try done. by rewrite drop_all.
      * destruct Hs as (-> & Hl & Hrl & before & ->). split; [done|]. exists before. split; [done|].
        split; [by rewrite <- Hrl, <- HL, open_runs by (done || by rewrite Hrl)|]. rewrite length_app. simpl.
        case_decide; (split; [rewrite ?length_app; simpl; lia|]);
          by rewrite drop_ge by (rewrite ?length_app; simpl; lia).
      * split; [|done]. intros ->. by destruct Hcl as (? & ? & ?).
  - unfold k. destruct (get_call c s) as [|? ? ? i| | |]; try lia. case_decide; lia.
Qed.

(** ** What a stream has shown *)

Lemma shown_events p es :
  con_frames (shown dumps p (Some <$> es)) = first_frames dumps p ++ frames_of dumps p es ∧
  has_ended (shown dumps p (Some <$> es)) = false.
Proof.
  induction es as [|e es [IH1 IH2]] using rev_ind.
  - unfold shown, first_frames. simpl. rewrite app_nil_r. by destruct (metadata_frame _ _).
  - rewrite fmap_app. change (Some <$> [e]) with [Some e]. rewrite shown_snoc. simpl. rewrite shown_stream. unfold frames_of. rewrite bind_app.
    change (es ≫= _) with (frames_of dumps p es). cbn [mbind list_bind]. rewrite app_nil_r, app_assoc.
    destruct (event_frame dumps p e); simpl; rewrite IH1; split; try done. by rewrite app_nil_r.
Qed.
Lemma shown_all p es :
  con_frames (shown dumps p ((Some <$> es) ++ [None])) =
    (first_frames dumps p ++ frames_of dumps p es) ++ end_frame p ∧
  has_ended (shown dumps p ((Some <$> es) ++ [None])) = true.
Proof. rewrite shown_snoc. simpl. rewrite shown_stream, (proj1 (shown_events p es)). done. Qed.

Lemma prefix_cases {A} (items : list (option A)) (es : list A) :
  items `prefix_of` (Some <$> es) ++ [None] →
  (∃ n, items = Some <$> take n es) ∨ items = (Some <$> es) ++ [None].
Proof.
  intros [tl Heq]. destruct tl as [|t tl _] using rev_ind; [right; by rewrite app_nil_r in Heq|].
  left. rewrite app_assoc in Heq. apply app_inj_tail in Heq as [Heq _]. exists (length items).
  rewrite fmap_take, Heq. by rewrite take_app_length.
Qed.

Lemma take_items_rest {A} n (es : list A) rest :
  (Some <$> take n es) ++ rest = (Some <$> es) ++ [None] → rest = (Some <$> drop n es) ++ [None].
Proof. intros H. rewrite <- (take_drop n es) in H at 2. rewrite fmap_app, <- app_assoc in H. by simplify_list_eq. Qed.

Lemma phase_prefix j L k r ms current x items :
  phase false j L k r ms current x items → items `prefix_of` (Some <$> drop k ms) ++ [None].
Proof.
  destruct x as [o|r' e l i|r' l i|r'|]; simpl; try done.
  - intros (_ & _ & _ & ->). by eexists.
  - intros (_ & before & -> & _ & Hk & ->). case_decide; [|by eexists].
    rewrite drop_app_le, fmap_app, <- app_assoc by done. by eexists.
  - intros (_ & _ & ->). case_decide; [|done]. rewrite app_nil_r. by eexists.
  - case_bool_decide; [by intros ->; apply prefix_nil|by intros ->].
Qed.

Lemma late_items j L k r ms current x items : phase true j L k r ms current x items → items = [].
Proof. destruct x; simpl; [by intros (? & _)|by intros (? & _)|by intros []|done|done]. Qed.

Lemma messages_app c xs ys : messages c (xs ++ ys) = messages c xs ++ messages c ys.
Proof. apply bind_app. Qed.

Lemma shows_ended p consumed x : shows p consumed x → has_ended x = has_ended (shown dumps p consumed).
Proof. intros (_ & _ & [H|[H1 H2]]); unfold has_ended; [by rewrite H|by rewrite H1, H2]. Qed.

(** C14: server-sent events.  If one call of a worker carries the events of a run,
    then, in every interleaving with other runs, clients and calls, a stream of
    the run that is opened before that call has sent its last event shows the
    frames of the run's events from that point on, in order, each once, and only
    of the events beyond its cursor and of its modes; it ends only after the last
    one, and when the call has been acknowledged what it has not shown yet is in
    its queue, followed by the end.  A stream opened later shows nothing and
    never ends. *)
Theorem sse_stream_complete (xs1 xs2 : list label) (p : Stream) (c : nat) (s1 s : gateway) :
  st_run p ≠ "" → sole_sender c (st_run p) (xs1 ++ LOpen p :: xs2) →
  steps xs1 new_gateway = Some s1 → steps (LOpen p :: xs2) s1 = Some s →
  let before := length (messages c xs1) in
  ∃ k n x rest, (k ≤ before ≤ S k)%nat ∧
    let due := drop k (messages c (xs1 ++ xs2)) in
    connections s !! next_ref s1 = Some x ∧ queues s !! next_ref s1 = Some rest ∧
    con_frames x = first_frames dumps p ++ frames_of dumps p (take n due) ++
                   (if has_ended x then end_frame p else []) ∧
    match get_call c s1 with
    | Receiving _ | Fanning _ _ _ _ =>
        (has_ended x = true → take n due = due) ∧
        (get_call c s = Acknowledged (st_run p) → has_ended x = false →
           rest = (Some <$> drop n due) ++ [None])
    | _ => n = 0%nat ∧ has_ended x = false ∧ rest = []
    end.
Proof.
  intros Hp Hsole Hs1 Hs. apply Forall_app in Hsole as [Hsole1 [_ Hsole2]%Forall_cons].
  destruct (sender_steps c (st_run p) xs1 s1 Hp Hsole1 Hs1) as [Hwf Hsend].
  destruct (live_init c p _ s1 Hwf Hsend) as (j & L & k & Hlive & Hk).
  pose proof (live_steps _ _ _ _ _ _ p _ _ _ _ Hp Hsole2 Hlive Hs) as Hend.
  rewrite <- messages_app in Hend. set (events := messages c (xs1 ++ xs2)) in *.
  destruct (lv_items _ _ _ _ _ _ _ _ _ Hend) as (consumed & rest & x & Hq & Hx & Hshow & Hph).
  pose proof (shows_ended _ _ _ Hshow) as Hended. destruct Hshow as (_ & Hframes & _).
  destruct (get_call c s1) as [o|r e l i|r l i|r|].
  1, 2: exists k; destruct (prefix_cases consumed (drop k events)) as [[n ->]| ->];
    [by eapply prefix_app_l, phase_prefix
    |exists n, x, rest; destruct (shown_events p (take n (drop k events))) as [Hf He]
    |exists (length (drop k events)), x, rest; destruct (shown_all p (drop k events)) as [Hf He]];
    (split; [exact Hk|]); cbv zeta; rewrite Hframes, Hf, Hended, He, ?app_nil_r, ?firstn_all, <- ?app_assoc; split_and!; try done;
    intros Hack _; rewrite Hack in Hph; simpl in Hph; rewrite bool_decide_false in Hph by naive_solver;
    by eapply take_items_rest.
  all: apply late_items, app_nil in Hph as [-> ->]; exists k, 0%nat, x, [];
    destruct (shown_events p []) as [Hf He]; rewrite fmap_nil in Hf, He;
    (split; [exact Hk|]); cbv zeta; rewrite Hframes, Hf, Hended, He, take_0, ?app_nil_r; by split_and!.
Qed.
End Invariants.

Module LocalStream.
Definition dumps (v : json) : res string := Ok "1".
Definition stream : Stream := mk_stream "r1" false ["values"] (-1).
Definition event (n : Z) : ProtoEvent :=
  mk_proto_event "state.values" n [] (mk_proto_identity "w" "p" "a" "r" "d" "agent" "t" "r1" "attempt") 0
    (NumberValue (nearest_float n)) [].
(** The worker sends two events; the client reads one of them. *)
Definition trace : list label :=
  [LMessage 0 (event 0); LAdvance 0; LAdvance 0; LMessage 0 (event 1); LAdvance 0; LDeliver 0].

Lemma sse_stream_complete_witness :
  ∃ s k n x rest, steps dumps (LOpen stream :: trace) new_gateway = Some s ∧
    connections s !! 0%nat = Some x ∧ queues s !! 0%nat = Some rest ∧
    con_frames x = first_frames dumps stream ++
      frames_of dumps stream (take n (drop k [event 0; event 1])) ++ (if has_ended x then end_frame stream else []).
Proof.
  destruct (steps dumps (LOpen stream :: trace) new_gateway) as [s|] eqn:Hs; [|vm_compute in Hs; discriminate Hs].
  destruct (sse_stream_complete dumps [] trace stream 0 new_gateway s) as (k & n & x & rest & _ & Hx & Hq & Hf & _).
  - discriminate.
  - unfold sole_sender, trace. repeat constructor.
  - reflexivity.
  - exact Hs.
  - exists s, k, n, x, rest. split; [reflexivity|]. split; [exact Hx|]. split; [exact Hq|exact Hf].
Defined.
End LocalStream.
