(* ===== verification/Database.v ===== *)
(** * Tables

    What [adapters/postgres] relies on of SQLAlchemy's sessions and of the
    database: a table has a primary key and unique indexes, which [models.py]
    declares and [Schema] states; [Table] are the statements that the
    repositories issue inside one transaction, and [TableLaws] what they do.  The
    order of rows that a query does not order is the database's own.  A finite
    map is a table, so the laws can hold. *)

From S2P Require Import Prelude PyDict PyStr Json Errors.
From Stdlib Require Import Ascii SpecFloat.

(** ** Columns *)

(** The characters of a string: its bytes that do not continue one. *)
Fixpoint char_length (s : string) : nat :=
  match s with
  | EmptyString => 0
  | String c s =>
      let n := nat_of_ascii c in
      if (128 <=? n)%nat && (n <? 192)%nat then char_length s else S (char_length s)
  end.

(** A [String(n)] column takes no longer string and no NUL. *)
Definition column_string (n : nat) (s : string) : bool :=
  (char_length s <=? n)%nat && string_forall (λ c, negb (Ascii.eqb c (ascii_of_nat 0))) s.

(** A [JSON] column takes what is JSON: no NaN and no infinity. *)
Fixpoint column_json (v : json) : bool :=
  match v with
  | JFloat S754_nan | JFloat (S754_infinity _) => false
  | JList l => forallb column_json l
  | JObj o => forallb (λ kv, column_json kv.2) o
  | _ => true
  end.

(** Assigning to a loaded attribute changes it if the values differ. *)
Definition assign_json (old new : json) : json := if py_eq old new then old else new.

(** A statement that a constraint refuses, and one whose value does not fit. *)
Definition IntegrityError : exn := OtherError "IntegrityError".
Definition is_integrity_error (e : exn) : bool :=
  match e with OtherError m => bool_decide (m = "IntegrityError") | _ => false end.
Definition DataError : exn := OtherError "DataError".
Definition MultipleResultsFound : exn := OtherError "MultipleResultsFound".

(** ** Tables *)

(** The primary key, and the pairs of rows that a unique index excludes. *)
Class Schema (Row : Type) : Type := {
  row_key : Row → string;
  row_conflict : Row → Row → bool;
}.

Definition consistent {Row} `{Schema Row} (m : gmap string Row) : Prop :=
  (∀ k r, m !! k = Some r → row_key r = k) ∧
  ∀ k k' r r', m !! k = Some r → m !! k' = Some r' → k ≠ k' → row_conflict r r' = false.

(** [session.get], [INSERT], [UPDATE ... WHERE], [DELETE ... WHERE], and
    [SELECT ... WHERE], unordered and [ORDER BY ... DESC]; [None] is an
    [IntegrityError], after which the transaction is rolled back. *)
Class Table (Row D : Type) : Type := {
  tb_get : string → D → option Row;
  tb_insert : Row → D → option D;
  tb_update : (Row → bool) → (Row → Row) → D → option D;
  tb_delete : (Row → bool) → D → D;
  tb_select : (Row → bool) → D → list Row;
  tb_select_desc : (Row → Z) → (Row → bool) → D → list Row;
}.

Class TableLaws (Row D : Type) `{Schema Row, Table Row D} : Type := {
  tb_view : D → gmap string Row;
  tb_consistent d : consistent (tb_view d);
  tb_get_view k d : tb_get k d = tb_view d !! k;
  tb_insert_ok r d d' : tb_insert r d = Some d' →
    tb_view d !! row_key r = None ∧ tb_view d' = <[row_key r := r]> (tb_view d);
  tb_insert_fails r d : tb_insert r d = None →
    is_Some (tb_view d !! row_key r) ∨
    ∃ k r', tb_view d !! k = Some r' ∧ (row_conflict r' r = true ∨ row_conflict r r' = true);
  tb_update_ok p f d d' : tb_update p f d = Some d' →
    tb_view d' = (λ r, if p r then f r else r) <$> tb_view d;
  tb_update_fails p f d : (∀ r, row_key (f r) = row_key r) → tb_update p f d = None →
    ∃ k k' r r' r'', k ≠ k' ∧ tb_view d !! k = Some r ∧ tb_view d !! k' = Some r' ∧ p r = true ∧
      (r'' = r' ∨ r'' = if p r' then f r' else r') ∧
      (row_conflict (f r) r'' = true ∨ row_conflict r'' (f r) = true);
  tb_delete_view p d : tb_view (tb_delete p d) = filter (λ kr, p kr.2 = false) (tb_view d);
  tb_select_view p d : Permutation (tb_select p d)
    (filter (λ r, p r = true) (map_to_list (tb_view d)).*2);
  tb_select_desc_view key p d : Permutation (tb_select_desc key p d) (tb_select p d);
  tb_select_desc_sorted key p d : StronglySorted (λ r r', key r' ≤ key r) (tb_select_desc key p d);
}.

Section Facts.
Context {Row D : Type} `{TL : TableLaws Row D}.
Implicit Types (d : D) (r : Row).

Lemma tb_key d k r : tb_view d !! k = Some r → row_key r = k.
Proof using TL. apply (tb_consistent d). Qed.

Lemma elem_of_select p d r : r ∈ tb_select p d ↔ tb_view d !! row_key r = Some r ∧ p r = true.
Proof using TL.
  rewrite tb_select_view, list_elem_of_filter, list_elem_of_fmap. split.
  - intros [Hp ([k r'] & -> & Hin)]. apply elem_of_map_to_list in Hin. split; [|done]. simpl.
    by rewrite (tb_key _ _ _ Hin).
  - intros [Hin Hp]. split; [done|]. exists (row_key r, r). split; [done|]. by apply elem_of_map_to_list.
Qed.
Lemma elem_of_select_desc key p d r :
  r ∈ tb_select_desc key p d ↔ tb_view d !! row_key r = Some r ∧ p r = true.
Proof using TL. by rewrite tb_select_desc_view, elem_of_select. Qed.

(** A selection lists a row once. *)
Lemma NoDup_select p d : NoDup (row_key <$> tb_select p d).
Proof using TL.
  rewrite tb_select_view.
  assert (NoDup (row_key <$> (map_to_list (tb_view d)).*2)) as Hnd.
  { rewrite <- list_fmap_compose.
    rewrite (list_fmap_ext _ fst (map_to_list (tb_view d))); [apply NoDup_fst_map_to_list|].
    intros i [k r] Hi. simpl. apply (tb_key d). by apply list_elem_of_lookup_2, elem_of_map_to_list in Hi. }
  induction (map_to_list (tb_view d)).*2 as [|r l IH]; [constructor|].
  rewrite fmap_cons in Hnd. apply NoDup_cons in Hnd as [Hr Hnd]. rewrite filter_cons.
  case_decide; [|by apply IH]. rewrite fmap_cons. apply NoDup_cons. split; [|by apply IH].
  intros Hin. apply Hr. apply list_elem_of_fmap in Hin as (r' & -> & Hin).
  apply list_elem_of_filter in Hin as [_ Hin]. by apply list_elem_of_fmap_2.
Qed.

(** Changing one row. *)
Definition tb_set r : D → option D :=
  tb_update (λ r', bool_decide (row_key r' = row_key r)) (λ r', if decide (row_key r' = row_key r) then r else r').

Lemma tb_set_ok r d d' : is_Some (tb_view d !! row_key r) → tb_set r d = Some d' →
  tb_view d' = <[row_key r := r]> (tb_view d).
Proof using TL.
  intros [r0 Hr0] Hs. unfold tb_set in Hs. rewrite (tb_update_ok _ _ _ _ Hs). apply map_eq. intros k.
  rewrite lookup_fmap, lookup_insert. destruct (tb_view d !! k) as [r'|] eqn:Hk; simpl.
  - rewrite (tb_key _ _ _ Hk). case_bool_decide; repeat case_decide; congruence.
  - case_decide; [congruence|done].
Qed.

Lemma tb_set_fails r d : tb_set r d = None →
  ∃ k' r', k' ≠ row_key r ∧ tb_view d !! k' = Some r' ∧ (row_conflict r r' = true ∨ row_conflict r' r = true).
Proof using TL.
  intros Hs. apply tb_update_fails in Hs as (k & k' & r1 & r' & r'' & Hne & Hk & Hk' & Hp & Hr'' & Hc);
    [|intros r'; by case_decide].
  to_prop. rewrite decide_True in Hc by done. pose proof (tb_key _ _ _ Hk). pose proof (tb_key _ _ _ Hk').
  rewrite bool_decide_false in Hr'' by congruence. exists k', r'. destruct Hr'' as [->| ->]; split_and!; congruence || done.
Qed.

Lemma tb_delete_key k d :
  tb_view (tb_delete (λ r, bool_decide (row_key r = k)) d) = delete k (tb_view d).
Proof using TL.
  rewrite tb_delete_view. apply map_eq. intros k'. rewrite map_lookup_filter, lookup_delete.
  destruct (tb_view d !! k') as [r|] eqn:Hk; simpl; [|by case_decide].
  rewrite (tb_key _ _ _ Hk). case_bool_decide; case_decide; simplify_option_eq; congruence || done.
Qed.
End Facts.

(** ** Entities kept in rows *)

(** How a repository writes and reads the values of a type; [stored] are those that
    are read as they were written. *)
Class Entity (A Row : Type) `{Schema Row} : Type := {
  enc : A → Row;
  dec : Row → res A;
  stored : A → Prop;
  ent_key : A → string;
  dec_enc a : stored a → dec (enc a) = Ok a;
  enc_key a : row_key (enc a) = ent_key a;
}.

Section Entities.
Context {A Row D : Type} `{TL : TableLaws Row D} `{E : !Entity A Row}.
Implicit Types (d : D) (a : A).

Definition rows_ok d : Prop := ∀ k row, tb_view d !! k = Some row → ∃ a, stored a ∧ row = enc a.
Definition entities d : gmap string A :=
  omap (λ row, match dec row with Ok a => Some a | Raise _ => None end) (tb_view d).

Lemma entities_Some d k a : rows_ok d →
  entities d !! k = Some a ↔ stored a ∧ tb_view d !! k = Some (enc a).
Proof.
  intros Hd. unfold entities. rewrite lookup_omap. split.
  - destruct (tb_view d !! k) as [row|] eqn:Hk; [|done]. destruct (Hd _ _ Hk) as (a' & Hs & ->). simpl.
    rewrite (dec_enc _ Hs). by intros [= ->].
  - intros [Hs ->]. simpl. by rewrite (dec_enc _ Hs).
Qed.
Lemma entities_None d k : rows_ok d → entities d !! k = None ↔ tb_view d !! k = None.
Proof.
  intros Hd. unfold entities. rewrite lookup_omap. destruct (tb_view d !! k) as [row|] eqn:Hk; [|done].
  destruct (Hd _ _ Hk) as (a & Hs & ->). simpl. by rewrite (dec_enc _ Hs).
Qed.
Lemma entities_key d k a : rows_ok d → entities d !! k = Some a → ent_key a = k.
Proof using TL. intros Hd [_ Hk]%entities_Some; [|done]. rewrite <- enc_key. exact (tb_key d _ _ Hk). Qed.

Lemma rows_ok_insert d d' k a : rows_ok d → stored a → tb_view d' = <[k := enc a]> (tb_view d) → rows_ok d'.
Proof.
  intros Hd Hs Hv k' row. rewrite Hv, lookup_insert. case_decide; [|apply Hd]. intros [= <-]. by exists a.
Qed.
Lemma entities_insert d d' k a : stored a → tb_view d' = <[k := enc a]> (tb_view d) →
  entities d' = <[k := a]> (entities d).
Proof. intros Hs Hv. unfold entities. by rewrite Hv, (omap_insert_Some _ _ _ _ a) by (by rewrite (dec_enc _ Hs)). Qed.

Lemma rows_ok_delete d k : rows_ok d → rows_ok (tb_delete (λ r, bool_decide (row_key r = k)) d).
Proof using TL. intros Hd k' row. rewrite tb_delete_key. intros [_ ?]%lookup_delete_Some. by eapply Hd. Qed.
Lemma entities_delete d k :
  entities (tb_delete (λ r, bool_decide (row_key r = k)) d) = delete k (entities d).
Proof using TL. unfold entities. by rewrite tb_delete_key, omap_delete. Qed.

Lemma mapM_stored l : Forall stored l → result_mapM dec (enc <$> l) = Ok l.
Proof. induction 1 as [|a l Ha Hl IH]; [done|]. cbn. by rewrite (dec_enc _ Ha), IH. Qed.

(** The entities that satisfy [q], in the descending order of [key]. *)
Definition listing (key : A → Z) (m : gmap string A) (q : A → bool) (l : list A) : Prop :=
  NoDup (ent_key <$> l) ∧ StronglySorted (λ a a', key a' ≤ key a) l ∧
  ∀ a, a ∈ l ↔ m !! ent_key a = Some a ∧ q a = true.

Lemma selected_stored d rows : rows_ok d → (∀ row, row ∈ rows → tb_view d !! row_key row = Some row) →
  ∃ l, rows = enc <$> l ∧ Forall stored l.
Proof.
  intros Hd. induction rows as [|row rows IH]; intros Hin; [by exists []|].
  destruct IH as (l & -> & Hl); [intros; apply Hin; by right|].
  destruct (Hd _ row (Hin _ (list_elem_of_here _ _))) as (a & Hs & ->). exists (a :: l). by split; [|constructor].
Qed.

Lemma select_entities d row_created key p q : rows_ok d →
  (∀ a, row_created (enc a) = key a) → (∀ a, p (enc a) = q a) →
  ∃ l, tb_select_desc row_created p d = enc <$> l ∧ Forall stored l ∧ listing key (entities d) q l.
Proof using TL.
  intros Hd Hkey Hpq. destruct (selected_stored d (tb_select_desc row_created p d) Hd) as (l & Heq & Hl).
  { intros row Hrow. by apply elem_of_select_desc in Hrow as [? _]. }
  exists l. split_and!; [done|done|]. split; [|split].
  - pose proof (NoDup_select p d) as Hnd. rewrite <- (tb_select_desc_view row_created), Heq in Hnd.
    rewrite <- list_fmap_compose in Hnd. erewrite list_fmap_ext; [exact Hnd|]. intros i a _. simpl. by rewrite enc_key.
  - pose proof (tb_select_desc_sorted row_created p d) as Hs. rewrite Heq in Hs. clear -Hs Hkey.
    induction l as [|a l IH]; [constructor|]. apply StronglySorted_inv in Hs as [Hs Hall].
    constructor; [by apply IH|]. eapply Forall_impl; [exact (proj1 (Forall_fmap enc _ l) Hall)|].
    intros a'. simpl. by rewrite !Hkey.
  - intros a. rewrite (entities_Some d _ _ Hd), <- Hpq, <- enc_key. split.
    + intros Ha. assert (enc a ∈ tb_select_desc row_created p d) as Hin by (rewrite Heq; by apply list_elem_of_fmap_2).
      apply elem_of_select_desc in Hin as [Hk Hp]. split_and!; [|done|done]. by eapply Forall_forall in Hl.
    + intros [[Hs Hk] Hp]. assert (enc a ∈ tb_select_desc row_created p d) as Hin by by apply elem_of_select_desc.
      rewrite Heq in Hin. apply list_elem_of_fmap in Hin as (a' & Haa & Hin).
      pose proof (proj1 (Forall_forall _ _) Hl _ Hin) as Hs'. pose proof (dec_enc _ Hs) as Hrt.
      rewrite Haa, (dec_enc _ Hs') in Hrt. by simplify_eq.
Qed.
End Entities.

(** ** A finite map is a table *)

Section MapTable.
Context {Row : Type} `{Schema Row}.

Definition consistentb (m : gmap string Row) : bool :=
  forallb (λ kr, bool_decide (row_key kr.2 = kr.1) &&
    forallb (λ kr', bool_decide (kr.1 = kr'.1) || negb (row_conflict kr.2 kr'.2)) (map_to_list m)) (map_to_list m).

Lemma consistentb_spec m : consistentb m = true ↔ consistent m.
Proof.
  unfold consistentb, consistent. rewrite forallb_elem. setoid_rewrite andb_true_iff.
  setoid_rewrite forallb_elem. setoid_rewrite orb_true_iff. setoid_rewrite bool_decide_eq_true.
  setoid_rewrite negb_true_iff. split.
  - intros Hall. split.
    + intros k r Hk. by apply (Hall (k, r)), elem_of_map_to_list.
    + intros k k' r r' Hk Hk' Hne. apply elem_of_map_to_list in Hk, Hk'.
      destruct (Hall _ Hk) as [_ Hc]. by destruct (Hc _ Hk').
  - intros [Hkey Hc] [k r] Hk%elem_of_map_to_list. split; [by apply Hkey|].
    intros [k' r'] Hk'%elem_of_map_to_list. simpl. destruct (decide (k = k')); [by left|right; eauto].
Qed.

Lemma empty_consistent : consistentb ∅ = true.
Proof. apply consistentb_spec. split; intros *; by rewrite lookup_empty. Qed.

Definition map_table : Type := { m : gmap string Row | consistentb m = true }.
Definition pack (m : gmap string Row) : option map_table :=
  match decide (consistentb m = true) with left Hm => Some (exist _ m Hm) | right _ => None end.

Definition empty_table : map_table := exist _ ∅ empty_consistent.

Lemma pack_Some m d : pack m = Some d → `d = m.
Proof. unfold pack. case_decide; intros; by simplify_eq. Qed.
Lemma pack_None m : pack m = None → ¬ consistent m.
Proof. unfold pack. case_decide as Hm; [done|]. by rewrite <- consistentb_spec. Qed.

#[export] Instance map_table_table : Table Row map_table := {
  tb_get := λ k d, `d !! k;
  tb_insert := λ r d, if decide (`d !! row_key r = None) then pack (<[row_key r := r]> (`d)) else None;
  tb_update := λ p f d, pack ((λ r, if p r then f r else r) <$> `d);
  tb_delete := λ p d, default d (pack (filter (λ kr, p kr.2 = false) (`d)));
  tb_select := λ p d, filter (λ r, p r = true) (map_to_list (`d)).*2;
  tb_select_desc := λ key p d, sort_desc key (filter (λ r, p r = true) (map_to_list (`d)).*2);
}.

Lemma not_consistent m : ¬ consistent m → (∀ k r, m !! k = Some r → row_key r = k) →
  ∃ k k' r r', m !! k = Some r ∧ m !! k' = Some r' ∧ k ≠ k' ∧ row_conflict r r' = true.
Proof.
  rewrite <- consistentb_spec. intros Hm Hkey. apply not_true_iff_false in Hm.
  unfold consistentb in Hm. apply forallb_false in Hm as ([k r] & Hk & Hm).
  apply elem_of_map_to_list in Hk. rewrite bool_decide_true in Hm by by apply Hkey. simpl in Hm.
  apply forallb_false in Hm as ([k' r'] & Hk' & Hm). apply elem_of_map_to_list in Hk'. simpl in Hm.
  to_prop. by exists k, k', r, r'.
Qed.

Lemma pack_consistent m : consistent m → ∃ d, pack m = Some d ∧ `d = m.
Proof.
  intros Hm. unfold pack. case_decide as Hc; [by eexists|]. by destruct Hc; apply consistentb_spec.
Qed.

#[export] Program Instance map_table_laws : TableLaws Row map_table := {
  tb_view := λ d, `d;
}.
Next Obligation. intros d. apply consistentb_spec. by destruct d. Qed.
Next Obligation. done. Qed.
Next Obligation.
  intros r d d'. simpl. case_decide; [|done]. intros Hp. split; [done|by apply pack_Some].
Qed.
Next Obligation.
  intros r d. simpl. destruct (`d !! row_key r) as [r0|] eqn:Hk; [intros _; left; by eexists|].
  rewrite decide_True by done. intros Hp%pack_None. right.
  pose proof (proj1 (consistentb_spec _) (proj2_sig d)) as [Hkey Hc].
  destruct (not_consistent _ Hp) as (k & k' & r1 & r2 & H1 & H2 & Hne & Hcon).
  { intros k r'. rewrite lookup_insert. case_decide; [by intros [= <-]|apply Hkey]. }
  rewrite lookup_insert in H1, H2. destruct (decide (row_key r = k)) as [<-|], (decide (row_key r = k')) as [<-|];
    simplify_eq.
  - exists k', r2. split; [done|by right].
  - exists k, r1. split; [done|by left].
  - by rewrite (Hc k k' r1 r2) in Hcon.
Qed.
Next Obligation. intros p f d d' Hp. by apply pack_Some. Qed.
Next Obligation.
  intros p f d Hf Hp%pack_None. pose proof (proj1 (consistentb_spec _) (proj2_sig d)) as [Hkey Hc].
  destruct (not_consistent _ Hp) as (k & k' & r1 & r2 & H1 & H2 & Hne & Hcon).
  { intros k r'. rewrite lookup_fmap. intros (r & Hr & ->)%fmap_Some. destruct (p r); rewrite ?Hf; by apply Hkey. }
  rewrite lookup_fmap in H1, H2. apply fmap_Some in H1 as (r & Hr & ->), H2 as (r' & Hr' & ->).
  destruct (p r) eqn:Hpr.
  - exists k, k', r, r', (if p r' then f r' else r'). split_and!; try done; [by right|by left].
  - destruct (p r') eqn:Hpr'; [|by rewrite (Hc k k' r r') in Hcon].
    exists k', k, r', r, r. split_and!; try done; [by left|by right].
Qed.
Next Obligation.
  intros p d. simpl. pose proof (proj1 (consistentb_spec _) (proj2_sig d)) as [Hkey Hc].
  destruct (pack_consistent (filter (λ kr, p kr.2 = false) (`d))) as (d' & Hp & Hd); [|by rewrite Hp].
  split; [intros k r [Hk _]%map_lookup_filter_Some; by apply Hkey|].
  intros k k' r r' [Hk _]%map_lookup_filter_Some [Hk' _]%map_lookup_filter_Some. by apply Hc.
Qed.
Next Obligation. done. Qed.
Next Obligation. intros key p d. apply sort_desc_perm. Qed.
Next Obligation. intros key p d. apply sort_desc_sorted. Qed.
End MapTable.
