(* ===== verification/PostgresSchema.v ===== *)
(** * Schemas, locks and migrations of the Postgres adapter

    [adapters/postgres/schema.py], [locks.py], [migration.py], and the engines of
    [database.py] and [langgraph.py]: the names of the schemas that keep applications
    apart, the numbers of the advisory locks, and what is executed under them.  The
    hash, the URL library and the database are parameters. *)

From S2P Require Import Prelude PyDict PyStr Json Errors.
From Stdlib Require Import Ascii.

(** ** [schema.py] *)

Definition in_range (a b : nat) (c : ascii) : bool := (a <=? nat_of_ascii c)%nat && (nat_of_ascii c <=? b)%nat.
Definition lower_letter : ascii → bool := in_range 97 122.
Definition identifier_char (c : ascii) : bool := lower_letter c || in_range 48 57 c || Ascii.eqb c "_".
(** [_IDENTIFIER.fullmatch] *)
Definition is_identifier (s : string) : bool :=
  match s with
  | String c rest => lower_letter c && string_forall identifier_char rest && (String.length rest <=? 62)%nat
  | EmptyString => false
  end.

(** [SchemaNames(prefix)], whose only field is the prefix. *)
Definition schema_names (prefix : string) : res string :=
  if is_identifier prefix then Ok prefix else Raise (ValueError "schema prefix must be a lowercase SQL identifier").
Definition core (prefix : string) : string := prefix +:+ "_core".
Definition execution (prefix : string) : string := prefix +:+ "_exec".

Definition _application_schema (prefix kind workspace_key application_key environment : string) : res string :=
  if forallb is_identifier [workspace_key; application_key; environment]
  then Ok (prefix +:+ "_" +:+ kind +:+ "_" +:+ workspace_key +:+ "_" +:+ application_key +:+ "_" +:+ environment)
  else Raise (ValueError "schema keys must be lowercase SQL identifiers").
Definition framework_state (prefix : string) : string → string → string → res string := _application_schema prefix "s".
Definition application (prefix : string) : string → string → string → res string := _application_schema prefix "a".

(** ** [database.py] *)

(** [str.isidentifier] and [str.islower], for ASCII. *)
Definition upper_letter : ascii → bool := in_range 65 90.
Definition letter_or_underscore (c : ascii) : bool := lower_letter c || upper_letter c || Ascii.eqb c "_".
Definition isidentifier (s : string) : bool :=
  match s with
  | String c rest => letter_or_underscore c && string_forall (λ c, letter_or_underscore c || in_range 48 57 c) rest
  | EmptyString => false
  end.
Definition islower (s : string) : bool :=
  string_forall (λ c, negb (upper_letter c)) s && negb (string_forall (λ c, negb (lower_letter c)) s).
Definition _is_safe_search_path (search_path : string) : bool :=
  forallb (λ part, isidentifier part && islower part) (split_at "," search_path).

(** The statement that each connection of an engine begins with. *)
Definition quote_mark : string := String (ascii_of_nat 34) "".
Definition quoted (s : string) : string := quote_mark +:+ s +:+ quote_mark.
Definition set_search_path (search_path : string) : res string :=
  if _is_safe_search_path search_path
  then Ok ("SET search_path TO " +:+ join "," (quoted <$> split_at "," search_path))
  else Raise (ValueError "search_path must contain lowercase SQL identifiers").
(** [create_application_engine] and [create_framework_state_engine]: the statement of
    the engine for a schema. *)
Definition schema_engine (schema : res string) : res string :=
  result_bind schema (λ s, set_search_path (s +:+ ",public")).
Definition create_application_engine (prefix ws app env : string) : res string := schema_engine (application prefix ws app env).
Definition create_framework_state_engine (prefix ws app env : string) : res string :=
  schema_engine (framework_state prefix ws app env).

Definition create_schema (name : string) : string := "CREATE SCHEMA IF NOT EXISTS " +:+ quoted name.

(** ** [langgraph.py] *)

(** [s.replace(old, new, 1)] *)
Fixpoint replace_first (old new s : string) : string :=
  match s with
  | String c s' =>
      if starts_with old s then new +:+ String.substring (String.length old) (String.length s - String.length old) s
      else String c (replace_first old new s')
  | EmptyString => if starts_with old "" then new else ""
  end.

Section Url.
(** [make_url(url).update_query_dict({"options": ...}).render_as_string()] *)
Context (render : string → string → string).
Definition database_url_for_search_path (url schema : string) : res string :=
  if negb (isidentifier schema) || negb (bool_decide (lower schema = schema))
  then Raise (ValueError "framework state schema must be a lowercase SQL identifier")
  else
    let rendered := render url ("-c search_path=" +:+ schema +:+ ",public") in
    let rendered := replace_first "postgresql+psycopg://" "postgresql://" rendered in
    Ok (replace_first "options=-c+search_path" "options=-c%20search_path" rendered).
End Url.

(** ** [locks.py] *)

Section Locks.
(** [hashlib.sha256(s.encode()).digest()], bytes as integers. *)
Context (sha256 : string → list Z).

(** [int.from_bytes(b, "big")] *)
Definition from_bytes (b : list Z) : Z := foldl (λ n d, 256 * n + d) 0 b.
Definition migration_lock_key (application_id environment category : string) : Z :=
  let unsigned := from_bytes (take 8 (sha256 (application_id +:+ environment +:+ category))) in
  if 2 ^ 63 <=? unsigned then unsigned - 2 ^ 64 else unsigned.

(** *** Migrations as steps of the database

    The holder of each lock, and the statements that have been committed; a migration
    is numbered by its connection. *)
Record MigrationDb : Type := mk_migration_db {
  md_locks : gmap Z nat;
  md_executed : list (nat * string);
}.

(** [pg_try_advisory_xact_lock], which a connection that holds the lock takes again. *)
Definition try_lock (conn : nat) (key : Z) : Py MigrationDb bool := λ d,
  match md_locks d !! key with
  | Some c => (Ok (bool_decide (c = conn)), d)
  | None => (Ok true, mk_migration_db (<[key := conn]> (md_locks d)) (md_executed d))
  end.
Definition execute_sql (conn : nat) (sql : string) : Py MigrationDb unit :=
  modify (λ d, mk_migration_db (md_locks d) (md_executed d ++ [(conn, sql)])).
(** The end of a transaction gives back what it has locked. *)
Definition end_transaction (conn : nat) : Py MigrationDb unit :=
  modify (λ d, mk_migration_db (filter (λ kc, kc.2 ≠ conn) (md_locks d)) (md_executed d)).

(** [migrate_platform]; [create_all] stands for the statements of the metadata. *)
Definition migrate_platform (conn : nat) (application_id environment prefix : string) : Py MigrationDb bool :=
  acquired <- try_lock conn (migration_lock_key application_id environment "platform");;
  if negb acquired then end_transaction conn;;; ret false
  else
    execute_sql conn (create_schema (core prefix));;;
    execute_sql conn (create_schema (execution prefix));;;
    execute_sql conn "create_all";;;
    end_transaction conn;;; ret true.

(** [advisory_migration_session_lock] around a body; [lock] waits until the lock is
    free, so that a call that goes on holds it. *)
Definition lock_session (conn : nat) (key : Z) : Py MigrationDb unit :=
  modify (λ d, mk_migration_db (<[key := conn]> (md_locks d)) (md_executed d)).
Definition unlock_session (conn : nat) (key : Z) : Py MigrationDb unit :=
  modify (λ d, mk_migration_db (if decide (md_locks d !! key = Some conn) then delete key (md_locks d) else md_locks d)
                 (md_executed d)).
Definition advisory_migration_session_lock {B} (conn : nat) (application_id environment category : string)
    (body : Py MigrationDb B) : Py MigrationDb B :=
  let key := migration_lock_key application_id environment category in
  lock_session conn key;;; try_finally body (unlock_session conn key).

(** [advisory_migration_lock] around a body: the transaction of the lock ends with it. *)
Definition advisory_migration_lock {B} (conn : nat) (application_id environment category : string)
    (body : Py MigrationDb B) : Py MigrationDb B :=
  try_finally (lock_session conn (migration_lock_key application_id environment category);;; body) (end_transaction conn).

(** [AlembicApplicationMigrationRunner.upgrade] of [adapters/fastapi/migration_runner.py];
    [command] is Alembic's upgrade to the newest revision. *)
Definition upgrade (conn : nat) (application_id environment : string) (command : Py MigrationDb unit) : Py MigrationDb unit :=
  try_except (advisory_migration_lock conn application_id environment "application" command)
    (λ e, if is_exception e then raise (failure APPLICATION_MIGRATION_FAILED "application migration failed") else raise e).

(** [managed_langgraph_persistence] of [langgraph.py] around a body, which gets the URL of
    the saver and the store: they are set up under the session lock, and the body runs
    without it. *)
Definition managed_langgraph_persistence {B} (render : string → string → string) (installed : bool) (conn : nat)
    (application_id environment prefix workspace_key application_key database_url : string)
    (setup_checkpointer setup_store : string → Py MigrationDb unit) (body : string → Py MigrationDb B) : Py MigrationDb B :=
  if negb installed then raise (OtherError "langgraph-checkpoint-postgres and psycopg are required")
  else
    state_schema <- of_result (framework_state prefix workspace_key application_key environment);;
    state_database_url <- of_result (database_url_for_search_path render database_url state_schema);;
    execute_sql conn (create_schema state_schema);;;
    advisory_migration_session_lock conn application_id environment "framework-state"
      (setup_checkpointer state_database_url;;; setup_store state_database_url);;;
    body state_database_url.
End Locks.

(** ** What they do *)

Lemma in_range_spec a b c : in_range a b c = true ↔ (a ≤ nat_of_ascii c ≤ b)%nat.
Proof. unfold in_range. rewrite andb_true_iff, !Nat.leb_le. done. Qed.

(** The characters of an identifier need no quoting and separate no path. *)
Lemma identifier_char_safe c : identifier_char c = true →
  c ≠ ","%char ∧ c ≠ ascii_of_nat 34 ∧ upper_letter c = false ∧ (letter_or_underscore c || in_range 48 57 c) = true.
Proof. destruct c as [[] [] [] [] [] [] [] []]; vm_compute; intros; done. Qed.

Lemma string_forall_impl p q s : (∀ c, p c = true → q c = true) → string_forall p s = true → string_forall q s = true.
Proof. intros Hpq. induction s as [|c s IH]; [done|]. simpl. intros [??]%andb_true_iff. rewrite Hpq, IH; done. Qed.

Lemma split_at_none c s : string_forall (λ a, negb (Ascii.eqb a c)) s = true → split_at c s = [s].
Proof.
  induction s as [|a s IH]; [done|]. simpl. intros [Ha Hs]%andb_true_iff. rewrite (IH Hs).
  rewrite decide_False; [done|]. intros ->. by rewrite Ascii.eqb_refl in Ha.
Qed.

Lemma is_identifier_chars s : is_identifier s = true →
  string_forall identifier_char s = true ∧ (1 ≤ String.length s ≤ 63)%nat ∧ ∃ c t, s = String c t ∧ lower_letter c = true.
Proof.
  destruct s as [|c t]; [done|]. unfold is_identifier. intros H. to_prop. apply Nat.leb_le in H0.
  split_and!; [|cbn; lia..|by exists c, t]. cbn. unfold identifier_char at 1. by rewrite H, H1.
Qed.

Definition no_underscore (s : string) : bool := string_forall (λ c, negb (Ascii.eqb c "_")) s.

(** A key without underscores ends at the first one. *)
Lemma key_split a a' b b' : no_underscore a = true → no_underscore a' = true →
  a +:+ "_" +:+ b = a' +:+ "_" +:+ b' → a = a' ∧ b = b'.
Proof.
  unfold no_underscore. revert a'. induction a as [|c a IH]; intros [|c' a'] Ha Ha' Heq; rewrite ?app_string_cons, ?app_string_nil in Heq.
  - by injection Heq.
  - injection Heq as <- _. discriminate Ha'.
  - injection Heq as -> _. discriminate Ha.
  - cbn in Ha, Ha'. apply andb_true_iff in Ha as [_ Ha], Ha' as [_ Ha']. injection Heq as -> Heq.
    by destruct (IH a' Ha Ha' Heq) as [-> ->].
Qed.

Lemma application_schema_ok prefix kind ws app env name :
  _application_schema prefix kind ws app env = Ok name →
  is_identifier ws = true ∧ is_identifier app = true ∧ is_identifier env = true ∧
  name = prefix +:+ "_" +:+ kind +:+ "_" +:+ ws +:+ "_" +:+ app +:+ "_" +:+ env.
Proof.
  unfold _application_schema. cbn [forallb]. rewrite andb_true_r.
  destruct (is_identifier ws), (is_identifier app), (is_identifier env); simpl; intros H; simplify_eq; by split_and!.
Qed.

Lemma schema_chars prefix kind ws app env name :
  is_identifier prefix = true → string_forall identifier_char kind = true →
  _application_schema prefix kind ws app env = Ok name →
  string_forall identifier_char name = true ∧ ∃ c t, name = String c t ∧ lower_letter c = true.
Proof.
  intros Hp Hk (Hw & Ha & He & ->)%application_schema_ok.
  apply is_identifier_chars in Hp as (Hp & _ & c & t & -> & Hc).
  apply is_identifier_chars in Hw as [Hw _], Ha as [Ha _], He as [He _]. split.
  - rewrite !string_forall_app, Hp, Hk, Hw, Ha, He. done.
  - rewrite app_string_cons. by eexists _, _.
Qed.

(** A path of a schema and [public] is safe. *)
Lemma schema_search_path name c t :
  string_forall identifier_char name = true → name = String c t → lower_letter c = true →
  set_search_path (name +:+ ",public") = Ok ("SET search_path TO " +:+ quoted name +:+ "," +:+ quoted "public").
Proof.
  intros Hn Heq Hc.
  assert (split_at "," (name +:+ ",public") = [name; "public"]) as Hsplit.
  { assert (string_forall (λ a, negb (Ascii.eqb a ",")) name = true) as Hcomma.
    { eapply string_forall_impl; [|exact Hn]. intros a Ha. destruct (identifier_char_safe a Ha) as (Hne & _).
      by apply negb_true_iff, Ascii.eqb_neq. }
    clear -Hcomma. induction name as [|a s IH]; [done|]. cbn in Hcomma. apply andb_true_iff in Hcomma as [Ha Hs].
    rewrite app_string_cons. cbn [split_at]. rewrite (IH Hs). rewrite decide_False; [done|]. by intros ->. }
  unfold set_search_path, _is_safe_search_path. rewrite Hsplit. cbn [forallb].
  assert (isidentifier name && islower name = true) as ->; [|done]. subst name. cbn in Hn. apply andb_true_iff in Hn as [Hc' Hn].
  unfold isidentifier, islower. cbn [string_forall]. apply andb_true_iff. split; [apply andb_true_iff; split|apply andb_true_iff; split].
  - unfold letter_or_underscore. by rewrite Hc.
  - eapply string_forall_impl; [|exact Hn]. intros a Ha. by apply identifier_char_safe.
  - apply andb_true_iff. split; [by destruct (identifier_char_safe c Hc') as (_ & _ & -> & _)|].
    eapply string_forall_impl; [|exact Hn]. intros a Ha. by destruct (identifier_char_safe a Ha) as (_ & _ & -> & _).
  - by rewrite Hc.
Qed.

(** C31: how the schemas keep applications apart.  The name of an application's schema
    has only lower-case letters, digits and underscores, so that it cannot leave its
    quotes; the engine for it starts with exactly that schema and [public]; it is never
    the name of a schema for framework state; and two applications with different keys
    have different schemas if their workspaces' and their own keys have no underscore. *)
Theorem schema_isolation prefix ws app env name :
  is_identifier prefix = true → application prefix ws app env = Ok name →
  string_forall identifier_char name = true ∧
  create_application_engine prefix ws app env = Ok ("SET search_path TO " +:+ quoted name +:+ "," +:+ quoted "public") ∧
  (∀ ws' app' env' name', framework_state prefix ws' app' env' = Ok name' → name' ≠ name) ∧
  (no_underscore ws = true → no_underscore app = true →
   ∀ ws' app' env', no_underscore ws' = true → no_underscore app' = true →
     application prefix ws' app' env' = Ok name → ws' = ws ∧ app' = app ∧ env' = env).
Proof.
  intros Hp Hn. destruct (schema_chars prefix "a" ws app env name Hp eq_refl Hn) as (Hchars & c & t & Heq & Hc).
  split; [done|]. split; [|split].
  - unfold create_application_engine, schema_engine. rewrite Hn. cbn [result_bind]. by eapply schema_search_path.
  - intros ws' app' env' name' Hs ->. apply application_schema_ok in Hn as (_ & _ & _ & ->), Hs as (_ & _ & _ & Hs).
    apply app_string_inj_l in Hs. discriminate Hs.
  - intros Hw Ha ws' app' env' Hw' Ha' Hn'.
    apply application_schema_ok in Hn as (_ & _ & _ & ->), Hn' as (_ & _ & _ & Hs).
    apply app_string_inj_l, app_string_inj_l, app_string_inj_l, app_string_inj_l in Hs.
    apply key_split in Hs as [-> Hs]; [|done..]. apply key_split in Hs as [-> ->]; done.
Qed.

Lemma schema_isolation_witness :
  application "rt" "acme" "agent" "local" = Ok "rt_a_acme_agent_local" ∧
  ∀ ws app env, no_underscore ws = true → no_underscore app = true →
    application "rt" ws app env = Ok "rt_a_acme_agent_local" → ws = "acme" ∧ app = "agent" ∧ env = "local".
Proof.
  split; [reflexivity|].
  destruct (schema_isolation "rt" "acme" "agent" "local" "rt_a_acme_agent_local" eq_refl eq_refl) as (_ & _ & _ & H).
  exact (H eq_refl eq_refl).
Defined.

(** With underscores in the keys two applications can share a schema, and valid keys can
    make a name longer than the 63 bytes that Postgres keeps. *)
Lemma schema_collision : application "rt" "a_b" "c" "local" = application "rt" "a" "b_c" "local" ∧
  is_ok (application "rt" "a_b" "c" "local") = true.
Proof. by split. Qed.
Lemma schema_too_long :
  let key := "a_workspace_with_quite_a_long_name" in
  match application "rt" key key "local" with Ok name => (63 < String.length name)%nat | Raise _ => False end.
Proof. vm_compute. lia. Qed.

(** ** What the locks do *)

Section LocksSpec.
Context (sha256 : string → list Z).
(** A digest has 32 bytes. *)
Hypothesis digest_bytes : ∀ s, length (sha256 s) = 32%nat ∧ Forall (λ d, 0 ≤ d < 256) (sha256 s).

Lemma from_bytes_bound b n : 0 ≤ n → Forall (λ d, 0 ≤ d < 256) b →
  0 ≤ foldl (λ n d, 256 * n + d) n b < (n + 1) * 256 ^ Z.of_nat (length b).
Proof.
  revert n. induction b as [|d b IH]; intros n Hn Hb; [simpl; lia|]. apply Forall_cons in Hb as [Hd Hb].
  cbn [foldl length]. destruct (IH (256 * n + d) ltac:(lia) Hb) as [H0 H1]. split; [done|].
  rewrite Nat2Z.inj_succ, Z.pow_succ_r by lia. eapply Z.lt_le_trans; [exact H1|].
  rewrite Z.mul_assoc. apply Z.mul_le_mono_nonneg_r; [apply Z.pow_nonneg|]; lia.
Qed.

(** The key of a lock is a [bigint]. *)
Lemma lock_key_range application_id environment category :
  - 2 ^ 63 ≤ migration_lock_key sha256 application_id environment category < 2 ^ 63.
Proof using digest_bytes.
  unfold migration_lock_key. destruct (digest_bytes (application_id +:+ environment +:+ category)) as [Hl Hb].
  pose proof (from_bytes_bound (take 8 (sha256 (application_id +:+ environment +:+ category))) 0 ltac:(lia)
    ltac:(by apply Forall_take)) as H. rewrite length_take, Hl in H. unfold from_bytes.
  set (n := foldl _ 0 _) in *. change ((0 + 1) * 256 ^ Z.of_nat (Nat.min 8 32)) with (2 ^ 64) in H.
  destruct (2 ^ 63 <=? n) eqn:Hn; to_prop; lia.
Qed.
End LocksSpec.

(** The parts of a key are not separated: different applications share a lock. *)
Lemma lock_key_collision sha256 :
  migration_lock_key sha256 "shop" "eu" "platform" = migration_lock_key sha256 "shope" "u" "platform".
Proof. reflexivity. Qed.

(** A migration that gets its lock executes everything and gives the lock back; one that
    does not gets nothing done and says so. *)
Lemma migrate_platform_outcome sha256 conn app env prefix (d : MigrationDb) :
  (∀ k, md_locks d !! k ≠ Some conn) →
  let key := migration_lock_key sha256 app env "platform" in
  let '(o, d') := migrate_platform sha256 conn app env prefix d in
  md_locks d' = md_locks d ∧
  match md_locks d !! key with
  | Some _ => o = Ok false ∧ md_executed d' = md_executed d
  | None => o = Ok true ∧ md_executed d' = md_executed d ++
      [(conn, create_schema (core prefix)); (conn, create_schema (execution prefix)); (conn, "create_all")]
  end.
Proof.
  intros Hfree key. assert (filter (λ kc : Z * nat, kc.2 ≠ conn) (md_locks d) = md_locks d) as Hfilter.
  { apply map_filter_id. intros k c Hk Hc. simpl in Hc. subst c. by apply (Hfree k). }
  unfold migrate_platform, bind, try_lock. fold key. destruct (md_locks d !! key) as [c|] eqn:Hk.
  - rewrite bool_decide_eq_false_2 by (intros ->; by apply (Hfree key)). cbn. by rewrite Hfilter.
  - cbn. rewrite <- !app_assoc. split; [|done]. rewrite map_filter_insert_False by (simpl; congruence).
    rewrite delete_id by done. exact Hfilter.
Qed.

(** The session lock is free again, however the body ends. *)
Lemma session_lock_released {B} sha256 conn app env category (body : Py MigrationDb B) d :
  let key := migration_lock_key sha256 app env category in
  md_locks (advisory_migration_session_lock sha256 conn app env category body d).2 !! key ≠ Some conn.
Proof.
  intros key. unfold advisory_migration_session_lock, bind, lock_session, modify, try_finally. fold key.
  destruct (body _) as [o d']. cbn. case_decide as Hd; [by rewrite lookup_delete_eq|done].
Qed.

(** An upgrade gives its lock back, and fails with one code only. *)
Lemma upgrade_outcome sha256 conn app env (command : Py MigrationDb unit) d :
  let '(o, d') := upgrade sha256 conn app env command d in
  (∀ k, md_locks d' !! k ≠ Some conn) ∧
  match o with
  | Ok _ => True
  | Raise e => e = CancelledError ∨ e = failure APPLICATION_MIGRATION_FAILED "application migration failed"
  end.
Proof.
  unfold upgrade, try_except, advisory_migration_lock, try_finally, bind, lock_session, modify. cbn.
  destruct (command _) as [o d']. cbn. assert (∀ k, filter (λ kc : Z * nat, kc.2 ≠ conn) (md_locks d') !! k ≠ Some conn) as Hfree.
  { intros k Hk. apply map_lookup_filter_Some in Hk as [_ Hk]. by apply Hk. }
  destruct o as [u|e]; [by split|]. destruct (is_exception e) eqn:He; cbn; split; try done; [by right|left]. by destruct e.
Qed.

(** The application runs without the lock under which its savers were set up; names that
    are no identifiers, such as a key with a hyphen, are refused before anything is done. *)
Lemma persistence_outcome {B} sha256 render conn app env prefix ws key url (setup setup' : string → Py MigrationDb unit)
    (body : string → Py MigrationDb B) d :
  let m := managed_langgraph_persistence sha256 render true conn app env prefix ws key url setup setup' body in
  match framework_state prefix ws key env with
  | Raise e => m d = (Raise e, d)
  | Ok schema =>
      match database_url_for_search_path render url schema with
      | Raise e => m d = (Raise e, d)
      | Ok state_url =>
          (∃ e, (m d).1 = Raise e) ∨
          ∃ d', m d = body state_url d' ∧ md_locks d' !! migration_lock_key sha256 app env "framework-state" ≠ Some conn
      end
  end.
Proof.
  intros m. destruct (framework_state prefix ws key env) as [schema|e] eqn:Hf.
  2: { unfold m, managed_langgraph_persistence, bind, of_result. cbn [negb]. by rewrite Hf. }
  destruct (database_url_for_search_path render url schema) as [state_url|e] eqn:Hu.
  2: { unfold m, managed_langgraph_persistence, bind, of_result. cbn [negb]. by rewrite Hf, Hu. }
  set (d1 := mk_migration_db (md_locks d) (md_executed d ++ [(conn, create_schema schema)])).
  set (locked := advisory_migration_session_lock sha256 conn app env "framework-state" (setup state_url;;; setup' state_url)).
  assert (m d = (locked;;; body state_url) d1) as ->.
  { unfold m, managed_langgraph_persistence. cbn [negb]. unfold bind at 1, of_result at 1. rewrite Hf.
    unfold bind at 1, of_result at 1. by rewrite Hu. }
  pose proof (session_lock_released sha256 conn app env "framework-state" (setup state_url;;; setup' state_url) d1) as Hl.
  fold locked in Hl. unfold bind. destruct (locked d1) as [[u|e] d2]; [right|left; by exists e].
  exists d2. split; [done|exact Hl].
Qed.
Lemma hyphen_refused : framework_state "rt" "default" "my-agent" "local" =
  Raise (ValueError "schema keys must be lowercase SQL identifiers").
Proof. reflexivity. Qed.
