(* ===== verification/ManagedAdapter.v ===== *)
(** * The managed Postgres adapter of a graph

    [adapters/langgraph/postgres_composition.py]: a block in which a graph runs with the
    platform's saver and store, composed of [PostgresSchema]'s persistence and
    [LangGraphLoad]'s adapter. *)

From S2P Require Import Prelude PyDict PyStr Errors LangGraphLoad PostgresSchema.

Section Managed.
Context (sha256 : string → list Z) (render : string → string → string) {B : Type}.

(** The body gets the adapter; [saver] is the module of the saver that is set up. *)
Definition detect_and_create_postgres_adapter (saver : string) (installed : bool) (target : Target) (conn : nat)
    (database_url application_id workspace_key environment application_key prefix : string)
    (setup_checkpointer setup_store : string → Py MigrationDb unit)
    (body : LangGraphAdapter → Py MigrationDb B) : Py MigrationDb B :=
  managed_langgraph_persistence sha256 render installed conn application_id environment prefix workspace_key
    application_key database_url setup_checkpointer setup_store
    (λ _, adapter <- of_result (new_adapter target "platform-managed" (Some (postgres_persistence saver true)));;
          body adapter).

(** A graph that has been compiled is refused, with or without a saver of its own. *)
Lemma managed_compiled_refused saver target :
  is_compiled_graph target = true →
  ∃ m, new_adapter target "platform-managed" (Some (postgres_persistence saver true))
       = Raise (LangGraphAdapterError LG_INVALID_PERSISTENCE m).
Proof.
  intros Hc. unfold new_adapter, validate_persistence.
  destruct (has_checkpointer (detect_graph target "<object>" None)); [by eexists|].
  cbn -[load_graph]. unfold load_graph. rewrite Hc. by eexists.
Qed.

(** The block is entered only with an adapter for the target, when the lock for the setup
    has been given back, and with nothing else done after the setup; a compiled graph never
    enters it. *)
Lemma managed_adapter_outcome saver target conn url app ws env key prefix setup setup' (body : LangGraphAdapter → Py MigrationDb B) d :
  let m := detect_and_create_postgres_adapter saver true target conn url app ws env key prefix setup setup' body in
  (∃ e, (m d).1 = Raise e) ∨
  ∃ adapter d', m d = body adapter d' ∧ is_compiled_graph target = false ∧
    new_adapter target "platform-managed" (Some (postgres_persistence saver true)) = Ok adapter ∧
    md_locks d' !! migration_lock_key sha256 app env "framework-state" ≠ Some conn.
Proof.
  intros m. unfold m, detect_and_create_postgres_adapter.
  match goal with |- context [managed_langgraph_persistence _ _ _ _ _ _ _ _ _ _ _ _ ?b] => set (k := b) end.
  pose proof (persistence_outcome sha256 render conn app env prefix ws key url setup setup' k d) as Hp. cbv zeta in Hp.
  destruct (framework_state prefix ws key env) as [schema|e]; [|left; exists e; by rewrite Hp].
  destruct (database_url_for_search_path render url schema) as [state_url|e]; [|left; exists e; by rewrite Hp].
  destruct Hp as [?|(d' & Hm & Hl)]; [by left|]. rewrite Hm. unfold k, bind, of_result.
  destruct (new_adapter _ _ _) as [adapter|e] eqn:Ha; [|left; by exists e]. right. exists adapter, d'. split_and!; try done.
  apply not_true_iff_false. intros Hc. destruct (managed_compiled_refused saver target Hc) as [msg Hr]. congruence.
Qed.
End Managed.
