(* ===== verification/Postgres.v ===== *)
(** * The Postgres repositories of threads and runs

    [adapters/postgres/repositories.py] over the tables of [models.py], each
    method one transaction.  The database sets the timestamps of a row: [now] is
    the time of the transaction.  The rows' audit columns that no code reads are
    left out. *)

From S2P Require Import Prelude PyDict PyStr Json JsonAccess Errors Identity Execution Ports Database.

(** ** [ThreadRow] and [RunRow] *)

Record ThreadRow : Type := mk_thread_row {
  tr_id : string;
  tr_status : string;
  tr_metadata : json_object;
  tr_created_at : datetime;
  tr_updated_at : datetime;
}.
#[export] Instance thread_schema : Schema ThreadRow := {
  row_key := tr_id;
  row_conflict := λ _ _, false;
}.
Definition thread_row_fits (r : ThreadRow) : bool :=
  column_string 255 (tr_id r) && column_string 32 (tr_status r) && column_json (JObj (tr_metadata r)).

Record RunRow : Type := mk_run_row {
  rr_id : string;
  rr_workspace_id : string;
  rr_project_id : string;
  rr_application_id : string;
  rr_revision_id : string;
  rr_deployment_id : string;
  rr_assistant_id : string;
  rr_thread_id : option string;
  rr_attempt_id : string;
  rr_status : string;
  rr_metadata : json_object;
  rr_result : json;
  rr_error : json;
  rr_created_at : datetime;
  rr_updated_at : datetime;
}.

(** The index [uq_rt_exec_active_run_thread]. *)
Definition row_active (r : RunRow) : bool :=
  bool_decide (rr_status r ∈ ["pending"; "running"; "interrupted"]).
Definition same_thread (r r' : RunRow) : bool :=
  match rr_thread_id r, rr_thread_id r' with Some t, Some t' => bool_decide (t = t') | _, _ => false end.
#[export] Instance run_schema : Schema RunRow := {
  row_key := rr_id;
  row_conflict := λ r r', same_thread r r' && row_active r && row_active r';
}.
Definition run_row_fits (r : RunRow) : bool :=
  forallb (column_string 255)
    [rr_id r; rr_workspace_id r; rr_project_id r; rr_application_id r; rr_revision_id r; rr_deployment_id r;
     rr_assistant_id r; default "" (rr_thread_id r); rr_attempt_id r] &&
  column_string 32 (rr_status r) && column_json (JObj (rr_metadata r)) && column_json (rr_result r) &&
  column_json (rr_error r).

Definition assign_object (old new : json_object) : json_object :=
  if py_eq (JObj old) (JObj new) then old else new.

(** [LIMIT] and [OFFSET] *)
Definition limit_offset {B} (limit offset : Z) (l : list B) : res (list B) :=
  if (limit <? 0) || (offset <? 0) then Raise DataError
  else Ok (page (Z.to_nat offset) (Z.to_nat limit) l).

(** The insertion of a row, and a change of one, at the end of the transaction. *)
Section Transactions.
Context {Row D : Type} `{Schema Row, Table Row D} (row_fits : Row → bool).

Definition insert_row (r : Row) : Py D unit := λ d,
  if negb (row_fits r) then (Raise DataError, d)
  else match tb_insert r d with Some d' => (Ok tt, d') | None => (Raise IntegrityError, d) end.
Definition change_row (r : Row) : Py D unit := λ d,
  if negb (row_fits r) then (Raise DataError, d)
  else match tb_set r d with Some d' => (Ok tt, d') | None => (Raise IntegrityError, d) end.
(** [session.get], where a missing row raises [missing]. *)
Definition get_row (k : string) (missing : exn) : Py D Row := λ d,
  match tb_get k d with Some r => (Ok r, d) | None => (Raise missing, d) end.
Definition delete_row (k : string) : Py D unit := λ d,
  (Ok tt, tb_delete (λ r, bool_decide (row_key r = k)) d).
End Transactions.

(** ** [PostgresThreadRepository] *)
Module Threads.
Definition not_found (id : string) : exn := failure RESOURCE_NOT_FOUND ("thread not found: " +:+ id).

Definition thread_row (t : Thread) (now : datetime) : ThreadRow :=
  mk_thread_row (id_value (thr_id t)) (thread_status_value (thr_status t)) (thr_metadata t) now now.
(** [Thread(ThreadId.parse(row.id), ThreadStatus(row.status), ...)] *)
Definition row_thread (r : ThreadRow) : res Thread :=
  result_bind (parse_id (tr_id r)) (λ i,
  result_bind (thread_status_of (tr_status r)) (λ s,
    Ok (mk_thread i s (tr_metadata r) (Some (tr_created_at r)) (Some (tr_updated_at r))))).

Section Threads.
Context {D : Type} `{Table ThreadRow D}.

Definition create (t : Thread) (now : datetime) : Py D Thread :=
  insert_row thread_row_fits (thread_row t now);;; ret t.

Definition get (id : string) : Py D Thread :=
  r <- get_row id (not_found id);; of_result (row_thread r).

(** [updated_at] is set when a column changes. *)
Definition updated_row (r : ThreadRow) (t : Thread) (now : datetime) : ThreadRow :=
  let status := thread_status_value (thr_status t) in
  let changed := negb (bool_decide (tr_status r = status)) ||
                 negb (py_eq (JObj (tr_metadata r)) (JObj (thr_metadata t))) in
  mk_thread_row (tr_id r) status (assign_object (tr_metadata r) (thr_metadata t)) (tr_created_at r)
    (if changed then now else tr_updated_at r).
Definition update (t : Thread) (now : datetime) : Py D Thread :=
  r <- get_row (thread_key t) (not_found (thread_key t));;
  change_row thread_row_fits (updated_row r t now);;; ret t.

Definition delete (id : string) : Py D unit :=
  get_row id (not_found id);;; delete_row id.

Definition matches (metadata : option json_object) (r : ThreadRow) : bool :=
  metadata_matches (default [] metadata) (tr_metadata r).
Definition search (metadata : option json_object) (status : option string) (limit offset : Z)
  : Py D (list Thread) := λ d,
  let rows := tb_select_desc tr_created_at
    (λ r, match status with Some s => bool_decide (tr_status r = s) | None => true end) d in
  (result_bind (limit_offset limit offset rows) (λ rows, result_mapM row_thread (List.filter (matches metadata) rows)),
   d).

Definition count (metadata : option json_object) (status : option string) : Py D Z :=
  found <- search metadata status 100000 0;; ret (Z.of_nat (length found)).
End Threads.
End Threads.

(** ** [PostgresRunRepository] *)
Module Runs.
Definition not_found (id : string) : exn := failure RUN_NOT_FOUND ("run not found: " +:+ id).

Definition error_json (e : option RunError) : json :=
  match e with
  | Some e => JObj [("code", JStr (err_code e)); ("message", JStr (err_message e));
                    ("retryable", JBool (err_retryable e)); ("details", JObj (err_details e))]
  | None => JNull
  end.

Definition run_row (r : Run) (now : datetime) : RunRow :=
  let i := run_identity r in
  mk_run_row (id_value (run_id i)) (id_value (workspace_id (scope i))) (id_value (project_id (scope i)))
    (id_value (application_id (scope i))) (id_value (revision_id (scope i))) (id_value (deployment_id (scope i)))
    (id_value (assistant_id i)) (id_value <$> thread_id i) (id_value (attempt_id i))
    (run_status_value (run_status r)) (run_metadata r) (run_result r) (error_json (run_error r)) now now.

(** [RunError(row.error.get("code", "EXECUTION_FAILED"), ...) if row.error else None] *)
Definition row_error (v : json) : res (option RunError) :=
  if negb (truthy v) then Ok None
  else
    result_bind (jobject v) (λ o,
    result_bind (jstr (default (JStr "EXECUTION_FAILED") (dget o "code"))) (λ code,
    result_bind (jstr (default (JStr "") (dget o "message"))) (λ message,
    result_bind (jobject (default (JObj []) (dget o "details"))) (λ details,
      Ok (Some (new_run_error code message (truthy (default (JBool false) (dget o "retryable"))) (Some details))))))).

(** [_run] *)
Definition row_run (r : RunRow) : res Run :=
  result_bind (parse_id (rr_workspace_id r)) (λ w,
  result_bind (parse_id (rr_project_id r)) (λ p,
  result_bind (parse_id (rr_application_id r)) (λ a,
  result_bind (parse_id (rr_revision_id r)) (λ v,
  result_bind (parse_id (rr_deployment_id r)) (λ d,
  result_bind (row_error (rr_error r)) (λ e,
  result_bind (parse_id (rr_assistant_id r)) (λ asst,
  result_bind (parse_id (rr_id r)) (λ run,
  result_bind (parse_id (rr_attempt_id r)) (λ att,
  result_bind (match rr_thread_id r with
               | Some t => if str_truthy t then result_map Some (parse_id t) else Ok None
               | None => Ok None
               end) (λ th,
  result_bind (run_status_of (rr_status r)) (λ s,
    Ok (mk_run (mk_identity (mk_scope w p a v d) asst run att th) s (rr_metadata r)
          (Some (rr_created_at r)) (Some (rr_updated_at r)) (rr_result r) e)))))))))))).

Section Runs.
Context {D : Type} `{Table RunRow D}.

Definition create (r : Run) (now : datetime) : Py D Run :=
  try_except (insert_row run_row_fits (run_row r now)) (λ e,
    if is_integrity_error e then raise (failure THREAD_BUSY "thread already has an active run")
    else raise e);;;
  ret r.

Definition get (id : string) : Py D Run :=
  r <- get_row id (not_found id);; of_result (row_run r).

Definition updated_row (row : RunRow) (r : Run) (now : datetime) : RunRow :=
  let status := run_status_value (run_status r) in
  let error := error_json (run_error r) in
  let changed := negb (bool_decide (rr_status row = status)) || negb (py_eq (rr_result row) (run_result r)) ||
                 negb (py_eq (rr_error row) error) in
  mk_run_row (rr_id row) (rr_workspace_id row) (rr_project_id row) (rr_application_id row) (rr_revision_id row)
    (rr_deployment_id row) (rr_assistant_id row) (rr_thread_id row) (rr_attempt_id row) status
    (rr_metadata row) (assign_json (rr_result row) (run_result r)) (assign_json (rr_error row) error)
    (rr_created_at row) (if changed then now else rr_updated_at row).
Definition update (r : Run) (now : datetime) : Py D Run :=
  row <- get_row (run_key r) (not_found (run_key r));;
  change_row run_row_fits (updated_row row r now);;; ret r.

Definition delete (id : string) : Py D unit :=
  get_row id (not_found id);;; delete_row id.

Definition on_thread (thread_id : string) (r : RunRow) : bool := bool_decide (rr_thread_id r = Some thread_id).

(** [_run(row) if row else None] *)
Definition optional_run (o : option RunRow) : res (option Run) :=
  match o with Some r => result_map Some (row_run r) | None => Ok None end.

(** [scalar_one_or_none] *)
Definition active_for_thread (thread_id : string) : Py D (option Run) := λ d,
  (match tb_select (λ r, on_thread thread_id r && row_active r) d with
   | [] => Ok None
   | [r] => optional_run (Some r)
   | _ => Raise MultipleResultsFound
   end, d).

Definition latest_for_thread (thread_id : string) : Py D (option Run) := λ d,
  (optional_run (head (tb_select_desc rr_created_at (on_thread thread_id) d)), d).

Definition list_for_thread (thread_id : string) (limit offset : Z) (status : option string) : Py D (list Run) := λ d,
  let rows := tb_select_desc rr_created_at
    (λ r, on_thread thread_id r && match status with Some s => bool_decide (rr_status r = s) | None => true end) d in
  (result_bind (limit_offset limit offset rows) (result_mapM row_run), d).
End Runs.
End Runs.
