(* ===== verification/PostgresSpec.v ===== *)
(** * What the Postgres repositories of threads and runs do

    The runs that a table stores are a finite map in which a thread has at most
    one active run; the repository's methods are operations on that map.  Thread
    search is compared with the in-memory repository's. *)

From S2P Require Import Prelude PyDict PyStr Json JsonAccess Errors Identity Execution Ports Database Postgres.


(** ** Rows and runs *)

(** The identifiers that [parse] accepts. *)
Definition identity_ok (i : ExecutionIdentity) : Prop :=
  Forall (λ s, s ≠ "")
    [id_value (workspace_id (scope i)); id_value (project_id (scope i)); id_value (application_id (scope i));
     id_value (revision_id (scope i)); id_value (deployment_id (scope i)); id_value (assistant_id i);
     id_value (run_id i); id_value (attempt_id i)] ∧
  match thread_id i with Some t => id_value t ≠ "" | None => True end.

(** The run with the timestamps of the database. *)
Definition stamped (r : Run) (created updated : datetime) : Run :=
  mk_run (run_identity r) (run_status r) (run_metadata r) (Some created) (Some updated) (run_result r) (run_error r).

(** The row of a run that has been read. *)
Definition row_of (r : Run) : RunRow :=
  let row := Runs.run_row r (default 0 (run_created_at r)) in
  mk_run_row (rr_id row) (rr_workspace_id row) (rr_project_id row) (rr_application_id row) (rr_revision_id row)
    (rr_deployment_id row) (rr_assistant_id row) (rr_thread_id row) (rr_attempt_id row) (rr_status row)
    (rr_metadata row) (rr_result row) (rr_error row) (rr_created_at row) (default 0 (run_updated_at r)).

Lemma error_roundtrip e : Runs.row_error (Runs.error_json e) = Ok e.
Proof.
  destruct e as [[c m r d]|]; [|done]. unfold Runs.row_error.
  cbn [Runs.error_json truthy negb bool_decide jobject result_bind dget fmap list_fmap]. literal_keys. simpl.
  literal_keys. simpl.
  do 2 f_equal. unfold new_run_error. f_equal. exact (new_run_error_details c m r d).
Qed.

(** A run that is stored is read back, with the database's timestamps. *)
Lemma row_roundtrip r created updated :
  identity_ok (run_identity r) → Runs.row_run (row_of (stamped r created updated)) = Ok (stamped r created updated).
Proof.
  intros [Hids Hth]. repeat (apply Forall_cons in Hids as [? Hids]).
  unfold Runs.row_run, row_of, stamped. simpl. rewrite !parse_id_value by done. simpl.
  rewrite error_roundtrip, run_status_of_value. simpl. destruct (run_identity r) as [[] a i att th]. simpl in *.
  destruct th as [t|]; simpl; [|done].
  rewrite (proj2 (str_truthy_true _)), parse_id_value by done. done.
Qed.

Lemma active_value s :
  bool_decide (run_status_value s ∈ ["pending"; "running"; "interrupted"]) = active_status s.
Proof. by destruct s. Qed.

(** What [update] makes of the stored run: the status, the result and the error of
    the given one; values that are equal in Python's sense are left alone. *)
Definition assign_error (old new : option RunError) : option RunError :=
  if py_eq (Runs.error_json old) (Runs.error_json new) then old else new.
Definition updated_run (r0 r : Run) (now : datetime) : Run :=
  let changed := negb (bool_decide (run_status_value (run_status r0) = run_status_value (run_status r))) ||
                 negb (py_eq (run_result r0) (run_result r)) ||
                 negb (py_eq (Runs.error_json (run_error r0)) (Runs.error_json (run_error r))) in
  stamped (mk_run (run_identity r0) (run_status r) (run_metadata r0) None None
             (assign_json (run_result r0) (run_result r)) (assign_error (run_error r0) (run_error r)))
    (default 0 (run_created_at r0)) (if changed then now else default 0 (run_updated_at r0)).

Lemma updated_row_of r0 r now : Runs.updated_row (row_of r0) r now = row_of (updated_run r0 r now).
Proof.
  unfold Runs.updated_row, row_of, updated_run, assign_error, assign_json. simpl. f_equal. by case_match.
Qed.

Lemma row_conflict_comm (r r' : RunRow) : row_conflict r r' = row_conflict r' r.
Proof.
  simpl. unfold same_thread. destruct (rr_thread_id r) as [t|], (rr_thread_id r') as [t'|]; try done.
  rewrite (bool_decide_ext _ (t' = t)) by done. by destruct (bool_decide _), (row_active r), (row_active r').
Qed.

(** No other active run is on the run's thread. *)
Definition thread_free (m : gmap string Run) (r : Run) : Prop :=
  ∀ k r' t, m !! k = Some r' → k ≠ run_key r → run_thread_id r = Some t → active_status (run_status r) = true →
    occupies (id_value t) r' = false.

(** ** The runs of a table *)

Definition run_stored (r : Run) : Prop := identity_ok (run_identity r) ∧ ∃ c u, r = stamped r c u.

#[export] Program Instance run_entity : Entity Run RunRow := {
  enc := row_of;
  dec := Runs.row_run;
  stored := run_stored;
  ent_key := run_key;
}.
Next Obligation. intros r [Hi (c & u & ->)]. by apply row_roundtrip. Qed.
Next Obligation. done. Qed.

Abbreviation runs_ok := (rows_ok (A:=Run)).
Abbreviation runs_of := (entities (A:=Run)).
Abbreviation run_listing := (listing (A:=Run) (λ r, default 0 (run_created_at r))).

Lemma stamped_stored r c u : identity_ok (run_identity r) → stored (stamped r c u).
Proof. intros Hi. split; [done|by exists c, u]. Qed.
Lemma stored_stamped r : stored r → identity_ok (run_identity r) ∧ ∃ c u, r = stamped r c u.
Proof. done. Qed.

Lemma run_dec (r : Run) : stored r → Runs.row_run (row_of r) = Ok r.
Proof. exact (dec_enc r). Qed.
Lemma runs_dec (l : list Run) : Forall stored l → result_mapM Runs.row_run (row_of <$> l) = Ok l.
Proof. exact (mapM_stored l). Qed.

Section RunTable.
Context {D : Type} `{Table RunRow D, TL : !TableLaws RunRow D}.
Implicit Types (d : D) (r : Run).

(** Two runs that the index excludes. *)
Lemma conflict_occupies r r' :
  row_conflict (row_of r) (row_of r') = true ↔
  ∃ t, run_thread_id r = Some t ∧ active_status (run_status r) = true ∧ occupies (id_value t) r' = true.
Proof.
  simpl. unfold same_thread, row_active, occupies, run_thread_id. simpl. rewrite !active_value.
  destruct (thread_id (run_identity r)) as [t|]; simpl; [|by split; [|intros (? & ? & _)]].
  destruct (thread_id (run_identity r')) as [t'|]; simpl; [|by split; [|intros (? & [= <-] & _ & ?)]].
  split.
  - intros Hc. to_prop. exists t. rewrite bool_decide_true by done. done.
  - intros (? & [= <-] & Ha & Ho). to_prop. rewrite Ha, bool_decide_true by done. done.
Qed.

(** Rows of different runs on a table do not exclude each other. *)
Lemma rows_compatible d k k' r r' t : tb_view d !! k = Some (row_of r) → tb_view d !! k' = Some (row_of r') →
  k ≠ k' → run_thread_id r = Some t → active_status (run_status r) = true → occupies (id_value t) r' = false.
Proof using TL.
  intros Hr Hr' Hne Ht Ha. apply not_true_is_false. intros Ho.
  pose proof (proj2 (tb_consistent d) _ _ _ _ Hr Hr' Hne) as Hc.
  assert (row_conflict (row_of r) (row_of r') = true); [|congruence]. apply conflict_occupies. by exists t.
Qed.

(** At most one active run per thread. *)
Lemma runs_of_exclusive d t k k' r r' : runs_ok d →
  runs_of d !! k = Some r → runs_of d !! k' = Some r' → occupies t r = true → occupies t r' = true → k = k'.
Proof using TL.
  intros Hd [_ Hr]%entities_Some [_ Hr']%entities_Some Ho Ho'; try done.
  destruct (decide (k = k')) as [|Hne]; [done|exfalso]. unfold occupies in Ho.
  destruct (run_thread_id r) as [t'|] eqn:Ht; [|done]. to_prop.
  pose proof (rows_compatible d k k' r r' t' Hr Hr' Hne Ht) as Hf. subst. by rewrite Hf in Ho' by done.
Qed.

Lemma run_row_of r now : Runs.run_row r now = row_of (stamped r now now).
Proof. done. Qed.

(** What the unique index admits and refuses. *)
Lemma admitted_free d d' r : runs_ok d → tb_view d' = <[run_key r := row_of r]> (tb_view d) →
  thread_free (runs_of d) r.
Proof using TL.
  intros Hd Hv k r' t [_ Hr']%entities_Some Hne Ht Ha; [|done].
  apply (rows_compatible d' (run_key r) k r r' t); rewrite ?Hv; try done; [by apply lookup_insert_eq|].
  by rewrite lookup_insert_ne.
Qed.

Lemma refused_not_free d r k row : runs_ok d → k ≠ run_key r → tb_view d !! k = Some row →
  row_conflict (row_of r) row = true ∨ row_conflict row (row_of r) = true → ¬ thread_free (runs_of d) r.
Proof using TL.
  intros Hd Hne Hrow Hcon Hfree. destruct (Hd _ _ Hrow) as (r' & Hs & ->).
  assert (row_conflict (row_of r) (row_of r') = true) as Hc.
  { destruct Hcon; [done|by rewrite row_conflict_comm]. }
  apply conflict_occupies in Hc as (t & Ht & Ha & Ho).
  by rewrite (Hfree k r' t) in Ho by (done || by apply entities_Some).
Qed.

Lemma create_outcome d r now : runs_ok d → identity_ok (run_identity r) →
  run_row_fits (Runs.run_row r now) = true →
  (runs_of d !! run_key r = None ∧ thread_free (runs_of d) r ∧ ∃ d', Runs.create r now d = (Ok r, d') ∧ runs_ok d' ∧
     runs_of d' = <[run_key r := stamped r now now]> (runs_of d)) ∨
  (¬ (runs_of d !! run_key r = None ∧ thread_free (runs_of d) r) ∧
   Runs.create r now d = (Raise (failure THREAD_BUSY "thread already has an active run"), d)).
Proof using TL.
  intros Hd Hi Hfit. unfold Runs.create, insert_row, bind, try_except, raise, ret. rewrite Hfit. simpl negb.
  rewrite run_row_of. pose proof (stamped_stored r now now Hi) as Hs.
  destruct (tb_insert (row_of (stamped r now now)) d) as [d'|] eqn:Hins; [left|right].
  - apply tb_insert_ok in Hins as [Hnew Hv]. split; [by apply entities_None|].
    split; [exact (admitted_free d d' (stamped r now now) Hd Hv)|].
    exists d'. split; [done|]. split; [by eapply rows_ok_insert|by apply entities_insert].
  - split; [|done]. intros [Hnew%entities_None Hfree]; [|done].
    apply tb_insert_fails in Hins as [[row Hrow]|(k & row & Hrow & Hcon)].
    + change (tb_view d !! run_key r = Some row) in Hrow. congruence.
    + apply (refused_not_free d (stamped r now now) k row); try done; [|tauto].
      change (k ≠ run_key r). congruence.
Qed.

Lemma update_outcome d r r0 now : runs_ok d → runs_of d !! run_key r = Some r0 →
  run_row_fits (row_of (updated_run r0 r now)) = true →
  (thread_free (runs_of d) (updated_run r0 r now) ∧ ∃ d', Runs.update r now d = (Ok r, d') ∧ runs_ok d' ∧
     runs_of d' = <[run_key r := updated_run r0 r now]> (runs_of d)) ∨
  (¬ thread_free (runs_of d) (updated_run r0 r now) ∧ Runs.update r now d = (Raise IntegrityError, d)).
Proof using TL.
  intros Hd Hr0 Hfit. pose proof (entities_key d _ _ Hd Hr0) as Hk. apply entities_Some in Hr0 as [[Hi _] Hrow]; [|done].
  unfold Runs.update, get_row, change_row, bind, ret. rewrite tb_get_view, Hrow. cbn [enc run_entity].
  rewrite updated_row_of, Hfit. simpl negb. cbv iota.
  assert (run_key (updated_run r0 r now) = run_key r) as Hk1 by exact Hk.
  assert (stored (updated_run r0 r now)) as Hs1 by (split; [done|]; unfold updated_run; simpl; eauto).
  destruct (tb_set (row_of (updated_run r0 r now)) d) as [d'|] eqn:Hs; [left|right].
  - apply tb_set_ok in Hs; [|change (row_key _) with (run_key (updated_run r0 r now)); rewrite Hk1; by eexists].
    change (row_key _) with (run_key (updated_run r0 r now)) in Hs.
    split; [by eapply admitted_free|]. exists d'. split; [done|]. rewrite Hk1 in Hs.
    split; [by eapply rows_ok_insert|by apply entities_insert].
  - split; [|done]. apply tb_set_fails in Hs as (k & row & Hne & Hrow' & Hcon). by eapply refused_not_free.
Qed.

Lemma delete_outcome d id : runs_ok d → is_Some (runs_of d !! id) →
  ∃ d', Runs.delete id d = (Ok tt, d') ∧ runs_ok d' ∧ runs_of d' = delete id (runs_of d).
Proof using TL.
  intros Hd [r [_ Hrow]%entities_Some]; [|done].
  unfold Runs.delete, get_row, delete_row, bind. rewrite tb_get_view, Hrow.
  eexists. split; [done|]. split; [by apply rows_ok_delete|apply entities_delete].
Qed.
End RunTable.

(** ** The abstract repository *)

(** A call of the repository; its answer is the list of the runs it returns. *)
Inductive run_call : Type :=
  | CallCreate (r : Run)
  | CallGet (id : string)
  | CallUpdate (r : Run)
  | CallDelete (id : string)
  | CallActive (thread_id : string)
  | CallLatest (thread_id : string)
  | CallList (thread_id : string) (limit offset : Z) (status : option string).

Definition listed_on (t : string) (status : option string) (r : Run) : bool :=
  bool_decide (id_value <$> run_thread_id r = Some t) &&
  match status with Some s => bool_decide (run_status_value (run_status r) = s) | None => true end.

(** What a call answers at the time [now], and the runs after it. *)
Inductive run_spec (now : datetime) (m : gmap string Run) : run_call → res (list Run) → gmap string Run → Prop :=
  | spec_create r :
      m !! run_key r = None → thread_free m r →
      run_spec now m (CallCreate r) (Ok [r]) (<[run_key r := stamped r now now]> m)
  | spec_create_busy r :
      ¬ (m !! run_key r = None ∧ thread_free m r) →
      run_spec now m (CallCreate r) (Raise (failure THREAD_BUSY "thread already has an active run")) m
  | spec_get id r : m !! id = Some r → run_spec now m (CallGet id) (Ok [r]) m
  | spec_get_missing id : m !! id = None → run_spec now m (CallGet id) (Raise (Runs.not_found id)) m
  | spec_update r r0 :
      m !! run_key r = Some r0 → thread_free m (updated_run r0 r now) →
      run_spec now m (CallUpdate r) (Ok [r]) (<[run_key r := updated_run r0 r now]> m)
  | spec_update_refused r r0 :
      m !! run_key r = Some r0 → ¬ thread_free m (updated_run r0 r now) →
      run_spec now m (CallUpdate r) (Raise IntegrityError) m
  | spec_update_missing r :
      m !! run_key r = None → run_spec now m (CallUpdate r) (Raise (Runs.not_found (run_key r))) m
  | spec_delete id : is_Some (m !! id) → run_spec now m (CallDelete id) (Ok []) (delete id m)
  | spec_delete_missing id : m !! id = None → run_spec now m (CallDelete id) (Raise (Runs.not_found id)) m
  | spec_active t l :
      run_listing m (occupies t) l → (length l ≤ 1)%nat → run_spec now m (CallActive t) (Ok l) m
  | spec_latest t l :
      run_listing m (listed_on t None) l → run_spec now m (CallLatest t) (Ok (take 1 l)) m
  | spec_list t limit offset status l :
      run_listing m (listed_on t status) l →
      run_spec now m (CallList t limit offset status) (Ok (page (Z.to_nat offset) (Z.to_nat limit) l)) m.

Section Refinement.
Context {D : Type} `{Table RunRow D, TL : !TableLaws RunRow D}.
Implicit Types (d : D) (r : Run).

Definition one (o : Py D Run) : Py D (list Run) := r <- o;; ret [r].
Definition run_repository (now : datetime) (c : run_call) : Py D (list Run) :=
  match c with
  | CallCreate r => one (Postgres.Runs.create r now)
  | CallGet id => one (Postgres.Runs.get id)
  | CallUpdate r => one (Postgres.Runs.update r now)
  | CallDelete id => Postgres.Runs.delete id;;; ret []
  | CallActive t => o <- Postgres.Runs.active_for_thread t;; ret (option_list o)
  | CallLatest t => o <- Postgres.Runs.latest_for_thread t;; ret (option_list o)
  | CallList t limit offset status => Postgres.Runs.list_for_thread t limit offset status
  end.

(** The values of the call fit their columns. *)
Definition call_fits (now : datetime) (c : run_call) d : Prop :=
  match c with
  | CallCreate r => identity_ok (run_identity r) ∧ run_row_fits (Postgres.Runs.run_row r now) = true
  | CallUpdate r => ∀ r0, runs_of d !! run_key r = Some r0 →
      run_row_fits (row_of (updated_run r0 r now)) = true
  | CallList _ limit offset _ => 0 ≤ limit ∧ 0 ≤ offset
  | _ => True
  end.

Lemma listing_exclusive d t l : runs_ok d → run_listing (runs_of d) (occupies t) l → (length l ≤ 1)%nat.
Proof using TL.
  intros Hd (Hnd & _ & Hin). destruct l as [|r [|r' l]]; simpl; [lia|lia|]. exfalso.
  destruct (proj1 (Hin r) (list_elem_of_here _ _)) as [Hr Ho].
  destruct (proj1 (Hin r') (list_elem_of_further _ _ _ (list_elem_of_here _ _))) as [Hr' Ho'].
  pose proof (runs_of_exclusive d t _ _ _ _ Hd Hr Hr' Ho Ho') as Hk.
  apply NoDup_cons in Hnd as [Hnd _]. apply Hnd. rewrite Hk. by left.
Qed.

Lemma on_thread_row t r : Postgres.Runs.on_thread t (row_of r) = bool_decide (id_value <$> run_thread_id r = Some t).
Proof. done. Qed.

Lemma active_outcome d t : runs_ok d →
  ∃ l, run_listing (runs_of d) (occupies t) l ∧ (length l ≤ 1)%nat ∧
    Postgres.Runs.active_for_thread t d = (Ok (head l), d).
Proof using TL.
  intros Hd.
  destruct (select_entities d rr_created_at (λ r, default 0 (run_created_at r))
    (λ r : RunRow, Postgres.Runs.on_thread t r && row_active r) (occupies t) Hd) as (l & Hsel & Hst & Hl); [done| |].
  { intros r. cbn [enc run_entity]. rewrite on_thread_row. unfold row_active, occupies. simpl. rewrite active_value.
    destruct (run_thread_id r) as [t'|]; simpl; [|done]. f_equal. apply bool_decide_ext. naive_solver. }
  exists l. split; [done|]. pose proof (listing_exclusive d t l Hd Hl) as Hlen. split; [done|].
  pose proof (tb_select_desc_view rr_created_at (λ r : RunRow, Postgres.Runs.on_thread t r && row_active r) d) as Hp.
  rewrite Hsel in Hp. unfold Postgres.Runs.active_for_thread.
  destruct l as [|r [|r' l]]; simpl in Hlen; [| |lia].
  - apply Permutation_nil in Hp. by rewrite Hp.
  - apply Permutation_length_1_inv in Hp. rewrite Hp. simpl. apply Forall_cons in Hst as [Hst _].
    by rewrite (run_dec _ Hst).
Qed.

Lemma head_map (l : list Run) : Forall stored l →
  Postgres.Runs.optional_run (head (row_of <$> l)) = Ok (head l).
Proof. intros Hl. destruct Hl as [|r l Hr _]; [done|]. simpl. by rewrite (run_dec _ Hr). Qed.

Lemma page_map {A B} (f : A → B) o n (l : list A) : page o n (f <$> l) = f <$> page o n l.
Proof. unfold page. by rewrite <- fmap_drop, <- fmap_take. Qed.

Lemma Forall_page {A} (P : A → Prop) o n (l : list A) : Forall P l → Forall P (page o n l).
Proof. intros Hl. unfold page. by apply Forall_take, Forall_drop. Qed.

(** C21: the Postgres run repository implements the map of runs in which a thread
    has at most one active run.  Every call, on a table whose rows were written for
    runs with complete identities and with values that fit the columns, gives the
    answer and the new runs of [run_spec], and leaves such a table: [create] is
    refused with [THREAD_BUSY] exactly when the run exists or another active run is
    on its thread, [update] writes the status, the result and the error only, and
    fails on a run that becomes active beside another one, [active_for_thread]
    never finds two runs, and lists are newest first. *)
Theorem postgres_runs_refine now c d :
  runs_ok d → call_fits now c d →
  ∃ o d', run_repository now c d = (o, d') ∧ runs_ok d' ∧ run_spec now (runs_of d) c o (runs_of d').
Proof using TL.
  intros Hd Hc. destruct c as [r|id|r|id|t|t|t limit offset status]; simpl in Hc |- *.
  - destruct Hc as [Hi Hfit]. unfold one, bind.
    destruct (create_outcome d r now Hd Hi Hfit) as [(Hn & Hf & d' & -> & Hd' & Hv)|[Hno ->]];
      eexists _, _; (split; [done|]); (split; [done|]); [rewrite Hv|]; by constructor.
  - unfold one, Postgres.Runs.get, get_row, bind. rewrite tb_get_view.
    destruct (tb_view d !! id) as [row|] eqn:Hk.
    + destruct (Hd _ _ Hk) as (r & Hs & ->). unfold of_result. change (enc r) with (row_of r). rewrite (run_dec _ Hs).
      eexists _, _. split_and!; [done|done|]. constructor. by apply entities_Some.
    + eexists _, _. split_and!; [done|done|]. constructor. by apply entities_None.
  - unfold one, bind. destruct (runs_of d !! run_key r) as [r0|] eqn:Hr0.
    + destruct (update_outcome d r r0 now Hd Hr0 (Hc _ eq_refl)) as [(Hf & d' & -> & Hd' & Hv)|[Hno ->]];
        eexists _, _; (split; [done|]); (split; [done|]);
        [rewrite Hv; by apply spec_update|by eapply spec_update_refused].
    + unfold Postgres.Runs.update, get_row, bind. rewrite tb_get_view.
      rewrite (proj1 (entities_None _ _ Hd) Hr0).
      eexists _, _. split_and!; [done|done|by constructor].
  - destruct (runs_of d !! id) as [r|] eqn:Hr.
    + destruct (delete_outcome d id Hd) as (d' & Hdel & Hd' & Hv); [by eexists|]. unfold bind. rewrite Hdel.
      eexists _, _. split_and!; [done|done|]. rewrite Hv. constructor. by eexists.
    + unfold Postgres.Runs.delete, get_row, bind. rewrite tb_get_view.
      rewrite (proj1 (entities_None _ _ Hd) Hr).
      eexists _, _. split_and!; [done|done|by constructor].
  - destruct (active_outcome d t Hd) as (l & Hl & Hlen & Ha). unfold bind, ret. rewrite Ha.
    eexists _, _. split_and!; [done|done|]. destruct l as [|r [|]]; simpl in *; [by constructor|by constructor|lia].
  - unfold Postgres.Runs.latest_for_thread, bind, ret.
    destruct (select_entities d rr_created_at (λ r, default 0 (run_created_at r))
      (Postgres.Runs.on_thread t) (listed_on t None) Hd) as (l & -> & Hst & Hl); [done| |].
    { intros r. unfold listed_on. by rewrite andb_true_r. }
    change (enc <$> l) with (row_of <$> l). rewrite (head_map _ Hst). eexists _, _. split_and!; [done|done|].
    replace (option_list (head l)) with (take 1 l) by (by destruct l). by constructor.
  - unfold Postgres.Runs.list_for_thread, limit_offset.
    rewrite (proj2 (orb_false_iff _ _)) by (destruct Hc; split; by apply Z.ltb_ge).
    destruct (select_entities d rr_created_at (λ r, default 0 (run_created_at r)) (λ r : RunRow, Postgres.Runs.on_thread t r &&
      match status with Some s => bool_decide (rr_status r = s) | None => true end) (listed_on t status) Hd)
      as (l & -> & Hst & Hl); [done|done|].
    change (enc <$> l) with (row_of <$> l). simpl. rewrite page_map, runs_dec by by apply Forall_page.
    eexists _, _. split_and!; [done|done|by constructor].
Qed.
End Refinement.

(** The map table is empty at first: a run is created in it. *)
Module LocalTable.
Definition identity : ExecutionIdentity :=
  mk_identity
    (mk_scope (mk_id "default") (mk_id "default") (mk_id "app") (mk_id "active") (mk_id "local"))
    (mk_id "agent") (mk_id "run_1") (mk_id "attempt_1") (Some (mk_id "thread_1")).
Definition run : Run := mk_run identity PENDING [("multitask_strategy", JStr "reject")] None None JNull None.
End LocalTable.

Lemma postgres_runs_refine_witness :
  ∃ o (d' : map_table (Row:=RunRow)), run_repository 5 (CallCreate LocalTable.run) empty_table = (o, d') ∧ runs_ok d' ∧
    run_spec 5 (runs_of (empty_table (Row:=RunRow))) (CallCreate LocalTable.run) o (runs_of d').
Proof.
  apply (postgres_runs_refine 5 (CallCreate LocalTable.run) (empty_table (Row:=RunRow))).
  - intros k row Hk. simpl in Hk. by rewrite lookup_empty in Hk.
  - split; [split; [|done]|by vm_compute]. by repeat constructor.
Defined.
