(* ===== verification/PostgresThreads.v ===== *)
(** * What the Postgres repository of threads does

    The threads that a table stores are a finite map, which the repository's
    methods read and change.  [search] takes a page of the threads of a status and
    only then compares metadata, where the in-memory repository compares first: the
    two are related. *)

From S2P Require Import Prelude PyDict Json JsonAccess Errors Identity Execution Ports MemoryRepositories.
From S2P Require Import Database Postgres PostgresSpec.

(** ** Rows and threads *)

Definition thread_stamped (t : Thread) (created updated : datetime) : Thread :=
  mk_thread (thr_id t) (thr_status t) (thr_metadata t) (Some created) (Some updated).

Definition thread_row_of (t : Thread) : ThreadRow :=
  mk_thread_row (id_value (thr_id t)) (thread_status_value (thr_status t)) (thr_metadata t)
    (default 0 (thr_created_at t)) (default 0 (thr_updated_at t)).

Definition thread_stored (t : Thread) : Prop := thread_key t ≠ "" ∧ ∃ c u, t = thread_stamped t c u.

#[export] Program Instance thread_entity : Entity Thread ThreadRow := {
  enc := thread_row_of;
  dec := Postgres.Threads.row_thread;
  stored := thread_stored;
  ent_key := thread_key;
}.
Next Obligation.
  intros t [Hk (c & u & Ht)]. unfold Postgres.Threads.row_thread. simpl. rewrite parse_id_value by done. simpl.
  rewrite thread_status_of_value. simpl. rewrite Ht. done.
Qed.
Next Obligation. done. Qed.

Abbreviation threads_ok := (rows_ok (A:=Thread)).
Abbreviation threads_of := (entities (A:=Thread)).
Abbreviation thread_listing := (listing (A:=Thread) (λ t, default 0 (thr_created_at t))).

Lemma threads_dec (l : list Thread) : Forall stored l →
  result_mapM Postgres.Threads.row_thread (thread_row_of <$> l) = Ok l.
Proof. exact (mapM_stored l). Qed.

(** What [update] makes of the stored thread. *)
Definition updated_thread (t0 t : Thread) (now : datetime) : Thread :=
  let changed := negb (bool_decide (thread_status_value (thr_status t0) = thread_status_value (thr_status t))) ||
                 negb (py_eq (JObj (thr_metadata t0)) (JObj (thr_metadata t))) in
  thread_stamped (mk_thread (thr_id t0) (thr_status t) (assign_object (thr_metadata t0) (thr_metadata t)) None None)
    (default 0 (thr_created_at t0)) (if changed then now else default 0 (thr_updated_at t0)).

Lemma updated_thread_row t0 t now :
  Postgres.Threads.updated_row (thread_row_of t0) t now = thread_row_of (updated_thread t0 t now).
Proof. done. Qed.

(** ** The abstract repository *)

Inductive thread_call : Type :=
  | ThreadCreate (t : Thread)
  | ThreadGet (id : string)
  | ThreadUpdate (t : Thread)
  | ThreadDelete (id : string)
  | ThreadSearch (metadata : option json_object) (status : option string) (limit offset : Z).

Definition with_status (status : option string) (t : Thread) : bool :=
  match status with Some s => bool_decide (thread_status_value (thr_status t) = s) | None => true end.
Definition with_metadata (metadata : option json_object) (t : Thread) : bool :=
  metadata_matches (default [] metadata) (thr_metadata t).

Inductive thread_spec (now : datetime) (m : gmap string Thread)
  : thread_call → res (list Thread) → gmap string Thread → Prop :=
  | thread_spec_create t :
      m !! thread_key t = None →
      thread_spec now m (ThreadCreate t) (Ok [t]) (<[thread_key t := thread_stamped t now now]> m)
  | thread_spec_exists t :
      is_Some (m !! thread_key t) → thread_spec now m (ThreadCreate t) (Raise IntegrityError) m
  | thread_spec_get id t : m !! id = Some t → thread_spec now m (ThreadGet id) (Ok [t]) m
  | thread_spec_get_missing id :
      m !! id = None → thread_spec now m (ThreadGet id) (Raise (Postgres.Threads.not_found id)) m
  | thread_spec_update t t0 :
      m !! thread_key t = Some t0 →
      thread_spec now m (ThreadUpdate t) (Ok [t]) (<[thread_key t := updated_thread t0 t now]> m)
  | thread_spec_update_missing t :
      m !! thread_key t = None →
      thread_spec now m (ThreadUpdate t) (Raise (Postgres.Threads.not_found (thread_key t))) m
  | thread_spec_delete id : is_Some (m !! id) → thread_spec now m (ThreadDelete id) (Ok []) (delete id m)
  | thread_spec_delete_missing id :
      m !! id = None → thread_spec now m (ThreadDelete id) (Raise (Postgres.Threads.not_found id)) m
  | thread_spec_search metadata status limit offset l :
      thread_listing m (with_status status) l →
      thread_spec now m (ThreadSearch metadata status limit offset)
        (Ok (List.filter (with_metadata metadata) (page (Z.to_nat offset) (Z.to_nat limit) l))) m.

Section Refinement.
Context {D : Type} `{Table ThreadRow D, TL : !TableLaws ThreadRow D}.
Implicit Types (d : D) (t : Thread).

Definition thread_repository (now : datetime) (c : thread_call) : Py D (list Thread) :=
  match c with
  | ThreadCreate t => t <- Postgres.Threads.create t now;; ret [t]
  | ThreadGet id => t <- Postgres.Threads.get id;; ret [t]
  | ThreadUpdate t => t <- Postgres.Threads.update t now;; ret [t]
  | ThreadDelete id => Postgres.Threads.delete id;;; ret []
  | ThreadSearch metadata status limit offset => Postgres.Threads.search metadata status limit offset
  end.

Definition thread_call_fits (now : datetime) (c : thread_call) d : Prop :=
  match c with
  | ThreadCreate t => thread_key t ≠ "" ∧ thread_row_fits (Postgres.Threads.thread_row t now) = true
  | ThreadUpdate t => ∀ t0, threads_of d !! thread_key t = Some t0 →
      thread_row_fits (thread_row_of (updated_thread t0 t now)) = true
  | ThreadSearch _ _ limit offset => 0 ≤ limit ∧ 0 ≤ offset
  | _ => True
  end.

Lemma thread_create_outcome d t now : threads_ok d → thread_key t ≠ "" →
  thread_row_fits (Postgres.Threads.thread_row t now) = true →
  if decide (threads_of d !! thread_key t = None) then
    ∃ d', Postgres.Threads.create t now d = (Ok t, d') ∧ threads_ok d' ∧
      threads_of d' = <[thread_key t := thread_stamped t now now]> (threads_of d)
  else Postgres.Threads.create t now d = (Raise IntegrityError, d).
Proof using TL.
  intros Hd Hk Hfit. unfold Postgres.Threads.create, insert_row, bind, ret. rewrite Hfit. simpl negb. cbv iota.
  change (Postgres.Threads.thread_row t now) with (thread_row_of (thread_stamped t now now)).
  assert (stored (thread_stamped t now now)) as Hs by (split; [done|by exists now, now]).
  destruct (tb_insert (thread_row_of (thread_stamped t now now)) d) as [d'|] eqn:Hins.
  - apply tb_insert_ok in Hins as [Hnew Hv]. rewrite decide_True by by apply entities_None.
    exists d'. split; [done|]. split; [by eapply rows_ok_insert|by apply entities_insert].
  - apply tb_insert_fails in Hins as [[row Hrow]|(k & row & _ & [|])]; [|done..].
    rewrite decide_False; [done|]. rewrite entities_None by done.
    change (tb_view d !! thread_key t = Some row) in Hrow. by rewrite Hrow.
Qed.

Lemma thread_update_outcome d t t0 now : threads_ok d → threads_of d !! thread_key t = Some t0 →
  thread_row_fits (thread_row_of (updated_thread t0 t now)) = true →
  ∃ d', Postgres.Threads.update t now d = (Ok t, d') ∧ threads_ok d' ∧
    threads_of d' = <[thread_key t := updated_thread t0 t now]> (threads_of d).
Proof using TL.
  intros Hd Ht0 Hfit. pose proof (entities_key d _ _ Hd Ht0) as Hk. apply entities_Some in Ht0 as [[Hne _] Hrow]; [|done].
  unfold Postgres.Threads.update, get_row, change_row, bind, ret. rewrite tb_get_view, Hrow. cbn [enc thread_entity].
  rewrite updated_thread_row, Hfit. simpl negb. cbv iota.
  assert (thread_key (updated_thread t0 t now) = thread_key t) as Hk1 by exact Hk.
  assert (stored (updated_thread t0 t now)) as Hs1 by (split; [done|]; unfold updated_thread; simpl; eauto).
  destruct (tb_set (thread_row_of (updated_thread t0 t now)) d) as [d'|] eqn:Hs.
  - apply tb_set_ok in Hs; [|change (row_key _) with (thread_key (updated_thread t0 t now)); rewrite Hk1; by eexists].
    change (row_key _) with (thread_key (updated_thread t0 t now)) in Hs. rewrite Hk1 in Hs.
    exists d'. split; [done|]. split; [by eapply rows_ok_insert|by apply entities_insert].
  - by apply tb_set_fails in Hs as (k & row & _ & _ & [|]).
Qed.

Lemma search_outcome d metadata status limit offset : threads_ok d → 0 ≤ limit → 0 ≤ offset →
  ∃ l, thread_listing (threads_of d) (with_status status) l ∧ Forall stored l ∧
    Postgres.Threads.search metadata status limit offset d =
      (Ok (List.filter (with_metadata metadata) (page (Z.to_nat offset) (Z.to_nat limit) l)), d).
Proof using TL.
  intros Hd Hl Ho. unfold Postgres.Threads.search, limit_offset.
  rewrite (proj2 (orb_false_iff _ _)) by (split; by apply Z.ltb_ge).
  destruct (select_entities d tr_created_at (λ t, default 0 (thr_created_at t))
    (λ r : ThreadRow, match status with Some s => bool_decide (tr_status r = s) | None => true end)
    (with_status status) Hd) as (l & -> & Hst & Hlist); [done|done|].
  exists l. split; [done|]. split; [done|]. change (enc <$> l) with (thread_row_of <$> l). simpl.
  rewrite page_map, <- threads_dec.
  - do 3 f_equal. induction (page _ _ l) as [|t l' IH]; [done|]. cbn. unfold Postgres.Threads.matches, with_metadata in *.
    cbn. case_match; by rewrite IH.
  - apply Forall_forall. intros t Ht. rewrite list_elem_of_In, filter_In, <- list_elem_of_In in Ht.
    destruct Ht as [Ht _]. by eapply (proj1 (Forall_forall _ _) (Forall_page stored _ _ _ Hst)).
Qed.

(** The Postgres thread repository implements the map of threads.  Every call on
    a table of threads, with values that fit the columns, gives the answer and the
    new threads of [thread_spec]: an existing identifier is refused with the
    database's own error, [update] keeps the creation time, and [search] filters the
    metadata of the page that [limit] and [offset] select. *)
Lemma postgres_threads_refine now c d :
  threads_ok d → thread_call_fits now c d →
  ∃ o d', thread_repository now c d = (o, d') ∧ threads_ok d' ∧ thread_spec now (threads_of d) c o (threads_of d').
Proof using TL.
  intros Hd Hc. destruct c as [t|id|t|id|metadata status limit offset]; simpl in Hc |- *.
  - destruct Hc as [Hk Hfit]. unfold bind. pose proof (thread_create_outcome d t now Hd Hk Hfit) as Ho.
    case_decide as Hn.
    + destruct Ho as (d' & -> & Hd' & Hv). eexists _, _. split; [done|]. split; [done|]. rewrite Hv. by constructor.
    + rewrite Ho. eexists _, _. split; [done|]. split; [done|]. constructor. by apply not_eq_None_Some.
  - unfold Postgres.Threads.get, get_row, bind. rewrite tb_get_view.
    destruct (tb_view d !! id) as [row|] eqn:Hk.
    + destruct (Hd _ _ Hk) as (t & Hs & ->). unfold of_result.
      change (Postgres.Threads.row_thread (enc t)) with (dec (A:=Thread) (enc t)). rewrite (dec_enc _ Hs).
      eexists _, _. split_and!; [done|done|]. constructor. by apply entities_Some.
    + eexists _, _. split_and!; [done|done|]. constructor. by apply entities_None.
  - unfold bind. destruct (threads_of d !! thread_key t) as [t0|] eqn:Ht0.
    + destruct (thread_update_outcome d t t0 now Hd Ht0 (Hc _ eq_refl)) as (d' & -> & Hd' & Hv).
      eexists _, _. split; [done|]. split; [done|]. rewrite Hv. by constructor.
    + unfold Postgres.Threads.update, get_row, bind. rewrite tb_get_view, (proj1 (entities_None _ _ Hd) Ht0).
      eexists _, _. split_and!; [done|done|by constructor].
  - unfold Postgres.Threads.delete, get_row, delete_row, bind. rewrite tb_get_view.
    destruct (tb_view d !! id) as [row|] eqn:Hk.
    + eexists _, _. split; [done|]. split; [by apply rows_ok_delete|]. rewrite entities_delete. constructor.
      apply not_eq_None_Some. rewrite entities_None by done. by rewrite Hk.
    + eexists _, _. split_and!; [done|done|]. constructor. by apply entities_None.
  - destruct Hc as [Hl Ho]. destruct (search_outcome d metadata status limit offset Hd Hl Ho) as (l & Hlist & _ & ->).
    eexists _, _. split_and!; [done|done|by constructor].
Qed.

(** ** The two searches *)

Lemma elem_of_List_filter {A} (p : A → bool) l (x : A) : x ∈ List.filter p l ↔ x ∈ l ∧ p x = true.
Proof. rewrite !list_elem_of_In. apply filter_In. Qed.

Lemma StronglySorted_List_filter {A} (R : A → A → Prop) p l : StronglySorted R l → StronglySorted R (List.filter p l).
Proof.
  induction 1 as [|x l Hl IH Hx]; simpl; [constructor|]. destruct (p x); [|done]. constructor; [done|].
  apply Forall_forall. intros y [Hy _]%elem_of_List_filter. by eapply Forall_forall in Hx.
Qed.

Lemma NoDup_List_filter {A} p (l : list A) : NoDup l → NoDup (List.filter p l).
Proof.
  induction 1 as [|x l Hx Hl IH]; simpl; [constructor|]. destruct (p x); [|done]. constructor; [|done].
  by intros [? _]%elem_of_List_filter.
Qed.

(** The in-memory repository's sorted selection is the filtered listing. *)
Lemma listing_memory m items metadata status l :
  MemoryRepositories.Threads.inv items → m = dict_to_map items →
  (∀ k t, m !! k = Some t → is_Some (thr_created_at t)) →
  (∀ k k' t t', m !! k = Some t → m !! k' = Some t' → thr_created_at t = thr_created_at t' → k = k') →
  thread_listing m (with_status status) l →
  sort_desc MemoryRepositories.Threads.sort_key
    (List.filter (MemoryRepositories.Threads.selected metadata status) (dvalues items)) =
  List.filter (with_metadata metadata) l.
Proof.
  intros [Hwf Hkey] -> Hst Hdist (Hnd & Hsort & Hin).
  assert (∀ t, t ∈ dvalues items ↔ dict_to_map items !! thread_key t = Some t) as Hval.
  { intros t. rewrite dvalues_elem by done. rewrite <- dget_map. split; [|by eexists].
    intros [k Hk]. by rewrite (Hkey _ _ Hk). }
  assert (∀ t, t ∈ List.filter (with_metadata metadata) l ↔
    t ∈ List.filter (MemoryRepositories.Threads.selected metadata status) (dvalues items)) as Hsame.
  { intros t. rewrite !elem_of_List_filter, Hin, Hval. unfold MemoryRepositories.Threads.selected.
    change (ent_key t) with (thread_key t). unfold with_status, with_metadata.
    rewrite andb_true_iff. destruct status; tauto. }
  apply (StronglySorted_unique_strong (λ t t', MemoryRepositories.Threads.sort_key t' ≤ MemoryRepositories.Threads.sort_key t)).
  - intros t t' Ht Ht' H1 H2. rewrite sort_desc_perm in Ht.
    apply elem_of_List_filter in Ht as [Ht%Hval _], Ht' as [[Ht' _]%Hin _].
    destruct (Hst _ _ Ht) as [c Hc], (Hst _ _ Ht') as [c' Hc']. unfold MemoryRepositories.Threads.sort_key in *.
    rewrite Hc, Hc' in H1, H2. simpl in H1, H2.
    assert (thread_key t = thread_key t') as Hk by (apply (Hdist _ _ _ _ Ht Ht'); rewrite Hc, Hc'; f_equal; lia).
    change (ent_key t') with (thread_key t') in Ht'. rewrite Hk in Ht. congruence.
  - apply sort_desc_sorted.
  - apply StronglySorted_List_filter. clear -Hsort Hst Hin.
    assert (∀ t, t ∈ l → is_Some (thr_created_at t)) as Hall by (intros t [Ht _]%Hin; by eapply Hst).
    clear Hin Hst. induction Hsort as [|t l Hl IH Ht]; [constructor|]. constructor; [apply IH; intros; apply Hall; by right|].
    apply Forall_forall. intros t' Ht'. pose proof (proj1 (Forall_forall _ _) Ht _ Ht') as Hle. simpl in Hle.
    unfold MemoryRepositories.Threads.sort_key.
    destruct (Hall t (list_elem_of_here _ _)) as [c Hc], (Hall t') as [c' Hc']; [by right|].
    by rewrite Hc, Hc' in Hle |- *.
  - rewrite sort_desc_perm. apply NoDup_Permutation.
    + apply NoDup_List_filter. apply (NoDup_fmap_1 thread_key). unfold dvalues.
      rewrite <- list_fmap_compose. rewrite (list_fmap_ext _ fst items); [exact Hwf|].
      intros i [k t] Hi. simpl. apply Hkey. apply dget_elem; [done|]. by eapply list_elem_of_lookup_2.
    + apply NoDup_List_filter. by apply (NoDup_fmap_1 (@ent_key Thread ThreadRow _ _)).
    + intros t. by rewrite Hsame.
Qed.

(** The two thread repositories, holding the same threads, of different creation
    times, search differently.  There is one list of the threads of the status,
    newest first: Postgres filters the metadata of its page, the in-memory
    repository gives the page of what it filtered.  So they agree when every thread
    of the status has the metadata, or when the page is the whole list. *)
Lemma thread_searches_relate d items metadata status limit offset :
  threads_ok d → MemoryRepositories.Threads.inv items → threads_of d = dict_to_map items →
  (∀ k k' t t', threads_of d !! k = Some t → threads_of d !! k' = Some t' →
     thr_created_at t = thr_created_at t' → k = k') →
  0 ≤ limit → 0 ≤ offset →
  let pg := (Postgres.Threads.search metadata status limit offset d).1 in
  let mem := (MemoryRepositories.Threads.search metadata status limit offset items).1 in
  ∃ l, thread_listing (threads_of d) (with_status status) l ∧
    pg = Ok (List.filter (with_metadata metadata) (page (Z.to_nat offset) (Z.to_nat limit) l)) ∧
    mem = Ok (page (Z.to_nat offset) (Z.to_nat limit) (List.filter (with_metadata metadata) l)) ∧
    (forallb (with_metadata metadata) l = true ∨ offset = 0 ∧ Z.of_nat (length l) ≤ limit → pg = mem).
Proof using TL.
  intros Hd Hinv Heq Hdist Hl Ho pg mem.
  destruct (search_outcome d metadata status limit offset Hd Hl Ho) as (l & Hlist & _ & Hs).
  assert (pg = Ok (List.filter (with_metadata metadata) (page (Z.to_nat offset) (Z.to_nat limit) l))) as Hpg.
  { unfold pg. by rewrite Hs. }
  assert (mem = Ok (page (Z.to_nat offset) (Z.to_nat limit) (List.filter (with_metadata metadata) l))) as Hmem.
  { unfold mem, MemoryRepositories.Threads.search. simpl. rewrite py_slice_page by done.
    rewrite (listing_memory (threads_of d) items metadata status l); try done.
    intros k t [[_ (c & u & ->)] _]%entities_Some; [|done]. by eexists. }
  exists l. split_and!; [done..|]. rewrite Hpg, Hmem. f_equal. intros [Hall|[-> Hlen]]; f_equal.
  - assert (∀ l', (∀ t, t ∈ l' → t ∈ l) → List.filter (with_metadata metadata) l' = l') as Hid.
    { rewrite forallb_elem in Hall. intros l' Hsub. induction l' as [|t l' IH]; [done|]. simpl.
      rewrite Hall by (apply Hsub; by left). f_equal. apply IH. intros t' Ht'. apply Hsub. by right. }
    rewrite !Hid; [done|done|]. unfold page. intros t Ht. eapply elem_of_submseteq; [exact Ht|].
    etrans; [apply sublist_submseteq, sublist_take|apply sublist_submseteq, sublist_drop].
  - unfold page. rewrite Z2Nat.inj_0, !drop_0, (take_ge l) by lia. rewrite take_ge; [done|].
    etrans; [apply List.filter_length_le|lia].
Qed.
End Refinement.

(** Two threads, the older one of a tenant: the first page of one thread is empty in
    Postgres and has the thread in memory. *)
Module LocalThreads.
Definition old_thread : Thread := mk_thread (mk_id "t1") IDLE [("tenant", JStr "a")] (Some 1) (Some 1).
Definition new_thread : Thread := mk_thread (mk_id "t2") IDLE [("tenant", JStr "b")] (Some 2) (Some 2).
Definition items : MemoryRepositories.Threads.state := [("t1", old_thread); ("t2", new_thread)].
Definition table : map_table (Row:=ThreadRow) :=
  ((Postgres.Threads.create old_thread 1;;; Postgres.Threads.create new_thread 2) empty_table).2.
Definition tenant : option json_object := Some [("tenant", JStr "a")].

Lemma table_ok : threads_ok table.
Proof.
  intros k row Hk. change (tb_view table) with (`table) in Hk.
  assert (`table = {["t1" := thread_row_of old_thread; "t2" := thread_row_of new_thread]}) as Ht by by vm_compute.
  rewrite Ht in Hk. rewrite lookup_insert in Hk. case_decide; [|apply lookup_singleton_Some in Hk as [_ Hk]]; simplify_eq.
  - exists old_thread. split; [|done]. split; [done|]. by exists 1, 1.
  - exists new_thread. split; [|done]. split; [done|]. by exists 2, 2.
Qed.

Lemma thread_searches_relate_witness :
  (Postgres.Threads.search tenant None 1 0 table).1 = Ok [] ∧
  (MemoryRepositories.Threads.search tenant None 1 0 items).1 = Ok [old_thread] ∧
  ∃ l, thread_listing (threads_of table) (with_status None) l ∧ length (page 0 1 l) = 1%nat.
Proof.
  split; [by vm_compute|]. split; [by vm_compute|].
  destruct (thread_searches_relate table items tenant None 1 0 table_ok) as (l & Hl & Hpg & Hmem & _).
  - split; [by apply NoDup_cons; split; [set_solver|apply NoDup_singleton]|].
    intros k t. cbn. repeat case_decide; intros; by simplify_eq.
  - by vm_compute.
  - intros k k' t t'. replace (threads_of table) with ({["t1" := old_thread; "t2" := new_thread]} : gmap string Thread)
      by by vm_compute.
    rewrite !lookup_insert, !lookup_singleton. repeat case_decide; intros; by simplify_eq.
  - done.
  - done.
  - exists l. split; [done|]. destruct l as [|t l]; [|done]. exfalso. unfold page in Hmem. by vm_compute in Hmem.
Defined.

Lemma postgres_threads_refine_witness :
  ∃ o d', thread_repository 3 (ThreadUpdate (mk_thread (mk_id "t1") BUSY [] None None)) table = (o, d') ∧ threads_ok d' ∧
    thread_spec 3 (threads_of table) (ThreadUpdate (mk_thread (mk_id "t1") BUSY [] None None)) o (threads_of d').
Proof.
  apply (postgres_threads_refine 3 (ThreadUpdate (mk_thread (mk_id "t1") BUSY [] None None)) table table_ok).
  intros t0. replace (threads_of table) with ({["t1" := old_thread; "t2" := new_thread]} : gmap string Thread)
    by by vm_compute.
  intros [= <-]. by vm_compute.
Defined.
End LocalThreads.
