(* ===== verification/PostgresTypes.v ===== *)
(** * The rows of the Postgres repositories are well typed

    A row is well typed if its values fit the columns that [models.py] declares and if
    [repositories.py] reads it back without an error.  Whatever the methods are called
    with, typed rows stay typed (preservation), and a call on them ends with an answer or
    with one of the errors that the repository is meant to raise, never in the middle of
    decoding a row (progress). *)

From S2P Require Import Prelude PyDict PyStr Json JsonAccess Errors Identity Execution Ports.
From S2P Require Import Database Postgres PostgresSpec PostgresThreads.

(** ** Typed tables *)

Section Typed.
Context {Row D : Type} `{TL : TableLaws Row D} (P : Row → Prop) (fits : Row → bool).
Implicit Types (d : D) (r : Row).

Definition table_typed d : Prop := ∀ k r, tb_view d !! k = Some r → row_key r = k ∧ P r.

(** The errors of a statement. *)
Definition statement_error (e : exn) : Prop := e = DataError ∨ e = IntegrityError.

Lemma typed_insert d d' r : table_typed d → P r → tb_view d' = <[row_key r := r]> (tb_view d) → table_typed d'.
Proof. intros Hd Hr Hv k r'. rewrite Hv, lookup_insert. case_decide; [by intros [= <-]|apply Hd]. Qed.

Lemma wp_insert_row d r : table_typed d → (fits r = true → P r) →
  wp (insert_row fits r) (λ _, table_typed) (λ e d', statement_error e ∧ table_typed d') d.
Proof using TL.
  intros Hd Hr. unfold wp, insert_row. destruct (fits r); simpl; [|split; [by left|done]].
  destruct (tb_insert r d) as [d'|] eqn:Hi; [|split; [by right|done]].
  apply tb_insert_ok in Hi as [_ Hv]. by eapply typed_insert; [|apply Hr|].
Qed.

Lemma wp_change_row d r : table_typed d → (fits r = true → P r) →
  wp (change_row fits r) (λ _, table_typed) (λ e d', statement_error e ∧ table_typed d') d.
Proof using TL.
  intros Hd Hr. unfold wp, change_row. destruct (fits r); simpl; [|split; [by left|done]].
  destruct (tb_set r d) as [d'|] eqn:Hs; [|split; [by right|done]].
  intros k r'. rewrite (tb_update_ok _ _ _ _ Hs), lookup_fmap.
  intros (r0 & Hr0 & ->)%fmap_Some. destruct (Hd _ _ Hr0) as [<- Hp].
  case_bool_decide; [|done]. rewrite decide_True by done. by split; [|apply Hr].
Qed.

Lemma wp_get_row d k missing : table_typed d →
  wp (get_row k missing) (λ r d', d' = d ∧ P r) (λ e d', e = missing ∧ d' = d) d.
Proof using TL.
  intros Hd. unfold wp, get_row. rewrite tb_get_view.
  destruct (tb_view d !! k) as [r|] eqn:Hk; [|done]. split; [done|by eapply Hd].
Qed.

Lemma wp_delete_row d k X : table_typed d → wp (delete_row k) (λ _, table_typed) X d.
Proof using TL.
  intros Hd k' r. simpl. rewrite tb_delete_key. intros [_ Hk]%lookup_delete_Some. by apply Hd.
Qed.

Lemma typed_select p key d : table_typed d → Forall P (tb_select_desc key p d).
Proof using TL.
  intros Hd. apply Forall_forall. intros r [Hr _]%elem_of_select_desc. by eapply Hd.
Qed.
End Typed.

(** Calls one after another, each a transaction of its own, with their answers. *)
Fixpoint transactions {C D B : Type} (f : C → Py D B) (cs : list C) (d : D) : list (res B) * D :=
  match cs with
  | [] => ([], d)
  | c :: cs => let '(o, d) := f c d in let '(os, d) := transactions f cs d in (o :: os, d)
  end.

(** The calls keep the state typed, and fail in no other way than [errors]. *)
Definition calls_sound {C D B : Type} (T : D → Prop) (errors : exn → Prop) (f : C → Py D B) (cs : list C) (d : D) : Prop :=
  let '(os, d') := transactions f cs d in
  T d' ∧ Forall (λ o : res B, match o with Ok _ => True | Raise e => errors e end) os.

Lemma sound_calls {C D B : Type} (T : D → Prop) errors (f : C → Py D B) (ok : C → Prop) :
  (∀ c d, ok c → T d → wp (f c) (λ _, T) (λ e d', errors e ∧ T d') d) →
  ∀ cs d, Forall ok cs → T d → calls_sound T errors f cs d.
Proof.
  intros Hf cs d Hcs. revert d. unfold calls_sound. induction Hcs as [|c cs Hc Hcs IH]; intros d Hd; simpl; [done|].
  pose proof (Hf c d Hc Hd) as Hw. unfold wp in Hw. destruct (f c d) as [o d1].
  assert (T d1) as Hd1 by by destruct o; [|destruct Hw].
  specialize (IH d1 Hd1). destruct (transactions f cs d1) as [os d2]. destruct IH as [Hd2 Hos]. split; [done|].
  constructor; [|done]. destruct o; [done|apply Hw].
Qed.

(** ** Runs *)

Definition run_typed (r : RunRow) : Prop := run_row_fits r = true ∧ ∃ a, Postgres.Runs.row_run r = Ok a.

(** The errors of [PostgresRunRepository]. *)
Inductive run_error : exn → Prop :=
  | run_missing id : run_error (Postgres.Runs.not_found id)
  | run_busy : run_error (failure THREAD_BUSY "thread already has an active run")
  | run_refused e : statement_error e → run_error e.

(** A run that is created has identifiers. *)
Definition run_call_typed (c : run_call) : Prop :=
  match c with CallCreate r => identity_ok (run_identity r) | _ => True end.

(** An update leaves a row that can be read. *)
Lemma run_update_decodes row r now a : Postgres.Runs.row_run row = Ok a →
  ∃ a', Postgres.Runs.row_run (Postgres.Runs.updated_row row r now) = Ok a'.
Proof.
  unfold Postgres.Runs.row_run, Postgres.Runs.updated_row, assign_json. simpl. rewrite run_status_of_value.
  assert (∀ e : json, (∃ x, Postgres.Runs.row_error e = Ok x) → ∃ x,
    Postgres.Runs.row_error (if py_eq e (Postgres.Runs.error_json (Execution.run_error r)) then e
                             else Postgres.Runs.error_json (Execution.run_error r)) = Ok x) as Herr.
  { intros e He. destruct (py_eq _ _); [done|]. by rewrite error_roundtrip; eexists. }
  intros H. repeat (let Hx := fresh in apply result_bind_Ok in H as (? & Hx & H); try rewrite Hx); simpl.
  destruct (Herr (rr_error row)) as [err ->]; [by eexists|]. simpl.
  repeat match goal with Hx : _ = Ok _ |- _ => rewrite Hx; clear Hx; simpl end. by eexists.
Qed.

Lemma row_run_typed l : Forall run_typed l → ∃ l', result_mapM Postgres.Runs.row_run l = Ok l'.
Proof. intros Hl. apply mapM_total. eapply Forall_impl; [exact Hl|]. by intros r [_ ?]. Qed.

Lemma created_run_typed r now : identity_ok (run_identity r) → run_row_fits (Postgres.Runs.run_row r now) = true →
  run_typed (Postgres.Runs.run_row r now).
Proof. intros Hi Hf. split; [done|]. rewrite run_row_of, row_roundtrip by done. by eexists. Qed.

Section RunTable.
Context {D : Type} `{Table RunRow D, TL : !TableLaws RunRow D}.
Implicit Types (d : D).

Abbreviation runs_typed := (table_typed run_typed).

(** The query of [active_for_thread] finds no second row. *)
Lemma active_rows_unique t d :
  (length (tb_select (λ r, Postgres.Runs.on_thread t r && row_active r) d) ≤ 1)%nat.
Proof using TL.
  pose proof (NoDup_select (λ r, Postgres.Runs.on_thread t r && row_active r) d) as Hnd.
  pose proof (λ r, proj1 (elem_of_select (λ r, Postgres.Runs.on_thread t r && row_active r) d r)) as Hin.
  destruct (tb_select _ _) as [|r [|r' l]]; simpl; [lia|lia|]. exfalso.
  destruct (Hin r) as [Hr Hp]; [by left|]. destruct (Hin r') as [Hr' Hp']; [by right; left|].
  rewrite !fmap_cons in Hnd. apply NoDup_cons in Hnd as [Hne _].
  assert (row_conflict r r' = false) as Hc.
  { apply (proj2 (tb_consistent d) _ _ _ _ Hr Hr'). intros Hk. apply Hne. rewrite Hk. by left. }
  unfold Postgres.Runs.on_thread in *. to_prop. revert Hc. simpl. unfold same_thread.
  destruct (rr_thread_id r) as [t1|], (rr_thread_id r') as [t2|]; try congruence.
  rewrite bool_decide_true by congruence. intros Hc. destruct (row_active r), (row_active r'); done.
Qed.

Lemma run_call_sound now c d : run_call_typed c → runs_typed d →
  wp (run_repository now c) (λ _, runs_typed) (λ e d', run_error e ∧ runs_typed d') d.
Proof using TL.
  intros Hc Hd. destruct c as [r|id|r|id|t|t|t limit offset status]; simpl in Hc |- *; unfold one.
  - apply wp_bind. unfold Postgres.Runs.create. apply wp_bind, wp_try_except.
    eapply wp_mono; [apply wp_insert_row; [exact Hd|by apply created_run_typed]|done|].
    intros e d' [He Hd']. case_match; (split; [|done]); by constructor.
  - apply wp_bind, wp_bind. eapply wp_mono; [exact (wp_get_row _ _ _ _ Hd)| |].
    + intros row d' [-> [_ [a Ha]]]. apply wp_of_result. by rewrite Ha.
    + intros e d' [-> ->]. split; [constructor|done].
  - apply wp_bind, wp_bind. eapply wp_mono; [exact (wp_get_row _ _ _ _ Hd)| |].
    + intros row d' [-> [_ [a Ha]]]. apply wp_bind. eapply wp_mono; [apply wp_change_row; [exact Hd|]|done|].
      * intros Hf. split; [done|by eapply run_update_decodes].
      * intros e d' [He Hd']. split; [by constructor|done].
    + intros e d' [-> ->]. split; [constructor|done].
  - apply wp_bind, wp_bind. eapply wp_mono; [exact (wp_get_row _ _ _ _ Hd)| |].
    + intros row d' [-> _]. by apply wp_delete_row.
    + intros e d' [-> ->]. split; [constructor|done].
  - apply wp_bind. unfold Postgres.Runs.active_for_thread, wp. pose proof (active_rows_unique t d) as Hlen.
    pose proof (typed_select run_typed (λ r, Postgres.Runs.on_thread t r && row_active r) rr_created_at d Hd) as Hl.
    rewrite (tb_select_desc_view (Row:=RunRow)) in Hl.
    destruct (tb_select _ d) as [|row [|row' l]]; simpl in Hlen |- *; [done| |lia].
    apply Forall_cons in Hl as [[_ [a Ha]] _]. by rewrite Ha.
  - apply wp_bind. unfold Postgres.Runs.latest_for_thread, wp.
    pose proof (typed_select run_typed (Postgres.Runs.on_thread t) rr_created_at d Hd) as Hl.
    destruct Hl as [|row l [_ [a Ha]] _]; simpl; [done|]. by rewrite Ha.
  - unfold Postgres.Runs.list_for_thread, limit_offset, wp. destruct (_ || _); cbn [result_bind].
    + split; [|done]. apply run_refused. by left.
    + edestruct row_run_typed as [l' Hl']; [apply Forall_page, typed_select, Hd|]. by erewrite Hl'.
Qed.
End RunTable.

(** ** Threads *)

Definition thread_typed (r : ThreadRow) : Prop :=
  thread_row_fits r = true ∧ ∃ t, Postgres.Threads.row_thread r = Ok t.

(** The errors of [PostgresThreadRepository]. *)
Inductive thread_error : exn → Prop :=
  | thread_missing id : thread_error (Postgres.Threads.not_found id)
  | thread_refused e : statement_error e → thread_error e.

Definition thread_call_typed (c : thread_call) : Prop :=
  match c with ThreadCreate t => thread_key t ≠ "" | _ => True end.

Lemma thread_update_decodes row t now a : Postgres.Threads.row_thread row = Ok a →
  ∃ a', Postgres.Threads.row_thread (Postgres.Threads.updated_row row t now) = Ok a'.
Proof.
  unfold Postgres.Threads.row_thread. intros (x & Hx & _)%result_bind_Ok. simpl.
  rewrite Hx, thread_status_of_value. by eexists.
Qed.

Lemma created_thread_typed t now : thread_key t ≠ "" → thread_row_fits (Postgres.Threads.thread_row t now) = true →
  thread_typed (Postgres.Threads.thread_row t now).
Proof.
  intros Hi Hf. split; [done|]. unfold Postgres.Threads.row_thread. simpl.
  rewrite parse_id_value, thread_status_of_value by done. by eexists.
Qed.

Section ThreadTable.
Context {D : Type} `{Table ThreadRow D, TL : !TableLaws ThreadRow D}.
Implicit Types (d : D).

Abbreviation threads_typed := (table_typed thread_typed).

Lemma thread_call_sound now c d : thread_call_typed c → threads_typed d →
  wp (thread_repository now c) (λ _, threads_typed) (λ e d', thread_error e ∧ threads_typed d') d.
Proof using TL.
  intros Hc Hd. destruct c as [t|id|t|id|metadata status limit offset]; simpl in Hc |- *.
  - apply wp_bind, wp_bind. eapply wp_mono; [apply wp_insert_row; [exact Hd|by apply created_thread_typed]|done|].
    intros e d' [He Hd']. split; [by constructor|done].
  - apply wp_bind, wp_bind. eapply wp_mono; [exact (wp_get_row _ _ _ _ Hd)| |].
    + intros row d' [-> [_ [a Ha]]]. apply wp_of_result. by rewrite Ha.
    + intros e d' [-> ->]. split; [constructor|done].
  - apply wp_bind, wp_bind. eapply wp_mono; [exact (wp_get_row _ _ _ _ Hd)| |].
    + intros row d' [-> [_ [a Ha]]]. apply wp_bind. eapply wp_mono; [apply wp_change_row; [exact Hd|]|done|].
      * intros Hf. split; [done|by eapply thread_update_decodes].
      * intros e d' [He Hd']. split; [by constructor|done].
    + intros e d' [-> ->]. split; [constructor|done].
  - apply wp_bind, wp_bind. eapply wp_mono; [exact (wp_get_row _ _ _ _ Hd)| |].
    + intros row d' [-> _]. by apply wp_delete_row.
    + intros e d' [-> ->]. split; [constructor|done].
  - unfold Postgres.Threads.search, limit_offset, wp. destruct (_ || _); cbn [result_bind].
    + split; [|done]. apply thread_refused. by left.
    + edestruct (mapM_total Postgres.Threads.row_thread) as [l' Hl']; [|by erewrite Hl'].
      apply Forall_forall. intros row [Hin _]%elem_of_List_filter.
      by eapply (proj1 (Forall_forall _ _) (Forall_page _ _ _ _ (typed_select thread_typed _ _ _ Hd))) in Hin as [_ ?].
Qed.
End ThreadTable.

(** ** Type soundness *)

(** C22: the rows of the Postgres repositories of threads and runs stay well typed,
    whatever sequence of calls is made, of any values, fitting the columns or not, on
    tables with their keys and indexes: each row stands under its own identifier, its
    strings and its JSON fit the columns, and it is read back as a thread or a run
    without an error.  No call fails while reading a row, in particular none finds a
    status, an identifier or an error object it does not know, and
    [active_for_thread] finds no second row: a call ends with an answer, with the
    repository's own error, or with an error of the database for a value that does not
    fit or an index that is violated.  The only condition is that the identifiers of a
    thread or a run that is created are not empty. *)
Theorem postgres_rows_typed {DT DR : Type} `{Table ThreadRow DT, !TableLaws ThreadRow DT}
    `{Table RunRow DR, !TableLaws RunRow DR} (tcs : list (datetime * thread_call))
    (rcs : list (datetime * run_call)) (dt : DT) (dr : DR) :
  Forall (λ c, thread_call_typed c.2) tcs → table_typed thread_typed dt →
  Forall (λ c, run_call_typed c.2) rcs → table_typed run_typed dr →
  calls_sound (table_typed thread_typed) thread_error (λ c, thread_repository c.1 c.2) tcs dt ∧
  calls_sound (table_typed run_typed) run_error (λ c, run_repository c.1 c.2) rcs dr.
Proof.
  intros Ht Hdt Hr Hdr. split.
  - apply (sound_calls _ _ _ _ (λ c d, thread_call_sound c.1 c.2 d) _ _ Ht Hdt).
  - apply (sound_calls _ _ _ _ (λ c d, run_call_sound c.1 c.2 d) _ _ Hr Hdr).
Qed.

(** A thread that is created, changed and searched, and a run that fails and is deleted;
    one thread is missing, and one list has a negative limit. *)
Module LocalTypes.
Definition thread : Thread := mk_thread (mk_id "thread_1") IDLE [("owner", JStr "ann")] None None.
Definition failed : Run :=
  mk_run LocalTable.identity ERROR [] None None JNull (Some (mk_run_error "EXECUTION_FAILED" "boom" false [])).
Definition thread_calls : list (datetime * thread_call) :=
  [(1, ThreadCreate thread); (2, ThreadUpdate thread); (3, ThreadSearch None (Some "idle") 10 0); (4, ThreadDelete "none")].
Definition run_calls : list (datetime * run_call) :=
  [(1, CallCreate LocalTable.run); (2, CallActive "thread_1"); (3, CallUpdate failed); (4, CallGet "run_1");
   (5, CallList "thread_1" (-1) 0 None); (6, CallDelete "run_1")].
End LocalTypes.

Lemma empty_typed {Row} `{Schema Row} (P : Row → Prop) : table_typed P (empty_table (Row:=Row)).
Proof. intros k r Hk. simpl in Hk. by rewrite lookup_empty in Hk. Qed.

Lemma postgres_rows_typed_witness :
  calls_sound (table_typed thread_typed) thread_error (λ c, thread_repository c.1 c.2) LocalTypes.thread_calls
    (empty_table (Row:=ThreadRow)) ∧
  calls_sound (table_typed run_typed) run_error (λ c, run_repository c.1 c.2) LocalTypes.run_calls
    (empty_table (Row:=RunRow)).
Proof.
  apply (postgres_rows_typed LocalTypes.thread_calls LocalTypes.run_calls empty_table empty_table);
    [|apply empty_typed| |apply empty_typed].
  - by repeat constructor.
  - by repeat constructor.
Defined.

(** The answers of these calls. *)
Example local_types_answers :
  is_ok <$> (transactions (λ c, thread_repository c.1 c.2) LocalTypes.thread_calls (empty_table (Row:=ThreadRow))).1 =
    [true; true; true; false] ∧
  is_ok <$> (transactions (λ c, run_repository c.1 c.2) LocalTypes.run_calls (empty_table (Row:=RunRow))).1 =
    [true; true; true; true; false; true].
Proof. split; by vm_compute. Qed.
