(* ===== verification/PostgresStores.v ===== *)
(** * The Postgres repositories as the stores of the services

    [bootstrap/production.py] and the two [main.py] of the worker and of the all-in-one
    process give the services the Postgres repositories.  Here they are instances of the
    ports: the state is a table and the times that the database gives to the
    transactions to come, a method is one transaction.  On tables whose rows were
    written by the repositories they are stores in the sense of [Ports]. *)

From S2P Require Import Prelude PyDict PyStr Json JsonAccess Errors Identity Execution Ports.
From S2P Require Import Database Postgres PostgresSpec PostgresThreads.

(** ** Transactions *)

Record PgState (D : Type) : Type := mk_pg_state {
  pg_table : D;
  pg_times : nat → datetime;
}.
Arguments mk_pg_state {_} _ _.
Arguments pg_table {_} _.
Arguments pg_times {_} _ _.

Definition transaction {D B : Type} (m : datetime → Py D B) : Py (PgState D) B := λ s,
  let '(o, d) := m (pg_times s 0%nat) (pg_table s) in (o, mk_pg_state d (λ n, pg_times s (S n))).
(** A transaction that sets no timestamp. *)
Definition untimed {D B : Type} (m : Py D B) : Py (PgState D) B := λ s,
  let '(o, d) := m (pg_table s) in (o, mk_pg_state d (pg_times s)).

#[export] Instance postgres_runs {D} `{Table RunRow D} : RunRepository (PgState D) := {
  runs_create := λ r, transaction (Postgres.Runs.create r);
  runs_get := λ id, untimed (Postgres.Runs.get id);
  runs_update := λ r, transaction (Postgres.Runs.update r);
  runs_delete := λ id, untimed (Postgres.Runs.delete id);
  runs_active_for_thread := λ t, untimed (Postgres.Runs.active_for_thread t);
  runs_latest_for_thread := λ t, untimed (Postgres.Runs.latest_for_thread t);
  runs_list_for_thread := λ t limit offset status, untimed (Postgres.Runs.list_for_thread t limit offset status);
}.
#[export] Instance postgres_threads {D} `{Table ThreadRow D} : ThreadRepository (PgState D) := {
  threads_create := λ t, transaction (Postgres.Threads.create t);
  threads_get := λ id, untimed (Postgres.Threads.get id);
  threads_update := λ t, transaction (Postgres.Threads.update t);
  threads_delete := λ id, untimed (Postgres.Threads.delete id);
  threads_count := λ metadata status, untimed (Postgres.Threads.count metadata status);
  threads_search := λ metadata status limit offset, untimed (Postgres.Threads.search metadata status limit offset);
}.

(** ** The stores *)

Section Stores.
Context {RD TD : Type} `{Table RunRow RD, RTL : !TableLaws RunRow RD, Table ThreadRow TD, TTL : !TableLaws ThreadRow TD}.

Definition fitting {Row D} `{Schema Row, Table Row D, !TableLaws Row D} (fits : Row → bool) (d : D) : Prop :=
  ∀ k row, tb_view d !! k = Some row → fits row = true.

Lemma fitting_insert {A Row D} `{TL : TableLaws Row D, E : !Entity A Row} fits (d d' : D) k (a : A) :
  rows_ok (A:=A) d → rows_ok (A:=A) d' → fitting fits d → fits (enc a) = true →
  entities (A:=A) d' = <[k := a]> (entities (A:=A) d) → fitting fits d'.
Proof.
  intros Hd Hd' Hf Ha Hv k' row Hk. destruct (Hd' _ _ Hk) as (a' & Hs & ->).
  assert (entities (A:=A) d' !! k' = Some a') as Hv' by by apply entities_Some.
  rewrite Hv, lookup_insert in Hv'. case_decide; [by injection Hv' as <-|].
  apply entities_Some in Hv' as [_ Hk']; [|done]. by eapply Hf.
Qed.

(** A run that is moved on from an active one is admitted. *)
Lemma updated_free (d : RD) r0 r now : runs_ok d → runs_of d !! run_key r = Some r0 →
  active_status (run_status r0) = true → thread_free (runs_of d) (updated_run r0 r now).
Proof using RTL.
  intros Hd Hr0 Ha k r' t Hr' Hne Ht _.
  apply entities_Some in Hr0 as [_ Hrow0], Hr' as [_ Hrow']; try done.
  assert (run_key r0 = run_key r) as Hk by exact (tb_key d _ _ Hrow0).
  refine (rows_compatible d (run_key r) k r0 r' t Hrow0 Hrow' _ Ht Ha).
  intros <-. apply Hne. unfold updated_run. symmetry. exact Hk.
Qed.

(** What the columns take of an updated run. *)
Lemma updated_fits r0 r now : run_row_fits (row_of r0) = true →
  column_json (run_result r) = true → column_json (error_details r) = true →
  run_row_fits (row_of (updated_run r0 r now)) = true.
Proof.
  unfold run_row_fits. rewrite !andb_true_iff. intros ((((Hids & _) & Hm) & Hr) & He) Hres Herr.
  split_and!; [exact Hids| |exact Hm| |].
  - change (column_string 32 (run_status_value (run_status r)) = true). by destruct (run_status r).
  - change (column_json (assign_json (run_result r0) (run_result r)) = true). unfold assign_json. by destruct (py_eq _ _).
  - change (column_json (Postgres.Runs.error_json (assign_error (run_error r0) (run_error r))) = true).
    unfold assign_error. destruct (py_eq _ _); [exact He|]. unfold error_details in Herr.
    destruct (run_error r) as [e|]; [|done].
    cbn [Postgres.Runs.error_json column_json forallb snd] in Herr |- *. by rewrite Herr.
Qed.

#[export] Program Instance postgres_run_store : RunStoreLaws (PgState RD) := {
  rst_view := λ s, runs_of (pg_table s);
  rst_inv := λ s, runs_ok (pg_table s) ∧ fitting run_row_fits (pg_table s);
  rst_takes := λ v, column_json v = true;
}.
Next Obligation. done. Qed.
Next Obligation.
  intros o. simpl. induction o as [|[k v] o IH]; [done|]. simpl. intros [Hv Ho]%andb_true_iff.
  rewrite IH by done. by destruct v.
Qed.
Next Obligation. intros s k r [Hd _]. exact (entities_key (pg_table s) k _ Hd). Qed.
Next Obligation.
  intros s k r [Hd Hf] [_ Hrow]%entities_Some; [|done]. apply Hf in Hrow. unfold run_row_fits in Hrow.
  rewrite !andb_true_iff in Hrow. destruct Hrow as ((((_ & _) & _) & Hr) & He). split; [exact Hr|].
  change (column_json (Postgres.Runs.error_json (run_error r)) = true) in He. unfold error_details.
  destruct (run_error r) as [e|]; [|done]. cbn [Postgres.Runs.error_json column_json forallb snd] in He. by to_prop.
Qed.
Next Obligation.
  intros s k r [Hd _] [Hs Hrow]%entities_Some; [|done]. simpl.
  unfold untimed, Postgres.Runs.get, get_row, bind, of_result. rewrite tb_get_view, Hrow.
  change (enc r) with (row_of r). rewrite (run_dec _ Hs). by destruct s.
Qed.
Next Obligation.
  intros s r0 r [Hd Hf] Hr0 Hid Ha Hres Herr. simpl in Hr0, Hres, Herr. set (now := pg_times s 0%nat).
  pose proof (proj1 (entities_Some _ _ _ Hd) Hr0) as [_ Hrow].
  assert (run_row_fits (row_of (updated_run r0 r now)) = true) as Hfit by (apply updated_fits; [by eapply Hf|done..]).
  destruct (update_outcome (pg_table s) r r0 now Hd Hr0 Hfit) as [(_ & d' & Hu & Hd' & Hv)|[Hno _]];
    [|by destruct Hno; apply updated_free].
  exists (updated_run r0 r now), (mk_pg_state d' (λ n, pg_times s (S n))).
  simpl. unfold transaction. fold now. rewrite Hu. split; [done|]. split; [|split].
  - split; [done|]. exact (fitting_insert run_row_fits _ _ _ _ Hd Hd' Hf Hfit Hv).
  - by rewrite Hid.
  - split; [done|]. split; [|exact Hv].
    unfold stored_as, updated_run, assign_json. simpl. destruct (py_eq _ _) eqn:Heq; [by right|by left].
Qed.

#[export] Program Instance postgres_thread_store : ThreadStoreLaws (PgState TD) := {
  tst_view := λ s, threads_of (pg_table s);
  tst_inv := λ s, threads_ok (pg_table s) ∧ fitting thread_row_fits (pg_table s);
}.
Next Obligation. intros s k t [Hd _]. exact (entities_key (pg_table s) k _ Hd). Qed.
Next Obligation.
  intros s k t [Hd _] [Hs Hrow]%entities_Some; [|done]. simpl.
  unfold untimed, Postgres.Threads.get, get_row, bind, of_result. rewrite tb_get_view, Hrow.
  change (Postgres.Threads.row_thread (enc t)) with (dec (A:=Thread) (enc t)). rewrite (dec_enc _ Hs). by destruct s.
Qed.
Next Obligation.
  intros s t0 t [Hd Hf] Ht0 Hm. simpl in Ht0. set (now := pg_times s 0%nat).
  pose proof (proj1 (entities_Some _ _ _ Hd) Ht0) as [_ Hrow].
  assert (thread_row_fits (thread_row_of (updated_thread t0 t now)) = true) as Hfit.
  { apply Hf in Hrow. unfold thread_row_fits in *. simpl in *. rewrite Hm. unfold assign_object.
    destruct (py_eq _ _); to_prop; by rewrite ?andb_true_iff; destruct (thr_status t). }
  destruct (thread_update_outcome (pg_table s) t t0 now Hd Ht0 Hfit) as (d' & Hu & Hd' & Hv).
  exists (updated_thread t0 t now), (mk_pg_state d' (λ n, pg_times s (S n))).
  simpl. unfold transaction. fold now. rewrite Hu. split; [done|]. split; [|done].
  split; [done|]. exact (fitting_insert thread_row_fits _ _ _ _ Hd Hd' Hf Hfit Hv).
Qed.

(** *** Shared runs *)

Lemma delete_fitting (d : RD) id : fitting run_row_fits d →
  fitting run_row_fits (tb_delete (λ r, bool_decide (row_key r = id)) d).
Proof using RTL. intros Hf k row. rewrite tb_delete_key. intros [_ Hk]%lookup_delete_Some. by eapply Hf. Qed.

(** A transaction that is refused leaves the table as it was; what a row may not hold is
    refused. *)
Lemma update_refused (d : RD) r r0 now : runs_ok d → runs_of d !! run_key r = Some r0 →
  run_row_fits (row_of (updated_run r0 r now)) = false →
  Postgres.Runs.update r now d = (Raise DataError, d).
Proof using RTL.
  intros Hd Hr0 Hfit. apply entities_Some in Hr0 as [_ Hrow]; [|done].
  unfold Postgres.Runs.update, get_row, change_row, bind. rewrite tb_get_view, Hrow. cbn [enc run_entity].
  by rewrite updated_row_of, Hfit.
Qed.
Lemma create_refused (d : RD) r now : run_row_fits (Postgres.Runs.run_row r now) = false →
  Postgres.Runs.create r now d = (Raise DataError, d).
Proof. intros Hfit. unfold Postgres.Runs.create, insert_row, bind, try_except. by rewrite Hfit. Qed.

Lemma run_missing (d : RD) k : runs_ok d → runs_of d !! k = None → tb_view d !! k = None.
Proof. intros Hd. apply entities_None, Hd. Qed.

#[export] Program Instance postgres_shared_runs : SharedRunsLaws (PgState RD) := {
  shr_view := λ s, runs_of (pg_table s);
  shr_inv := λ s, runs_ok (pg_table s) ∧ fitting run_row_fits (pg_table s);
  shr_takes := λ v, column_json v = true;
  shr_identity := identity_ok;
}.
Next Obligation. done. Qed.
Next Obligation. exact (rst_takes_texts (R:=PgState RD)). Qed.
Next Obligation. intros s k r [Hd _]. exact (entities_key (pg_table s) k _ Hd). Qed.
Next Obligation.
  intros s k [Hd Hf]. simpl. unfold untimed, Postgres.Runs.get, get_row, bind, of_result. rewrite tb_get_view.
  destruct (runs_of (pg_table s) !! k) as [r|] eqn:Hk.
  - pose proof (proj1 (entities_Some _ _ _ Hd) Hk) as [Hs Hrow]. rewrite Hrow. change (enc r) with (row_of r).
    rewrite (run_dec _ Hs). by eexists _, _.
  - rewrite (run_missing _ _ Hd Hk). by eexists _, _.
Qed.
Next Obligation.
  intros s r [Hd Hf]. simpl. unfold transaction. set (now := pg_times s 0%nat).
  destruct (runs_of (pg_table s) !! run_key r) as [r0|] eqn:Hr0; last first.
  { unfold Postgres.Runs.update, get_row, bind. rewrite tb_get_view, (run_missing _ _ Hd Hr0).
    eexists _, _. split; [done|]. split; [done|]. by split_and!. }
  destruct (run_row_fits (row_of (updated_run r0 r now))) eqn:Hfit.
  - destruct (update_outcome (pg_table s) r r0 now Hd Hr0 Hfit) as [(_ & d' & -> & Hd' & Hv)|[Hno ->]].
    + eexists _, _. split; [done|]. split; [split; [done|]|].
      * exact (fitting_insert run_row_fits _ _ _ _ Hd Hd' Hf Hfit Hv).
      * split; [done|]. split; [done|]. by exists (updated_run r0 r now).
    + eexists _, _. split; [done|]. split; [done|]. split; [done|]. split; [done|]. intros Ha _ _.
      destruct Hno. intros k r' t _ _ _ Hact. by rewrite (Ha : active_status (run_status (updated_run r0 r now)) = false) in Hact.
  - rewrite (update_refused _ _ _ _ Hd Hr0 Hfit). eexists _, _. split; [done|]. split; [done|]. split; [done|].
    split; [done|]. intros _ Hres Herr. rewrite updated_fits in Hfit; [done| |done|done].
    pose proof (proj1 (entities_Some _ _ _ Hd) Hr0) as [_ Hrow]. by eapply Hf.
Qed.
Next Obligation.
  intros s r [Hd Hf] Hi. simpl. unfold transaction. set (now := pg_times s 0%nat).
  destruct (run_row_fits (Postgres.Runs.run_row r now)) eqn:Hfit.
  - destruct (create_outcome (pg_table s) r now Hd Hi Hfit) as [(Hn & _ & d' & -> & Hd' & Hv)|[_ ->]].
    + eexists _, _. split; [done|]. split; [split; [done|]|].
      * exact (fitting_insert run_row_fits _ _ _ (stamped r now now) Hd Hd' Hf Hfit Hv).
      * split; [done|]. split; [done|]. by exists (stamped r now now).
    + by eexists _, _.
  - rewrite create_refused by done. by eexists _, _.
Qed.
Next Obligation.
  intros s k [Hd Hf]. simpl. unfold untimed.
  destruct (runs_of (pg_table s) !! k) as [r|] eqn:Hk.
  - unfold Postgres.Runs.delete, get_row, delete_row, bind. rewrite tb_get_view.
    pose proof (proj1 (entities_Some _ _ _ Hd) Hk) as [_ Hrow]. rewrite Hrow. eexists _, _. split; [done|].
    split; [split; [by apply rows_ok_delete|by apply delete_fitting]|]. right. apply entities_delete.
  - unfold Postgres.Runs.delete, get_row, bind. rewrite tb_get_view, (run_missing _ _ Hd Hk).
    eexists _, _. split; [done|]. split; [done|]. by left.
Qed.
End Stores.
