(* ===== verification/WorkerService.v ===== *)
(** * The worker service

    [services/worker/main.py]: how the production worker executes a command.
    It shares no code with [RuntimeExecutionService]: it runs the adapter of the
    command's assistant, sends the events to the gateway or nowhere, and
    settles the run and its thread itself. *)

From S2P Require Import Prelude PyDict PyStr Json Errors JsonAccess Identity Execution Ports.
From S2P Require Import MemoryRepositories MemoryQueue Service ServiceSafety ServiceSpec Grpc LangGraph LangGraphRuns.
From S2P Require Import Database Postgres PostgresSpec PostgresThreads PostgresStores.
From Stdlib Require Import Ascii.

Definition TERMINAL_EVENT_TYPES : list RuntimeEventType :=
  [RUN_COMPLETED; RUN_FAILED; RUN_CANCELLED; RUN_INTERRUPTED].
Definition FINAL_STATUSES : list RunStatus := [SUCCESS; ERROR; TIMEOUT; CANCELLED; INTERRUPTED].

Section WorkerService.
Context {R T Q : Type} `{RunRepository R, ThreadRepository T, RunCommandQueue Q}
  (clock : nat → datetime) (json_str : json → string).

(** The repositories and the queue of the process, its free execution slots, and
    the readings of its clock. *)
Record WorkerState : Type := mk_worker_state {
  ws_runs : R;
  ws_threads : T;
  ws_queue : Q;
  ws_slots : Z;
  ws_ticks : nat;
}.
Definition ws_on_runs {B} (m : Py R B) : Py WorkerState B :=
  zoom ws_runs (λ r s, mk_worker_state r (ws_threads s) (ws_queue s) (ws_slots s) (ws_ticks s)) m.
Definition ws_on_threads {B} (m : Py T B) : Py WorkerState B :=
  zoom ws_threads (λ t s, mk_worker_state (ws_runs s) t (ws_queue s) (ws_slots s) (ws_ticks s)) m.
Definition ws_on_queue {B} (m : Py Q B) : Py WorkerState B :=
  zoom ws_queue (λ q s, mk_worker_state (ws_runs s) (ws_threads s) q (ws_slots s) (ws_ticks s)) m.
(** [datetime.now(UTC)] *)
Definition ws_now : Py WorkerState datetime := λ s,
  (Ok (clock (ws_ticks s)),
   mk_worker_state (ws_runs s) (ws_threads s) (ws_queue s) (ws_slots s) (S (ws_ticks s))).
Definition ws_release : Py WorkerState unit := modify (λ s,
  mk_worker_state (ws_runs s) (ws_threads s) (ws_queue s) (ws_slots s + 1) (ws_ticks s)).

(** *** Settling a run *)

(** The run that [_maybe_take_action] stores for a terminal event. *)
Definition action_outcome (d : RuntimeEventDraft) (current : Run) (t : datetime) : res Run :=
  if type_is (draft_type d) RUN_COMPLETED then run_complete current (draft_data d) t
  else if type_is (draft_type d) RUN_CANCELLED then run_cancel current t
  else if type_is (draft_type d) RUN_INTERRUPTED
  then Ok (mk_run (run_identity current) INTERRUPTED (run_metadata current)
             (run_created_at current) (Some t) (run_result current) (run_error current))
  else run_fail current
         (new_run_error "FRAMEWORK_EXECUTION_FAILED" (json_str (draft_data d)) false None) t.

Definition maybe_take_action (run : Run) (d : RuntimeEventDraft) : Py WorkerState unit :=
  if type_is (draft_type d) STATE_VALUES then ret tt
  else if negb (type_in (draft_type d) TERMINAL_EVENT_TYPES) then ret tt
  else
    current <- ws_on_runs (runs_get (run_key run));;
    t <- ws_now;;
    r <- of_result (action_outcome d current t);;
    ws_on_runs (runs_update r);;;
    match run_thread_id current with
    | Some i =>
        th <- ws_on_threads (threads_get (id_value i));;
        t <- ws_now;;
        ws_on_threads (threads_update
          (if type_is (draft_type d) RUN_INTERRUPTED then mark_interrupted th t else mark_idle th t));;; ret tt
    | None => ret tt
    end.

Definition fail_if_not_done (run : Run) (e : exn) : Py WorkerState unit :=
  current <- ws_on_runs (runs_get (run_key run));;
  if decide (run_status current ∈ FINAL_STATUSES) then ret tt
  else
    t <- ws_now;;
    r <- of_result (run_fail current (new_run_error "EXECUTION_FAILED" (exn_str e) false None) t);;
    ws_on_runs (runs_update r);;; ret tt.

Definition mark_idle_if_needed (run : Run) : Py WorkerState unit :=
  current <- ws_on_runs (runs_get (run_key run));;
  match run_thread_id current with
  | Some i =>
      th <- ws_on_threads (threads_get (id_value i));;
      t <- ws_now;;
      ws_on_threads (threads_update (mark_idle th t));;; ret tt
  | None => ret tt
  end.

(** *** Consuming the adapter's stream *)

(** What [_gen] sends for the [n]-th draft; a draft that cannot be sent raises. *)
Definition gateway_event (run : Run) (n : nat) (d : RuntimeEventDraft) : res ProtoEvent :=
  proto_event clock (identity_to_proto (run_identity run)) n d.

(** The [async for] with its [except Exception].  [_gen] stands at a [yield] for
    each draft and goes on, with what the draft does, when it is asked for the next
    event: asked [reads] times, it has handled the drafts before the last one it
    gave.  It is through when it is asked once more than there are drafts, as
    [_stream_local] always does. *)
Definition consume_reads (reads : nat) (run : Run) (ds : list RuntimeEventDraft) (e : stream_end) : Py WorkerState unit :=
  try_except
    (for_each (maybe_take_action run) (take (reads - 1) ds);;;
     if (reads <=? length ds)%nat then ret tt
     else match e with Exhausted => ret tt | Raised err => raise err end)
    (λ err, if is_exception err then fail_if_not_done run err else raise err).
Definition consume_stream (run : Run) (ds : list RuntimeEventDraft) (e : stream_end) : Py WorkerState unit :=
  consume_reads (S (length ds)) run ds e.

(** How the call to the gateway goes: how many events it asks for, and its end. *)
Record gateway_call : Type := mk_gateway_call {
  call_reads : nat;
  call_end : res unit;
}.

Definition stream_local (run : Run) (ds : list RuntimeEventDraft) (e : stream_end) : Py WorkerState unit :=
  consume_stream run ds e;;; mark_idle_if_needed run.
Definition stream_via_grpc (call : gateway_call) (run : Run) (ds : list RuntimeEventDraft) (e : stream_end)
  : Py WorkerState unit :=
  let '(events, e) := converted (gateway_event run) 0 ds e in
  consume_reads (call_reads call) run events.*1 e;;; of_result (call_end call);;; mark_idle_if_needed run.

(** [_process_receipt]: a pending run is claimed and executed by [execute], the
    command of any other run is acknowledged. *)
Definition process_with (receipt : RunCommandReceipt) (execute : Run → Py WorkerState unit) : Py WorkerState unit :=
  try_finally
    (run <- ws_on_runs (runs_get (id_value (run_id (receipt_identity receipt))));;
     if negb (bool_decide (run_status run = PENDING)) then ws_on_queue (queue_acknowledge receipt)
     else
       t <- ws_now;;
       r <- of_result (run_mark_running run t);;
       ws_on_runs (runs_update r);;;
       execute run)
    ws_release.

Section Process.
Context {A : Type} (adapters : dict A)
  (adapter_stream : A → ExecutionRequest → list RuntimeEventDraft * stream_end).

(** The claimed run is executed: the statements behind [mark_running]. *)
Definition execute_run (receipt : RunCommandReceipt) (gateway : option gateway_call) (run : Run)
  : Py WorkerState unit :=
  match dget adapters (id_value (assistant_id (receipt_identity receipt))) with
  | None => ws_on_queue (queue_acknowledge receipt)
  | Some a =>
      let '(ds, e) := adapter_stream a (cmd_request (rcp_command receipt)) in
      match gateway with
      | Some call => stream_via_grpc call run ds e
      | None => stream_local run ds e
      end;;;
      ws_on_queue (queue_acknowledge receipt)
  end.

(** [gateway] is how the call to the gateway goes, if a gateway is configured. *)
Definition process_receipt (receipt : RunCommandReceipt) (gateway : option gateway_call) : Py WorkerState unit :=
  process_with receipt (execute_run receipt gateway).
End Process.

(** How an iteration of [_execution_loop] ends. *)
Inductive loop_step : Type := Continue | Break.

(** [receive] and the semaphore: the receipt is processed in a task of its own. *)
Definition loop_receive (receive : res RunCommandReceipt) : Py WorkerState (loop_step * option RunCommandReceipt) :=
  match receive with
  | Ok r => modify (λ s, mk_worker_state (ws_runs s) (ws_threads s) (ws_queue s) (ws_slots s - 1) (ws_ticks s));;;
            ret (Continue, Some r)
  | Raise CancelledError => ret (Break, None)
  | Raise (Failure f) =>
      ret ((if decide (failure_code f = QUEUE_CLOSED) then Break else Continue), None)
  | Raise e => raise e
  end.
End WorkerService.

(** [_entrypoints] *)
Definition entrypoints (env : dict string) : res (list string) :=
  let non_empty k := match dget env k with Some s => if str_truthy s then Some s else None | None => None end in
  match (match non_empty "UR_APPLICATION_ENTRYPOINTS" with
         | Some s => Some s
         | None => non_empty "UR_APPLICATION_ENTRYPOINT"
         end) with
  | None => Raise (RuntimeError "UR_APPLICATION_ENTRYPOINT or UR_APPLICATION_ENTRYPOINTS is required")
  | Some raw => Ok (List.filter str_truthy (strip_spaces <$> split_at ","%char raw))
  end.

(** ** What becomes of a run *)

Section Outcome.
Context {R T Q : Type}
  `{!RunRepository R, RL : !RunStoreLaws R, !ThreadRepository T, TL : !ThreadStoreLaws T,
    !RunCommandQueue Q}
  (clock : nat → datetime) (json_str : json → string).

Notation State := (WorkerState (R:=R) (T:=T) (Q:=Q)).

Definition ws_view (s : State) : gmap string Run := rst_view (ws_runs s).
Definition ws_thread_status (s : State) (k : string) : option ThreadStatus :=
  thr_status <$> tst_view (ws_threads s) !! k.

(** The repositories are consistent and hold the run's thread, if it has one. *)
Definition ws_ready (r : Run) (s : State) : Prop :=
  rst_inv (ws_runs s) ∧ tst_inv (ws_threads s) ∧
  match run_thread_id r with
  | Some i => is_Some (tst_view (ws_threads s) !! id_value i)
  | None => True
  end.

Lemma ws_get r k (s : State) :
  ws_ready r s → ws_view s !! k = Some r → ws_on_runs (runs_get k) s = (Ok r, s).
Proof using RL.
  intros (Hi & _) Hv. unfold ws_on_runs, zoom. rewrite (rst_get _ k r) by done. by destruct s.
Qed.

Lemma ws_store r r1 (s : State) :
  ws_ready r s → ws_view s !! run_key r = Some r → run_identity r1 = run_identity r →
  active_status (run_status r) = true → rst_takes (R:=R) (run_result r1) → rst_takes (R:=R) (error_details r1) →
  ∃ s' r', ws_on_runs (runs_update r1) s = (Ok r1, s') ∧ ws_ready r' s' ∧ ws_threads s' = ws_threads s ∧
    ws_slots s' = ws_slots s ∧ ws_queue s' = ws_queue s ∧ run_identity r' = run_identity r1 ∧
    run_status r' = run_status r1 ∧ stored_as (run_result r) (run_result r1) (run_result r') ∧
    ws_view s' = <[run_key r := r']> (ws_view s).
Proof using RL.
  intros (Hi & Ht & Hth) Hv Hid Ha Hres Herr.
  assert (run_key r1 = run_key r) as Hk by (unfold run_key, run_run_id; by rewrite Hid).
  destruct (rst_update (ws_runs s) r r1) as (r' & R' & Hu & Hi' & Hid' & Hst & Hkeep & Hv'); try done; [by rewrite Hk|].
  eexists _, r'. unfold ws_on_runs, zoom. rewrite Hu, <- Hk. split; [reflexivity|].
  split_and!; try done. unfold ws_ready, run_thread_id in *. by rewrite Hid', Hid.
Qed.

Lemma ws_mark r i (f : Thread → datetime → Thread) status (s : State) :
  ws_ready r s → run_thread_id r = Some i →
  (∀ t n, thread_key (f t n) = thread_key t ∧ thr_metadata (f t n) = thr_metadata t ∧ thr_status (f t n) = status) →
  ∃ s', (th <- ws_on_threads (threads_get (id_value i));; t <- ws_now clock;;
         ws_on_threads (threads_update (f th t));;; ret tt) s = (Ok tt, s') ∧
    ws_ready r s' ∧ ws_runs s' = ws_runs s ∧ ws_slots s' = ws_slots s ∧
    ws_thread_status s' (id_value i) = Some status.
Proof using TL.
  intros (Hr & Ht & Hth) Hi Hf. rewrite Hi in Hth. destruct Hth as [th Hth].
  assert (thread_key th = id_value i) as Hk by by eapply tst_key.
  unfold bind, ws_on_threads, zoom. rewrite (tst_get _ (id_value i) th) by done.
  unfold ws_now. destruct (Hf th (clock (ws_ticks s))) as (Hfk & Hfm & Hfs). simpl.
  destruct (tst_update (ws_threads s) th (f th (clock (ws_ticks s)))) as (t' & T' & Hu & Ht' & Hc & Hv);
    [done|by rewrite Hfk, Hk|done|].
  rewrite Hu. eexists. split; [reflexivity|].
  assert (tst_view T' = <[id_value i := t']> (tst_view (ws_threads s))) as Hv1 by by rewrite Hv, Hfk, Hk.
  unfold ws_ready, ws_thread_status. simpl. rewrite Hi, Hv1, lookup_insert_eq.
  split_and!; try done. simpl. congruence.
Qed.

(** Events that do not settle the run do nothing. *)
Lemma body_actions i run ds (s : State) :
  Forall (Adapter.body_draft i) ds → for_each (maybe_take_action clock json_str run) ds s = (Ok tt, s).
Proof.
  induction 1 as [|d ds (_ & t & Ht & Hn) _ IH]; [done|]. cbn [for_each]. unfold bind.
  assert (maybe_take_action clock json_str run d s = (Ok tt, s)) as ->; [|done].
  unfold maybe_take_action. rewrite Ht. destruct (type_is (Known t) STATE_VALUES); [done|].
  assert (type_in (Known t) TERMINAL_EVENT_TYPES = false) as ->; [|done].
  apply not_true_is_false. rewrite type_in_known. intros Hin. apply Hn.
  unfold TERMINAL_EVENT_TYPES, SETTLING in *. set_solver.
Qed.

(** What the worker stores for the event that settles a running run. *)
Lemma action_outcome_running t d (r : Run) at_ :
  draft_type d = Known t → t ∈ TERMINAL_EVENT_TYPES → run_status r = RUNNING →
  ∃ r1, action_outcome json_str d r at_ = Ok r1 ∧ run_identity r1 = run_identity r ∧
    run_status r1 = settled_status t ∧ (t = RUN_COMPLETED → run_result r1 = draft_data d) ∧
    (run_result r1 = JNull ∨ run_result r1 = run_result r ∨ t = RUN_COMPLETED) ∧
    (error_details r1 = JObj [] ∨ error_details r1 = error_details r).
Proof.
  intros Ht Hin Hr. unfold action_outcome, run_complete, run_cancel, run_fail, run_change. rewrite Ht, Hr.
  unfold TERMINAL_EVENT_TYPES in Hin. rewrite !elem_of_cons in Hin.
  destruct Hin as [->|[->|[->|[->|Hin]]]]; [| | | |by apply elem_of_nil in Hin]; simpl;
    eexists; (split; [reflexivity|]); split_and!; auto; done.
Qed.

Lemma end_type_terminal middle e : end_type middle e ∈ TERMINAL_EVENT_TYPES.
Proof. unfold end_type. destruct e as [|[]]; repeat case_match; by apply (bool_decide_unpack _). Qed.

Lemma final_action run d t r (s : State) :
  ws_ready r s → ws_view s !! run_key r = Some r → run_key run = run_key r → run_status r = RUNNING →
  draft_type d = Known t → t ∈ TERMINAL_EVENT_TYPES →
  run_result r = JNull → (t = RUN_COMPLETED → rst_takes (R:=R) (draft_data d)) →
  ∃ s' r', maybe_take_action clock json_str run d s = (Ok tt, s') ∧ ws_ready r' s' ∧
    ws_view s' = <[run_key r := r']> (ws_view s) ∧ run_identity r' = run_identity r ∧
    run_status r' = settled_status t ∧ (t = RUN_COMPLETED → run_result r' = draft_data d) ∧
    ws_slots s' = ws_slots s ∧
    (∀ i, run_thread_id r = Some i → ws_thread_status s' (id_value i) = Some (settled_thread t)).
Proof using RL TL.
  intros Hs Hv Hk Hst Ht Hin Hnull Htakes. unfold maybe_take_action. rewrite Ht.
  assert (type_is (Known t) STATE_VALUES = false) as ->.
  { apply bool_decide_eq_false. intros ->. revert Hin. by apply (bool_decide_unpack _). }
  rewrite (proj2 (type_in_known t _) Hin). cbn [negb]. unfold bind at 1. rewrite Hk.
  rewrite (ws_get r) by done. unfold bind at 1, ws_now. set (s1 := mk_worker_state _ _ _ _ _).
  destruct (action_outcome_running t d r (clock (ws_ticks s)) Ht Hin Hst) as (r1 & Hr1 & Hi1 & Hs1 & Hd1 & Hres1 & Herr1).
  unfold bind at 1, of_result. rewrite Hr1.
  destruct (rst_taken (ws_runs s) (run_key r) r (proj1 Hs) Hv) as [Htr Hte].
  destruct (ws_store r r1 s1 Hs Hv Hi1) as (s2 & r' & Hu & Hs2 & Ht2 & Hsl2 & _ & Hci & Hcs & Hkeep & Hv2).
  { by rewrite Hst. }
  { destruct Hres1 as [->|[->| ->]]; [apply rst_takes_null|done|]. rewrite Hd1 by done. by apply Htakes. }
  { by destruct Herr1 as [->| ->]; [apply rst_takes_texts|]. }
  unfold bind at 1. rewrite Hu. rewrite Hnull in Hkeep. apply stored_over_null in Hkeep as Hcr.
  assert (run_thread_id r' = run_thread_id r) as Hth by (unfold run_thread_id; by rewrite Hci, Hi1).
  assert (t = RUN_COMPLETED → run_result r' = draft_data d) as Hres by (intros Hc; rewrite Hcr; auto).
  destruct (run_thread_id r) as [i|] eqn:Hi.
  - destruct (ws_mark r' i (if type_is (Known t) RUN_INTERRUPTED then mark_interrupted else mark_idle)
      (settled_thread t) s2 Hs2 Hth) as (s3 & Hm & Hs3 & Hr3 & Hsl3 & Ht3).
    { intros th n. unfold settled_thread, type_is. by case_decide; [rewrite bool_decide_eq_true_2|rewrite bool_decide_eq_false_2]. }
    exists s3, r'. split; [revert Hm; by destruct (type_is (Known t) RUN_INTERRUPTED)|].
    split_and!; try done; [unfold ws_view; rewrite Hr3; exact Hv2|congruence|congruence|by rewrite Hsl3, Hsl2|].
    by intros ? [= <-].
  - exists s2, r'. split; [done|]. split_and!; try done; congruence.
Qed.

(** Asked often enough, [_gen] handles every draft and the end of the stream. *)
Lemma consume_more n run ds e :
  (length ds < n)%nat →
  consume_reads (Q:=Q) clock json_str n run ds e = consume_stream clock json_str run ds e.
Proof.
  intros Hn. unfold consume_stream, consume_reads. rewrite !take_ge by lia.
  by rewrite !(proj2 (Nat.leb_gt _ _)) by lia.
Qed.
Lemma consume_all run ds e :
  consume_stream (Q:=Q) clock json_str run ds e =
  try_except (for_each (maybe_take_action clock json_str run) ds;;;
              match e with Exhausted => ret tt | Raised err => raise err end)
    (λ err, if is_exception err then fail_if_not_done clock run err else raise err).
Proof.
  unfold consume_stream, consume_reads. rewrite take_ge by lia. by rewrite (proj2 (Nat.leb_gt _ _)) by lia.
Qed.

(** A running run that fails. *)
Lemma fail_running run r err (s : State) :
  ws_ready r s → ws_view s !! run_key r = Some r → run_key run = run_key r → run_status r = RUNNING →
  ∃ s' r', fail_if_not_done clock run err s = (Ok tt, s') ∧ ws_ready r' s' ∧
    ws_view s' = <[run_key r := r']> (ws_view s) ∧ run_identity r' = run_identity r ∧ run_status r' = ERROR ∧
    ws_threads s' = ws_threads s.
Proof using RL.
  intros Hs Hv Hk Hst. unfold fail_if_not_done. unfold bind at 1. rewrite Hk, (ws_get r) by done.
  rewrite decide_False by (rewrite Hst; by apply (bool_decide_unpack _)).
  unfold bind at 1, ws_now. set (s1 := mk_worker_state _ _ _ _ _).
  set (r1 := mk_run (run_identity r) ERROR (run_metadata r) (run_created_at r) (Some (clock (ws_ticks s))) JNull
    (Some (new_run_error "EXECUTION_FAILED" (exn_str err) false None))).
  assert (run_fail r (new_run_error "EXECUTION_FAILED" (exn_str err) false None) (clock (ws_ticks s)) = Ok r1) as Hf
    by (unfold run_fail, run_change; by rewrite Hst).
  unfold bind at 1, of_result. rewrite Hf.
  destruct (ws_store r r1 s1 Hs Hv) as (s2 & r' & Hu & Hs2 & Ht2 & _ & _ & Hci & Hcs & _ & Hv2);
    [done|by rewrite Hst|apply rst_takes_null|by apply rst_takes_texts|].
  exists s2, r'. split; [unfold bind; by rewrite Hu|]. by split_and!.
Qed.

(** The whole stream, for any way it ends. *)
Lemma consume_settles i run r ds middle final e (s : State) :
  ws_ready r s → ws_view s !! run_key r = Some r → run_key run = run_key r → run_status r = RUNNING →
  Forall (Adapter.body_draft i) ds → draft_type final = Known (end_type middle e) →
  run_result r = JNull → (end_type middle e = RUN_COMPLETED → rst_takes (R:=R) (draft_data final)) →
  ∃ s' r', consume_stream clock json_str run (ds ++ [final]) e s =
      (match e with Raised CancelledError => Raise CancelledError | _ => Ok tt end, s') ∧
    ws_ready r' s' ∧ ws_view s' = <[run_key r := r']> (ws_view s) ∧ run_identity r' = run_identity r ∧
    run_status r' = settled_status (end_type middle e) ∧
    (end_type middle e = RUN_COMPLETED → run_result r' = draft_data final) ∧ ws_slots s' = ws_slots s ∧
    (∀ t, run_thread_id r = Some t →
       ws_thread_status s' (id_value t) = Some (settled_thread (end_type middle e))).
Proof using RL TL.
  intros Hs Hv Hk Hst Hb Hf Hnull Htakes.
  destruct (final_action run final (end_type middle e) r s Hs Hv Hk Hst Hf (end_type_terminal middle e) Hnull Htakes)
    as (s' & r' & Ha & Hs' & Hv' & Hi' & Hst' & Hrest).
  exists s', r'. split; [|done].
  assert (for_each (maybe_take_action clock json_str run) (ds ++ [final]) s = (Ok tt, s')) as Hall.
  { pose proof (body_actions i run ds s Hb) as Hbody. clear -Ha Hbody Hb. revert Hbody.
    induction Hb as [|d ds Hd Hds IH]; cbn [app for_each]; intros Hbody.
    - unfold bind. by rewrite Ha.
    - pose proof (body_actions i run [d] s (proj2 (Forall_singleton _ _) Hd)) as H1.
      cbn [for_each] in H1. unfold bind in *.
      destruct (maybe_take_action clock json_str run d s) as [[[]|?] s1]; [|discriminate H1].
      injection H1 as ->. by apply IH, (body_actions i). }
  rewrite consume_all. unfold try_except. unfold bind at 1. rewrite Hall.
  destruct e as [|err]; [done|]. cbn [raise]. unfold raise.
  assert (fail_if_not_done clock run err s' = (Ok tt, s')) as Hfail.
  { unfold fail_if_not_done, bind. rewrite Hk, (ws_get r') by (done || by rewrite Hv', lookup_insert_eq).
    rewrite Hst', decide_True; [done|]. destruct err; by apply (bool_decide_unpack _). }
  by destruct err; simpl; rewrite ?Hfail.
Qed.

(** Nothing but the [finally] clause changes the number of free slots. *)
Definition keeps_slots {B} (m : Py State B) : Prop := ∀ n, preserves (λ s : State, ws_slots s = n) m.

Lemma keeps_slots_bind {B C} (m : Py State B) (f : B → Py State C) :
  keeps_slots m → (∀ b, keeps_slots (f b)) → keeps_slots (bind m f).
Proof. intros Hm Hf n. apply preserves_bind; [apply Hm|intros b; apply Hf]. Qed.
Lemma keeps_slots_runs {B} (m : Py R B) : keeps_slots (ws_on_runs m).
Proof. intros n s Hs. unfold ws_on_runs, zoom. by destruct (m (ws_runs s)). Qed.
Lemma keeps_slots_threads {B} (m : Py T B) : keeps_slots (ws_on_threads m).
Proof. intros n s Hs. unfold ws_on_threads, zoom. by destruct (m (ws_threads s)). Qed.
Lemma keeps_slots_queue {B} (m : Py Q B) : keeps_slots (ws_on_queue m).
Proof. intros n s Hs. unfold ws_on_queue, zoom. by destruct (m (ws_queue s)). Qed.
Lemma keeps_slots_now : keeps_slots (ws_now clock).
Proof. by intros n s Hs. Qed.
Lemma keeps_slots_same {B} (m : Py State B) : (∀ s, (m s).2 = s) → keeps_slots m.
Proof. intros Hm n s Hs. by rewrite Hm. Qed.

Ltac keep_slots :=
  repeat first
    [ apply keeps_slots_bind; [|intros ?]
    | apply keeps_slots_runs | apply keeps_slots_threads | apply keeps_slots_queue | apply keeps_slots_now
    | by apply keeps_slots_same
    | case_match ].

Lemma keeps_slots_consume n run ds e : keeps_slots (consume_reads clock json_str n run ds e).
Proof.
  intros m. apply preserves_try_except.
  - apply preserves_bind; [apply preserves_for_each|].
    + intros d. revert m. change (keeps_slots (maybe_take_action clock json_str run d)).
      unfold maybe_take_action. keep_slots.
    + intros _. destruct (n <=? length ds)%nat; [|destruct e]; auto with runtime.
  - intros err. destruct (is_exception err); [|auto with runtime].
    revert m. change (keeps_slots (fail_if_not_done clock run err)). unfold fail_if_not_done. keep_slots.
Qed.

Section Execute.
Context {A : Type} (adapters : dict A)
  (adapter_stream : A → ExecutionRequest → list RuntimeEventDraft * stream_end).

Lemma keeps_slots_execute receipt gateway run :
  keeps_slots (execute_run clock json_str adapters adapter_stream receipt gateway run).
Proof.
  unfold execute_run. destruct (dget adapters _) as [a|]; [|apply keeps_slots_queue].
  destruct (adapter_stream a _) as [ds e]. apply keeps_slots_bind; [|intros _; apply keeps_slots_queue].
  destruct gateway as [call|]; [unfold stream_via_grpc; destruct (converted _ _ _ _) as [events e']|]; (apply keeps_slots_bind; [apply keeps_slots_consume|intros _]);
    unfold mark_idle_if_needed; keep_slots.
Qed.

End Execute.

(** Claiming a pending run and executing it. *)
Lemma process_pending receipt (execute : Run → Py State unit) run (s : State) :
  let key := id_value (run_id (receipt_identity receipt)) in
  ws_ready run s → ws_view s !! key = Some run → run_status run = PENDING →
  ∃ s1 r1, ws_ready r1 s1 ∧ ws_view s1 = <[key := r1]> (ws_view s) ∧ run_key r1 = key ∧ run_key run = key ∧
    run_identity r1 = run_identity run ∧ run_status r1 = RUNNING ∧ run_result r1 = JNull ∧ ws_slots s1 = ws_slots s ∧
    ws_threads s1 = ws_threads s ∧ ws_queue s1 = ws_queue s ∧
    process_with clock receipt execute s = try_finally (execute run) ws_release s1.
Proof using RL.
  intros key Hs Hv Hp. assert (run_key run = key) as Hk by (by eapply rst_key; [apply Hs|]).
  assert (∃ r1, run_mark_running run (clock (ws_ticks s)) = Ok r1 ∧ run_identity r1 = run_identity run ∧
    run_status r1 = RUNNING ∧ run_result r1 = JNull ∧ error_details r1 = JObj []) as (r1 & Hr1 & Hi1 & Hst1 & Hn1 & He1).
  { unfold run_mark_running, run_change. rewrite Hp. by eexists. }
  set (s0 := mk_worker_state (ws_runs s) (ws_threads s) (ws_queue s) (ws_slots s) (S (ws_ticks s))).
  destruct (ws_store run r1 s0 Hs) as (s1 & r' & Hu & Hs1 & Hth & Hsl & Hq & Hci & Hcs & Hkeep & Hv1);
    [by rewrite Hk|done|by rewrite Hp|rewrite Hn1; apply rst_takes_null|rewrite He1; by apply rst_takes_texts|].
  rewrite Hn1 in Hkeep. apply stored_as_null in Hkeep.
  exists s1, r'. split; [done|]. split; [by rewrite Hv1, Hk|].
  split; [unfold run_key, run_run_id; by rewrite Hci, Hi1|]. do 7 (split; [first [done|congruence]|]).
  unfold process_with, try_finally. unfold bind at 1. rewrite (ws_get run) by done.
  rewrite bool_decide_eq_true_2 by done. cbn [negb]. unfold bind at 1, ws_now. fold s0.
  unfold bind at 1, of_result. rewrite Hr1. unfold bind at 1. by rewrite Hu.
Qed.

(** The command of a run that is not pending is acknowledged. *)
Lemma process_claimed receipt (execute : Run → Py State unit) r (s : State) :
  let key := id_value (run_id (receipt_identity receipt)) in
  ws_ready r s → ws_view s !! key = Some r → run_status r ≠ PENDING →
  let s' := (process_with clock receipt execute s).2 in
  ws_runs s' = ws_runs s ∧ ws_threads s' = ws_threads s ∧
  ws_queue s' = (queue_acknowledge receipt (ws_queue s)).2.
Proof using RL.
  intros key Hs Hv Hp s'.
  assert (process_with clock receipt execute s = try_finally (ws_on_queue (queue_acknowledge receipt)) ws_release s) as E.
  { unfold process_with, try_finally. unfold bind at 1. rewrite (ws_get r) by done. by rewrite bool_decide_eq_false_2. }
  unfold s'. rewrite E. unfold try_finally, ws_on_queue, zoom. by destruct (queue_acknowledge receipt (ws_queue s)) as [[?|?] ?].
Qed.

(** The [finally] clause gives the slot back and changes nothing else. *)
Lemma finally_release (m : Py State unit) (s : State) : keeps_slots m →
  let s' := (m s).2 in
  try_finally m ws_release s =
    ((m s).1, mk_worker_state (ws_runs s') (ws_threads s') (ws_queue s') (ws_slots s + 1) (ws_ticks s')).
Proof.
  intros Hm s'. pose proof (Hm (ws_slots s) s eq_refl) as Hsl.
  subst s'. unfold try_finally. destruct (m s) as [o s2]. simpl in Hsl |- *. by rewrite <- Hsl.
Qed.

Lemma queue_frame {B} (m : Py Q B) (s : State) :
  ws_runs (ws_on_queue m s).2 = ws_runs s ∧ ws_threads (ws_on_queue m s).2 = ws_threads s.
Proof. unfold ws_on_queue, zoom. by destruct (m (ws_queue s)). Qed.

Lemma mark_idle_step run r (s : State) :
  ws_ready r s → ws_view s !! run_key run = Some r →
  ∃ s', mark_idle_if_needed clock run s = (Ok tt, s') ∧ ws_runs s' = ws_runs s ∧
    ∀ t, run_thread_id r = Some t → ws_thread_status s' (id_value t) = Some IDLE.
Proof using RL TL.
  intros Hs Hv. unfold mark_idle_if_needed. unfold bind at 1. rewrite (ws_get r) by done.
  destruct (run_thread_id r) as [i|] eqn:Hi; [|by exists s].
  destruct (ws_mark r i mark_idle IDLE s Hs Hi) as (s' & Hm & _ & Hr & _ & Ht); [done|].
  exists s'. split; [exact Hm|]. split; [done|]. by intros ? [= <-].
Qed.

(** The gateway, if there is one, reads all [n] events and ends well. *)
Definition gateway_completes (gateway : option gateway_call) (n : nat) : Prop :=
  match gateway with Some c => (n < call_reads c)%nat ∧ call_end c = Ok tt | None => True end.

(** Whether the whole stream is consumed: a gateway is sent events. *)
Definition sent (gateway : option gateway_call) (ds : list RuntimeEventDraft) : bool :=
  match gateway with Some _ => forallb sendable ds | None => true end.

Lemma gateway_drafts run ds e :
  let '(l, e') := converted (gateway_event clock run) 0 ds e in
  l.*1 = sendable_prefix ds ∧
  if forallb sendable ds then l.*1 = ds ∧ e' = e
  else (length l < length ds)%nat ∧ ∃ err, e' = Raised err ∧ is_exception err = true ∧ err ≠ CancelledError.
Proof. apply (converted_drafts clock (identity_to_proto (run_identity run))). Qed.

(** What reaches the gateway of a stream that cannot all be sent. *)
Lemma converted_cut i run ds final e :
  Forall (Adapter.body_draft i) ds → forallb sendable (ds ++ [final]) = false →
  ∃ events err, converted (gateway_event clock run) 0 (ds ++ [final]) e = (events, Raised err) ∧
    Forall (Adapter.body_draft i) events.*1 ∧ (length events ≤ length ds)%nat ∧
    is_exception err = true.
Proof.
  intros Hb Hf. pose proof (gateway_drafts run (ds ++ [final]) e) as H. destruct (converted _ _ _ _) as [events e']. rewrite Hf in H.
  destruct H as (Hp & Hn & err & -> & Herr & _). rewrite length_app in Hn. cbn [length] in Hn.
  exists events, err. split_and!; try done; [|lia].
  destruct (sendable_prefix_take (ds ++ [final])) as [k Hk].
  assert (length events = length (take k (ds ++ [final]))) as Hl by (by rewrite <- Hk, <- Hp, length_fmap).
  rewrite Hp, Hk. rewrite length_take, length_app in Hl. cbn [length] in Hl.
  rewrite take_app_le by lia. by apply Forall_take.
Qed.

(** A stream through the gateway that cannot all be sent fails the run. *)
Lemma executed_unsendable a (adapters : dict a) adapter_stream receipt call run r ad ds e final i (s : State) :
  dget adapters (id_value (assistant_id (receipt_identity receipt))) = Some ad →
  adapter_stream ad (cmd_request (rcp_command receipt)) = (ds ++ [final], e) →
  gateway_completes (Some call) (length (ds ++ [final])) → forallb sendable (ds ++ [final]) = false →
  ws_ready r s → ws_view s !! run_key r = Some r → run_key run = run_key r → run_status r = RUNNING →
  Forall (Adapter.body_draft i) ds →
  let s' := (execute_run clock json_str adapters adapter_stream receipt (Some call) run s).2 in
  ∃ r', rst_view (ws_runs s') = <[run_key r := r']> (ws_view s) ∧ run_status r' = ERROR ∧
    (∀ t, run_thread_id r = Some t → thr_status <$> tst_view (ws_threads s') !! id_value t = Some IDLE).
Proof using RL TL.
  intros Had Hds [Hn He] Hf Hs Hv Hk Hst Hb.
  destruct (converted_cut i run ds final e Hb Hf) as (events & err & Hc & Hev & Hlen & Herr).
  destruct (fail_running run r err s Hs Hv Hk Hst) as (s2 & r2 & Hfail & Hs2 & Hv2 & Hi2 & Hst2 & _).
  destruct (mark_idle_step run r2 s2) as (s3 & Hm & Hr3 & Ht3); [done|by rewrite Hv2, Hk, lookup_insert_eq|].
  assert (run_thread_id r2 = run_thread_id r) as Hth by (unfold run_thread_id; by rewrite Hi2).
  unfold execute_run, stream_via_grpc. rewrite Had, Hds, Hc. rewrite length_app in Hn. cbn [length] in Hn.
  rewrite consume_more, consume_all by (rewrite length_fmap; lia).
  unfold try_except, bind, raise, of_result. rewrite (body_actions i) by done. rewrite Herr, Hfail, He, Hm.
  exists r2. rewrite Hth in Ht3. destruct (queue_frame (queue_acknowledge receipt) s3) as [-> ->]. rewrite Hr3.
  by split_and!.
Qed.

(** Consuming, marking the thread and acknowledging, with or without a gateway. *)
Lemma executed_run a (adapters : dict a) adapter_stream receipt gateway run r ad ds e middle final i (s : State) :
  dget adapters (id_value (assistant_id (receipt_identity receipt))) = Some ad →
  adapter_stream ad (cmd_request (rcp_command receipt)) = (ds ++ [final], e) →
  gateway_completes gateway (length (ds ++ [final])) → sent gateway (ds ++ [final]) = true →
  ws_ready r s → ws_view s !! run_key r = Some r → run_key run = run_key r → run_status r = RUNNING →
  Forall (Adapter.body_draft i) ds → draft_type final = Known (end_type middle e) →
  run_result r = JNull → (end_type middle e = RUN_COMPLETED → rst_takes (R:=R) (draft_data final)) →
  let s' := (execute_run clock json_str adapters adapter_stream receipt gateway run s).2 in
  ∃ r', rst_view (ws_runs s') = <[run_key r := r']> (ws_view s) ∧
    run_status r' = settled_status (end_type middle e) ∧
    (end_type middle e = RUN_COMPLETED → run_result r' = draft_data final) ∧
    (∀ t, run_thread_id r = Some t → thr_status <$> tst_view (ws_threads s') !! id_value t = Some IDLE).
Proof using RL TL.
  intros Had Hds Hgw Hsent Hs Hv Hk Hst Hb Hf Hnull Htakes.
  destruct (consume_settles i run r ds middle final e s Hs Hv Hk Hst Hb Hf Hnull Htakes)
    as (s2 & r2 & Hc & Hs2 & Hv2 & Hi2 & Hst2 & Hres2 & _ & Hth2).
  destruct (mark_idle_step run r2 s2) as (s3 & Hm & Hr3 & Ht3); [done|by rewrite Hv2, Hk, lookup_insert_eq|].
  assert (run_thread_id r2 = run_thread_id r) as Hth by (unfold run_thread_id; by rewrite Hi2).
  unfold execute_run. rewrite Had, Hds.
  set (m := match gateway with Some _ => _ | None => _ end).
  assert (m s = match e with Raised CancelledError => (Raise CancelledError, s2) | _ => (Ok tt, s3) end) as Hms.
  { destruct gateway as [c|]; [destruct Hgw as [Hn He]|]; unfold m, stream_local, stream_via_grpc, bind, of_result.
    - pose proof (gateway_drafts run (ds ++ [final]) e) as Hconv. destruct (converted _ _ _ _) as [events e']. simpl in Hsent. rewrite Hsent in Hconv.
      destruct Hconv as (_ & -> & ->). rewrite consume_more, He by done. rewrite Hc. destruct e as [|[]]; by rewrite ?Hm.
    - rewrite Hc. destruct e as [|[]]; by rewrite ?Hm. }
  clearbody m. unfold bind. rewrite Hms. exists r2. rewrite Hth in Ht3.
  destruct (queue_frame (queue_acknowledge receipt) s3) as [Hq1 Hq2].
  destruct e as [|err]; [|destruct err]; cbn [fst snd]; rewrite ?Hq1, ?Hq2, ?Hr3;
    split_and!; try done; intros t Ht; first [by apply Ht3 | by apply Hth2].
Qed.

(** C16: what becomes of a run in the production worker, with any stores of runs and
    threads, such as the Postgres repositories.  The worker gives its
    execution slot back however a receipt ends.  A pending run whose assistant
    has no adapter in the worker is left running and its command is
    acknowledged, so nobody will finish it.  With a LangGraph adapter the run
    takes the status its stream ends with, as in the execution service; but its
    result is the completion event's own data, its run identifier, not the
    graph's values, and its thread is idle even when the run is interrupted.  A
    run whose events cannot all be sent to the gateway, as one of them holds an
    integer too large for a float, is in error. *)
Theorem worker_run_outcome {A : Type} (adapters : dict A)
  (adapter_stream : A → ExecutionRequest → list RuntimeEventDraft * stream_end)
  (py_repr : pyval → string)
  (astream : Adapter.graph_input → Adapter.astream_arguments → list pyval * stream_end)
  (task : option Z) (tasks tasks' : Adapter.Tasks) (receipt : RunCommandReceipt) (run : Run)
  (gateway : option gateway_call) (s : State) :
  let request := cmd_request (rcp_command receipt) in
  let key := id_value (run_id (receipt_identity receipt)) in
  ws_ready run s → ws_view s !! key = Some run → run_status run = PENDING →
  let s' := (process_receipt clock json_str adapters adapter_stream receipt gateway s).2 in
  match dget adapters (id_value (assistant_id (receipt_identity receipt))) with
  | None => ∃ r, ws_view s' = <[key := r]> (ws_view s) ∧ run_status r = RUNNING
  | Some a =>
      is_ok (Adapter.stream_arguments request) = true →
      Adapter.stream py_repr astream task request tasks = (Ok (adapter_stream a request), tasks') →
      gateway_completes gateway (length (adapter_stream a request).1) →
      ∃ r, ws_view s' = <[key := r]> (ws_view s) ∧
        run_status r = (if sent gateway (adapter_stream a request).1 then
                          match (adapter_stream a request).2 with
                          | Raised CancelledError => CANCELLED
                          | Raised _ => ERROR
                          | Exhausted =>
                              if existsb (λ d, type_is (draft_type d) INTERRUPT_CREATED) (adapter_stream a request).1
                              then INTERRUPTED else SUCCESS
                          end
                        else ERROR) ∧
        (run_status r = SUCCESS →
           run_result r = JObj [("run_id", JStr (id_value (run_id (req_identity request))))]) ∧
        (∀ t, run_thread_id run = Some t → ws_thread_status s' (id_value t) = Some IDLE)
  end ∧
  ws_slots s' = ws_slots s + 1.
Proof using RL TL.
  intros request key Hs Hv Hp s'.
  destruct (process_pending receipt (execute_run clock json_str adapters adapter_stream receipt gateway) run s Hs Hv Hp)
    as (s1 & r1 & Hs1 & Hv1 & Hk1 & Hk & Hi1 & Hst1 & Hn1 & Hsl1 & _ & _ & Hrun).
  subst s'. unfold process_receipt. rewrite Hrun, finally_release by apply keeps_slots_execute. cbn [snd ws_slots]. rewrite Hsl1. split; [|done].
  unfold ws_view, ws_thread_status. cbn [ws_runs ws_threads].
  destruct (dget adapters _) as [a|] eqn:Ha.
  - intros Hok Hstream Hgw. destruct (adapter_stream a request) as [ds e] eqn:Had. cbn [fst snd] in *.
    destruct (langgraph_drafts py_repr astream task tasks tasks' request ds e Hok Hstream)
      as (body & final & -> & Hb & Hf & Hend & _ & Hfin).
    assert (run_thread_id r1 = run_thread_id run) as Hth1 by (unfold run_thread_id; by rewrite Hi1).
    destruct (sent gateway (body ++ [final])) eqn:Hsent; cycle 1.
    { destruct gateway as [call|]; [|done].
      destruct (executed_unsendable A adapters adapter_stream receipt call run r1 a body e final (req_identity request) s1)
        as (r & Hv' & Hst & Hth); try done; [by rewrite Hv1, Hk1, lookup_insert_eq|congruence|].
      rewrite Hth1 in Hth. exists r. split_and!; try done; [|by rewrite Hst].
      unfold ws_view in *. rewrite Hv', Hv1, Hk1. apply insert_insert_eq. }
    destruct (executed_run A adapters adapter_stream receipt gateway run r1 a
      body e body final (req_identity request) s1) as (r & Hv' & Hst & Hres & Hth);
      [done|exact Had|done|done|done|by rewrite Hv1, Hk1, lookup_insert_eq|congruence|done|done|done|done| |].
    { intros Hc. rewrite (Hfin Hc). by apply rst_takes_texts. }
    rewrite Hth1 in Hth. exists r. rewrite <- end_type_status, Hend, Hst. split_and!; [|done| |exact Hth].
    + unfold ws_view in *. rewrite Hv', Hv1, Hk1. apply insert_insert_eq.
    + intros Hsuc. apply end_type_success in Hsuc. by rewrite Hres, Hfin.
  - exists r1. unfold execute_run. rewrite Ha.
    destruct (queue_frame (queue_acknowledge receipt) s1) as [-> _]. by split.
Qed.
(** C17: a call to the gateway that fails strands its run.  The call asks for
    events and fails before it has asked for all of a LangGraph run's that can be sent: the error
    leaves the task and the slot is given back, but the run stays running, its thread
    is not touched and the command is not acknowledged; and when the command is
    delivered again it is acknowledged and the run stays as it is. *)
Theorem gateway_failure_strands_run {A : Type} (adapters : dict A)
  (adapter_stream : A → ExecutionRequest → list RuntimeEventDraft * stream_end)
  (py_repr : pyval → string)
  (astream : Adapter.graph_input → Adapter.astream_arguments → list pyval * stream_end)
  (task : option Z) (tasks tasks' : Adapter.Tasks) (receipt : RunCommandReceipt) (run : Run)
  (a : A) (call : gateway_call) (err : exn) (s : State) :
  let request := cmd_request (rcp_command receipt) in
  let key := id_value (run_id (receipt_identity receipt)) in
  ws_ready run s → ws_view s !! key = Some run → run_status run = PENDING →
  dget adapters (id_value (assistant_id (receipt_identity receipt))) = Some a →
  is_ok (Adapter.stream_arguments request) = true →
  Adapter.stream py_repr astream task request tasks = (Ok (adapter_stream a request), tasks') →
  (call_reads call ≤ length (sendable_prefix (adapter_stream a request).1))%nat → call_end call = Raise err →
  let '(o, s') := process_receipt clock json_str adapters adapter_stream receipt (Some call) s in
  o = Raise err ∧ ws_slots s' = ws_slots s + 1 ∧ ws_threads s' = ws_threads s ∧ ws_queue s' = ws_queue s ∧
  ∃ r, ws_view s' = <[key := r]> (ws_view s) ∧ run_status r = RUNNING ∧
    ∀ gateway, let s'' := (process_receipt clock json_str adapters adapter_stream receipt gateway s').2 in
      ws_runs s'' = ws_runs s' ∧ ws_threads s'' = ws_threads s' ∧
      ws_queue s'' = (queue_acknowledge receipt (ws_queue s')).2.
Proof using RL.
  intros request key Hs Hv Hp Ha Hok Hstream Hn Herr.
  unfold process_receipt.
  destruct (process_pending receipt (execute_run clock json_str adapters adapter_stream receipt (Some call)) run s Hs Hv Hp)
    as (s1 & r1 & Hs1 & Hv1 & Hk1 & Hk & Hi1 & Hst1 & Hn1 & Hsl1 & Hth1 & Hq1 & ->).
  destruct (adapter_stream a request) as [ds e] eqn:Had. cbn [fst] in Hn.
  destruct (langgraph_drafts py_repr astream task tasks tasks' request ds e Hok Hstream) as (body & final & -> & Hb & _).
  assert (execute_run clock json_str adapters adapter_stream receipt (Some call) run s1 = (Raise err, s1)) as Hrun.
  { unfold execute_run. fold request. rewrite Ha, Had. unfold stream_via_grpc.
    pose proof (gateway_drafts run (body ++ [final]) e) as Hc.
    destruct (converted _ _ _ _) as [events e']. destruct Hc as [Hpre _]. destruct (sendable_prefix_take (body ++ [final])) as [k Hk'].
    unfold consume_reads, bind, try_except. rewrite Hpre, (proj2 (Nat.leb_le _ _)) by done.
    rewrite Hk' in Hn |- *. rewrite length_take, length_app in Hn. cbn [length] in Hn.
    rewrite take_take, (take_app_le body), (body_actions (req_identity request)) by (by apply Forall_take || lia). by rewrite Herr. }
  rewrite finally_release, Hrun by apply keeps_slots_execute. cbn [fst snd ws_runs ws_threads ws_queue ws_slots]. rewrite Hsl1, Hth1, Hq1.
  do 4 (split; [done|]). exists r1. split; [exact Hv1|]. split; [done|]. intros gateway.
  destruct Hs1 as (Hi & Ht & Hth). rewrite Hth1 in Ht, Hth.
  match goal with |- context [process_with _ _ _ ?s'] => apply (process_claimed receipt _ r1 s') end;
    [by split_and!|unfold ws_view in *; cbn [ws_runs]; by rewrite Hv1, lookup_insert_eq|by rewrite Hst1].
Qed.
End Outcome.

Module LocalWorker.
Import Local.

(** Postgres tables with a pending run and its thread. *)
Definition run : Run := stamped (pending_run "r1" "t") 0 0.
Definition run_table : map_table (Row:=RunRow) := default empty_table (pack {["r1" := row_of run]}).
Definition thread_table : map_table (Row:=ThreadRow) := default empty_table (pack {["t" := thread_row_of (thread_stamped (thread "t") 0 0)]}).
Definition state
  : WorkerState (R:=PgState (map_table (Row:=RunRow))) (T:=PgState (map_table (Row:=ThreadRow))) (Q:=MemoryQueue) :=
  mk_worker_state (mk_pg_state run_table Z.of_nat) (mk_pg_state thread_table Z.of_nat) (new_memory_queue 60 3) 0 0.

(** An adapter of the graph that yields two values. *)
Definition drafts (_ : unit) (r : ExecutionRequest) : list RuntimeEventDraft * stream_end :=
  match (Adapter.stream (λ _, "") LocalRuns.state_graph (Some 1) r []).1 with
  | Ok ds => ds
  | Raise _ => ([], Exhausted)
  end.

Lemma run_rows : tb_view run_table = {["r1" := row_of run]}.
Proof. by apply pack_Some. Qed.
Lemma thread_rows : tb_view thread_table = {["t" := thread_row_of (thread_stamped (thread "t") 0 0)]}.
Proof. by apply pack_Some. Qed.
Lemma run_is_stored : stored run.
Proof. split; [split; [by repeat constructor|done]|by exists 0, 0]. Qed.
Lemma thread_is_stored : stored (thread_stamped (thread "t") 0 0).
Proof. split; [done|by exists 0, 0]. Qed.

Lemma run_rows_ok : runs_ok run_table.
Proof. intros k row. rewrite run_rows. intros [<- <-]%lookup_singleton_Some. exists run. by split; [apply run_is_stored|]. Qed.
Lemma thread_rows_ok : threads_ok thread_table.
Proof.
  intros k row. rewrite thread_rows. intros [<- <-]%lookup_singleton_Some.
  eexists. by split; [apply thread_is_stored|].
Qed.

Lemma state_ready : ws_ready run state.
Proof.
  split; [split; [apply run_rows_ok|]|split; [split; [apply thread_rows_ok|]|]].
  - change (fitting run_row_fits run_table). intros k row. rewrite run_rows. by intros [<- <-]%lookup_singleton_Some.
  - change (fitting thread_row_fits thread_table). intros k row. rewrite thread_rows. by intros [<- <-]%lookup_singleton_Some.
  - exists (thread_stamped (thread "t") 0 0). apply (entities_Some thread_table); [apply thread_rows_ok|].
    split; [apply thread_is_stored|]. rewrite thread_rows. apply lookup_singleton_eq.
Qed.
Lemma state_view : ws_view state !! "r1" = Some run.
Proof.
  apply (entities_Some run_table); [apply run_rows_ok|]. split; [apply run_is_stored|]. rewrite run_rows. apply lookup_singleton_eq.
Qed.

(** The gateway is gone after the second event. *)
Lemma gateway_failure_strands_run_witness :
  let err := OtherError "StatusCode.UNAVAILABLE" in
  let '(o, s') := process_receipt clock json_str [("agent", tt)] drafts (receipt "r1" "t")
                    (Some (mk_gateway_call 2 (Raise err))) state in
  o = Raise err ∧ ws_slots s' = 1 ∧ ∃ r, ws_view s' !! "r1" = Some r ∧ run_status r = RUNNING.
Proof.
  intros err.
  pose proof (gateway_failure_strands_run clock json_str [("agent", tt)] drafts (λ _, "") LocalRuns.state_graph (Some 1)
    [] (Adapter.stream (λ _, "") LocalRuns.state_graph (Some 1) (request "r1" "t") []).2
    (receipt "r1" "t") run tt (mk_gateway_call 2 (Raise err)) err state
    state_ready state_view eq_refl eq_refl eq_refl eq_refl) as H.
  destruct (process_receipt _ _ _ _ _ _ _) as [o s']. destruct H as (Ho & Hsl & _ & _ & r & Hv & Hst & _).
  { apply Nat.leb_le. vm_compute. reflexivity. }
  { reflexivity. }
  split; [exact Ho|]. split; [exact Hsl|]. exists r. split; [rewrite Hv; apply lookup_insert_eq|exact Hst].
Defined.

Lemma worker_run_outcome_witness :
  let s' := (process_receipt clock json_str [("agent", tt)] drafts (receipt "r1" "t") None state).2 in
  ∃ r, ws_view s' !! "r1" = Some r ∧ run_status r = SUCCESS ∧
    run_result r = JObj [("run_id", JStr "r1")] ∧ ws_slots s' = 1.
Proof.
  intros s'.
  destruct (worker_run_outcome clock json_str [("agent", tt)] drafts (λ _, "") LocalRuns.state_graph (Some 1) []
    (Adapter.stream (λ _, "") LocalRuns.state_graph (Some 1) (request "r1" "t") []).2
    (receipt "r1" "t") run None state state_ready state_view) as [H Hsl].
  - reflexivity.
  - cbn [dget] in H. rewrite decide_True in H by reflexivity.
    destruct (H eq_refl eq_refl I) as (r & Hv & Hst & Hres & _).
    assert (run_status r = SUCCESS) as Hsuc by (rewrite Hst; reflexivity).
    exists r. split; [unfold s'; rewrite Hv; apply lookup_insert_eq|].
    split; [exact Hsuc|split; [exact (Hres Hsuc)|exact Hsl]].
Defined.
End LocalWorker.
