(* ===== verification/WorkerLoop.v ===== *)
(** * The worker process's loop and its shutdown

    The control of [_serve] in [services/worker/main.py]: [_execution_loop] receives
    receipts and starts a task for each that gets a slot of [exec_sem]; a signal sets
    [stop], upon which the loop is cancelled, the connections are closed and the
    process ends.  What a task does is [WorkerService.process_receipt]; here it is
    between its first and its last step.  [AllLoop] is the loop of [services/all/main.py]. *)

From S2P Require Import Prelude PyDict PyStr Json Errors Identity Execution Capacity.

(** Where the loop stands: in [queue.receive], in [exec_sem.acquire] with a receipt, or
    behind its end, with the exception it ended with. *)
Inductive loop_phase : Type :=
| Receiving
| Acquiring (r : RunCommandReceipt)
| Left (e : option exn).

(** The process: [stop], whether [exec_task] was cancelled and the queue closed; the
    receipts in the order they were received, the tasks that were started, those in
    progress, those that have ended, and what shutting down has dropped. *)
Record WorkerProcess : Type := mk_process {
  pr_slots : Semaphore;
  pr_loop : loop_phase;
  pr_stop : bool;
  pr_cancelled : bool;
  pr_closed : bool;
  pr_received : list RunCommandReceipt;
  pr_started : list RunCommandReceipt;
  pr_tasks : list RunCommandReceipt;
  pr_ended : list RunCommandReceipt;
  pr_dropped : list RunCommandReceipt;
}.

(** [asyncio.Semaphore(max_conc)] and the first test of the loop; without a queue the
    loop returns. *)
Definition new_process (max_conc : Z) (has_queue : bool) : res WorkerProcess :=
  if max_conc <? 0 then Raise (ValueError "Semaphore initial value must be >= 0")
  else Ok (mk_process (mk_semaphore max_conc 0 0) (if has_queue then Receiving else Left None)
             false false false [] [] [] [] []).

(** [while not stop.is_set()] *)
Definition next_turn (p : WorkerProcess) : loop_phase := if pr_stop p then Left None else Receiving.
Definition set_loop (l : loop_phase) (p : WorkerProcess) : WorkerProcess :=
  mk_process (pr_slots p) l (pr_stop p) (pr_cancelled p) (pr_closed p) (pr_received p) (pr_started p) (pr_tasks p)
    (pr_ended p) (pr_dropped p).
(** [create_task(_process_receipt(...))] and the next test. *)
Definition start_task (s : Semaphore) (r : RunCommandReceipt) (p : WorkerProcess) : WorkerProcess :=
  mk_process s (next_turn p) (pr_stop p) (pr_cancelled p) (pr_closed p) (pr_received p) (pr_started p ++ [r])
    (r :: pr_tasks p) (pr_ended p) (pr_dropped p).

(** [receive] has returned or raised. *)
Definition received (o : res RunCommandReceipt) (p : WorkerProcess) : WorkerProcess :=
  match o with
  | Ok r =>
      let p := mk_process (pr_slots p) (pr_loop p) (pr_stop p) (pr_cancelled p) (pr_closed p) (pr_received p ++ [r])
                 (pr_started p) (pr_tasks p) (pr_ended p) (pr_dropped p) in
      match sem_acquire (pr_slots p) with
      | (true, s) => start_task s r p
      | (false, s) =>
          mk_process s (Acquiring r) (pr_stop p) (pr_cancelled p) (pr_closed p) (pr_received p) (pr_started p)
            (pr_tasks p) (pr_ended p) (pr_dropped p)
      end
  | Raise CancelledError => set_loop (Left None) p
  | Raise (Failure f) => set_loop (if decide (failure_code f = QUEUE_CLOSED) then Left None else next_turn p) p
  | Raise e => set_loop (Left (Some e)) p
  end.

(** A task has ended, in whatever way: its [finally] clause. *)
Definition end_task (r : RunCommandReceipt) (rest : list RunCommandReceipt) (p : WorkerProcess) : WorkerProcess :=
  mk_process (sem_release (pr_slots p)) (pr_loop p) (pr_stop p) (pr_cancelled p) (pr_closed p) (pr_received p)
    (pr_started p) rest (r :: pr_ended p) (pr_dropped p).

(** [exec_task.cancel()] and its [gather]: a receipt that waits for a slot is dropped. *)
Definition cancel_loop (p : WorkerProcess) : WorkerProcess :=
  match pr_loop p with
  | Acquiring r =>
      mk_process
        (if 0 <? sem_granted (pr_slots p) then sem_cancel_granted (pr_slots p) else sem_cancel_waiting (pr_slots p))
        (Left None) (pr_stop p) true (pr_closed p) (pr_received p) (pr_started p) (pr_tasks p) (pr_ended p)
        (r :: pr_dropped p)
  | Receiving =>
      mk_process (pr_slots p) (Left None) (pr_stop p) true (pr_closed p) (pr_received p) (pr_started p) (pr_tasks p)
        (pr_ended p) (pr_dropped p)
  | Left e =>
      mk_process (pr_slots p) (Left e) (pr_stop p) true (pr_closed p) (pr_received p) (pr_started p) (pr_tasks p)
        (pr_ended p) (pr_dropped p)
  end.
(** [queue.close()]; the tasks that are in progress go on. *)
Definition close_queue (p : WorkerProcess) : WorkerProcess :=
  mk_process (pr_slots p) (pr_loop p) (pr_stop p) (pr_cancelled p) true (pr_received p) (pr_started p) (pr_tasks p)
    (pr_ended p) (pr_dropped p).
(** The end of [asyncio.run], which cancels the tasks that are left. *)
Definition exit_process (p : WorkerProcess) : WorkerProcess :=
  mk_process (Nat.iter (length (pr_tasks p)) sem_release (pr_slots p)) (pr_loop p) (pr_stop p) (pr_cancelled p) (pr_closed p) (pr_received p) (pr_started p) []
    (pr_ended p) (pr_tasks p ++ pr_dropped p).

Definition signal (p : WorkerProcess) : WorkerProcess :=
  mk_process (pr_slots p) (pr_loop p) true (pr_cancelled p) (pr_closed p) (pr_received p) (pr_started p) (pr_tasks p)
    (pr_ended p) (pr_dropped p).

Inductive process_step : WorkerProcess → WorkerProcess → Prop :=
| step_received o p : pr_loop p = Receiving → process_step p (received o p)
| step_granted r p : pr_loop p = Acquiring r → 0 < sem_granted (pr_slots p) →
    process_step p (start_task (sem_resume (pr_slots p)) r p)
| step_end_task r l l' p : pr_tasks p = l ++ r :: l' → process_step p (end_task r (l ++ l') p)
| step_signal p : process_step p (signal p)
| step_cancel p : pr_stop p = true → pr_cancelled p = false → process_step p (cancel_loop p)
| step_close p : pr_cancelled p = true → pr_closed p = false → process_step p (close_queue p)
| step_exit p : pr_closed p = true → process_step p (exit_process p).

(** ** What holds of it *)

(** The receipt that waits for a slot. *)
Definition waiting_receipts (p : WorkerProcess) : list RunCommandReceipt :=
  match pr_loop p with Acquiring r => [r] | _ => [] end.

Record process_ok (max_conc : Z) (p : WorkerProcess) : Prop := mk_process_ok {
  ok_slots : sem_ok max_conc (Z.of_nat (length (pr_tasks p))) (pr_slots p);
  ok_waiting : sem_waiting (pr_slots p) + sem_granted (pr_slots p) = Z.of_nat (length (waiting_receipts p));
  ok_received : Permutation (pr_received p) (waiting_receipts p ++ pr_tasks p ++ pr_ended p ++ pr_dropped p);
  ok_started : ∃ rest, pr_received p = pr_started p ++ rest ∧
    match pr_loop p with Receiving => rest = [] | Acquiring r => rest = [r] | Left _ => (length rest ≤ 1)%nat end;
}.

Lemma waiting_start s r p : waiting_receipts (start_task s r p) = [].
Proof. unfold waiting_receipts, start_task, next_turn. cbn. by destruct (pr_stop p). Qed.

Lemma releases_ok m n s : sem_ok m (Z.of_nat n) s → 0 ≤ Z.of_nat n →
  sem_ok m 0 (Nat.iter n sem_release s) ∧
  sem_waiting (Nat.iter n sem_release s) + sem_granted (Nat.iter n sem_release s) = sem_waiting s + sem_granted s.
Proof.
  intros Hs _. enough (∀ k, (k ≤ n)%nat → sem_ok m (Z.of_nat (n - k)) (Nat.iter k sem_release s) ∧
    sem_waiting (Nat.iter k sem_release s) + sem_granted (Nat.iter k sem_release s) = sem_waiting s + sem_granted s) as H.
  { destruct (H n) as [H1 H2]; [done|]. by rewrite Nat.sub_diag in H1. }
  induction k as [|k IH]; intros Hk; [by rewrite Nat.sub_0_r|]. destruct IH as [H1 H2]; [lia|]. simpl. split.
  - replace (Z.of_nat (n - S k)) with (Z.of_nat (n - k) - 1) by lia. apply sem_release_ok; [done|lia].
  - rewrite <- H2. unfold sem_release, sem_wake. simpl. lia.
Qed.

(** Starting the task of the last receipt. *)
Lemma start_task_ok m s r p rest :
  sem_ok m (Z.of_nat (length (pr_tasks p)) + 1) s → sem_waiting s + sem_granted s = 0 →
  Permutation (pr_received p) (r :: pr_tasks p ++ pr_ended p ++ pr_dropped p) →
  pr_received p = pr_started p ++ rest → rest = [r] → process_ok m (start_task s r p).
Proof.
  intros Hs Hw Hp Hr ->. split; cbn -[Z.of_nat].
  - rewrite Nat2Z.inj_succ. exact Hs.
  - by rewrite Hw, waiting_start.
  - by rewrite waiting_start.
  - exists []. rewrite app_nil_r. split; [done|]. unfold next_turn. destruct (pr_stop p); simpl; [lia|done].
Qed.

Lemma leave_ok m p l : process_ok m p → pr_loop p = Receiving → (∀ r, l ≠ Acquiring r) → process_ok m (set_loop l p).
Proof.
  intros [Hs Hw Hp (rest & Hr & Hrest)] Hl Hn. rewrite Hl in Hrest. subst rest.
  unfold waiting_receipts in *. rewrite Hl in *.
  split; cbn -[Z.of_nat]; [done| | |]; unfold waiting_receipts; simpl; destruct l as [|r|e]; try done; try (by destruct (Hn r)).
  - by exists [].
  - exists []. split; [done|]. simpl. lia.
Qed.

Lemma process_step_ok m p p' : process_ok m p → process_step p p' → process_ok m p'.
Proof.
  intros Hok Hstep. pose proof Hok as [Hs Hw Hp (rest & Hr & Hrest)].
  destruct Hstep as [o p Hl|r p Hl Hg|r l l' p Hl|p|p Hstop Hc|p Hc Hcl|p Hcl].
  - destruct o as [r|e].
    + simpl. unfold waiting_receipts in Hw, Hp. rewrite Hl in *. subst rest. rewrite app_nil_r in Hr.
      destruct (sem_acquire (pr_slots p)) as [[] s] eqn:Ha.
      * pose proof (sem_acquire_ok _ _ _ _ _ Hs Ha) as Hs'. apply (start_task_ok m s r _ [r]); cbn -[Z.of_nat]; [exact Hs'| | |by rewrite Hr|done].
        -- unfold sem_acquire in Ha. destruct (_ || _); simplify_eq. simpl in *. lia.
        -- rewrite Hp. by rewrite <- Permutation_cons_append.
      * pose proof (sem_acquire_ok _ _ _ _ _ Hs Ha) as Hs'. split; cbn -[Z.of_nat]; [done| | |].
        -- unfold waiting_receipts. simpl. unfold sem_acquire in Ha. destruct (_ || _); simplify_eq. simpl in *. lia.
        -- unfold waiting_receipts. simpl. rewrite Hp. by rewrite <- Permutation_cons_append.
        -- exists [r]. by rewrite Hr.
    + destruct e; simpl; try (by apply leave_ok); unfold next_turn;
        apply leave_ok; try done; intros r0; repeat case_match; done.
  - unfold waiting_receipts in Hw, Hp. rewrite Hl in *. subst rest.
    apply (start_task_ok m _ r p [r]); [by apply sem_resume_ok| |done|exact Hr|done].
    unfold sem_resume, sem_wake. destruct Hs as (H1 & H2 & H3 & H4 & H5). simpl in *. lia.
  - rewrite Hl in *. rewrite length_app in Hs. simpl in Hs. split; cbn -[Z.of_nat].
    + rewrite length_app. replace (Z.of_nat (length l + length l')) with (Z.of_nat (length l + S (length l')) - 1) by lia.
      apply sem_release_ok; [done|lia].
    + change (waiting_receipts (end_task r (l ++ l') p)) with (waiting_receipts p). rewrite <- Hw.
      unfold sem_release, sem_wake. simpl. lia.
    + change (waiting_receipts (end_task r (l ++ l') p)) with (waiting_receipts p). rewrite Hp. f_equiv.
      rewrite <- !app_assoc. f_equiv. simpl. by rewrite Permutation_middle.
    + by exists rest.
  - split; cbn -[Z.of_nat]; [done|done|done|by exists rest].
  - unfold cancel_loop. unfold waiting_receipts in Hw, Hp. destruct (pr_loop p) as [|r|e] eqn:Hl.
    + split; cbn -[Z.of_nat]; try done. exists rest. subst rest. split; [done|simpl; lia].
    + subst rest. assert (sem_waiting (pr_slots p) + sem_granted (pr_slots p) = 1) as Hw1 by exact Hw.
      destruct Hs as (H1 & H2 & H3 & H4 & H5). split; cbn -[Z.of_nat].
      * case_match; to_prop; [apply sem_cancel_granted_ok; [by split_and!|lia]|apply sem_cancel_waiting_ok; [by split_and!|lia]].
      * unfold waiting_receipts. simpl. case_match; to_prop; unfold sem_cancel_granted, sem_cancel_waiting, sem_wake; simpl; lia.
      * unfold waiting_receipts. simpl. rewrite Hp. simpl. by rewrite !app_assoc, <- Permutation_middle.
      * exists [r]. split; [done|simpl; lia].
    + split; cbn -[Z.of_nat]; try done. exists rest. by split.
  - split; cbn -[Z.of_nat]; [done|done|done|by exists rest].
  - destruct (releases_ok m (length (pr_tasks p)) (pr_slots p) Hs) as [Hs' Hw']; [lia|]. split; cbn -[Z.of_nat]; [done| | |].
    + by rewrite Hw', Hw.
    + rewrite Hp. change (waiting_receipts (exit_process p)) with (waiting_receipts p). f_equiv.
      by rewrite !(Permutation_app_comm _ (pr_ended p ++ _)), <- app_assoc, (Permutation_app_comm (pr_dropped p)).
    + by exists rest.
Qed.

Lemma new_process_ok m b p : new_process m b = Ok p → process_ok m p.
Proof.
  unfold new_process. destruct (m <? 0) eqn:Hm; [done|]. intros [= <-]. to_prop.
  split; cbn; [sem_solve|by destruct b..|]. exists []. by destruct b; split; cbn; try lia.
Qed.

(** Once [stop] is set the loop starts at most the task it waits for. *)
Lemma stopped_step p p' n :
  process_step p p' → pr_stop p = true ∧ (length (pr_started p) + (if pr_loop p is Left _ then 0 else 1) ≤ n)%nat →
  pr_stop p' = true ∧ (length (pr_started p') + (if pr_loop p' is Left _ then 0 else 1) ≤ n)%nat.
Proof.
  intros Hstep [Hs Hn].
  destruct Hstep as [o p Hl|r p Hl Hg|r l l' p Hl|p|p Hstop Hc|p Hc Hcl|p Hcl]; try by split.
  - rewrite Hl in Hn. destruct o as [r|e].
    + cbn. destruct (sem_acquire _) as [[] s]; cbn; [|by split]. unfold next_turn. cbn. rewrite Hs, length_app. cbn.
      split; [done|lia].
    + destruct e; cbn; unfold next_turn; rewrite ?Hs; try case_decide; split; try done; lia.
  - rewrite Hl in Hn. cbn. unfold next_turn. rewrite Hs, length_app. cbn. split; [done|lia].
  - unfold cancel_loop. destruct (pr_loop p); cbn; split; try done; lia.
Qed.
Lemma cancelled_step p p' l :
  process_step p p' → pr_cancelled p = true ∧ pr_started p = l ∧ (∃ e, pr_loop p = Left e) →
  pr_cancelled p' = true ∧ pr_started p' = l ∧ (∃ e, pr_loop p' = Left e).
Proof.
  intros Hstep (Hc & Hl & e & He). destruct Hstep as [o p Hr|r p Hr|r l1 l2 p|p|p|p|p]; try congruence;
    try (by split_and!; [| |exists e]).
Qed.
Lemma cancelled_left p0 p : pr_cancelled p0 = false → reachable process_step p0 p →
  pr_cancelled p = true → ∃ e, pr_loop p = Left e.
Proof.
  intros H0 Hr. revert Hr. apply (reachable_invariant process_step (λ p, pr_cancelled p = true → ∃ e, pr_loop p = Left e));
    [congruence|].
  intros p1 p2 IH Hstep. destruct Hstep as [o q Hl|r q Hl Hg|r l l' q Hl|q|q Hstop Hc|q Hc Hcl|q Hcl]; try exact IH.
  - intros Hc. exfalso. assert (pr_cancelled q = true) as Hp.
    { destruct o as [r|[]]; revert Hc; cbn; try done. by destruct (sem_acquire _) as [[] ?]. }
    destruct (IH Hp). congruence.
  - intros Hc. destruct (IH Hc). congruence.
  - intros _. unfold cancel_loop. destruct (pr_loop q); by eexists.
Qed.

(** C18: the tasks of a worker process.  At any time at most [max_conc] tasks are in
    progress, every slot is free, granted or held by one of them, and a receipt does not
    wait while a slot is free unless it is about to get one.  Every receipt that was
    received is in a task, waits for one, was handled by one, or was dropped by the
    shutdown; tasks are started in the order of the receipts, and all but the last
    receipt have been started.  Once a signal has come, at most one more task is ever
    started, and none once the loop is cancelled. *)
Theorem worker_loop_bounded (max_conc : Z) (has_queue : bool) (p0 p p' : WorkerProcess) :
  new_process max_conc has_queue = Ok p0 → reachable process_step p0 p → reachable process_step p p' →
  Z.of_nat (length (pr_tasks p)) ≤ max_conc ∧
  sem_value (pr_slots p) + sem_granted (pr_slots p) + Z.of_nat (length (pr_tasks p)) = max_conc ∧
  (∀ r, pr_loop p = Acquiring r → 0 < sem_value (pr_slots p) → 0 < sem_granted (pr_slots p)) ∧
  Permutation (pr_received p) (waiting_receipts p ++ pr_tasks p ++ pr_ended p ++ pr_dropped p) ∧
  (∃ rest, pr_received p = pr_started p ++ rest ∧ (length rest ≤ 1)%nat) ∧
  (pr_stop p = true → (length (pr_started p') ≤ length (pr_started p) + 1)%nat) ∧
  (pr_cancelled p = true → pr_started p' = pr_started p).
Proof.
  intros Hnew Hr Hr'. assert (process_ok max_conc p) as [Hs Hw Hp (rest & Hrec & Hrest)].
  { revert Hr. apply (reachable_invariant process_step (process_ok max_conc)); [by eapply new_process_ok|].
    intros ? ?. apply process_step_ok. }
  pose proof Hs as (H1 & H2 & H3 & H4 & H5). split; [lia|]. split; [done|]. split; [|split; [done|split; [|split]]].
  - intros r Hl Hv. unfold waiting_receipts in Hw. rewrite Hl in Hw. cbn in Hw. destruct (decide (0 < sem_granted (pr_slots p))); [done|].
    apply H5; lia.
  - exists rest. split; [done|]. destruct (pr_loop p); subst; cbn; lia.
  - intros Hstop. apply (reachable_invariant process_step (λ q, pr_stop q = true ∧
      (length (pr_started q) + (if pr_loop q is Left _ then 0 else 1) ≤ length (pr_started p) + 1)%nat)) in Hr'; [lia| |].
    + split; [done|]. destruct (pr_loop p); lia.
    + intros p1 p2 ? ?. by eapply stopped_step.
  - intros Hc. apply (reachable_invariant process_step (λ q, pr_cancelled q = true ∧ pr_started q = pr_started p ∧
      ∃ e, pr_loop q = Left e)) in Hr' as (_ & ? & _); [done| |].
    + split; [done|]. split; [done|]. eapply cancelled_left; [|exact Hr|done].
      unfold new_process in Hnew. destruct (_ <? _); by simplify_eq.
    + intros p1 p2 ? ?. by eapply cancelled_step.
Qed.

(** ** A worker with one slot that is stopped while it executes a run *)
Module LocalLoop.
Definition receipt (run : string) : RunCommandReceipt :=
  let i := mk_identity (mk_scope (mk_id "w") (mk_id "p") (mk_id "a") (mk_id "r") (mk_id "d")) (mk_id "agent") (mk_id run)
             (mk_id "attempt") None in
  mk_receipt (mk_command (mk_id "c") i (default_request i) NORMAL 0 0) (mk_id "lease") 1 0 60.
Definition start : WorkerProcess := mk_process (mk_semaphore 1 0 0) Receiving false false false [] [] [] [] [].
Definition start2 : WorkerProcess := mk_process (mk_semaphore 2 0 0) Receiving false false false [] [] [] [] [].
Definition busy : WorkerProcess := received (Ok (receipt "r2")) (received (Ok (receipt "r1")) start).

Lemma busy_reachable : reachable process_step start busy.
Proof.
  eapply reach_step; [eapply reach_step; [apply reach_init|by apply (step_received (Ok (receipt "r1")))]|].
  by apply (step_received (Ok (receipt "r2"))).
Qed.

Lemma worker_loop_bounded_witness :
  new_process 1 true = Ok start ∧ pr_tasks busy = [receipt "r1"] ∧ pr_loop busy = Acquiring (receipt "r2") ∧
  Z.of_nat (length (pr_tasks busy)) ≤ 1.
Proof.
  split; [reflexivity|]. split; [reflexivity|]. split; [reflexivity|].
  exact (proj1 (worker_loop_bounded 1 true start busy busy eq_refl busy_reachable (reach_init _ _))).
Defined.

(** The shutdown waits for no task: the run in progress and the one that waits are both
    dropped, although their receipts were never acknowledged. *)
Lemma shutdown_drops_tasks :
  let last := exit_process (close_queue (cancel_loop (signal busy))) in
  reachable process_step start last ∧ pr_ended last = [] ∧ pr_dropped last = [receipt "r1"; receipt "r2"].
Proof.
  split; [|done]. eapply reach_step; [|by apply step_exit]. eapply reach_step; [|by apply step_close].
  eapply reach_step; [|by apply step_cancel]. eapply reach_step; [apply busy_reachable|apply step_signal].
Qed.
End LocalLoop.

(** ** The loop of the all-in-one process

    [_execution_loop] of [services/all/main.py] is the same loop around one gRPC channel
    that all tasks send their events through: it is opened before the loop, and closed in
    the [finally] clause when the loop is left, in whatever way. *)
Module AllLoop.

Record AllProcess : Type := mk_all_process {
  al_process : WorkerProcess;
  al_channel : bool;
}.

(** The [finally] clause. *)
Definition leave (p : WorkerProcess) (channel : bool) : AllProcess :=
  mk_all_process p (match pr_loop p with Left _ => false | _ => channel end).
(** Without a queue there is no channel. *)
Definition new_all_process (max_conc : Z) (has_queue : bool) : res AllProcess :=
  result_map (λ p, leave p has_queue) (new_process max_conc has_queue).

Definition all_step (a a' : AllProcess) : Prop :=
  ∃ p', process_step (al_process a) p' ∧ a' = leave p' (al_channel a).

Lemma all_reachable a0 a : reachable all_step a0 a → reachable process_step (al_process a0) (al_process a).
Proof.
  induction 1 as [|a a' _ IH (p' & Hstep & ->)]; [apply reach_init|]. eapply reach_step; [exact IH|exact Hstep].
Qed.

Lemma left_step p p' e : process_step p p' → pr_loop p = Left e → (∃ e', pr_loop p' = Left e') ∧ pr_started p' = pr_started p.
Proof.
  intros Hstep Hl. destruct Hstep; try congruence; cbn; rewrite ?Hl; try (split; [by eexists|done]).
  unfold cancel_loop. rewrite Hl. split; [by eexists|done].
Qed.

(** The channel is open as long as the loop goes on: every task is started on an open
    channel, and when it is closed no task is started any more. *)
Lemma channel_while_looping max_conc has_queue a0 a :
  new_all_process max_conc has_queue = Ok a0 → reachable all_step a0 a →
  (al_channel a = true ↔ ∀ e, pr_loop (al_process a) ≠ Left e) ∧
  ∀ a', reachable all_step a a' → al_channel a = false →
    al_channel a' = false ∧ pr_started (al_process a') = pr_started (al_process a).
Proof.
  intros Hnew Hr.
  assert (al_channel a = true ↔ ∀ e, pr_loop (al_process a) ≠ Left e) as Hopen.
  { revert Hr. apply (reachable_invariant all_step (λ a, al_channel a = true ↔ ∀ e, pr_loop (al_process a) ≠ Left e)).
    - unfold new_all_process, new_process in Hnew. destruct (max_conc <? 0); [done|]. injection Hnew as <-.
      destruct has_queue; simpl; naive_solver.
    - intros a1 a2 IH (p' & Hstep & ->). simpl. destruct (pr_loop p') as [|r|e] eqn:Hl; [| |naive_solver].
      all: split; [done|]; intros _; apply IH; intros e He.
      all: by destruct (left_step _ _ _ Hstep He) as [[e' He'] _]; congruence. }
  split; [exact Hopen|]. intros a' Hr' Hclosed.
  assert (∃ e, pr_loop (al_process a) = Left e) as Hleft.
  { destruct (pr_loop (al_process a)) as [|r|e]; [| |by eexists]; by rewrite (proj2 Hopen) in Hclosed. }
  enough (al_channel a' = false ∧ pr_started (al_process a') = pr_started (al_process a) ∧
    ∃ e, pr_loop (al_process a') = Left e) as (? & ? & _) by done.
  revert Hr'. apply (reachable_invariant all_step (λ a', al_channel a' = false ∧
    pr_started (al_process a') = pr_started (al_process a) ∧ ∃ e, pr_loop (al_process a') = Left e)); [done|].
  intros a1 a2 (Hc & Hs & e & He) (p' & Hstep & ->). destruct (left_step _ _ _ Hstep He) as [[e' He'] Hst]. simpl.
  rewrite He'. split; [done|]. split; [congruence|by eexists].
Qed.

(** An exception of [receive] that the loop does not expect ends it and closes the
    channel under the task that uses it, while the process goes on: no signal has come,
    and no receipt is received any more. *)
Lemma receive_error_closes_channel err : is_exception err = true → (∀ f, err ≠ Failure f) →
  let broken := leave (received (Raise err) (received (Ok (LocalLoop.receipt "r1")) LocalLoop.start2)) true in
  reachable all_step (leave LocalLoop.start2 true) broken ∧
  al_channel broken = false ∧ pr_tasks (al_process broken) = [LocalLoop.receipt "r1"] ∧
  pr_stop (al_process broken) = false ∧ pr_loop (al_process broken) = Left (Some err).
Proof.
  intros He Hf broken. split_and!; try (by destruct err; try done; by destruct (Hf f)).
  eapply reach_step; [eapply reach_step; [apply reach_init|]|].
  - eexists. split; [by apply (step_received (Ok (LocalLoop.receipt "r1")))|reflexivity].
  - eexists. split; [by apply (step_received (Raise err))|reflexivity].
Qed.
End AllLoop.

(** ** The worker's channel to the gateway

    The loop of [services/worker/main.py] opens a channel if [UR_GATEWAY_GRPC_TARGET] is
    set, gives it to the tasks it starts, and closes it when it ends; otherwise the tasks
    have no channel and send no events. *)
Module GatewayChannel.

Definition gateway_target (env : dict string) : option string :=
  match dget env "UR_GATEWAY_GRPC_TARGET" with Some t => if str_truthy t then Some t else None | None => None end.
Definition opens (env : dict string) (has_queue : bool) : bool :=
  has_queue && bool_decide (is_Some (gateway_target env)).
Definition new_process_with_channel (env : dict string) (max_conc : Z) (has_queue : bool) : res AllLoop.AllProcess :=
  result_map (λ p, AllLoop.leave p (opens env has_queue)) (new_process max_conc has_queue).

Definition looping (p : WorkerProcess) : bool := match pr_loop p with Left _ => false | _ => true end.

(** The channel is open exactly while the loop goes on, if the target is set. *)
Lemma worker_channel env max_conc has_queue a0 a :
  new_process_with_channel env max_conc has_queue = Ok a0 → reachable AllLoop.all_step a0 a →
  AllLoop.al_channel a = opens env has_queue && looping (AllLoop.al_process a).
Proof.
  intros Hnew. unfold new_process_with_channel in Hnew.
  destruct (new_process max_conc has_queue) as [p0|]; [|done]. injection Hnew as <-.
  apply (reachable_invariant AllLoop.all_step (λ a, AllLoop.al_channel a = opens env has_queue && looping (AllLoop.al_process a))).
  - unfold looping. simpl. destruct (pr_loop p0); by rewrite ?andb_true_r, ?andb_false_r.
  - intros a1 a2 IH (p' & Hstep & ->). unfold looping in *. simpl in *.
    destruct (pr_loop p') eqn:Hl; [| |by rewrite andb_false_r]; rewrite IH;
      (destruct (pr_loop (AllLoop.al_process a1)) eqn:Hl1; [done|done|];
       destruct (AllLoop.left_step _ _ _ Hstep Hl1) as [[e' He'] _]; congruence).
Qed.

(** After the signal the channel is closed under the tasks that are in progress: what
    they send to the gateway from then on is lost. *)
Definition with_target : dict string := [("UR_GATEWAY_GRPC_TARGET", "gateway:9090")].
Definition stopping : AllLoop.AllProcess :=
  AllLoop.leave (cancel_loop (signal (received (Ok (LocalLoop.receipt "r1")) LocalLoop.start2))) true.
Lemma shutdown_closes_channel :
  new_process_with_channel with_target 2 true = Ok (AllLoop.leave LocalLoop.start2 true) ∧
  reachable AllLoop.all_step (AllLoop.leave LocalLoop.start2 true) stopping ∧
  AllLoop.al_channel stopping = false ∧ pr_tasks (AllLoop.al_process stopping) = [LocalLoop.receipt "r1"].
Proof.
  split_and!; try reflexivity.
  eapply reach_step; [eapply reach_step; [eapply reach_step; [apply reach_init|]|]|].
  - eexists. split; [by apply (step_received (Ok (LocalLoop.receipt "r1")))|reflexivity].
  - eexists. split; [apply step_signal|reflexivity].
  - eexists. split; [by apply step_cancel|reflexivity].
Qed.
End GatewayChannel.
