(* ===== verification/AllInOne.v ===== *)
(** * The worker of the all-in-one process

    [services/all/main.py] runs the gateway and a worker in one process.  Its worker
    has one adapter, and settles a run in [_event_stream], the generator that gives
    the gateway the events: [services/worker/main.py] again, with a result of the
    graph's own and with the run's last word inside the generator. *)

From S2P Require Import Prelude PyDict PyStr Json Errors JsonAccess Identity Execution Ports.
From S2P Require Import MemoryRepositories MemoryQueue Service ServiceSafety ServiceSpec Grpc LangGraph LangGraphRuns.
From S2P Require Import Database Postgres PostgresSpec PostgresThreads PostgresStores WorkerService.

Section AllInOne.
Context {R T Q : Type} `{RunRepository R, ThreadRepository T, RunCommandQueue Q}
  (clock : nat → datetime) (json_str : json → string).

Notation State := (WorkerState (R:=R) (T:=T) (Q:=Q)).
Notation now := (ws_now clock).

(** The local variables of [_event_stream]: [seq], [last_result], [terminal]. *)
Record StreamVars : Type := mk_vars {
  var_seq : nat;
  var_last_result : json;
  var_terminal : bool;
}.
Definition initial_vars : StreamVars := mk_vars 0 JNull false.

(** The event that is yielded for the draft when [seq] is [n]; a draft that cannot be
    sent raises. *)
Definition stream_event (i : ExecutionIdentity) (n : nat) (d : RuntimeEventDraft) : res ProtoEvent :=
  proto_event clock (identity_to_proto i) n d.

(** The run that is stored for a terminal draft. *)
Definition stream_outcome (d : RuntimeEventDraft) (last_result : json) (current : Run) (t : datetime) : res Run :=
  if type_is (draft_type d) RUN_COMPLETED then run_complete current last_result t
  else if type_is (draft_type d) RUN_CANCELLED then run_cancel current t
  else if type_is (draft_type d) RUN_INTERRUPTED
  then Ok (mk_run (run_identity current) INTERRUPTED (run_metadata current)
             (run_created_at current) (Some t) (run_result current) (run_error current))
  else run_fail current
         (new_run_error "FRAMEWORK_EXECUTION_FAILED" (json_str (draft_data d)) false None) t.

(** What follows the [yield] of a draft. *)
Definition stream_step (key : string) (v : StreamVars) (d : RuntimeEventDraft) : Py State StreamVars :=
  let last := if type_is (draft_type d) STATE_VALUES then draft_data d else var_last_result v in
  if negb (type_in (draft_type d) TERMINAL_EVENT_TYPES) then ret (mk_vars (S (var_seq v)) last (var_terminal v))
  else
    current <- ws_on_runs (runs_get key);;
    t <- now;;
    r <- of_result (stream_outcome d last current t);;
    ws_on_runs (runs_update r);;;
    match run_thread_id current with
    | Some i =>
        th <- ws_on_threads (threads_get (id_value i));;
        t <- now;;
        ws_on_threads (threads_update
          (if type_is (draft_type d) RUN_INTERRUPTED then mark_interrupted th t else mark_idle th t));;; ret tt
    | None => ret tt
    end;;;
    ret (mk_vars (S (var_seq v)) last true).

Fixpoint stream_loop (key : string) (v : StreamVars) (ds : list RuntimeEventDraft) : Py State StreamVars :=
  match ds with
  | [] => ret v
  | d :: ds => v <- stream_step key v d;; stream_loop key v ds
  end.

(** What follows the loop. *)
Definition stream_finish (key : string) (v : StreamVars) : Py State unit :=
  (if var_terminal v then ret tt
   else
     current <- ws_on_runs (runs_get key);;
     t <- now;;
     r <- of_result (run_complete current (var_last_result v) t);;
     ws_on_runs (runs_update r);;; ret tt);;;
  run_obj <- ws_on_runs (runs_get key);;
  match run_thread_id run_obj with
  | Some i =>
      th <- ws_on_threads (threads_get (id_value i));;
      t <- now;;
      ws_on_threads (threads_update (mark_idle th t));;; ret tt
  | None => ret tt
  end.

Definition stream_failed (key : string) (e : exn) : Py State unit :=
  current <- ws_on_runs (runs_get key);;
  if decide (run_status current ∈ FINAL_STATUSES) then ret tt
  else
    t <- now;;
    r <- of_result (run_fail current (new_run_error "EXECUTION_FAILED" (exn_str e) false None) t);;
    ws_on_runs (runs_update r);;; ret tt.

(** [_event_stream], asked for [reads] events: as [consume_reads], of the drafts whose
    events can be made and the end they leave. *)
Definition event_stream (reads : nat) (key : string) (ds : list RuntimeEventDraft) (e : stream_end) : Py State unit :=
  try_except
    (v <- stream_loop key initial_vars (take (reads - 1) ds);;
     if (reads <=? length ds)%nat then ret tt
     else match e with Exhausted => stream_finish key v | Raised err => raise err end)
    (λ err, if is_exception err then stream_failed key err else raise err).

Definition _send_events_to_gateway (call : gateway_call) (i : ExecutionIdentity)
    (ds : list RuntimeEventDraft) (e : stream_end) : Py State unit :=
  let '(events, e) := converted (stream_event i) (var_seq initial_vars) ds e in
  event_stream (call_reads call) (id_value (run_id i)) events.*1 e;;; of_result (call_end call).

(** What follows the claim of a pending run in [_process_receipt]. *)
Definition execute (adapter_stream : ExecutionRequest → list RuntimeEventDraft * stream_end)
    (receipt : RunCommandReceipt) (call : gateway_call) : Py State unit :=
  let '(ds, e) := adapter_stream (cmd_request (rcp_command receipt)) in
  _send_events_to_gateway call (receipt_identity receipt) ds e;;;
  ws_on_queue (queue_acknowledge receipt).

(** [_process_receipt] *)
Definition process (adapter_stream : ExecutionRequest → list RuntimeEventDraft * stream_end)
    (receipt : RunCommandReceipt) (call : gateway_call) : Py State unit :=
  process_with clock receipt (λ _, execute adapter_stream receipt call).
End AllInOne.

(** ** What becomes of a run *)

Section Outcome.
Context {R T Q : Type}
  `{!RunRepository R, RL : !RunStoreLaws R, !ThreadRepository T, TL : !ThreadStoreLaws T,
    !RunCommandQueue Q}
  (clock : nat → datetime) (json_str : json → string).

Notation State := (WorkerState (R:=R) (T:=T) (Q:=Q)).

(** Drafts that do not settle the run are counted, and the values kept. *)
Lemma loop_body i key ds (s : State) v :
  Forall (Adapter.body_draft i) ds →
  stream_loop clock json_str key v ds s =
    (Ok (mk_vars (length ds + var_seq v) (last_values ds (var_last_result v)) (var_terminal v)), s).
Proof.
  intros Hds. revert v. induction Hds as [|d ds (_ & t & Ht & Hn) _ IH]; intros v; [by destruct v|].
  cbn [stream_loop]. unfold bind. assert (type_in (draft_type d) TERMINAL_EVENT_TYPES = false) as Hin.
  { rewrite Ht. apply not_true_is_false. rewrite type_in_known. intros Hin. apply Hn.
    unfold TERMINAL_EVENT_TYPES, SETTLING in *. set_solver. }
  unfold stream_step. rewrite Hin. cbn [negb]. unfold ret. rewrite IH. cbn [length var_seq var_last_result var_terminal].
  unfold last_values. cbn [foldl]. do 3 f_equal. lia.
Qed.

Lemma loop_app key v ds ds' (s : State) :
  stream_loop clock json_str key v (ds ++ ds') s =
    (v <- stream_loop clock json_str key v ds;; stream_loop clock json_str key v ds') s.
Proof.
  revert v s. induction ds as [|d ds IH]; intros v s; cbn [stream_loop app]; [done|].
  unfold bind in *. destruct (stream_step _ _ _ _ _ s) as [[v'|?] s']; [apply IH|done].
Qed.

(** A terminal draft is handled as the production worker handles it, with the last
    values in the place of a completion's data. *)
Lemma step_terminal run v d (s : State) :
  type_in (draft_type d) TERMINAL_EVENT_TYPES = true →
  stream_step clock json_str (run_key run) v d s =
    (maybe_take_action clock json_str run
       (if type_is (draft_type d) RUN_COMPLETED
        then mk_draft (draft_identity d) (draft_type d) (draft_namespace d) (var_last_result v) (draft_native d)
        else d);;;
     ret (mk_vars (S (var_seq v)) (var_last_result v) true)) s.
Proof.
  intros Hin. assert (type_is (draft_type d) STATE_VALUES = false) as Hv.
  { destruct (draft_type d) as [t|]; [|done]. destruct t; try done. }
  unfold stream_step, maybe_take_action, stream_outcome, action_outcome. rewrite Hin, Hv.
  destruct (type_is (draft_type d) RUN_COMPLETED) eqn:Hc; cbn [draft_type draft_data]; rewrite ?Hv, ?Hin, ?Hc; cbn [negb];
    repeat (rewrite bind_assoc; apply bind_ext; intros ??); by destruct (run_thread_id _).
Qed.
(** [_event_stream], asked for all events of a stream that ends like a LangGraph run. *)
Lemma event_stream_settles i run r ds middle final e n (s : State) :
  ws_ready r s → ws_view s !! run_key r = Some r → run_key run = run_key r → run_status r = RUNNING →
  Forall (Adapter.body_draft i) ds → draft_type final = Known (end_type middle e) →
  (length (ds ++ [final]) < n)%nat → run_result r = JNull → rst_takes (R:=R) (last_values ds JNull) →
  ∃ s' r', (event_stream clock json_str n (run_key run) (ds ++ [final]) e s).2 = s' ∧
    ws_view s' = <[run_key r := r']> (ws_view s) ∧ run_status r' = settled_status (end_type middle e) ∧
    (end_type middle e = RUN_COMPLETED → run_result r' = last_values ds JNull) ∧
    (∀ t, run_thread_id r = Some t → ws_thread_status s' (id_value t) = Some IDLE).
Proof using RL TL.
  intros Hs Hv Hk Hst Hb Hf Hn Hnull Htakes. unfold event_stream. rewrite take_ge by lia. rewrite (proj2 (Nat.leb_gt _ _)) by done.
  unfold try_except. unfold bind at 1. rewrite loop_app. unfold bind at 1. rewrite (loop_body i) by done.
  set (v := mk_vars _ _ _). cbn [stream_loop]. unfold bind at 1.
  rewrite step_terminal by (rewrite Hf; apply type_in_known, end_type_terminal). set (d := if type_is _ _ then _ else _).
  destruct (final_action clock json_str run d (end_type middle e) r s Hs Hv Hk Hst) as
    (s1 & r1 & Ha & Hs1 & Hv1 & Hi1 & Hst1 & Hres1 & Hsl1 & Hth1).
  { unfold d. by destruct (type_is _ _). }
  { apply end_type_terminal. }
  { done. }
  { intros Hc. unfold d. by rewrite Hf, Hc. }
  unfold bind at 1. rewrite Ha. cbn [ret].
  assert (run_thread_id r1 = run_thread_id r) as Hth by (unfold run_thread_id; by rewrite Hi1).
  assert (end_type middle e = RUN_COMPLETED → run_result r1 = last_values ds JNull) as Hres.
  { intros Hc. rewrite (Hres1 Hc). unfold d. by rewrite Hf, Hc. }
  destruct e as [|err]; unfold ret.
  - change (stream_finish clock (run_key run) ?v s1) with (mark_idle_if_needed clock run s1).
    destruct (mark_idle_step clock run r1 s1) as (s2 & Hm & Hr2 & Ht2); [done|by rewrite Hv1, Hk, lookup_insert_eq|].
    rewrite Hm. exists s2, r1. rewrite Hth in Ht2.
    split_and!; try done. unfold ws_view. rewrite Hr2. exact Hv1.
  - cbn [raise]. unfold raise. assert ((if is_exception err then stream_failed clock (run_key run) err else raise err) s1 =
      (if is_exception err then Ok tt else Raise err, s1)) as Hfail.
    { destruct (is_exception err); [|done]. unfold stream_failed, bind.
      rewrite (ws_get r1) by (done || by rewrite Hv1, Hk, lookup_insert_eq).
      rewrite Hst1, decide_True; [done|]. destruct err; by apply (bool_decide_unpack _). }
    unfold raise in Hfail. rewrite Hfail. exists s1, r1. split_and!; try done.
    intros t Ht. rewrite (Hth1 t Ht). by destruct err.
Qed.

(** [_event_stream], asked for all events of a stream that raises before it settles the
    run: the thread is left as it is. *)
Lemma event_stream_fails i run r ds err n (s : State) :
  ws_ready r s → ws_view s !! run_key r = Some r → run_key run = run_key r → run_status r = RUNNING →
  Forall (Adapter.body_draft i) ds → (length ds < n)%nat → is_exception err = true →
  ∃ s' r', (event_stream clock json_str n (run_key run) ds (Raised err) s).2 = s' ∧
    ws_view s' = <[run_key r := r']> (ws_view s) ∧ run_status r' = ERROR ∧ ws_threads s' = ws_threads s.
Proof using RL.
  intros Hs Hv Hk Hst Hb Hn Herr. unfold event_stream. rewrite take_ge by lia. rewrite (proj2 (Nat.leb_gt _ _)) by done.
  destruct (fail_running clock run r err s Hs Hv Hk Hst) as (s2 & r2 & Hfail & _ & Hv2 & _ & Hst2 & Ht2).
  unfold try_except, bind, raise. rewrite (loop_body i) by done. rewrite Herr.
  change (stream_failed clock (run_key run) err s) with (fail_if_not_done clock run err s). rewrite Hfail.
  by exists s2, r2.
Qed.

(** The slots change only in the [finally] clause. *)
Ltac keep_slots :=
  repeat first
    [ apply keeps_slots_bind; [|intros ?]
    | apply keeps_slots_runs | apply keeps_slots_threads | apply keeps_slots_queue | apply keeps_slots_now
    | by apply keeps_slots_same
    | case_match ].

Lemma keeps_slots_loop key v ds : keeps_slots (stream_loop (R:=R) (T:=T) (Q:=Q) clock json_str key v ds).
Proof.
  revert v. induction ds as [|d ds IH]; intros v; cbn [stream_loop]; [by apply keeps_slots_same|].
  apply keeps_slots_bind; [|done]. unfold stream_step. keep_slots.
Qed.

Lemma keeps_slots_all adapter_stream receipt call : keeps_slots (execute (R:=R) (T:=T) clock json_str adapter_stream receipt call).
Proof.
  unfold execute. destruct (adapter_stream _) as [ds e]. unfold _send_events_to_gateway.
  destruct (converted _ _ _ _) as [events e'].
  apply keeps_slots_bind; [|intros ?; apply keeps_slots_queue].
  apply keeps_slots_bind; [|intros ?; by apply keeps_slots_same].
  intros m. apply preserves_try_except.
  - apply preserves_bind; [apply keeps_slots_loop|]. intros v. revert m.
    match goal with |- ∀ m, preserves _ ?x => change (keeps_slots x) end. unfold stream_finish. keep_slots.
  - intros err. revert m.
    match goal with |- ∀ m, preserves _ ?x => change (keeps_slots x) end. unfold stream_failed. keep_slots.
Qed.

(** The rest of [execute] looks at the queue only. *)
Lemma execute_frame adapter_stream receipt call ds e (s : State) :
  adapter_stream (cmd_request (rcp_command receipt)) = (ds, e) →
  let s' := (execute clock json_str adapter_stream receipt call s).2 in
  let '(events, e') := converted (stream_event clock (receipt_identity receipt)) 0 ds e in
  let s1 := (event_stream clock json_str (call_reads call) (id_value (run_id (receipt_identity receipt))) events.*1 e' s).2 in
  ws_runs s' = ws_runs s1 ∧ ws_threads s' = ws_threads s1.
Proof.
  intros Hds s'. unfold s', execute, _send_events_to_gateway. rewrite Hds. cbn [var_seq initial_vars].
  destruct (converted _ _ _ _) as [events e']. unfold bind, of_result.
  destruct (event_stream _ _ _ _ _ _ s) as [[?|?] s2]; [|done]. destruct (call_end call); [|done].
  apply queue_frame.
Qed.

(** C19: what becomes of a run in the all-in-one process, if its store can hold the
    graph's last values.  A gateway's call that asks
    for all events settles the run as the execution service does: succeeded with the
    graph's last values, interrupted, cancelled or in error; its thread is idle, even
    when the run is interrupted.  If the events cannot all be sent, the run is in error
    and its thread stays busy.  A call that asks for no more than the events that can
    be sent leaves the run running and its thread busy.  How the call itself ends does
    not matter, and the slot is given back. *)
Theorem all_in_one_outcome (adapter_stream : ExecutionRequest → list RuntimeEventDraft * stream_end)
  (py_repr : pyval → string)
  (astream : Adapter.graph_input → Adapter.astream_arguments → list pyval * stream_end)
  (task : option Z) (tasks tasks' : Adapter.Tasks) (receipt : RunCommandReceipt) (run : Run)
  (ds : list RuntimeEventDraft) (e : stream_end) (call : gateway_call) (s : State) :
  let request := cmd_request (rcp_command receipt) in
  let key := id_value (run_id (receipt_identity receipt)) in
  ws_ready run s → ws_view s !! key = Some run → run_status run = PENDING →
  is_ok (Adapter.stream_arguments request) = true → adapter_stream request = (ds, e) →
  Adapter.stream py_repr astream task request tasks = (Ok (ds, e), tasks') →
  rst_takes (R:=R) (last_values ds JNull) →
  let s' := (process clock json_str adapter_stream receipt call s).2 in
  ws_slots s' = ws_slots s + 1 ∧
  ∃ r, ws_view s' = <[key := r]> (ws_view s) ∧
    if (call_reads call <=? length (sendable_prefix ds))%nat
    then run_status r = RUNNING ∧ ws_threads s' = ws_threads s
    else if negb (forallb sendable ds)
    then run_status r = ERROR ∧ ws_threads s' = ws_threads s
    else
      run_status r = match e with
                     | Raised CancelledError => CANCELLED
                     | Raised _ => ERROR
                     | Exhausted => if existsb (λ d, type_is (draft_type d) INTERRUPT_CREATED) ds
                                    then INTERRUPTED else SUCCESS
                     end ∧
      (run_status r = SUCCESS → run_result r = last_values ds JNull) ∧
      (∀ t, run_thread_id run = Some t → ws_thread_status s' (id_value t) = Some IDLE).
Proof using RL TL.
  intros request key Hs Hv Hp Hok Hds Hstream Htakes s'.
  destruct (process_pending clock receipt (λ _, execute clock json_str adapter_stream receipt call) run s Hs Hv Hp)
    as (s1 & r1 & Hs1 & Hv1 & Hk1 & Hk & Hi1 & Hst1 & Hn1 & Hsl1 & Hth1 & _ & Hrun).
  unfold s', process. rewrite Hrun, finally_release by apply keeps_slots_all. cbn [snd ws_slots]. rewrite Hsl1.
  split; [done|]. unfold ws_view, ws_thread_status. cbn [ws_runs ws_threads].
  pose proof (execute_frame adapter_stream receipt call ds e s1 Hds) as Hframe.
  unfold stream_event in Hframe.
  pose proof (converted_drafts clock (identity_to_proto (receipt_identity receipt)) 0 ds e) as Hconv.
  destruct (converted _ _ _ _) as [events e']. destruct Hframe as [-> ->], Hconv as [Hpre Hconv].
  destruct (langgraph_drafts py_repr astream task tasks tasks' request ds e Hok Hstream)
    as (body & final & -> & Hb & Hf & Hend & Hlast & _).
  destruct (sendable_prefix_take (body ++ [final])) as [k Hpk].
  destruct (call_reads call <=? length (sendable_prefix (body ++ [final])))%nat eqn:Hn.
  - exists r1. unfold event_stream, try_except, bind. rewrite Hpre, Hn. apply Nat.leb_le in Hn.
    rewrite Hpk in Hn |- *. rewrite length_take, length_app in Hn. cbn [length] in Hn.
    rewrite take_take, (take_app_le body), (loop_body (req_identity request)) by (by apply Forall_take || lia). by split_and!.
  - apply Nat.leb_gt in Hn. destruct (forallb sendable (body ++ [final])) eqn:Hsent; cbn [negb]; cycle 1.
    { destruct Hconv as (Hlen & err & -> & Herr & _). rewrite length_app in Hlen. cbn [length] in Hlen.
      rewrite <- Hpre, length_fmap in Hn. assert (Forall (Adapter.body_draft (req_identity request)) events.*1) as Hev.
      { rewrite Hpre, Hpk. assert (length events = length (take k (body ++ [final]))) as Hl by (by rewrite <- Hpk, <- Hpre, length_fmap).
        rewrite length_take, length_app in Hl. cbn [length] in Hl. rewrite take_app_le by lia. by apply Forall_take. }
      destruct (event_stream_fails (req_identity request) run r1 events.*1 err (call_reads call) s1)
        as (s2 & r & <- & Hv2 & Hst2 & Ht2); try done;
        [by rewrite Hv1, Hk1, lookup_insert_eq|by rewrite Hk1|by rewrite length_fmap|].
      rewrite Hk in Hv2, Ht2. exists r. split_and!; [|done|by rewrite <- Hth1, <- Ht2].
      unfold ws_view in Hv1, Hv2. rewrite Hv2, Hv1, Hk1. apply insert_insert_eq. }
    destruct Hconv as [Hd ->]. rewrite <- Hpre, Hd in Hn. rewrite Hd.
    destruct (event_stream_settles (req_identity request) run r1 body body final e (call_reads call) s1)
      as (s2 & r & <- & Hv2 & Hst2 & Hres2 & Hth2); try done;
      [by rewrite Hv1, Hk1, lookup_insert_eq|by rewrite Hk1|by rewrite <- Hlast|].
    rewrite Hk in Hv2, Hth2. exists r. rewrite <- end_type_status, Hend, Hlast, Hst2. split_and!.
    + unfold ws_view in Hv1, Hv2. rewrite Hv2, Hv1, Hk1. apply insert_insert_eq.
    + done.
    + intros Hsuc. by apply Hres2, end_type_success.
    + intros t Ht. apply Hth2. unfold run_thread_id in *. by rewrite Hi1.
Qed.
End Outcome.

(** The tables and the graph of [LocalWorker]; the gateway reads everything and is
    gone when it should answer. *)
Module LocalAllInOne.
Import Local LocalWorker.

Definition call : gateway_call := mk_gateway_call 99 (Raise (OtherError "StatusCode.UNAVAILABLE")).

Lemma all_in_one_outcome_witness :
  let s' := (process clock json_str (drafts tt) (receipt "r1" "t") call state).2 in
  ws_slots s' = 1 ∧ ∃ r, ws_view s' !! "r1" = Some r ∧ run_status r = SUCCESS ∧
    run_result r = JObj [("n", JInt 2)].
Proof.
  intros s'. set (out := drafts tt (request "r1" "t")).
  destruct (all_in_one_outcome clock json_str (drafts tt) (λ _, "") LocalRuns.state_graph (Some 1) []
    (Adapter.stream (λ _, "") LocalRuns.state_graph (Some 1) (request "r1" "t") []).2
    (receipt "r1" "t") run out.1 out.2 call state state_ready state_view)
    as (Hsl & r & Hv & Hrest); [reflexivity..|].
  split; [exact Hsl|]. exists r. split; [unfold s'; rewrite Hv; apply lookup_insert_eq|].
  assert (Hn : (call_reads call <=? length (sendable_prefix out.1))%nat = false) by (vm_compute; reflexivity).
  assert (Hsent : forallb sendable out.1 = true) by (vm_compute; reflexivity).
  rewrite Hn, Hsent in Hrest. cbn [negb] in Hrest. destruct Hrest as (Hst & Hres & _).
  assert (run_status r = SUCCESS) as Hsuc by (rewrite Hst; vm_compute; reflexivity).
  split; [exact Hsuc|]. rewrite (Hres Hsuc). vm_compute. reflexivity.
Defined.
End LocalAllInOne.
