(* ===== verification/ProductionTasks.v ===== *)
(** * The worker and the gateway as programs over shared tables

    In production the gateway and the workers are processes that share the tables of runs
    and threads.  What they do, [RuntimeExecutionService] as [create_production_runtime]
    makes it, without a journal, an outbox and a local worker, and [_process_receipt] of
    the worker, is here made of the calls of the repositories as atomic steps.  Without interference these
    programs are the calls of [Service] and [WorkerService] ([worker_task_alone],
    [start_task_alone], [cancel_task_alone], [resume_task_alone]). *)

From S2P Require Import Prelude PyDict PyStr Json Errors Interleaving JsonAccess Identity Execution Ports.
From S2P Require Import Service Grpc LangGraph LangGraphRuns WorkerService.

#[local] Open Scope proc_scope.

Section Tasks.
Context {R T Q : Type} `{RunRepository R, ThreadRepository T, RunCommandQueue Q}
  (clock : nat → datetime) (fresh : nat → string) (json_str : json → string).

Notation State := (WorkerState (R:=R) (T:=T) (Q:=Q)).

(** The calls of the repositories and of the queue, and the readings of a clock. *)
Definition at_runs {B} (m : Py R B) : proc State B := atomic (ws_on_runs m).
Definition at_threads {B} (m : Py T B) : proc State B := atomic (ws_on_threads m).
Definition at_queue {B} (m : Py Q B) : proc State B := atomic (ws_on_queue m).
Definition at_now : proc State datetime := atomic (ws_now clock).
(** [X.new()] *)
Definition ws_new {k} : Py State (TypedId k) := λ s,
  (Ok (mk_id (fresh (ws_ticks s))),
   mk_worker_state (ws_runs s) (ws_threads s) (ws_queue s) (ws_slots s) (S (ws_ticks s))).
Definition at_new {k} : proc State (TypedId k) := atomic (ws_new (k:=k)).

(** Reading a run's thread and storing what becomes of it. *)
Definition thread_change (f : Thread → datetime → Thread) (i : option ThreadId) : proc State unit :=
  match i with
  | Some i =>
      th <- at_threads (threads_get (id_value i));;
      t <- at_now;;
      at_threads (threads_update (f th t));;; pret tt
  | None => pret tt
  end.

(** ** The worker *)

Definition task_action (run : Run) (d : RuntimeEventDraft) : proc State unit :=
  if type_is (draft_type d) STATE_VALUES then pret tt
  else if negb (type_in (draft_type d) TERMINAL_EVENT_TYPES) then pret tt
  else
    current <- at_runs (runs_get (run_key run));;
    t <- at_now;;
    r <- Done (action_outcome json_str d current t);;
    at_runs (runs_update r);;;
    thread_change (λ th t, if type_is (draft_type d) RUN_INTERRUPTED then mark_interrupted th t else mark_idle th t)
      (run_thread_id current).

Definition task_fail_if_not_done (run : Run) (e : exn) : proc State unit :=
  current <- at_runs (runs_get (run_key run));;
  if decide (run_status current ∈ FINAL_STATUSES) then pret tt
  else
    t <- at_now;;
    r <- Done (run_fail current (new_run_error "EXECUTION_FAILED" (exn_str e) false None) t);;
    at_runs (runs_update r);;; pret tt.

Definition task_mark_idle (run : Run) : proc State unit :=
  current <- at_runs (runs_get (run_key run));;
  thread_change mark_idle (run_thread_id current).

Definition task_consume (reads : nat) (run : Run) (ds : list RuntimeEventDraft) (e : stream_end) : proc State unit :=
  pexcept
    (pfor_each (task_action run) (take (reads - 1) ds);;;
     if (reads <=? length ds)%nat then pret tt
     else match e with Exhausted => pret tt | Raised err => praise err end)
    (λ err, if is_exception err then task_fail_if_not_done run err else praise err).

Definition task_stream (gateway : option gateway_call) (run : Run) (ds : list RuntimeEventDraft) (e : stream_end)
  : proc State unit :=
  match gateway with
  | Some call =>
      let '(events, e) := converted (gateway_event clock run) 0 ds e in
      task_consume (call_reads call) run events.*1 e;;; Done (call_end call);;; task_mark_idle run
  | None => task_consume (S (length ds)) run ds e;;; task_mark_idle run
  end.

Section Process.
Context {A : Type} (adapters : dict A)
  (adapter_stream : A → ExecutionRequest → list RuntimeEventDraft * stream_end).

Definition task_execute (receipt : RunCommandReceipt) (gateway : option gateway_call) (run : Run) : proc State unit :=
  match dget adapters (id_value (assistant_id (receipt_identity receipt))) with
  | None => at_queue (queue_acknowledge receipt)
  | Some a =>
      let '(ds, e) := adapter_stream a (cmd_request (rcp_command receipt)) in
      task_stream gateway run ds e;;;
      at_queue (queue_acknowledge receipt)
  end.

Definition worker_task (receipt : RunCommandReceipt) (gateway : option gateway_call) : proc State unit :=
  pfinally
    (run <- at_runs (runs_get (id_value (run_id (receipt_identity receipt))));;
     if negb (bool_decide (run_status run = PENDING)) then at_queue (queue_acknowledge receipt)
     else
       t <- at_now;;
       r <- Done (run_mark_running run t);;
       at_runs (runs_update r);;;
       task_execute receipt gateway run)
    (atomic ws_release).
End Process.

(** ** The gateway *)

Definition task_enqueue (r : ExecutionRequest) (t : datetime) : proc State unit :=
  i <- at_new;;
  at_queue (queue_publish (mk_command i (req_identity r) r (req_priority r) t t)).

Definition task_queue_failed (created : Run) (thread : option ThreadId) : proc State unit :=
  t <- at_now;;
  failed <- Done (run_fail created
              (new_run_error "RUN_QUEUE_FAILED" "run command could not be queued" false None) t);;
  at_runs (runs_update failed);;;
  thread_change mark_error thread.

Definition start_task (r : ExecutionRequest) : proc State Run :=
  t <- at_now;;
  match thread_id (req_identity r) with
  | Some i =>
      th <- at_threads (threads_get (id_value i));;
      if decide (thr_status th = BUSY)
      then praise (failure THREAD_BUSY ("thread is busy: " +:+ id_value i))
      else at_threads (threads_update (mark_busy th t));;; pret tt
  | None => pret tt
  end;;;
  created <- at_runs (runs_create
    (mk_run (req_identity r) PENDING (req_metadata r) (Some t) (Some t) JNull None));;
  pexcept (task_enqueue r t) (λ e,
    if is_exception e
    then task_queue_failed created (thread_id (req_identity r));;; praise e
    else praise e);;;
  pret created.

Definition cancel_task (id : string) : proc State Run :=
  run <- at_runs (runs_get id);;
  if terminal_status (run_status run) then pret run
  else
    t <- at_now;;
    cancelled <- Done (run_cancel run t);;
    (if decide (run_status run = CANCELLED) then pret tt
     else at_runs (runs_update cancelled);;; pret tt);;;
    thread_change mark_idle (run_thread_id run);;;
    pret cancelled.

Definition resume_task (r : ExecutionRequest) : proc State Run :=
  run <- at_runs (runs_get (id_value (run_id (req_identity r))));;
  if decide (run_status run = INTERRUPTED)
  then
    t <- at_now;;
    i <- at_new;;
    at_queue (queue_publish (mk_command i (run_identity run) r (req_priority r) t t));;;
    pret run
  else praise (failure INVALID_EXECUTION_INPUT "run is not interrupted").
End Tasks.

#[global] Arguments at_runs {_ _ _ _} _ : simpl never.
#[global] Arguments at_threads {_ _ _ _} _ : simpl never.
#[global] Arguments at_queue {_ _ _ _} _ : simpl never.
#[global] Arguments at_now {_ _ _} _ : simpl never.
#[global] Arguments at_new {_ _ _} _ {_} : simpl never.

(** ** The programs on their own *)

Section Alone.
Context {R T Q : Type} `{RunRepository R, ThreadRepository T, RunCommandQueue Q}
  (clock : nat → datetime) (fresh : nat → string) (json_str : json → string).

Notation State := (WorkerState (R:=R) (T:=T) (Q:=Q)).

Lemma runs_same {A} (m : Py State A) : runs_as id (atomic m) m.
Proof. apply runs_atomic. intros s. simpl. by destruct (m s). Qed.

Ltac alone :=
  repeat first
    [ apply runs_bind; [|intros ?] | apply runs_except; [|intros ?] | apply runs_finally
    | apply runs_for_each; intros ? | apply runs_same | apply runs_done | case_match ].

Lemma action_alone run d :
  runs_as id (task_action (R:=R) (T:=T) (Q:=Q) clock json_str run d) (maybe_take_action clock json_str run d).
Proof. unfold task_action, maybe_take_action, thread_change. alone. Qed.
Lemma fail_alone run e :
  runs_as id (task_fail_if_not_done (R:=R) (T:=T) (Q:=Q) clock run e) (fail_if_not_done clock run e).
Proof. unfold task_fail_if_not_done, fail_if_not_done. alone. Qed.
Lemma mark_idle_alone run :
  runs_as id (task_mark_idle (R:=R) (T:=T) (Q:=Q) clock run) (mark_idle_if_needed clock run).
Proof. unfold task_mark_idle, mark_idle_if_needed, thread_change. alone. Qed.
Lemma consume_alone n run ds e :
  runs_as id (task_consume (R:=R) (T:=T) (Q:=Q) clock json_str n run ds e) (consume_reads clock json_str n run ds e).
Proof.
  unfold task_consume, consume_reads. apply runs_except; [apply runs_bind; [apply runs_for_each|]|].
  - apply action_alone.
  - intros _. alone.
  - intros err. case_match; [apply fail_alone|apply runs_done].
Qed.

(** The worker's program is the worker's call.  Run without interference, from any
    state, the atomic steps of [worker_task] compute what [process_receipt] computes: the same
    outcome, and the same runs, threads, queue and slots. *)
Lemma worker_task_alone {A : Type} (adapters : dict A)
  (adapter_stream : A → ExecutionRequest → list RuntimeEventDraft * stream_end)
  (receipt : RunCommandReceipt) (gateway : option gateway_call) (s : State) :
  run (worker_task clock json_str adapters adapter_stream receipt gateway) s =
  process_receipt clock json_str adapters adapter_stream receipt gateway s.
Proof.
  enough (runs_as id (worker_task (R:=R) (T:=T) (Q:=Q) clock json_str adapters adapter_stream receipt gateway)
    (process_receipt clock json_str adapters adapter_stream receipt gateway)) as Hsim.
  { specialize (Hsim s). unfold id in Hsim. rewrite Hsim. by destruct (run _ s). }
  unfold worker_task, process_receipt, process_with, task_execute, execute_run, task_stream, stream_local, stream_via_grpc.
  repeat first [apply consume_alone | apply action_alone | apply fail_alone | apply mark_idle_alone | progress alone].
Qed.

(** *** The gateway *)

Section Gateway.
Context {J O A : Type} `{EventJournal J, OutboxRepository O} (caller : O) (adapter_cancel : A → ExecutionRequest → res unit).

(** The service of the production runtime: no journal, no outbox, no local executions. *)
Definition service_of (s : State) : Service (R:=R) (T:=T) (Q:=Q) (J:=J) (O:=O) (A:=A) :=
  mk_service (ws_threads s) (ws_runs s) (ws_queue s) None None caller [] (ws_ticks s).

Lemma gateway_runs {B} (m : Py R B) : runs_as service_of (at_runs (T:=T) (Q:=Q) m) (on_runs m).
Proof.
  apply runs_atomic. intros s. unfold on_runs, ws_on_runs, zoom, service_of. simpl. by destruct (m (ws_runs s)).
Qed.
Lemma gateway_threads {B} (m : Py T B) : runs_as service_of (at_threads (R:=R) (Q:=Q) m) (on_threads m).
Proof.
  apply runs_atomic. intros s. unfold on_threads, ws_on_threads, zoom, service_of. simpl.
  by destruct (m (ws_threads s)).
Qed.
Lemma gateway_queue {B} (m : Py Q B) : runs_as service_of (at_queue (R:=R) (T:=T) m) (on_commands m).
Proof.
  apply runs_atomic. intros s. unfold on_commands, ws_on_queue, zoom, service_of. simpl. by destruct (m (ws_queue s)).
Qed.
Lemma gateway_now : runs_as service_of (at_now (R:=R) (T:=T) (Q:=Q) clock) (Service.now clock).
Proof. by apply runs_atomic. Qed.
Lemma gateway_new {k} : runs_as service_of (at_new (R:=R) (T:=T) (Q:=Q) fresh (k:=k)) (Service.new fresh).
Proof. by apply runs_atomic. Qed.

Ltac as_service :=
  repeat first
    [ apply gateway_runs | apply gateway_threads | apply gateway_queue | apply gateway_now | apply gateway_new
    | apply runs_bind; [|intros ?] | apply runs_except; [|intros ?] | apply runs_done | case_match ].

Lemma runs_append {B} (p : proc State B) d m :
  runs_as service_of p m → runs_as service_of p (append_if_journal clock fresh d;;; m)%rt.
Proof. intros Hp. by apply (runs_skip _ _ _ tt). Qed.

(** Without a journal nothing is appended, and without an outbox the command is published. *)
Lemma enqueue_alone r t :
  runs_as service_of (task_enqueue (R:=R) (T:=T) (Q:=Q) fresh r t) (enqueue clock fresh r false t).
Proof.
  intros s.
  change (enqueue clock fresh r false t (service_of s)) with
    ((i <- Service.new fresh;; on_commands (queue_publish (mk_command i (req_identity r) r (req_priority r) t t)))%rt
      (service_of s)).
  apply runs_bind; [apply gateway_new|intros i; apply gateway_queue].
Qed.
Lemma queue_failed_alone r th :
  runs_as service_of (task_queue_failed (R:=R) (T:=T) (Q:=Q) clock r th) (queue_failed clock r th).
Proof. unfold task_queue_failed, queue_failed, thread_change. as_service. Qed.

(** The gateway's programs are the service's methods. *)
Lemma start_task_alone r :
  runs_as service_of (start_task (R:=R) (T:=T) (Q:=Q) clock fresh r) (start_run clock fresh r false).
Proof.
  unfold start_task, start_run. repeat first [apply enqueue_alone | apply queue_failed_alone | progress as_service].
Qed.
Lemma cancel_task_alone id :
  runs_as service_of (cancel_task (R:=R) (T:=T) (Q:=Q) clock id) (cancel_run clock fresh adapter_cancel id).
Proof.
  unfold cancel_task, cancel_run. apply runs_bind; [apply gateway_runs|intros r].
  destruct (terminal_status (run_status r)); [apply runs_done|].
  match goal with |- runs_as _ ?p _ => change (runs_as service_of p
    (ret tt;;; t <- Service.now clock;; cancelled <- of_result (run_cancel r t);;
     (if decide (run_status r = CANCELLED) then ret tt else on_runs (runs_update cancelled);;; ret tt);;;
     match run_thread_id r with
     | Some i =>
         th <- on_threads (threads_get (id_value i));; t <- Service.now clock;;
         on_threads (threads_update (mark_idle th t));;; ret tt
     | None => ret tt
     end;;;
     append_if_journal clock fresh (simple_draft (run_identity r) RUN_CANCELLED
       (JObj [("run_id", JStr (run_key r)); ("status", JStr (run_status_value (run_status cancelled)))]));;;
     ret cancelled)%rt) end.
  apply (runs_skip _ _ _ tt); [done|]. unfold thread_change. repeat first [apply runs_append | progress as_service].
Qed.
Lemma resume_task_alone r :
  runs_as service_of (resume_task (R:=R) (T:=T) (Q:=Q) clock fresh r) (resume_run clock fresh r).
Proof. unfold resume_task, resume_run. repeat first [apply runs_append | progress as_service]. Qed.
End Gateway.
End Alone.
