(* ===== verification/ProductionSystem.v ===== *)
(** * The production system

    Gateways and workers over the same tables: at any time a client's call or the
    execution of a receipt begins, and the atomic steps of all that are in progress
    interleave in any order.  Shown for Postgres: a thread has at most one active run,
    whatever happens; and a run that is stored as running is being executed by a worker that
    has not ended, unless a worker on it was stopped or one began that cannot settle it
    ([serviceable]).  Everything in progress ends ([production_settles]). *)

From S2P Require Import Prelude PyDict PyStr Json Errors Interleaving JsonAccess Identity Execution Ports.
From S2P Require Import MemoryQueue Service ServiceSafety LangGraph LangGraphRuns Database Postgres PostgresSpec PostgresThreads PostgresStores.
From S2P Require Import Grpc WorkerService ProductionTasks.

(** The streams after which a worker has settled its run: they have a terminal event, or
    end with an exception. *)
Definition settling_stream (ds : list RuntimeEventDraft) (e : stream_end) : bool :=
  existsb (λ d, type_in (draft_type d) TERMINAL_EVENT_TYPES) ds ||
  match e with Raised err => is_exception err | Exhausted => false end.

(** The streams of the LangGraph adapter settle their runs. *)
Lemma langgraph_settles (py_repr : pyval → string)
  (astream : Adapter.graph_input → Adapter.astream_arguments → list pyval * stream_end)
  (task : option Z) (tasks tasks' : Adapter.Tasks) (request : ExecutionRequest) ds e :
  is_ok (Adapter.stream_arguments request) = true →
  Adapter.stream py_repr astream task request tasks = (Ok (ds, e), tasks') → settling_stream ds e = true.
Proof.
  intros Hok Hs. destruct (langgraph_drafts py_repr astream task tasks tasks' request ds e Hok Hs)
    as (body & final & -> & _ & Hf & _). unfold settling_stream.
  rewrite existsb_app. cbn [existsb]. rewrite Hf, (proj2 (type_in_known _ _) (end_type_terminal body e)). by rewrite !orb_true_r.
Qed.

(** What a worker makes of a run. *)
Lemma run_change_facts (r r1 : Run) status t v e :
  run_change r status t v e = Ok r1 → run_key r1 = run_key r ∧ run_status r1 = status ∧ run_result r1 = v ∧ run_error r1 = e.
Proof. intros Hc. by apply run_change_ok in Hc as [_ ->]. Qed.
Lemma run_change_refused (r : Run) status t v e err :
  run_change r status t v e = Raise err → terminal_status (run_status r) = true ∧ is_exception err = true.
Proof. unfold run_change. destruct (terminal_status _); simpl; [|done]. case_bool_decide; simpl; intros; by simplify_eq. Qed.

Lemma action_outcome_facts json_str d (r : Run) t :
  match action_outcome json_str d r t with
  | Ok r1 => run_key r1 = run_key r ∧ run_status r1 ≠ RUNNING
  | Raise e => run_status r ≠ RUNNING ∧ is_exception e = true
  end.
Proof.
  assert (∀ status v e, status ≠ RUNNING →
    match run_change r status t v e with
    | Ok r1 => run_key r1 = run_key r ∧ run_status r1 ≠ RUNNING
    | Raise e => run_status r ≠ RUNNING ∧ is_exception e = true
    end) as Hchange.
  { intros status v e Hst. destruct (run_change r status t v e) as [r1|err] eqn:Hc.
    - apply run_change_facts in Hc as (Hk & -> & _). by split.
    - apply run_change_refused in Hc as [Ht He]. split; [|done]. intros Hr. by rewrite Hr in Ht. }
  unfold action_outcome, run_complete, run_fail, run_cancel.
  destruct (type_is _ RUN_COMPLETED); [by apply Hchange|]. destruct (type_is _ RUN_CANCELLED).
  { destruct (decide _) as [Hc|]; [split; [done|by rewrite Hc]|by apply Hchange]. }
  destruct (type_is _ RUN_INTERRUPTED); [done|by apply Hchange].
Qed.

Section Owed.
Context {R T Q : Type} `{RL : SharedRunsLaws R, ThreadRepository T, RunCommandQueue Q}
  (clock : nat → datetime) (fresh : nat → string) (json_str : json → string).

Notation State := (WorkerState (R:=R) (T:=T) (Q:=Q)).

Definition tables_ok (s : State) : Prop := shr_inv (ws_runs s).
Definition stored_runs (s : State) : gmap string Run := shr_view (ws_runs s).
(** Who calls, for the run with a key: a worker with a receipt, or the gateway. *)
Inductive caller : Set := Worker (key : string) | Client (key : string).
Definition caller_key (i : caller) : string := match i with Worker k | Client k => k end.
Definition is_worker (i : caller) : bool := match i with Worker _ => true | Client _ => false end.

(** A running run is owed. *)
Definition running (k : string) (s : State) : Prop := ∃ r, stored_runs s !! k = Some r ∧ run_status r = RUNNING.

Section Rules.
Context (i : caller).
Notation k := (caller_key i).
Notation guarantee := (owes caller_key is_worker tables_ok running i).
Notation under := (holds tables_ok guarantee).

(** The state after a step in which the run [k] is as in [o]. *)
Lemma owes_change b b' (s s' : State) o :
  tables_ok s' → (∀ k', k' ≠ k → stored_runs s' !! k' = stored_runs s !! k') → stored_runs s' !! k = o →
  (∀ r, o = Some r → run_status r = RUNNING → b' = true) → (b' = true → b = true ∨ is_worker i = true) →
  guarantee b b' s s'.
Proof.
  intros Hs Hoth Ho Hb Hw. split; [done|]. split; [|split; [|exact Hw]].
  - intros k' Hne (r & Hr & Hst). exists r. by rewrite <- Hoth.
  - intros (r & Hr & Hst). left. apply (Hb r); [congruence|done].
Qed.
Lemma owes_drop b (s s' : State) o :
  tables_ok s' → (∀ k', k' ≠ k → stored_runs s' !! k' = stored_runs s !! k') → stored_runs s' !! k = o →
  (∀ r, o = Some r → run_status r ≠ RUNNING) → guarantee b false s s'.
Proof. intros Hs Hoth Ho Hb. apply (owes_change _ _ _ _ o); [done..| |done]. intros r Hr Hst. by destruct (Hb r). Qed.
Lemma owes_same b (s s' : State) : tables_ok s' → stored_runs s' = stored_runs s → guarantee b b s s'.
Proof.
  intros Hs Hv. split; [done|]. unfold running. rewrite Hv. split; [done|]. split; [|by left].
  intros Hr. destruct b; [by left|by right].
Qed.

Lemma holds_keep {B} b (m : Py State B) Q' :
  (∀ s, ws_runs (m s).2 = ws_runs s) → (∀ s, Q' b (m s).1) → under b (atomic m) Q'.
Proof.
  intros Hm HQ s Hs. exists b. split; [|apply HQ]. unfold tables_ok in *.
  apply owes_same; [unfold tables_ok|unfold stored_runs]; by rewrite Hm.
Qed.
Lemma holds_threads {B} b (m : Py T B) Q' : (∀ o, Q' b o) → under b (at_threads m) Q'.
Proof.
  intros HQ. apply holds_keep; [|done]. intros s. unfold ws_on_threads, zoom. by destruct (m (ws_threads s)).
Qed.
Lemma holds_queue {B} b (m : Py Q B) Q' : (∀ o, Q' b o) → under b (at_queue m) Q'.
Proof.
  intros HQ. apply holds_keep; [|done]. intros s. unfold ws_on_queue, zoom. by destruct (m (ws_queue s)).
Qed.
Lemma holds_now b Q' : (∀ t, Q' b (Ok t)) → under b (at_now clock) Q'.
Proof. intros HQ. apply holds_keep; [done|]. intros s. apply HQ. Qed.
Lemma holds_new {j} b Q' : (∀ x, Q' b (Ok x)) → under b (at_new fresh (k:=j)) Q'.
Proof. intros HQ. apply holds_keep; [done|]. intros s. apply HQ. Qed.

(** Whoever sees that the run is not running owes nothing. *)
Lemma holds_get b Q' :
  (∀ r, run_key r = k → Q' (bool_decide (run_status r = RUNNING) && b) (Ok r)) →
  (∀ e, is_exception e = true → Q' false (Raise e)) → under b (at_runs (runs_get k)) Q'.
Proof using RL.
  intros Hok Hbad s Hs. destruct (shr_get (ws_runs s) k Hs) as (o & R' & Hg & Hs' & Hv & Ho).
  unfold ws_on_runs, zoom. rewrite Hg. simpl. destruct o as [r|e].
  - exists (bool_decide (run_status r = RUNNING) && b). split; [|apply Hok; exact (shr_key _ _ _ Hs Ho)].
    destruct (decide (run_status r = RUNNING)) as [Hr|Hr].
    + rewrite bool_decide_true by done. by apply owes_same.
    + rewrite bool_decide_false by done. apply (owes_drop _ _ _ (Some r)); try done.
      * intros k' _. unfold stored_runs. simpl. by rewrite Hv.
      * unfold stored_runs. simpl. by rewrite Hv.
      * by intros r' [= <-].
  - destruct Ho as [Ho He]. exists false. split; [|by apply Hbad]. apply (owes_drop _ _ _ None); try done.
    + intros k' _. unfold stored_runs. simpl. by rewrite Hv.
    + unfold stored_runs. simpl. by rewrite Hv.
Qed.

(** An update that is refused changes nothing. *)
Lemma holds_update b r Q' :
  run_key r = k → (run_status r = RUNNING → is_worker i = true) →
  Q' (bool_decide (run_status r = RUNNING)) (Ok r) →
  (∀ e, is_exception e = true → Q' b (Raise e)) → under b (at_runs (runs_update r)) Q'.
Proof using RL.
  intros Hk Hw Hok Hbad s Hs. destruct (shr_update (ws_runs s) r Hs) as (o & R' & Hu & Hs' & Ho).
  unfold ws_on_runs, zoom. rewrite Hu. simpl. destruct o as [r'|e].
  - destruct Ho as (-> & _ & r1 & Hst & Hv). exists (bool_decide (run_status r = RUNNING)). split; [|done].
    rewrite Hk in Hv. apply (owes_change _ _ _ _ (Some r1)); [done|..]; unfold stored_runs; simpl; rewrite ?Hv.
    + intros k' Hne. by apply lookup_insert_ne.
    + apply lookup_insert_eq.
    + intros r' [= <-] Hr. rewrite <- Hst. by apply bool_decide_true.
    + intros Hr%bool_decide_eq_true_1. right. by apply Hw.
  - destruct Ho as (Hv & He & _). exists b. split; [|by apply Hbad]. by apply owes_same.
Qed.

(** One that ends the run is refused only if the run is gone. *)
Lemma holds_end b r Q' :
  run_key r = k → active_status (run_status r) = false →
  shr_takes (R:=R) (run_result r) → shr_takes (R:=R) (error_details r) →
  (∀ o, match o with Ok r' => r' = r | Raise e => is_exception e = true end → Q' false o) →
  under b (at_runs (runs_update r)) Q'.
Proof using RL.
  intros Hk Ha Hres Herr HQ s Hs. destruct (shr_update (ws_runs s) r Hs) as (o & R' & Hu & Hs' & Ho).
  unfold ws_on_runs, zoom. rewrite Hu. simpl. exists false. destruct o as [r'|e].
  - destruct Ho as (-> & _ & r1 & Hst & Hv). split; [|by apply HQ].
    rewrite Hk in Hv. apply (owes_drop _ _ _ (Some r1)); [done|..]; unfold stored_runs; simpl; rewrite ?Hv.
    + intros k' Hne. by apply lookup_insert_ne.
    + apply lookup_insert_eq.
    + intros r' [= <-] Hr. rewrite Hst in Hr. by rewrite Hr in Ha.
  - destruct Ho as (Hv & He & Hgone). rewrite Hk in Hgone. split; [|by apply HQ].
    apply (owes_drop _ _ _ None); [done|..]; unfold stored_runs; simpl; rewrite ?Hv; [done|by apply Hgone|done].
Qed.

(** A run is created under its key, and not as a running one. *)
Lemma holds_create b r Q' :
  run_key r = k → run_status r ≠ RUNNING → shr_identity (R:=R) (run_identity r) →
  Q' false (Ok r) → (∀ e, is_exception e = true → Q' b (Raise e)) → under b (at_runs (runs_create r)) Q'.
Proof using RL.
  intros Hk Hst Hid Hok Hbad s Hs. destruct (shr_create (ws_runs s) r Hs Hid) as (o & R' & Hc & Hs' & Ho).
  unfold ws_on_runs, zoom. rewrite Hc. simpl. destruct o as [r'|e].
  - destruct Ho as (-> & _ & r1 & Hst1 & Hv). exists false. split; [|done].
    rewrite Hk in Hv. apply (owes_drop _ _ _ (Some r1)); [done|..]; unfold stored_runs; simpl; rewrite ?Hv.
    + intros k' Hne. by apply lookup_insert_ne.
    + apply lookup_insert_eq.
    + intros r' [= <-] Hr. congruence.
  - destruct Ho as [Hv He]. exists b. split; [|by apply Hbad]. by apply owes_same.
Qed.
Lemma holds_delete Q' : (∀ o, Q' false o) → under false (at_runs (runs_delete k)) Q'.
Proof using RL.
  intros HQ s Hs. destruct (shr_delete (ws_runs s) k Hs) as (o & R' & Hd & Hs' & Hv).
  unfold ws_on_runs, zoom. rewrite Hd. simpl. exists false. split; [|done]. destruct Hv as [Hv|Hv].
  - by apply owes_same.
  - apply (owes_drop _ _ _ None); [done|..]; unfold stored_runs; simpl; rewrite ?Hv; [|apply lookup_delete_eq|done].
    intros k' Hne. by apply lookup_delete_ne.
Qed.

(** *** The worker's program *)

(** What is not about runs owes what it owed. *)
Lemma holds_thread_change b f t Q' : (∀ o, Q' b o) → under b (thread_change clock f t) Q'.
Proof using RL.
  intros HQ. destruct t as [t|]; [|by apply HQ]. unfold thread_change.
  apply holds_bind, holds_threads. intros [th|e]; [|apply HQ].
  apply holds_bind, holds_now. intros now. apply holds_bind, holds_threads. intros [?|?]; apply HQ.
Qed.

Lemma action_sound run d b :
  run_key run = k →
  under b (task_action clock json_str run d) (λ b' o,
    match o with
    | Ok _ => b = false ∨ type_in (draft_type d) TERMINAL_EVENT_TYPES = true → b' = false
    | Raise e => b' = true → is_exception e = true
    end).
Proof using RL.
  intros Hk. unfold task_action. destruct (type_is (draft_type d) STATE_VALUES) eqn:Hv.
  { simpl. intros [?|Ht]; [done|]. destruct (draft_type d) as [t|]; [|discriminate Hv]. simpl in Hv. to_prop. subst t.
    vm_compute in Ht. discriminate Ht. }
  destruct (type_in (draft_type d) TERMINAL_EVENT_TYPES) eqn:Ht; simpl negb; cbv iota; [|by intros [?|?]].
  apply holds_bind. rewrite Hk. apply holds_get; [|done]. intros r Hr.
  apply holds_bind, holds_now. intros t. apply holds_result.
  pose proof (action_outcome_facts json_str d r t) as Hout.
  destruct (action_outcome json_str d r t) as [r1|e].
  - destruct Hout as [Hk1 Hst]. apply holds_bind, holds_update; [congruence|done| |by intros e ? _].
    rewrite bool_decide_false by done. cbv beta iota. apply holds_thread_change. by intros [?|?].
  - destruct Hout as [Hst He]. by intros _.
Qed.

Lemma fail_sound run e b :
  run_key run = k → under b (task_fail_if_not_done clock run e) (λ b' _, b' = false).
Proof using RL.
  intros Hk. unfold task_fail_if_not_done. apply holds_bind. rewrite Hk. apply holds_get; [|done]. intros r Hr.
  destruct (decide (run_status r ∈ FINAL_STATUSES)) as [Hfin|Hfin].
  { simpl. rewrite bool_decide_false; [done|]. intros Hrun. rewrite Hrun in Hfin. revert Hfin. by apply (bool_decide_unpack _). }
  apply holds_bind, holds_now. intros t. apply holds_result. unfold run_fail, run_change.
  assert (terminal_status (run_status r) = false) as ->.
  { destruct (run_status r); try done; destruct Hfin; by apply (bool_decide_unpack _). }
  cbn [andb]. apply holds_bind, holds_end; try done; [apply shr_takes_null|by apply shr_takes_texts|].
  by intros [?|?].
Qed.

(** Asked for all events of a settling stream, the worker owes nothing at the end. *)
Lemma consume_sound n run ds e b :
  run_key run = k → under b (task_consume clock json_str n run ds e)
    (λ b' _, (length ds < n)%nat → settling_stream ds e = true → b' = false).
Proof using RL.
  intros Hk. unfold task_consume. apply holds_except, holds_bind.
  eapply (holds_mono _ _ _ _ (λ b' o, match o with
    | Ok _ => b = false ∨ existsb (λ d, type_in (draft_type d) TERMINAL_EVENT_TYPES) (take (n - 1) ds) = true → b' = false
    | Raise e => b' = true → is_exception e = true end)).
  - generalize (take (n - 1) ds). clear ds. intros ds. revert b. induction ds as [|d ds IH]; intros b; [by intros [?|?]|].
    apply holds_bind. eapply holds_mono; [by apply action_sound|].
    intros b1 [[]|err] Ho1; [|done]. eapply holds_mono; [by apply IH|]. intros b2 [[]|err2] Ho2; [|done].
    simpl. rewrite orb_true_iff. intros [Hb|[Hb|Hb]]; apply Ho2; auto.
  - intros b' [[]|err] Ho1.
    + destruct (n <=? length ds)%nat eqn:Hn; [apply Nat.leb_le in Hn; intros Hlt; exfalso; lia|apply Nat.leb_gt in Hn].
      rewrite take_ge in Ho1 by lia. unfold settling_stream. destruct e as [|err].
      * rewrite orb_false_r. intros _ Hset. apply Ho1. by right.
      * change (under b' (if is_exception err then task_fail_if_not_done clock run err else praise err)
          (λ b' _, (length ds < n)%nat → existsb (λ d, type_in (draft_type d) TERMINAL_EVENT_TYPES) ds || is_exception err = true
             → b' = false)).
        destruct (is_exception err); [eapply holds_mono; [by apply fail_sound|done]|].
        rewrite orb_false_r. intros _ Hset. apply Ho1. by right.
    + destruct (is_exception err) eqn:He; [eapply holds_mono; [by apply fail_sound|done]|].
      intros _ _. destruct b'; [|done]. by specialize (Ho1 eq_refl).
Qed.

Lemma mark_idle_sound run b :
  run_key run = k → under b (task_mark_idle clock run) (λ b' _, b = false → b' = false).
Proof using RL.
  intros Hk. unfold task_mark_idle. apply holds_bind. rewrite Hk. apply holds_get; [|done]. intros r _.
  apply holds_thread_change. intros _ ->. apply andb_false_r.
Qed.

Section Process.
Context {A : Type} (adapters : dict A)
  (adapter_stream : A → ExecutionRequest → list RuntimeEventDraft * stream_end).

(** The assistant has an adapter, its stream settles the run, and the gateway, if there is
    one, asks for all events. *)
Definition serviceable (receipt : RunCommandReceipt) (gateway : option gateway_call) : bool :=
  match dget adapters (id_value (assistant_id (receipt_identity receipt))) with
  | Some a =>
      let '(ds, e) := adapter_stream a (cmd_request (rcp_command receipt)) in
      settling_stream ds e && match gateway with Some c => (length ds <? call_reads c)%nat | None => true end
  | None => false
  end.

Lemma stream_sound gateway run ds e b :
  run_key run = k → under b (task_stream clock json_str gateway run ds e)
    (λ b' _, settling_stream ds e && match gateway with Some c => (length ds <? call_reads c)%nat | None => true end = true
       → b' = false).
Proof using RL.
  intros Hk. unfold task_stream. destruct gateway as [c|].
  - pose proof (gateway_drafts clock run ds e) as Hconv. destruct (converted _ _ _ _) as [events e'].
    assert (settling_stream ds e && (length ds <? call_reads c)%nat = true →
      (length events.*1 < call_reads c)%nat ∧ settling_stream events.*1 e' = true) as Hcut.
    { intros [Hset Hlen%Nat.ltb_lt]%andb_true_iff. destruct Hconv as [_ Hconv]. destruct (forallb sendable ds).
      - by destruct Hconv as [-> ->].
      - destruct Hconv as (Hl & err & -> & Herr & _). rewrite length_fmap. split; [lia|].
        unfold settling_stream. by rewrite Herr, orb_true_r. }
    apply holds_bind. eapply holds_mono; [by apply consume_sound|].
    intros b1 [[]|?] Hb; [|intros []%Hcut; by apply Hb].
    apply holds_result. destruct (call_end c); [|intros []%Hcut; by apply Hb].
    eapply holds_mono; [by apply mark_idle_sound|]. intros b2 o H2 []%Hcut. by apply H2, Hb.
  - apply holds_bind. eapply holds_mono; [by apply consume_sound|].
    intros b1 [[]|?] Hb; [|intros [? _]%andb_true_iff; apply Hb; [lia|done]].
    eapply holds_mono; [by apply mark_idle_sound|]. intros b2 o H2 [? _]%andb_true_iff. apply H2, Hb; [lia|done].
Qed.

(** Whatever the receipt, the worker owes nothing at its end if it can settle the run. *)
Lemma worker_owes receipt gateway :
  i = Worker (id_value (run_id (receipt_identity receipt))) →
  under false (worker_task clock json_str adapters adapter_stream receipt gateway)
    (λ b _, serviceable receipt gateway = true → b = false).
Proof using RL.
  intros Hi. assert (id_value (run_id (receipt_identity receipt)) = k) as Hk by (by rewrite Hi).
  assert (is_worker i = true) as Hw by (by rewrite Hi). clear Hi.
  unfold worker_task. apply holds_finally. rewrite Hk.
  apply (holds_mono _ _ _ _ (λ b' _, serviceable receipt gateway = true → b' = false)).
  2: { intros b o Hb. apply holds_keep; [done|]. intros s. by case_match. }
  apply holds_bind, holds_get; [|done]. intros r Hr. rewrite andb_false_r.
  destruct (decide (run_status r = PENDING)) as [Hp|Hp];
    [rewrite bool_decide_true by done|rewrite bool_decide_false by done; by apply holds_queue].
  simpl negb. cbv iota. apply holds_bind, holds_now. intros t. apply holds_result.
  unfold run_mark_running. destruct (run_change r RUNNING t JNull None) as [r1|e] eqn:Hc; [|done].
  apply run_change_facts in Hc as (Hk1 & Hst1 & _).
  apply holds_bind, holds_update; [congruence|done| |done]. rewrite Hst1, bool_decide_true by done.
  unfold task_execute, serviceable. destruct (dget adapters _) as [a|]; [|by apply holds_queue].
  destruct (adapter_stream a _) as [ds e]. apply holds_bind. eapply holds_mono; [by apply stream_sound|].
  intros b [[]|?] Hb; [by apply holds_queue|done].
Qed.
End Process.
(** *** The gateway's programs *)

(** What a client's call returns is for the client. *)
Definition discard {B} (p : proc State B) : proc State unit := pbind p (λ _, pret tt).

Lemma discard_sound {B} (p : proc State B) :
  under false p (λ b _, b = false) → sound caller_key is_worker tables_ok running i false (discard p).
Proof. intros Hp. apply holds_bind. eapply holds_mono; [exact Hp|]. by intros b [?|?]. Qed.

Lemma queue_failed_sound r th :
  run_key r = k → run_status r = PENDING → under false (task_queue_failed clock r th) (λ b _, b = false).
Proof using RL.
  intros Hk Hst. unfold task_queue_failed. apply holds_bind, holds_now. intros t. apply holds_result.
  destruct (run_fail r _ t) as [r1|e] eqn:Hf; [|done]. apply run_change_facts in Hf as (Hk1 & Hst1 & _).
  apply holds_bind, holds_update; [congruence|by rewrite Hst1| |done]. rewrite Hst1. by apply holds_thread_change.
Qed.

Lemma start_sound r :
  id_value (run_id (req_identity r)) = k → shr_identity (R:=R) (req_identity r) →
  under false (start_task clock fresh r) (λ b _, b = false).
Proof using RL.
  intros Hk Hi. unfold start_task. apply holds_bind, holds_now. intros t.
  apply holds_bind, (holds_mono _ _ _ _ (λ b _, b = false)).
  { destruct (thread_id (req_identity r)) as [th_id|]; [|done].
    apply holds_bind, holds_threads. intros [th|e]; [|done]. destruct (decide _); [done|].
    apply holds_bind, holds_threads. by intros [?|?]. }
  intros b [[]|e] ->; [|done]. apply holds_bind, holds_create; [done|done|done| |done].
  apply holds_bind, holds_except, holds_bind, holds_new. intros x. apply holds_queue. intros [[]|e]; [done|].
  destruct (is_exception e); [|done]. apply holds_bind. eapply holds_mono; [by apply queue_failed_sound|].
  by intros b [?|?].
Qed.

Lemma cancel_sound : under false (cancel_task clock k) (λ b _, b = false).
Proof using RL.
  unfold cancel_task. apply holds_bind, holds_get; [|done]. intros r Hr. rewrite andb_false_r.
  destruct (terminal_status (run_status r)); [done|]. apply holds_bind, holds_now. intros t. apply holds_result.
  destruct (run_cancel r t) as [r1|e] eqn:Hc; [|done].
  apply holds_bind, (holds_mono _ _ _ _ (λ b _, b = false)).
  - destruct (decide _) as [|Hne]; [done|]. unfold run_cancel in Hc. rewrite decide_False in Hc by done.
    apply run_change_facts in Hc as (Hk1 & Hst1 & _). apply holds_bind, holds_update; [congruence|by rewrite Hst1| |done]. by rewrite Hst1.
  - intros b [[]|e] ->; [|done]. apply holds_bind, holds_thread_change. by intros [?|?].
Qed.

Lemma resume_sound r :
  id_value (run_id (req_identity r)) = k → under false (resume_task clock fresh r) (λ b _, b = false).
Proof using RL.
  intros Hk. unfold resume_task. rewrite Hk. apply holds_bind, holds_get; [|done]. intros r' Hr. rewrite andb_false_r.
  destruct (decide _); [|done]. apply holds_bind, holds_now. intros t. apply holds_bind, holds_new. intros x.
  apply holds_bind, holds_queue. by intros [?|?].
Qed.
End Rules.

(** ** The system *)

Section System.
Context {A : Type} (adapters : dict A)
  (adapter_stream : A → ExecutionRequest → list RuntimeEventDraft * stream_end).

(** What begins at any time: the execution of any receipt, also of one that is delivered
    twice, and the calls of the gateway. *)
Inductive production_start : caller → proc State unit → bool → Prop :=
| starts_worker receipt gateway :
    production_start (Worker (id_value (run_id (receipt_identity receipt))))
      (worker_task clock json_str adapters adapter_stream receipt gateway)
      (serviceable adapters adapter_stream receipt gateway)
| starts_run request : shr_identity (R:=R) (req_identity request) →
    production_start (Client (id_value (run_id (req_identity request)))) (discard (start_task clock fresh request)) true
| starts_cancel id : production_start (Client id) (discard (cancel_task clock id)) true
| starts_resume request :
    production_start (Client (id_value (run_id (req_identity request)))) (discard (resume_task clock fresh request)) true
| starts_delete id : production_start (Client id) (discard (at_runs (runs_delete id))) true
| starts_thread_call id B (m : Py T B) : production_start (Client id) (discard (at_threads m)) true.

Lemma production_start_sound i p served : production_start i p served →
  if served then sound caller_key is_worker tables_ok running i false p
  else keeps caller_key is_worker tables_ok running i false p.
Proof using RL.
  intros Hp. destruct Hp as [receipt gateway|request Hi|id|request|id|id B m].
  - pose proof (worker_owes (Worker (id_value (run_id (receipt_identity receipt)))) adapters adapter_stream
      receipt gateway eq_refl) as Hw.
    destruct (serviceable adapters adapter_stream receipt gateway); (eapply holds_mono; [exact Hw|auto]).
  - by apply discard_sound, start_sound.
  - by apply discard_sound, cancel_sound.
  - by apply discard_sound, resume_sound.
  - by apply discard_sound, holds_delete.
  - by apply discard_sound, holds_threads.
Qed.

Definition quiet (s : State) : Prop := tables_ok s ∧ ∀ k, ¬ running k s.

Lemma production_ok s c : quiet s → 
  reachable (crash_step caller_key is_worker production_start) (mk_pool s [], []) c →
  crash_ok caller_key is_worker tables_ok running c.
Proof using RL. intros [Hs Hq]. apply crash_reachable_ok; [exact production_start_sound|done|done]. Qed.
End System.
End Owed.

(** ** Over Postgres *)

Section Postgres.
Context {RD TD Q A : Type}
  `{Table RunRow RD, RTL : !TableLaws RunRow RD, Table ThreadRow TD, TTL : !TableLaws ThreadRow TD, !RunCommandQueue Q}
  (clock : nat → datetime) (fresh : nat → string) (json_str : json → string) (adapters : dict A)
  (adapter_stream : A → ExecutionRequest → list RuntimeEventDraft * stream_end).

Notation State := (WorkerState (R:=PgState RD) (T:=PgState TD) (Q:=Q)).
Notation step := (crash_step caller_key is_worker (production_start (R:=PgState RD) (T:=PgState TD) (Q:=Q) clock fresh json_str adapters adapter_stream)).

Definition runs_in (s : State) : gmap string Run := runs_of (pg_table (ws_runs s)).

(** C3: the runs of the production system.  Gateways start, cancel, resume and delete runs
    and change threads while workers execute receipts, any of them and also twice; the
    transactions of all of them interleave in any order, and each of them may be stopped at
    any point, as when its process ends.  Then at any time a thread has at most one pending,
    running or interrupted run.  And a run that is stored as running is being executed by a
    worker that has not ended, unless it is recorded as lost: a worker on that run was
    stopped ([Stopped]), or one began whose assistant has no adapter, whose adapter's stream
    neither has a terminal event nor ends with an exception, or whose gateway did not ask for
    all its events ([Unserved], the executions that are not [serviceable]). *)
Theorem production_runs_safe (s : State) (st : Pool caller State) (lost : list (cause * string)) :
  quiet s → reachable step (mk_pool s [], []) (st, lost) →
  (∀ t k k' r r', runs_in (pool_state st) !! k = Some r → runs_in (pool_state st) !! k' = Some r' →
     occupies t r = true → occupies t r' = true → k = k') ∧
  (∀ k r, runs_in (pool_state st) !! k = Some r → run_status r = RUNNING →
     (Stopped, k) ∈ lost ∨ (Unserved, k) ∈ lost ∨
     ∃ p, (Worker k, p) ∈ pool_tasks st ∧ unfinished p).
Proof using RTL.
  intros Hq Hr. pose proof (production_ok clock fresh json_str adapters adapter_stream s _ Hq Hr) as Hok. split.
  - intros t k k' r r'. apply runs_of_exclusive. apply Hok.
  - intros k r Hk Hst.
    destruct (crash_owed _ _ _ _ _ k Hok) as [[[] Hl]|([k'|k'] & p & Hi & Hw & Hp)]; [by exists r|by left|by right; left| |done].
    right. right. exists p. simpl in Hi. by rewrite <- Hi.
Qed.

(** When all that is in progress has ended, which any order brings about ([pool_terminates],
    [pool_drains]), no run is running but those that are lost. *)
Lemma production_settles (s : State) (st : Pool caller State) (lost : list (cause * string)) k r :
  quiet s → reachable step (mk_pool s [], []) (st, lost) → idle st →
  runs_in (pool_state st) !! k = Some r → run_status r = RUNNING → (Stopped, k) ∈ lost ∨ (Unserved, k) ∈ lost.
Proof using RTL.
  intros Hq Hr Hidle Hk Hst. pose proof (production_ok clock fresh json_str adapters adapter_stream s _ Hq Hr) as Hok.
  destruct (crash_owed _ _ _ _ _ k Hok) as [[[] Hl]|(i & p & _ & _ & Hp & Hu)]; [by exists r|by left|by right|].
  by destruct (proj1 (Forall_forall _ _) Hidle _ Hp).
Qed.
End Postgres.

(** ** A run that is cancelled while a worker takes it *)
Module LocalProduction.
Import ServiceSafety.Local LocalWorker.

Notation State :=
  (WorkerState (R:=PgState (map_table (Row:=RunRow))) (T:=PgState (map_table (Row:=ThreadRow))) (Q:=MemoryQueue)).
Notation step := (crash_step caller_key is_worker (production_start (R:=PgState (map_table (Row:=RunRow))) (T:=PgState (map_table (Row:=ThreadRow)))
  (Q:=MemoryQueue) clock fresh json_str [("agent", tt)] drafts)).

Definition worker : proc State unit := worker_task clock json_str [("agent", tt)] drafts (receipt "r1" "t") None.
Definition client : proc State unit := discard (cancel_task clock "r1").
Definition begun : Pool caller State := mk_pool state [(Client "r1", client); (Worker "r1", worker)].
(** The worker reads the run, the client cancels it, the worker goes on. *)
Definition cancelled : Pool caller State := foldl advance begun [1; 0; 0; 0; 0; 0; 0]%nat.
Definition taken : Pool caller State := foldl advance cancelled [1; 1]%nat.
Definition at_end : Pool caller State := foldl advance taken (repeat 1%nat 30).

Definition status (st : Pool caller State) : option RunStatus := run_status <$> runs_in (pool_state st) !! "r1".

Lemma state_quiet : quiet state.
Proof.
  pose proof state_ready as (Hr & _). split; [exact Hr|]. intros k (r & Hk & Hst).
  apply (entities_Some run_table) in Hk as [_ Hk]; [|exact run_rows_ok]. rewrite run_rows in Hk.
  apply lookup_singleton_Some in Hk as [_ Hk]. by apply (f_equal rr_status) in Hk; simpl in Hk; rewrite Hst in Hk.
Qed.

Lemma system_begun_reachable : reachable step (mk_pool state [], []) (begun, []).
Proof.
  eapply reach_step; [eapply reach_step; [apply reach_init|]|].
  - exact (crash_start _ _ _ _ _ _ _ _ [] (starts_worker clock fresh json_str [("agent", tt)] drafts (receipt "r1" "t") None)).
  - exact (crash_start _ _ _ _ _ _ _ _ [] (starts_cancel clock fresh json_str [("agent", tt)] drafts "r1")).
Qed.
Lemma schedule_step st ns :
  reachable step (mk_pool state [], []) (st, []) → reachable step (mk_pool state [], []) (foldl advance st ns, []).
Proof. intros Hst. eapply reachable_trans; [exact Hst|apply acts_are_steps, schedule_reachable]. Qed.
Lemma taken_reachable : reachable step (mk_pool state [], []) (taken, []).
Proof. apply schedule_step, schedule_step, system_begun_reachable. Qed.

(** The worker claims the run although it has been cancelled, and completes it: a run
    that was over is active again, and its cancellation is lost. *)
Lemma cancellation_lost :
  reachable step (mk_pool state [], []) (at_end, []) ∧
  (pool_tasks cancelled).*2 !! 0%nat = Some (Done (Ok tt)) ∧
  (status cancelled, status taken, status at_end) = (Some CANCELLED, Some RUNNING, Some SUCCESS).
Proof. split; [apply schedule_step, taken_reachable|]. split; vm_compute; reflexivity. Qed.

Lemma status_running st : status st = Some RUNNING → ∃ r, runs_in (pool_state st) !! "r1" = Some r ∧ run_status r = RUNNING.
Proof. intros (r & Hr & Hst)%fmap_Some. by exists r. Qed.
Lemma taken_running : ∃ r, runs_in (pool_state taken) !! "r1" = Some r ∧ run_status r = RUNNING.
Proof.
  apply status_running. vm_compute. reflexivity.
Qed.

(** A worker that is stopped after its claim leaves the run running and nobody to end it. *)
Lemma stopped_worker_strands :
  ∃ st, reachable step (mk_pool state [], []) (st, [(Stopped, "r1")]) ∧ status st = Some RUNNING ∧ idle st.
Proof.
  assert ((pool_tasks taken).*1 = [Client "r1"; Worker "r1"]) as Hkeys by (unfold taken, cancelled; by rewrite !schedule_labels).
  assert ((pool_tasks taken).*2 !! 0%nat = Some (Done (Ok tt))) as Hclient by (vm_compute; reflexivity).
  assert (status taken = Some RUNNING) as Hst by (vm_compute; reflexivity).
  pose proof taken_reachable as Hr. revert Hkeys Hclient Hst Hr.
  destruct taken as [s [|[k1 p1] [|[k2 p2] [|? ?]]]]; intros [=] Hclient Hst Hr. subst.
  simpl in Hclient. injection Hclient as ->. exists (mk_pool s [(Client "r1", Done (Ok tt))]). split; [|split; [exact Hst|]].
  - eapply reach_step; [exact Hr|]. exact (crash_stop _ _ _ s [(Client "r1", Done (Ok tt))] (Worker "r1") p2 [] []).
  - repeat constructor. by intros [].
Qed.

Lemma production_runs_safe_witness :
  ∃ st p, reachable step (mk_pool state [], []) (st, []) ∧ (Worker "r1", p) ∈ pool_tasks st ∧ unfinished p.
Proof.
  destruct taken_running as (r & Hr & Hst).
  destruct (proj2 (production_runs_safe clock fresh json_str [("agent", tt)] drafts state taken [] state_quiet taken_reachable)
    "r1" r Hr Hst) as [[]%elem_of_nil|[[]%elem_of_nil|(p & Hp & Hu)]].
  exists taken, p. split; [exact taken_reachable|]. split; [exact Hp|exact Hu].
Defined.
End LocalProduction.
