(* ===== verification/PostgresConfig.v ===== *)
(** * The Postgres repository of configuration revisions

    [PostgresApplicationConfigRepository] of [adapters/postgres/repositories.py]
    over the table [application_revisions] of [models.py]: the same port as
    [MemoryStores.Config].  The numbers of an application's revisions stay 1, 2,
    3, ... and at most one of them is active. *)

From S2P Require Import Prelude PyDict Json Errors Identity MemoryStores Database Postgres.

(** ** [ApplicationRevisionRow] *)

Record RevisionRow : Type := mk_revision_row {
  cr_id : string;
  cr_application_id : string;
  cr_revision_number : Z;
  cr_config : json_object;
  cr_config_hash : string;
  cr_active : bool;
}.

(** [UniqueConstraint("application_id", "revision_number")] and
    [UniqueConstraint("application_id", "config_hash")] *)
#[export] Instance revision_schema : Schema RevisionRow := {
  row_key := cr_id;
  row_conflict := λ r r',
    bool_decide (cr_application_id r = cr_application_id r') &&
    (bool_decide (cr_revision_number r = cr_revision_number r') ||
     bool_decide (cr_config_hash r = cr_config_hash r'));
}.

(** An [Integer] column has 32 bits. *)
Definition column_int (z : Z) : bool := (- 2 ^ 31 <=? z) && (z <? 2 ^ 31).
Definition revision_row_fits (r : RevisionRow) : bool :=
  column_string 255 (cr_id r) && column_string 255 (cr_application_id r) && column_int (cr_revision_number r) &&
  column_json (JObj (cr_config r)) && column_string 64 (cr_config_hash r).

(** A transaction is rolled back when it raises. *)
Definition transaction {D A : Type} (body : Py D A) : Py D A := λ d,
  match body d with (Ok a, d') => (Ok a, d') | (Raise e, _) => (Raise e, d) end.

(** [UPDATE ... SET ... WHERE] *)
Definition update_rows {Row D} `{Table Row D} (p : Row → bool) (f : Row → Row) : Py D unit := λ d,
  match tb_update p f d with Some d' => (Ok tt, d') | None => (Raise IntegrityError, d) end.

(** ** [PostgresApplicationConfigRepository] *)
Module PgConfig.
Import MemoryStores.Config.

Definition of_application (app : string) (r : RevisionRow) : bool := bool_decide (cr_application_id r = app).
Definition numbered_row (app : string) (revision : Z) (r : RevisionRow) : bool :=
  of_application app r && (cr_revision_number r =? revision).
Definition with_active (b : bool) (r : RevisionRow) : RevisionRow :=
  mk_revision_row (cr_id r) (cr_application_id r) (cr_revision_number r) (cr_config r) (cr_config_hash r) b.

(** [COALESCE(MAX(revision_number), 0) + 1] *)
Definition max_number (l : list RevisionRow) : Z :=
  match cr_revision_number <$> l with [] => 0 | z :: l => foldr Z.max z l end.

Section Repository.
(** [json.dumps(config, sort_keys=True, separators=(",", ":"))], the hexadecimal
    SHA-256, and what [CAST(... AS jsonb)] makes of a text. *)
Context (dumps : json_object → string) (sha256_hex : string → string) (jsonb : string → res json_object).
Context {D : Type} `{Table RevisionRow D}.

Definition get_active (app : string) : Py D ConfigRevision := λ d,
  match head (tb_select_desc cr_revision_number (λ r, of_application app r && cr_active r) d) with
  | None => (Raise (failure RESOURCE_NOT_FOUND ("active config not found: " +:+ app)), d)
  | Some r =>
      (result_map (λ i, mk_config_revision app (cr_revision_number r) (cr_config r) (cr_config_hash r) (cr_active r)
                          (Some i)) (parse_id (cr_id r)), d)
  end.

Definition create_revision (app : string) (config : json_object) (id : ConfigRevisionId) : Py D ConfigRevision :=
  let encoded := dumps config in
  let config_hash := sha256_hex encoded in
  revision <- (λ d, (Ok (max_number (tb_select (of_application app) d) + 1), d));;
  stored <- of_result (jsonb encoded);;
  insert_row revision_row_fits (mk_revision_row (id_value id) app revision stored config_hash false);;;
  ret (mk_config_revision app revision config config_hash false (Some id)).

Definition activate (app : string) (revision : Z) : Py D ConfigRevision :=
  item <- transaction
    (update_rows (of_application app) (with_active false);;;
     update_rows (numbered_row app revision) (with_active true);;;
     items <- (λ d, (Ok (tb_select (numbered_row app revision) d), d));;
     match head items with
     | None => raise (failure RESOURCE_NOT_FOUND "config revision not found")
     | Some item => ret item
     end);;
  i <- of_result (parse_id (cr_id item));;
  ret (mk_config_revision app revision (cr_config item) (cr_config_hash item) true (Some i)).
End Repository.
End PgConfig.

(** ** What it does *)
Module PgConfigSpec.
Import MemoryStores.Config PgConfig.

Section Spec.
Context {D : Type} `{Table RevisionRow D, TL : !TableLaws RevisionRow D}.
Implicit Types (d : D) (r : RevisionRow).

(** The row of an application's revision. *)
Definition revision_at d (app : string) (n : Z) (r : RevisionRow) : Prop :=
  tb_view d !! cr_id r = Some r ∧ cr_application_id r = app ∧ cr_revision_number r = n.

(** The application has the revisions 1, ..., [n], at most one of them active. *)
Definition application_ok d (app : string) (n : Z) : Prop :=
  0 ≤ n ∧ (∀ i, (∃ r, revision_at d app i r) ↔ 1 ≤ i ≤ n) ∧
  ∀ i i' r r', revision_at d app i r → revision_at d app i' r' → cr_active r = true → cr_active r' = true → i = i'.
Definition revisions_ok d : Prop := tb_view d !! "" = None ∧ ∀ app, ∃ n, application_ok d app n.

(** A number belongs to one row. *)
Lemma revision_at_unique d app n r r' : revision_at d app n r → revision_at d app n r' → r = r'.
Proof using TL.
  intros (Hr & Ha & Hn) (Hr' & Ha' & Hn'). destruct (decide (cr_id r = cr_id r')) as [He|Hne]; [congruence|].
  pose proof (proj2 (tb_consistent d) _ _ _ _ Hr Hr' Hne) as Hc. simpl in Hc.
  rewrite Ha, Ha', Hn, Hn' in Hc. by rewrite !bool_decide_true in Hc by done.
Qed.

Lemma elem_of_application d app r : r ∈ tb_select (of_application app) d ↔ revision_at d app (cr_revision_number r) r.
Proof using TL.
  rewrite elem_of_select. unfold of_application, revision_at. rewrite bool_decide_eq_true. naive_solver.
Qed.

Lemma max_number_spec (l : list RevisionRow) n : 0 ≤ n →
  (∀ i, (∃ r, r ∈ l ∧ cr_revision_number r = i) ↔ 1 ≤ i ≤ n) → max_number l = n.
Proof.
  intros Hn Hl. unfold max_number.
  assert (∀ i, i ∈ cr_revision_number <$> l ↔ 1 ≤ i ≤ n) as Hin.
  { intros i. rewrite <- Hl, list_elem_of_fmap. naive_solver. }
  clear Hl. destruct (cr_revision_number <$> l) as [|z zs].
  - destruct (decide (n = 0)); [done|]. exfalso. apply (not_elem_of_nil n), Hin. lia.
  - assert (∀ z zs, foldr Z.max z zs ∈ z :: zs ∧ ∀ x, x ∈ z :: zs → x ≤ foldr Z.max z zs) as Hmax.
    { clear. intros z zs. induction zs as [|y zs [IH1 IH2]]; simpl; [split; [set_solver|]; intros x Hx; apply list_elem_of_singleton in Hx as ->; lia|]. split.
      - destruct (Z.max_spec y (foldr Z.max z zs)) as [[_ ->]|[_ ->]]; set_solver.
      - intros x Hx. apply elem_of_cons in Hx as [->|Hx]; [|apply elem_of_cons in Hx as [->|Hx]; [lia|]].
        + transitivity (foldr Z.max z zs); [apply IH2; by left|lia].
        + transitivity (foldr Z.max z zs); [apply IH2; by right|lia]. }
    destruct (Hmax z zs) as [H1%Hin H2]. assert (1 ≤ n) by lia.
    pose proof (H2 n (proj2 (Hin n) ltac:(lia))). lia.
Qed.

Lemma application_max d app n : application_ok d app n → max_number (tb_select (of_application app) d) = n.
Proof using TL.
  intros (Hn & Hall & _). apply max_number_spec; [done|]. intros i. rewrite <- Hall. split.
  - intros (r & Hr & <-). exists r. by apply elem_of_application.
  - intros (r & Hr). exists r. destruct (proj2 (proj2 Hr)). split; [by apply elem_of_application|done].
Qed.

(** The rows of a table after an insertion, and after a change of the flag. *)
Lemma application_insert d d' app n r :
  application_ok d app n → tb_view d' = <[cr_id r := r]> (tb_view d) → tb_view d !! cr_id r = None →
  (cr_application_id r = app → cr_revision_number r = n + 1 ∧ cr_active r = false) →
  application_ok d' app (if decide (cr_application_id r = app) then n + 1 else n).
Proof using TL.
  intros (Hn & Hall & Hact) Hv Hnew Hr.
  assert (∀ i r', revision_at d' app i r' ↔
    (r' = r ∧ cr_application_id r = app ∧ i = n + 1) ∨ revision_at d app i r') as Hat.
  { intros i r'. unfold revision_at. rewrite Hv, lookup_insert. case_decide as Hid.
    - split.
      + intros ([= <-] & Ha & <-). left. by rewrite (proj1 (Hr Ha)).
      + intros [(-> & Ha & ->)|(Hr' & _)]; [|by rewrite <- Hid, Hnew in Hr']. by rewrite (proj1 (Hr Ha)).
    - split; [by right|]. intros [(-> & _)|]; [congruence|done]. }
  split; [case_decide; lia|]. split.
  - intros i. setoid_rewrite Hat. split.
    + intros (r' & [(-> & Ha & ->)|Hr']); [by case_decide; [lia|]|].
      assert (1 ≤ i ≤ n) by (apply Hall; by exists r'). case_decide; lia.
    + intros Hi. case_decide as Ha; [destruct (decide (i = n + 1)) as [->|]; [exists r; by left|]|].
      all: destruct (proj2 (Hall i)) as [r' Hr']; [lia|]; exists r'; by right.
  - intros i i' r1 r2 [(-> & Ha & _)|H1]%Hat [(-> & Ha' & _)|H2]%Hat Hb1 Hb2;
      [| | |by eapply Hact].
    all: destruct (Hr ltac:(eassumption)) as [_ Hf]; congruence.
Qed.

(** A change of the flags of rows. *)
Lemma flag_keeps d d' app n (g : RevisionRow → bool) :
  application_ok d app n → tb_view d' = (λ r, with_active (g r) r) <$> tb_view d →
  (∀ i i' r r', revision_at d app i r → revision_at d app i' r' → g r = true → g r' = true → i = i') →
  application_ok d' app n.
Proof.
  intros (Hn & Hall & Hact) Hv Hg.
  assert (∀ i r', revision_at d' app i r' ↔ ∃ r, revision_at d app i r ∧ r' = with_active (g r) r) as Hat.
  { intros i r'. unfold revision_at. rewrite Hv, lookup_fmap. split.
    - intros (Hl & <- & <-). apply fmap_Some in Hl as (r & Hr & Hrr). exists r.
      assert (cr_id r' = cr_id r) as <- by by rewrite Hrr. by rewrite Hrr at 2 3.
    - intros (r & (Hr & <- & <-) & ->). simpl. by rewrite Hr. }
  split; [done|]. split.
  - intros i. rewrite <- Hall. setoid_rewrite Hat. naive_solver.
  - intros i i' r1 r2 (r1' & H1 & ->)%Hat (r2' & H2 & ->)%Hat. simpl. by eapply Hg.
Qed.

(** Changing flags violates no constraint. *)
Lemma flag_update d p b :
  ∃ d', tb_update p (with_active b) d = Some d' ∧
    tb_view d' = (λ r, with_active (if p r then b else cr_active r) r) <$> tb_view d.
Proof using TL.
  destruct (tb_update p (with_active b) d) as [d'|] eqn:Hu.
  - exists d'. split; [done|]. rewrite (tb_update_ok _ _ _ _ Hu). apply map_fmap_ext. intros k r _.
    by destruct (p r), r.
  - exfalso. apply tb_update_fails in Hu as (k & k' & r & r' & r'' & Hne & Hr & Hr' & _ & Hr'' & Hc); [|done].
    assert (row_conflict r r' = true ∨ row_conflict r' r = true) as [H1|H1].
    { destruct Hr'' as [->| ->]; [exact Hc|]. by destruct (p r'). }
    + by rewrite (proj2 (tb_consistent d) _ _ _ _ Hr Hr' Hne) in H1.
    + by rewrite (proj2 (tb_consistent d) _ _ _ _ Hr' Hr (not_eq_sym Hne)) in H1.
Qed.

(** The flags after [activate]. *)
Definition activated (app : string) (n : Z) (r : RevisionRow) : bool :=
  if numbered_row app n r then true else if of_application app r then false else cr_active r.

Lemma activate_outcome d app n m : tb_view d !! "" = None → application_ok d app n →
  if decide (1 ≤ m ≤ n) then
    ∃ r i d', revision_at d app m r ∧ parse_id (cr_id r) = Ok i ∧
      activate app m d = (Ok (mk_config_revision app m (cr_config r) (cr_config_hash r) true (Some i)), d') ∧
      tb_view d' = (λ r, with_active (activated app m r) r) <$> tb_view d
  else activate app m d = (Raise (failure RESOURCE_NOT_FOUND "config revision not found"), d).
Proof using TL.
  intros Hid (Hn & Hall & _). unfold activate, transaction, update_rows, bind.
  destruct (flag_update d (of_application app) false) as (d1 & -> & Hv1).
  destruct (flag_update d1 (numbered_row app m) true) as (d2 & -> & Hv2).
  assert (tb_view d2 = (λ r, with_active (activated app m r) r) <$> tb_view d) as Hv.
  { rewrite Hv2, Hv1, <- map_fmap_compose. apply map_fmap_ext. intros k r _. unfold activated. simpl.
    change (numbered_row app m (with_active _ r)) with (numbered_row app m r).
    by destruct (numbered_row app m r), (of_application app r). }
  assert (∀ r, r ∈ tb_select (numbered_row app m) d2 ↔
    ∃ r0, revision_at d app m r0 ∧ r = with_active true r0) as Hsel.
  { intros r. rewrite elem_of_select, Hv, lookup_fmap. unfold numbered_row, of_application. split.
    - intros [(r0 & Hr0 & ->)%fmap_Some Hp]. to_prop. exists r0. simpl in *. split; [by split_and!|].
      unfold activated, numbered_row, of_application. by rewrite bool_decide_true, (proj2 (Z.eqb_eq _ _)) by done.
    - intros (r0 & (Hr0 & <- & <-) & ->). simpl. rewrite Hr0, bool_decide_true, Z.eqb_refl by done. split; [|done].
      simpl. unfold activated, numbered_row, of_application. by rewrite bool_decide_true, Z.eqb_refl by done. }
  case_decide as Hm.
  - destruct (proj2 (Hall m) Hm) as [r0 Hr0].
    destruct (tb_select (numbered_row app m) d2) as [|r l] eqn:Hl.
    { exfalso. apply (not_elem_of_nil (with_active true r0)), Hsel. by exists r0. }
    destruct (proj1 (Hsel r) (list_elem_of_here _ _)) as (r1 & Hr1 & ->).
    assert (cr_id r1 ≠ "") as Hne by (intros Hr; destruct Hr1 as [Hr1 _]; rewrite Hr in Hr1; congruence).
    exists r1, (mk_id (cr_id r1)), d2. pose proof (parse_id_ok (k:=ConfigRevisionKind) _ Hne) as Hp.
    split_and!; [done|done| |done]. simpl. unfold of_result, ret. by rewrite Hp.
  - destruct (tb_select (numbered_row app m) d2) as [|r l] eqn:Hl; [done|]. exfalso. apply Hm, Hall.
    destruct (proj1 (Hsel r) (list_elem_of_here _ _)) as (r0 & Hr0 & _). by exists r0.
Qed.

Lemma get_active_outcome d app n : tb_view d !! "" = None → application_ok d app n →
  (∃ m r i, revision_at d app m r ∧ cr_active r = true ∧ parse_id (cr_id r) = Ok i ∧
     get_active app d = (Ok (mk_config_revision app m (cr_config r) (cr_config_hash r) true (Some i)), d)) ∨
  ((∀ m r, revision_at d app m r → cr_active r = false) ∧
   get_active app d = (Raise (failure RESOURCE_NOT_FOUND ("active config not found: " +:+ app)), d)).
Proof using TL.
  intros Hid (Hn & Hall & Hact). unfold get_active.
  assert (∀ r, r ∈ tb_select_desc cr_revision_number (λ r, of_application app r && cr_active r) d ↔
    revision_at d app (cr_revision_number r) r ∧ cr_active r = true) as Hsel.
  { intros r. rewrite elem_of_select_desc, andb_true_iff. unfold of_application, revision_at.
    rewrite bool_decide_eq_true. naive_solver. }
  destruct (tb_select_desc _ _ d) as [|r l].
  - right. split; [|done]. intros m r Hr. apply not_true_is_false. intros Ha.
    apply (not_elem_of_nil r), Hsel. split; [|done]. unfold revision_at in *. naive_solver.
  - left. destruct (proj1 (Hsel r) (list_elem_of_here _ _)) as [Hr Ha].
    assert (cr_id r ≠ "") as Hne by (intros Hr'; destruct Hr as [Hr _]; rewrite Hr' in Hr; congruence).
    pose proof (parse_id_ok (k:=ConfigRevisionKind) _ Hne) as Hp.
    exists (cr_revision_number r), r, (mk_id (cr_id r)). split_and!; [done|done|done|]. simpl. by rewrite Hp, Ha.
Qed.
End Spec.

Section Repository.
Context (dumps : json_object → string) (sha256_hex : string → string) (jsonb : string → res json_object).
Context {D : Type} `{Table RevisionRow D, TL : !TableLaws RevisionRow D}.
Implicit Types (d : D) (r : RevisionRow).

Abbreviation create_revision := (create_revision dumps sha256_hex jsonb).

Inductive pg_config_step : D → D → Prop :=
  | pg_config_create d app c id : id_value id ≠ "" → pg_config_step d (create_revision app c id d).2
  | pg_config_activate d app n : pg_config_step d (activate app n d).2.

(** A creation that is not refused adds the next revision, inactive. *)
Lemma create_revision_outcome d app n c id : application_ok d app n →
  (∃ e, create_revision app c id d = (Raise e, d)) ∨
  ∃ v d', create_revision app c id d =
      (Ok (mk_config_revision app (n + 1) c (sha256_hex (dumps c)) false (Some id)), d') ∧
    tb_view d !! id_value id = None ∧
    tb_view d' = <[id_value id := mk_revision_row (id_value id) app (n + 1) v (sha256_hex (dumps c)) false]> (tb_view d).
Proof using TL.
  intros Hok. unfold PgConfig.create_revision, insert_row, bind, of_result, ret.
  rewrite (application_max d app n Hok). destruct (jsonb (dumps c)) as [v|e]; [|left; by eexists].
  destruct (negb _); [left; by eexists|]. destruct (tb_insert _ d) as [d'|] eqn:Hi; [|left; by eexists].
  apply tb_insert_ok in Hi as [Hn Hv]. right. by exists v, d'.
Qed.

Lemma flag_activated d app m app' i i' r r' n : application_ok d app' n →
  revision_at d app' i r → revision_at d app' i' r' →
  activated app m r = true → activated app m r' = true → i = i'.
Proof.
  intros (_ & _ & Hact) Hr Hr' H1 H2. unfold activated, numbered_row, of_application in *.
  destruct Hr as (Hk & Ha & Hn), Hr' as (Hk' & Ha' & Hn'). rewrite Ha, Hn in H1. rewrite Ha', Hn' in H2.
  case_bool_decide; simpl in *.
  - destruct (i =? m) eqn:E1, (i' =? m) eqn:E2; simplify_eq. to_prop. lia.
  - by apply (Hact i i' r r').
Qed.

Lemma pg_config_step_ok d d' : pg_config_step d d' → revisions_ok d → revisions_ok d'.
Proof using TL.
  intros Hs [Hid Hall]. destruct Hs as [d app c id Hne|d app m].
  - destruct (Hall app) as [n Hn].
    destruct (create_revision_outcome d app n c id Hn) as [[e ->]|(v & d' & -> & Hnew & Hv)]; [by split|]. simpl.
    split; [by rewrite Hv, lookup_insert_ne|]. intros app'. destruct (Hall app') as [n' Hn'].
    eexists. eapply (application_insert d); [exact Hn'|exact Hv|exact Hnew|]. simpl. intros <-. split; [|done].
    by rewrite <- (application_max _ _ _ Hn), <- (application_max _ _ _ Hn').
  - destruct (Hall app) as [n Hn]. pose proof (activate_outcome d app n m Hid Hn) as Ho.
    case_decide as Hm; [|by rewrite Ho]. destruct Ho as (r & i & d' & _ & _ & -> & Hv). simpl.
    split; [by rewrite Hv, lookup_fmap, Hid|]. intros app'. destruct (Hall app') as [n' Hn']. exists n'.
    eapply (flag_keeps d); [exact Hn'|exact Hv|]. intros i1 i2 r1 r2. by apply flag_activated with n'.
Qed.

(** C37: the Postgres configuration revisions.  Starting from an empty table, an
    application has the revisions 1, ..., n after any calls, and at most one of
    them is active, which [get_active] returns; a creation is refused or adds the
    revision n + 1, inactive, also when it is the first; a configuration with the
    digest of an earlier one is always refused; [activate] makes exactly the
    requested revision active, and leaves the table as it was when there is no such
    revision. *)
Theorem postgres_config_spec d0 d app c id m :
  tb_view d0 = ∅ → reachable pg_config_step d0 d →
  ∃ n, application_ok d app n ∧
  ((∃ i r cid, revision_at d app i r ∧ cr_active r = true ∧ parse_id (cr_id r) = Ok cid ∧
     get_active app d = (Ok (mk_config_revision app i (cr_config r) (cr_config_hash r) true (Some cid)), d)) ∨
   ((∀ i r, revision_at d app i r → cr_active r = false) ∧
     get_active app d = (Raise (failure RESOURCE_NOT_FOUND ("active config not found: " +:+ app)), d))) ∧
  ((∃ e, create_revision app c id d = (Raise e, d)) ∨
   ∃ v d', create_revision app c id d =
       (Ok (mk_config_revision app (n + 1) c (sha256_hex (dumps c)) false (Some id)), d') ∧
     revision_at d' app (n + 1) (mk_revision_row (id_value id) app (n + 1) v (sha256_hex (dumps c)) false)) ∧
  (∀ i r, revision_at d app i r → cr_config_hash r = sha256_hex (dumps c) →
     ∃ e, create_revision app c id d = (Raise e, d)) ∧
  (if decide (1 ≤ m ≤ n) then
     ∃ r cid d', revision_at d app m r ∧ parse_id (cr_id r) = Ok cid ∧
       activate app m d = (Ok (mk_config_revision app m (cr_config r) (cr_config_hash r) true (Some cid)), d') ∧
       ∀ i r', revision_at d' app i r' → cr_active r' = bool_decide (i = m)
   else activate app m d = (Raise (failure RESOURCE_NOT_FOUND "config revision not found"), d)).
Proof using TL.
  intros Hd0 Hreach.
  assert (revisions_ok d) as [Hid Hall].
  { revert d Hreach. apply reachable_invariant; [|intros ? ? ? ?; by eapply pg_config_step_ok].
    split; [by rewrite Hd0, lookup_empty|]. intros app'. exists 0. split; [done|]. unfold revision_at. rewrite Hd0.
    setoid_rewrite lookup_empty. split; [|naive_solver]. intros i. split; [naive_solver|lia]. }
  destruct (Hall app) as [n Hn]. exists n. split; [done|]. split; [by eapply get_active_outcome|].
  pose proof (create_revision_outcome d app n c id Hn) as Hc. split; [|split].
  - destruct Hc as [|(v & d' & He & _ & Hv)]; [by left|]. right. exists v, d'. split; [done|].
    split; [|done]. simpl. by rewrite Hv, lookup_insert_eq.
  - intros i r (Hr & Ha & Hi) Hh. destruct Hc as [|(v & d' & _ & Hnew & Hv)]; [done|]. exfalso.
    set (r' := mk_revision_row _ _ _ _ _ _) in Hv. assert (cr_id r ≠ cr_id r') as Hne by (simpl; congruence).
    assert (row_conflict r r' = true) as Hcon by (simpl; by rewrite (bool_decide_true _ Ha), (bool_decide_true _ Hh), orb_true_r).
    rewrite (proj2 (tb_consistent d') (cr_id r) (cr_id r') r r') in Hcon; rewrite ?Hv; try done.
    + rewrite lookup_insert_ne; [done|]. simpl in Hne. congruence.
    + apply lookup_insert_eq.
  - pose proof (activate_outcome d app n m Hid Hn) as Ho. case_decide as Hm; [|done].
    destruct Ho as (r & cid & d' & Hr & Hp & He & Hv). exists r, cid, d'. split_and!; [done|done|done|].
    intros i r' (Hl & Ha & Hi). rewrite Hv, lookup_fmap in Hl. apply fmap_Some in Hl as (r0 & _ & ->).
    simpl in *. unfold activated, numbered_row, of_application. rewrite Ha, Hi, bool_decide_true by done. simpl.
    destruct (Z.eqb_spec i m); case_bool_decide; done.
Qed.
End Repository.
End PgConfigSpec.

(** The first revision of an application, activated. *)
Module LocalConfig.
Import MemoryStores.Config PgConfig PgConfigSpec.
Definition config : json_object := [("a", JInt 1)].
Definition dumps (_ : json_object) : string := "{}".
Definition digest (s : string) : string := s.
Definition jsonb (_ : string) : res json_object := Ok config.
Definition empty : map_table (Row:=RevisionRow) := empty_table.
Definition table := (PgConfig.create_revision dumps digest jsonb "app" config (mk_id "r1") empty).2.

Lemma postgres_config_spec_witness :
  get_active "app" table = (Raise (failure RESOURCE_NOT_FOUND "active config not found: app"), table) ∧
  (∃ r, (activate "app" 1 table).1 = Ok r) ∧
  ∃ e, PgConfig.create_revision dumps digest jsonb "app" config (mk_id "r2") table = (Raise e, table).
Proof.
  split; [by vm_compute|]. split; [eexists; by vm_compute|].
  destruct (postgres_config_spec dumps digest jsonb empty table "app" config (mk_id "r2") 1) as
    (n & _ & _ & _ & Hdup & _).
  - done.
  - eapply reach_step; [apply reach_init|]. exact (pg_config_create dumps digest jsonb empty "app" config (mk_id "r1") ltac:(done)).
  - apply (Hdup 1 (mk_revision_row "r1" "app" 1 config "{}" false)); [|done].
    split; [by vm_compute|done].
Defined.
End LocalConfig.
