(* ===== verification/PostgresAssistants.v ===== *)
(** * The Postgres repository of assistants

    [PostgresAssistantRepository] of [adapters/postgres/repositories.py] over the
    tables [assistants] and [assistant_versions] of [models.py].  A gateway that
    registers a graph reads first whether the assistant exists and inserts it then:
    the two steps are apart, so that another gateway can come in between. *)

From S2P Require Import Prelude PyDict PyStr Json JsonAccess Errors Identity Execution.
From S2P Require Import Database Postgres PostgresConfig.
From Stdlib Require Import Ascii.

(** ** [AssistantRow] and [AssistantVersionRow] *)

Record AssistantRow : Type := mk_assistant_row {
  ar_id : string;
  ar_application_id : string;
  ar_graph_id : string;
  ar_active_version : Z;
}.
#[export] Instance assistant_schema : Schema AssistantRow := {
  row_key := ar_id;
  row_conflict := λ _ _, false;
}.
Definition assistant_row_fits (r : AssistantRow) : bool :=
  column_string 255 (ar_id r) && column_string 255 (ar_application_id r) && column_string 255 (ar_graph_id r) &&
  column_int (ar_active_version r).

Record VersionRow : Type := mk_version_row {
  vr_id : string;
  vr_assistant_id : string;
  vr_version : Z;
  vr_config : json_object;
  vr_context : json_object;
  vr_metadata : json_object;
}.
(** [UniqueConstraint("assistant_id", "version")] *)
#[export] Instance version_schema : Schema VersionRow := {
  row_key := vr_id;
  row_conflict := λ r r', bool_decide (vr_assistant_id r = vr_assistant_id r') &&
                          bool_decide (vr_version r = vr_version r');
}.
Definition version_row_fits (r : VersionRow) : bool :=
  column_string 255 (vr_id r) && column_string 255 (vr_assistant_id r) && column_int (vr_version r) &&
  column_json (JObj (vr_config r)) && column_json (JObj (vr_context r)) && column_json (JObj (vr_metadata r)).

(** ** [PostgresAssistantRepository] *)
Module PgAssistants.
(** [f"{assistant_id}:{version}"] *)
Definition version_id (assistant_id : string) (version : Z) : string := assistant_id +:+ ":" +:+ pretty version.
Definition not_found (id : string) : exn := failure RESOURCE_NOT_FOUND ("assistant not found: " +:+ id).

Definition version_not_found (id : string) (version : Z) : exn :=
  failure RESOURCE_NOT_FOUND ("assistant version not found: " +:+ id +:+ "/" +:+ pretty version).

(** [{**metadata, "name": name}], and [metadata.pop("name", None)] of a name that
    was written so. *)
Definition json_name (name : option string) : json := match name with Some n => JStr n | None => JNull end.
Definition named_metadata (a : Assistant) : json_object := dset (asst_metadata a) "name" (json_name (asst_name a)).
Definition name_of (v : json) : res (option string) :=
  match v with JNull => Ok None | v => result_map Some (jstr v) end.

(** [_to_assistant], and the same in [get] *)
Definition to_assistant (row : AssistantRow) (version : VersionRow) : res Assistant :=
  let metadata := vr_metadata version in
  result_bind (parse_id (ar_id row)) (λ i,
  result_bind (name_of (default JNull (dget metadata "name"))) (λ name,
    Ok (mk_assistant i (ar_graph_id row) (vr_version version) name None (vr_config version) (vr_context version)
          (dpop metadata "name") None None))).

Definition max_version (l : list VersionRow) : Z :=
  match vr_version <$> l with [] => 0 | z :: l => foldr Z.max z l end.

Section Repository.
(** [json.dumps], and what [CAST(... AS jsonb)] makes of a text. *)
Context (dumps : json_object → string) (jsonb : string → res json_object).
Context {DA DV : Type} `{Table AssistantRow DA, Table VersionRow DV}.
(** [self._application_id] *)
Context (application_id : string).

Definition on_rows {A} (m : Py DA A) : Py (DA * DV) A := λ s, let (r, d) := m s.1 in (r, (d, s.2)).
Definition on_versions {A} (m : Py DV A) : Py (DA * DV) A := λ s, let (r, d) := m s.2 in (r, (s.1, d)).

Definition has_version (id : string) (version : Z) (r : VersionRow) : bool :=
  bool_decide (vr_assistant_id r = id) && (vr_version r =? version).
Definition version_of (id : string) (r : VersionRow) : bool := bool_decide (vr_assistant_id r = id).

Definition get (id : string) : Py (DA * DV) Assistant := λ s,
  match tb_get id s.1 with
  | None => (Raise (not_found id), s)
  | Some row =>
      match tb_select (has_version id (ar_active_version row)) s.2 with
      | [] => (Raise (not_found id), s)
      | [version] => (to_assistant row version, s)
      | _ => (Raise MultipleResultsFound, s)
      end
  end.

(** The two steps of the transaction in [create]. *)
Definition create_read (id : string) : Py (DA * DV) bool := λ s,
  (Ok (match tb_get id s.1 with Some _ => false | None => true end), s).
Definition create_write (absent : bool) (a : Assistant) : Py (DA * DV) unit :=
  let id := id_value (asst_id a) in
  if absent then
    transaction
      (on_rows (insert_row assistant_row_fits (mk_assistant_row id application_id (asst_graph_id a) (asst_version a)));;;
       on_versions (insert_row version_row_fits
         (mk_version_row (version_id id (asst_version a)) id (asst_version a) (asst_config a) (asst_context a)
            (named_metadata a))))
  else ret tt.
Definition create_end (absent : bool) (a : Assistant) : Py (DA * DV) Assistant :=
  try_except (create_write absent a) (λ e, if is_integrity_error e then ret tt else raise e);;;
  get (id_value (asst_id a)).
Definition create (a : Assistant) : Py (DA * DV) Assistant :=
  absent <- create_read (id_value (asst_id a));;
  create_end absent a.

Fixpoint get_all (ids : list string) : Py (DA * DV) (list Assistant) :=
  match ids with
  | [] => ret []
  | id :: ids => a <- get id;; l <- get_all ids;; ret (a :: l)
  end.
Definition all : Py (DA * DV) (list Assistant) := λ s,
  get_all (ar_id <$> tb_select (λ r, bool_decide (ar_application_id r = application_id)) s.1) s.

(** The row of this application, or an error. *)
Definition own_row (id : string) (missing : exn) : Py (DA * DV) AssistantRow := λ s,
  match tb_get id s.1 with
  | Some row => if bool_decide (ar_application_id row = application_id) then (Ok row, s) else (Raise missing, s)
  | None => (Raise missing, s)
  end.

Definition versions (id : string) : Py (DA * DV) (list Assistant) := λ s,
  match own_row id (not_found id) s with
  | (Ok row, _) =>
      match tb_select_desc vr_version (version_of id) s.2 with
      | [] => (Raise (not_found id), s)
      | l => (result_mapM (to_assistant row) l, s)
      end
  | (Raise e, _) => (Raise e, s)
  end.

Definition update (id : string) (a : Assistant) : Py (DA * DV) Assistant :=
  transaction
    (row <- own_row id (not_found id);;
     version <- (λ s, (Ok (max_version (tb_select (version_of id) s.2) + 1), s));;
     config <- of_result (jsonb (dumps (asst_config a)));;
     context <- of_result (jsonb (dumps (asst_context a)));;
     metadata <- of_result (jsonb (dumps (named_metadata a)));;
     on_versions (insert_row version_row_fits
       (mk_version_row (version_id id version) id version config context metadata));;;
     on_rows (change_row assistant_row_fits
       (mk_assistant_row (ar_id row) (ar_application_id row) (asst_graph_id a) version)));;;
  get id.

Definition set_latest (id : string) (version : Z) : Py (DA * DV) Assistant :=
  let missing := version_not_found id version in
  transaction
    (row <- own_row id missing;;
     on_versions (get_row (version_id id version) missing);;;
     on_rows (change_row assistant_row_fits
       (mk_assistant_row (ar_id row) (ar_application_id row) (ar_graph_id row) version)));;;
  get id.

Definition delete (id : string) (delete_threads : bool) : Py (DA * DV) unit :=
  transaction
    (own_row id (not_found id);;;
     on_versions (λ d, (Ok tt, tb_delete (version_of id) d));;;
     on_rows (delete_row id)).

Definition count (graph_id : option string) : Py (DA * DV) Z := λ s,
  (Ok (Z.of_nat (length (tb_select
     (λ r, bool_decide (ar_application_id r = application_id) &&
           match graph_id with Some g => bool_decide (ar_graph_id r = g) | None => true end) s.1))), s).
End Repository.
End PgAssistants.

(** ** What it does *)
Module PgAssistantsSpec.
Import PgAssistants.

(** A version's row names its assistant and number: they are read off the key. *)
Definition no_colon (s : string) : bool := string_forall (λ c, negb (bool_decide (c = ":"%char))) s.

Lemma colon_split (a a' p p' : string) : no_colon p = true → no_colon p' = true →
  a +:+ ":" +:+ p = a' +:+ ":" +:+ p' → a = a' ∧ p = p'.
Proof.
  intros Hp Hp'. revert a'. induction a as [|c a IH]; intros [|c' a'] Heq; rewrite ?app_string_cons, ?app_string_nil in Heq.
  - by simplify_eq.
  - injection Heq as <- ->. unfold no_colon in Hp. rewrite !string_forall_app in Hp. simpl in Hp.
    by rewrite andb_false_r in Hp.
  - injection Heq as -> <-. unfold no_colon in Hp'. rewrite !string_forall_app in Hp'. simpl in Hp'.
    by rewrite andb_false_r in Hp'.
  - injection Heq as -> [-> ->]%IH. done.
Qed.

Lemma pretty_N_go_no_colon x s : no_colon s = true → no_colon (pretty_N_go x s) = true.
Proof.
  revert s. induction (N.lt_wf_0 x) as [x _ IH]; intros s Hs.
  destruct (decide (x = 0%N)) as [->|]; [by rewrite pretty_N_go_0|].
  rewrite pretty_N_go_step by lia. apply IH; [apply N.div_lt; lia|]. unfold no_colon in *. simpl.
  rewrite Hs, andb_true_r. unfold pretty_N_char. by repeat case_match.
Qed.
Lemma pretty_no_colon (z : Z) : no_colon (pretty z) = true.
Proof.
  assert (∀ n : N, no_colon (pretty n) = true) as Hn.
  { intros n. unfold pretty, pretty_N. case_decide; [done|by apply pretty_N_go_no_colon]. }
  destruct z as [|p|p]; [done|exact (Hn (N.pos p))|]. unfold no_colon, pretty, pretty_Z.
  rewrite string_forall_app. exact (Hn (N.pos p)).
Qed.
Lemma version_id_inj a n a' n' : version_id a n = version_id a' n' → a = a' ∧ n = n'.
Proof.
  intros [-> Hp]%colon_split; [|apply pretty_no_colon..]. split; [done|]. by apply (inj pretty).
Qed.

Section Spec.
Context {DA DV : Type} `{Table AssistantRow DA, !TableLaws AssistantRow DA} `{Table VersionRow DV, !TableLaws VersionRow DV}.
Implicit Types (s : DA * DV).

(** The assistant and its version, as rows. *)
Definition version_at s (id : string) (n : Z) (v : VersionRow) : Prop :=
  tb_view s.2 !! version_id id n = Some v.
Definition name_ok (v : VersionRow) : Prop := ∃ name, dget (vr_metadata v) "name" = Some (json_name name).

(** Every version belongs to an assistant, and every assistant has its active
    version. *)
Record assistants_ok s : Prop := {
  ao_nonempty : tb_view s.1 !! "" = None;
  ao_key k v : tb_view s.2 !! k = Some v → k = version_id (vr_assistant_id v) (vr_version v);
  ao_owner k v : tb_view s.2 !! k = Some v → is_Some (tb_view s.1 !! vr_assistant_id v);
  ao_active id row : tb_view s.1 !! id = Some row → is_Some (tb_view s.2 !! version_id id (ar_active_version row));
  ao_name k v : tb_view s.2 !! k = Some v → name_ok v;
}.

Lemma version_at_fields s id n v : assistants_ok s → version_at s id n v → vr_assistant_id v = id ∧ vr_version v = n.
Proof. intros Hs Hv. by destruct (version_id_inj _ _ _ _ (ao_key s Hs _ _ Hv)). Qed.

(** What is read of a row and a version. *)
Definition read_assistant (row : AssistantRow) (v : VersionRow) : Assistant :=
  mk_assistant (mk_id (ar_id row)) (ar_graph_id row) (vr_version v)
    (match dget (vr_metadata v) "name" with Some (JStr n) => Some n | _ => None end) None
    (vr_config v) (vr_context v) (dpop (vr_metadata v) "name") None None.

Lemma to_assistant_ok row v : ar_id row ≠ "" → name_ok v → to_assistant row v = Ok (read_assistant row v).
Proof.
  intros Hid [name Hn]. unfold to_assistant, read_assistant. rewrite parse_id_ok, Hn by done. by destruct name.
Qed.

Lemma select_versions s id n : assistants_ok s →
  tb_select (has_version id n) s.2 = option_list (tb_view s.2 !! version_id id n).
Proof.
  intros Hs.
  assert (∀ v, v ∈ tb_select (has_version id n) s.2 ↔ tb_view s.2 !! version_id id n = Some v) as Hin.
  { intros v. rewrite elem_of_select. unfold has_version. rewrite andb_true_iff, bool_decide_eq_true, Z.eqb_eq. split.
    - intros [Hv [<- <-]]. by rewrite <- (ao_key s Hs _ _ Hv).
    - intros Hv. destruct (version_at_fields s id n v Hs Hv) as [-> ->]. split; [|done].
      by rewrite (tb_key _ _ _ Hv). }
  pose proof (NoDup_select (has_version id n) s.2) as Hnd.
  destruct (tb_view s.2 !! version_id id n) as [v|] eqn:Hv; simpl.
  - destruct (tb_select (has_version id n) s.2) as [|v1 [|v2 l]] eqn:Hl.
    + exfalso. by apply (not_elem_of_nil v), Hin.
    + f_equal. assert (v1 = v) as ->; [|done]. enough (Some v = Some v1) by congruence. apply Hin. by left.
    + exfalso. rewrite !fmap_cons in Hnd. apply NoDup_cons in Hnd as [Hnd _]. apply Hnd.
      assert (v1 = v) as -> by (enough (Some v = Some v1) by congruence; apply Hin; by left).
      assert (v2 = v) as -> by (enough (Some v = Some v2) by congruence; apply Hin; by right; left). by left.
  - destruct (tb_select (has_version id n) s.2) as [|v1 l] eqn:Hl; [done|]. exfalso.
    enough (None = Some v1) by done. apply Hin. by left.
Qed.

(** [get] reads the active version of the row. *)
Lemma get_outcome s id : assistants_ok s →
  match tb_view s.1 !! id with
  | None => get id s = (Raise (not_found id), s)
  | Some row => ∃ v, version_at s id (ar_active_version row) v ∧ get id s = (Ok (read_assistant row v), s)
  end.
Proof.
  intros Hs. unfold get. rewrite tb_get_view. destruct (tb_view s.1 !! id) as [row|] eqn:Hrow; [|done].
  destruct (ao_active s Hs _ _ Hrow) as [v Hv]. exists v. split; [done|].
  rewrite select_versions, Hv by done. simpl. rewrite to_assistant_ok; [done| |by eapply (ao_name s)].
  pose proof (tb_key _ _ _ Hrow) as Hk. simpl in Hk. rewrite Hk. intros ->. by rewrite (ao_nonempty s Hs) in Hrow.
Qed.

(** Inserting an assistant with its first version. *)
Definition row_of_assistant (app : string) (a : Assistant) : AssistantRow :=
  mk_assistant_row (id_value (asst_id a)) app (asst_graph_id a) (asst_version a).
Definition version_row (id : string) (n : Z) (config context metadata : json_object) : VersionRow :=
  mk_version_row (version_id id n) id n config context metadata.
Definition first_version (a : Assistant) : VersionRow :=
  version_row (id_value (asst_id a)) (asst_version a) (asst_config a) (asst_context a) (named_metadata a).
Definition assistant_fits (app : string) (a : Assistant) : Prop :=
  id_value (asst_id a) ≠ "" ∧ assistant_row_fits (row_of_assistant app a) = true ∧
  version_row_fits (first_version a) = true.

Lemma named_metadata_ok a : dget (named_metadata a) "name" = Some (json_name (asst_name a)).
Proof. apply dget_dset_eq. Qed.

(** No version is left of an assistant that does not exist. *)
Lemma no_orphan s id n : assistants_ok s → tb_view s.1 !! id = None → tb_view s.2 !! version_id id n = None.
Proof.
  intros Hs Hid. destruct (tb_view s.2 !! version_id id n) as [v|] eqn:Hv; [|done].
  destruct (ao_owner s Hs _ _ Hv) as [row Hrow]. destruct (version_at_fields s id n v Hs Hv) as [He _].
  by rewrite He, Hid in Hrow.
Qed.

(** A new version's row is refused only if the number is taken. *)
Lemma insert_version s id n config context metadata : assistants_ok s →
  tb_view s.2 !! version_id id n = None →
  ∃ d', tb_insert (version_row id n config context metadata) s.2 = Some d' ∧
    tb_view d' = <[version_id id n := version_row id n config context metadata]> (tb_view s.2).
Proof.
  intros Hs Hn. destruct (tb_insert _ s.2) as [d'|] eqn:Hi.
  - exists d'. split; [done|]. by apply tb_insert_ok in Hi as [_ Hv].
  - exfalso. apply tb_insert_fails in Hi as [[v Hv]|(k & v & Hv & Hc)]; [simpl in Hv; congruence|].
    assert (vr_assistant_id v = id ∧ vr_version v = n) as [<- <-].
    { destruct Hc as [Hc|Hc]; simpl in Hc; to_prop; naive_solver. }
    rewrite (ao_key s Hs _ _ Hv) in Hv. congruence.
Qed.

Lemma add_version_ok s s' id n v row : assistants_ok s → id ≠ "" →
  vr_assistant_id v = id → vr_version v = n → name_ok v → ar_id row = id → ar_active_version row = n →
  tb_view s'.1 = <[id := row]> (tb_view s.1) → tb_view s'.2 = <[version_id id n := v]> (tb_view s.2) →
  assistants_ok s'.
Proof.
  intros Hs Hne Hvi Hvn Hname Hri Hrn H1 H2. constructor.
  - rewrite H1, lookup_insert_ne by done. apply (ao_nonempty s Hs).
  - intros k v'. rewrite H2, lookup_insert. case_decide as Hk; [|apply (ao_key s Hs)]. intros [= <-]. congruence.
  - intros k v' Hv'. rewrite H1, lookup_insert. case_decide as Hi; [by eexists|].
    rewrite H2, lookup_insert in Hv'. case_decide as Hk; [congruence|]. by eapply (ao_owner s Hs).
  - intros i r. rewrite H1, lookup_insert. case_decide as Hi.
    + intros [= <-]. rewrite H2, <- Hi, Hrn, lookup_insert_eq. by eexists.
    + intros Hr. rewrite H2, lookup_insert. case_decide; [by eexists|]. by eapply (ao_active s Hs).
  - intros k v'. rewrite H2, lookup_insert. case_decide as Hk; [by intros [= <-]|apply (ao_name s Hs)].
Qed.

Section Application.
Context (dumps : json_object → string) (jsonb : string → res json_object) (app : string).

Lemma create_write_outcome s a : assistants_ok s → assistant_fits app a →
  tb_view s.1 !! id_value (asst_id a) = None →
  ∃ s', create_write app true a s = (Ok tt, s') ∧ assistants_ok s' ∧
    tb_view s'.1 = <[id_value (asst_id a) := row_of_assistant app a]> (tb_view s.1) ∧
    tb_view s'.2 = <[version_id (id_value (asst_id a)) (asst_version a) := first_version a]> (tb_view s.2).
Proof.
  intros Hs (Hne & Hf1 & Hf2) Hnew. unfold create_write, transaction, on_rows, on_versions, insert_row, bind.
  change (mk_assistant_row _ _ _ _) with (row_of_assistant app a). change (mk_version_row _ _ _ _ _ _) with (first_version a).
  rewrite Hf1, Hf2. simpl negb. cbv iota.
  destruct (tb_insert (row_of_assistant app a) s.1) as [d1|] eqn:Hi.
  - apply tb_insert_ok in Hi as [_ Hv1].
    destruct (insert_version s (id_value (asst_id a)) (asst_version a) (asst_config a) (asst_context a) (named_metadata a) Hs)
      as (d2 & Hi2 & Hv2); [by apply no_orphan|]. unfold first_version. simpl. rewrite Hi2.
    eexists. split; [done|]. split; [|by split].
    apply (add_version_ok s _ (id_value (asst_id a)) (asst_version a) (first_version a) (row_of_assistant app a));
      try done. exists (asst_name a). apply named_metadata_ok.
  - exfalso. apply tb_insert_fails in Hi as [[row Hrow]|(k & row & _ & [|])]; [|done..].
    change (row_key _) with (id_value (asst_id a)) in Hrow. congruence.
Qed.

(** What another gateway's row makes of the insertion. *)
Lemma create_write_refused s a : assistant_fits app a → is_Some (tb_view s.1 !! id_value (asst_id a)) →
  create_write app true a s = (Raise IntegrityError, s).
Proof.
  intros (Hne & Hf1 & Hf2) [row Hrow]. unfold create_write, transaction, on_rows, on_versions, insert_row, bind.
  change (mk_assistant_row _ _ _ _) with (row_of_assistant app a). rewrite Hf1. simpl negb. cbv iota.
  destruct (tb_insert (row_of_assistant app a) s.1) as [d1|] eqn:Hi; [|done].
  apply tb_insert_ok in Hi as [Hn _]. change (row_key _) with (id_value (asst_id a)) in Hn. congruence.
Qed.

Lemma max_version_spec l v : v ∈ l → vr_version v ≤ max_version l.
Proof.
  intros Hv. unfold max_version. apply (list_elem_of_fmap_2 vr_version) in Hv.
  destruct (vr_version <$> l) as [|z zs]; [by apply not_elem_of_nil in Hv|].
  revert Hv. generalize (vr_version v). intros x. induction zs as [|y zs IH]; simpl.
  - intros Hx. apply list_elem_of_singleton in Hx. lia.
  - intros [->|[->|Hx]%elem_of_cons]%elem_of_cons; [|lia|].
    + specialize (IH ltac:(by left)). lia.
    + specialize (IH ltac:(by right)). lia.
Qed.

(** A change of the row of an assistant. *)
Lemma change_assistant s row0 graph n : tb_view s.1 !! ar_id row0 = Some row0 →
  ∃ d', tb_set (mk_assistant_row (ar_id row0) (ar_application_id row0) graph n) s.1 = Some d' ∧
    tb_view d' = <[ar_id row0 := mk_assistant_row (ar_id row0) (ar_application_id row0) graph n]> (tb_view s.1).
Proof.
  intros Hr. destruct (tb_set _ s.1) as [d'|] eqn:Hs.
  - exists d'. split; [done|]. by apply tb_set_ok in Hs; [|simpl; rewrite Hr; by eexists].
  - exfalso. by apply tb_set_fails in Hs as (k & row & _ & _ & [|]).
Qed.

(** The number that [update] gives. *)
Definition next_version s (id : string) : Z := max_version (tb_select (version_of id) s.2) + 1.

Lemma next_version_free s id : assistants_ok s → ∀ n, is_Some (tb_view s.2 !! version_id id n) → n < next_version s id.
Proof.
  intros Hs n [v Hv]. destruct (version_at_fields s id n v Hs Hv) as [Ha Hn].
  enough (vr_version v ≤ max_version (tb_select (version_of id) s.2)) by (unfold next_version; lia).
  apply max_version_spec, elem_of_select. unfold version_of. rewrite bool_decide_true by done. split; [|done].
  by rewrite (tb_key _ _ _ Hv).
Qed.

(** The documents of a new version as the database keeps them, or what it refuses first. *)
Definition update_documents (a : Assistant) : res (json_object * json_object * json_object) :=
  result_bind (jsonb (dumps (asst_config a))) (λ config,
  result_bind (jsonb (dumps (asst_context a))) (λ context,
  result_bind (jsonb (dumps (named_metadata a))) (λ metadata, Ok (config, context, metadata)))).

Lemma own_row_ok s id row missing : tb_view s.1 !! id = Some row → ar_application_id row = app →
  own_row app id missing s = (Ok row, s).
Proof. intros Hrow Happ. unfold own_row. by rewrite tb_get_view, Hrow, bool_decide_true. Qed.

Lemma assistant_update_refused s id a row : assistants_ok s →
  tb_view s.1 !! id = Some row → ar_application_id row = app →
  match update_documents a with
  | Raise e => update dumps jsonb app id a s = (Raise e, s)
  | Ok (config, context, metadata) =>
      version_row_fits (version_row id (next_version s id) config context metadata) &&
      assistant_row_fits (mk_assistant_row id app (asst_graph_id a) (next_version s id)) = false →
      update dumps jsonb app id a s = (Raise DataError, s)
  end.
Proof.
  intros Hs Hrow Happ. pose proof (tb_key _ _ _ Hrow : ar_id row = id) as Hid.
  unfold update_documents, update, transaction, bind, of_result. rewrite (own_row_ok s id row) by done.
  destruct (jsonb (dumps (asst_config a))) as [config|]; [|done].
  destruct (jsonb (dumps (asst_context a))) as [context|]; [|done].
  destruct (jsonb (dumps (named_metadata a))) as [metadata|]; [|done]. simpl.
  fold (next_version s id). change (mk_version_row _ _ _ _ _ _) with (version_row id (next_version s id) config context metadata).
  intros Hf. unfold on_versions, on_rows, insert_row, change_row. rewrite Hid, Happ.
  destruct (version_row_fits _); simpl in Hf |- *; [|done].
  destruct (tb_insert _ s.2) as [d2|] eqn:Hi; [by rewrite Hf|].
  assert (tb_view s.2 !! version_id id (next_version s id) = None) as Hfree.
  { apply eq_None_not_Some. intros Hv. apply next_version_free in Hv; [lia|done]. }
  destruct (insert_version s id (next_version s id) config context metadata Hs Hfree) as (d2 & Hi' & _). congruence.
Qed.

Lemma assistant_update_outcome s id a row config context metadata : assistants_ok s →
  tb_view s.1 !! id = Some row → ar_application_id row = app →
  jsonb (dumps (asst_config a)) = Ok config → jsonb (dumps (asst_context a)) = Ok context →
  jsonb (dumps (named_metadata a)) = Ok metadata → dget metadata "name" = Some (json_name (asst_name a)) →
  version_row_fits (version_row id (next_version s id) config context metadata) = true →
  assistant_row_fits (mk_assistant_row id app (asst_graph_id a) (next_version s id)) = true →
  ∃ s', update dumps jsonb app id a s =
      (Ok (read_assistant (mk_assistant_row id app (asst_graph_id a) (next_version s id))
             (version_row id (next_version s id) config context metadata)), s') ∧ assistants_ok s' ∧
    tb_view s'.1 = <[id := mk_assistant_row id app (asst_graph_id a) (next_version s id)]> (tb_view s.1) ∧
    tb_view s'.2 = <[version_id id (next_version s id) := version_row id (next_version s id) config context metadata]>
                     (tb_view s.2).
Proof.
  intros Hs Hrow Happ Hc Hx Hm Hname Hf1 Hf2.
  pose proof (tb_key _ _ _ Hrow : ar_id row = id) as Hid.
  assert (tb_view s.2 !! version_id id (next_version s id) = None) as Hfree.
  { apply eq_None_not_Some. intros Hv. apply next_version_free in Hv; [lia|done]. }
  destruct (insert_version s id (next_version s id) config context metadata Hs Hfree) as (d2 & Hi & Hv2).
  destruct (change_assistant s row (asst_graph_id a) (next_version s id)) as (d1 & Hu & Hv1); [by rewrite Hid|].
  rewrite Hid, Happ in Hu, Hv1.
  assert (assistants_ok (d1, d2)) as Hok.
  { apply (add_version_ok s (d1, d2) id (next_version s id) (version_row id (next_version s id) config context metadata)
      (mk_assistant_row id app (asst_graph_id a) (next_version s id))); try done; [|by exists (asst_name a)].
    intros ->. by rewrite (ao_nonempty s Hs) in Hrow. }
  exists (d1, d2). split; [|by split]. unfold update, transaction, own_row, on_rows, on_versions, insert_row, change_row,
    of_result, bind, ret. rewrite tb_get_view, Hrow, bool_decide_true by done. rewrite Hc, Hx, Hm.
  fold (next_version s id). change (mk_version_row _ _ _ _ _ _) with (version_row id (next_version s id) config context metadata).
  rewrite Hf1. simpl negb. cbv iota. rewrite Hi. cbn [fst snd]. rewrite Hid, Happ, Hf2. simpl negb. cbv iota. rewrite Hu.
  pose proof (get_outcome (d1, d2) id Hok) as Hg. simpl in Hg. rewrite Hv1, lookup_insert_eq in Hg.
  destruct Hg as (v & Hv & Hg). unfold version_at in Hv. simpl in Hv. rewrite Hv2, lookup_insert_eq in Hv. by simplify_eq.
Qed.

Lemma set_latest_outcome s id n row v : assistants_ok s →
  tb_view s.1 !! id = Some row → ar_application_id row = app → version_at s id n v →
  assistant_row_fits (mk_assistant_row id app (ar_graph_id row) n) = true →
  ∃ s', set_latest app id n s = (Ok (read_assistant (mk_assistant_row id app (ar_graph_id row) n) v), s') ∧
    assistants_ok s' ∧ tb_view s'.1 = <[id := mk_assistant_row id app (ar_graph_id row) n]> (tb_view s.1) ∧ s'.2 = s.2.
Proof.
  intros Hs Hrow Happ Hv Hf. pose proof (tb_key _ _ _ Hrow : ar_id row = id) as Hid.
  destruct (version_at_fields s id n v Hs Hv) as [Hvi Hvn].
  destruct (change_assistant s row (ar_graph_id row) n) as (d1 & Hu & Hv1); [by rewrite Hid|]. rewrite Hid, Happ in Hu, Hv1.
  assert (assistants_ok (d1, s.2)) as Hok.
  { apply (add_version_ok s (d1, s.2) id n v (mk_assistant_row id app (ar_graph_id row) n)); try done.
    - intros ->. by rewrite (ao_nonempty s Hs) in Hrow.
    - by eapply (ao_name s).
    - simpl. by rewrite insert_id. }
  exists (d1, s.2). split; [|by split]. unfold set_latest, transaction, own_row, on_rows, on_versions, get_row, change_row, bind, ret.
  rewrite tb_get_view, Hrow, bool_decide_true by done. simpl. rewrite tb_get_view. unfold version_at in Hv. rewrite Hv, Hid, Happ, Hf.
  simpl. rewrite Hu. pose proof (get_outcome (d1, s.2) id Hok) as Hg. simpl in Hg. rewrite Hv1, lookup_insert_eq in Hg.
  destruct Hg as (v' & Hv' & Hg). unfold version_at in Hv'. simpl in Hv'. by simplify_eq.
Qed.

Lemma update_documents_ok a config context metadata : update_documents a = Ok (config, context, metadata) →
  jsonb (dumps (asst_config a)) = Ok config ∧ jsonb (dumps (asst_context a)) = Ok context ∧
  jsonb (dumps (named_metadata a)) = Ok metadata.
Proof.
  unfold update_documents. destruct (jsonb (dumps (asst_config a))), (jsonb (dumps (asst_context a))),
    (jsonb (dumps (named_metadata a))); simpl; intros; by simplify_eq.
Qed.

Lemma set_latest_misfit s id n row v : tb_view s.1 !! id = Some row → ar_application_id row = app →
  tb_view s.2 !! version_id id n = Some v → assistant_row_fits (mk_assistant_row id app (ar_graph_id row) n) = false →
  set_latest app id n s = (Raise DataError, s).
Proof.
  intros Hrow Happ Hv Hf. pose proof (tb_key _ _ _ Hrow : ar_id row = id) as Hid.
  unfold set_latest, transaction, bind. rewrite (own_row_ok s id row) by done.
  unfold on_versions, get_row. rewrite tb_get_view, Hv. unfold on_rows, change_row. cbn [fst snd]. by rewrite Hid, Happ, Hf.
Qed.

Lemma assistant_delete_outcome s id b row : assistants_ok s →
  tb_view s.1 !! id = Some row → ar_application_id row = app →
  ∃ s', delete app id b s = (Ok tt, s') ∧ assistants_ok s' ∧ tb_view s'.1 = base.delete id (tb_view s.1) ∧
    ∀ k v, tb_view s'.2 !! k = Some v ↔ tb_view s.2 !! k = Some v ∧ vr_assistant_id v ≠ id.
Proof.
  intros Hs Hrow Happ. eexists. split.
  - unfold delete, transaction, own_row, on_rows, on_versions, delete_row, bind.
    rewrite tb_get_view, Hrow, bool_decide_true by done. reflexivity.
  - cbn [fst snd].
    assert (∀ k v, tb_view (tb_delete (version_of id) s.2) !! k = Some v ↔ tb_view s.2 !! k = Some v ∧ vr_assistant_id v ≠ id) as H2.
    { intros k v. rewrite tb_delete_view, map_lookup_filter_Some. unfold version_of. simpl.
      by rewrite bool_decide_eq_false. }
    pose proof (tb_delete_key id s.1) as H1. split; [|done]. constructor; cbn [fst snd].
    + rewrite H1. apply lookup_delete_None. right. apply (ao_nonempty s Hs).
    + intros k v [Hv _]%H2. by apply (ao_key s Hs).
    + intros k v [Hv Hne]%H2. rewrite H1, lookup_delete_ne by done. by eapply (ao_owner s Hs).
    + intros i r. rewrite H1. intros [Hne Hr]%lookup_delete_Some. destruct (ao_active s Hs _ _ Hr) as [v Hv].
      exists v. apply H2. split; [done|]. destruct (version_at_fields s i (ar_active_version r) v Hs Hv) as [-> _]. done.
    + intros k v [Hv _]%H2. by eapply (ao_name s).
Qed.

(** An assistant that is not the application's own is not found. *)
Definition foreign s (id : string) : Prop :=
  match tb_view s.1 !! id with Some row => ar_application_id row ≠ app | None => True end.

Lemma foreign_row s id missing : foreign s id → own_row app id missing s = (Raise missing, s).
Proof.
  unfold foreign, own_row. rewrite tb_get_view. destruct (tb_view s.1 !! id) as [row|]; [|done]. intros Hne.
  by rewrite bool_decide_false.
Qed.

(** *** Registering *)

(** The assistant [a] is read of the row of [id]. *)
Definition reads s (id : string) (row : AssistantRow) (a : Assistant) : Prop :=
  tb_view s.1 !! id = Some row ∧ ∃ v, version_at s id (ar_active_version row) v ∧ a = read_assistant row v.

(** What [create] does once it has read whether the assistant is absent. *)
Lemma registration_outcome s a absent : assistants_ok s → assistant_fits app a →
  let id := id_value (asst_id a) in
  match tb_view s.1 !! id with
  | Some _ => create_end app absent a s = get id s ∧ ∃ a', get id s = (Ok a', s)
  | None =>
      if absent then
        ∃ s', create_end app absent a s = (Ok (read_assistant (row_of_assistant app a) (first_version a)), s') ∧
          assistants_ok s' ∧ tb_view s'.1 = <[id := row_of_assistant app a]> (tb_view s.1) ∧
          tb_view s'.2 = <[version_id id (asst_version a) := first_version a]> (tb_view s.2)
      else create_end app absent a s = (Raise (not_found id), s)
  end.
Proof.
  intros Hs Hf id. pose proof (get_outcome s id Hs) as Hg. destruct (tb_view s.1 !! id) as [row|] eqn:Hrow.
  - destruct Hg as (v & _ & Hg). split; [|by eexists]. unfold create_end, try_except, bind, ret.
    destruct absent; [|done]. by rewrite (create_write_refused s a Hf (mk_is_Some _ _ Hrow)).
  - destruct absent; [|done]. destruct (create_write_outcome s a Hs Hf Hrow) as (s' & Hw & Hok & H1 & H2).
    exists s'. split; [|done]. unfold create_end, try_except, bind. rewrite Hw.
    pose proof (get_outcome s' id Hok) as Hg'. rewrite H1, lookup_insert_eq in Hg'. destruct Hg' as (v & Hv & Hg').
    unfold version_at in Hv. rewrite H2, lookup_insert_eq in Hv. fold id. rewrite Hg'. by simplify_eq.
Qed.

(** Values that do not fit their columns are only noticed if they are inserted. *)
Lemma create_misfit s a : assistants_ok s →
  assistant_row_fits (row_of_assistant app a) && version_row_fits (first_version a) = false →
  let id := id_value (asst_id a) in
  create app a s = match tb_view s.1 !! id with Some _ => get id s | None => (Raise DataError, s) end.
Proof.
  intros Hs Hf id. unfold create, create_read, bind at 1. rewrite tb_get_view. fold id.
  destruct (tb_view s.1 !! id) as [row|] eqn:Hrow; [done|].
  unfold create_end, create_write, transaction, on_rows, on_versions, insert_row, try_except, bind.
  change (mk_assistant_row _ _ _ _) with (row_of_assistant app a). change (mk_version_row _ _ _ _ _ _) with (first_version a).
  destruct (assistant_row_fits _); simpl in Hf |- *; [|done].
  destruct (tb_insert (row_of_assistant app a) s.1) as [d1|] eqn:Hi; [by rewrite Hf|].
  exfalso. apply tb_insert_fails in Hi as [[row Hr]|(k & row & _ & [|])]; [|done..].
  change (row_key _) with id in Hr. congruence.
Qed.

Lemma assistant_create_outcome s a : assistants_ok s → id_value (asst_id a) ≠ "" →
  match tb_view s.1 !! id_value (asst_id a) with
  | Some row => ∃ a', create app a s = (Ok a', s) ∧ reads s (id_value (asst_id a)) row a'
  | None =>
      if assistant_row_fits (row_of_assistant app a) && version_row_fits (first_version a) then
        ∃ s', create app a s = (Ok (read_assistant (row_of_assistant app a) (first_version a)), s') ∧ assistants_ok s' ∧
          tb_view s'.1 = <[id_value (asst_id a) := row_of_assistant app a]> (tb_view s.1) ∧
          tb_view s'.2 = <[version_id (id_value (asst_id a)) (asst_version a) := first_version a]> (tb_view s.2)
      else create app a s = (Raise DataError, s)
  end.
Proof.
  intros Hs Hne. pose proof (get_outcome s (id_value (asst_id a)) Hs) as Hg.
  assert (create app a s = create_end app
    (match tb_view s.1 !! id_value (asst_id a) with Some _ => false | None => true end) a s) as Hcreate
    by (unfold create, create_read, bind at 1; by rewrite tb_get_view).
  destruct (tb_view s.1 !! id_value (asst_id a)) as [row|] eqn:Hrow.
  - destruct Hg as (v & Hv & Hg). exists (read_assistant row v). rewrite Hcreate. split; [exact Hg|].
    split; [done|]. by exists v.
  - destruct (_ && _) eqn:Hf; [|by rewrite (create_misfit s a Hs Hf), Hrow].
    apply andb_true_iff in Hf as [Hf1 Hf2]. pose proof (registration_outcome s a true Hs (conj Hne (conj Hf1 Hf2))) as Hreg.
    cbv zeta in Hreg. rewrite Hrow in Hreg. by rewrite Hcreate.
Qed.

(** *** Listing *)

Lemma get_all_outcome s rows : assistants_ok s → (∀ row, row ∈ rows → tb_view s.1 !! ar_id row = Some row) →
  ∃ l, get_all (ar_id <$> rows) s = (Ok l, s) ∧ Forall2 (λ row a, reads s (ar_id row) row a) rows l.
Proof.
  intros Hs. induction rows as [|row rows IH]; intros Hin; [by exists []|]. cbn [get_all fmap list_fmap].
  destruct IH as (l & Hl & Hall); [intros; apply Hin; by right|].
  assert (tb_view s.1 !! ar_id row = Some row) as Hrow by (apply Hin; by left).
  pose proof (get_outcome s (ar_id row) Hs) as Hg. rewrite Hrow in Hg. destruct Hg as (v & Hv & Hg).
  exists (read_assistant row v :: l). unfold bind, ret. rewrite Hg. cbn [fmap list_fmap] in Hl.
  change (list_fmap _ _ ar_id rows) with (ar_id <$> rows). rewrite Hl. split; [done|]. constructor; [|done].
  split; [done|]. by exists v.
Qed.

Lemma all_outcome s : assistants_ok s →
  ∃ l, all app s = (Ok l, s) ∧ NoDup (asst_id <$> l) ∧
    ∀ a, a ∈ l ↔ ∃ id row, ar_application_id row = app ∧ reads s id row a.
Proof.
  intros Hs. unfold all. set (p := λ r, bool_decide (ar_application_id r = app)).
  assert (∀ row, row ∈ tb_select p s.1 ↔ tb_view s.1 !! ar_id row = Some row ∧ ar_application_id row = app) as Hin.
  { intros row. rewrite elem_of_select. unfold p. by rewrite bool_decide_eq_true. }
  destruct (get_all_outcome s (tb_select p s.1) Hs) as (l & Hl & Hall); [intros row Hr; by apply Hin|].
  exists l. split; [done|]. split.
  - pose proof (NoDup_select p s.1) as Hnd. change (row_key <$> _) with (ar_id <$> tb_select p s.1) in Hnd.
    assert (asst_id <$> l = mk_id <$> (ar_id <$> tb_select p s.1)) as ->; [|by apply NoDup_fmap_2; [intros ? ? [=]|]].
    clear -Hall. induction Hall as [|row a rows l (_ & v & _ & ->) _ IH]; [done|]. by rewrite !fmap_cons, IH.
  - intros a. split.
    + intros Ha. apply list_elem_of_lookup in Ha as [i Ha].
      destruct (Forall2_lookup_r _ _ _ _ _ Hall Ha) as (row & Hrow & Hr). exists (ar_id row), row.
      split; [|done]. by apply list_elem_of_lookup_2, Hin in Hrow as [_ ?].
    + intros (id & row & Happ & Hrow & v & Hv & ->). pose proof (tb_key _ _ _ Hrow : ar_id row = id) as Hid.
      assert (row ∈ tb_select p s.1) as Hr by (apply Hin; by rewrite Hid).
      apply list_elem_of_lookup in Hr as [i Hr]. destruct (Forall2_lookup_l _ _ _ _ _ Hall Hr) as (a & Ha & _ & v' & Hv' & ->).
      rewrite Hid in Hv'. unfold version_at in *. simplify_eq. by eapply list_elem_of_lookup_2.
Qed.

Lemma count_outcome s graph :
  count app graph s = (Ok (Z.of_nat (size (filter (λ kr : string * AssistantRow,
    ar_application_id kr.2 = app ∧ (graph = None ∨ graph = Some (ar_graph_id kr.2))) (tb_view s.1)))), s).
Proof.
  clear dumps jsonb. unfold count. do 3 f_equal. rewrite tb_select_view, map_filter_alt, <- length_map_to_list.
  set (P := λ kr : string * AssistantRow, _). rewrite map_to_list_to_map.
  - induction (map_to_list (tb_view s.1)) as [|[k row] l IH]; [done|]. rewrite fmap_cons, !filter_cons. cbn [snd].
    destruct (decide (P (k, row))) as [HP|HP], (decide _) as [Hp|Hp]; simpl; rewrite ?IH; try done; exfalso;
      unfold P in HP; simpl in HP; rewrite andb_true_iff, bool_decide_eq_true in Hp; destruct graph as [g|];
      rewrite ?bool_decide_eq_true in Hp; naive_solver.
  - pose proof (NoDup_fst_map_to_list (tb_view s.1)) as Hnd. revert Hnd.
    induction (map_to_list (tb_view s.1)) as [|kr l IH]; [done|]. rewrite fmap_cons, filter_cons.
    intros [Hk Hnd]%NoDup_cons. case_decide; [|by apply IH]. rewrite fmap_cons. apply NoDup_cons. split; [|by apply IH].
    intros (kr' & Heq & [_ Hin]%list_elem_of_filter)%list_elem_of_fmap. apply Hk. rewrite Heq. by apply list_elem_of_fmap_2.
Qed.

Lemma select_desc_versions s id v : assistants_ok s →
  v ∈ tb_select_desc vr_version (version_of id) s.2 ↔ ∃ n, version_at s id n v.
Proof.
  intros Hs. rewrite elem_of_select_desc. unfold version_of. rewrite bool_decide_eq_true. split.
  - intros [Hv <-]. exists (vr_version v). unfold version_at. by rewrite <- (ao_key s Hs _ _ Hv).
  - intros [n Hv]. destruct (version_at_fields s id n v Hs Hv) as [Hi _]. split; [|done]. by rewrite (tb_key _ _ _ Hv).
Qed.

Lemma versions_outcome s id row : assistants_ok s → tb_view s.1 !! id = Some row → ar_application_id row = app →
  ∃ l, versions app id s = (Ok l, s) ∧ StronglySorted (λ a a', asst_version a' < asst_version a) l ∧
    ∀ a, a ∈ l ↔ ∃ n v, version_at s id n v ∧ a = read_assistant row v.
Proof.
  intros Hs Hrow Happ. unfold versions. rewrite (own_row_ok s id row) by done.
  set (vs := tb_select_desc vr_version (version_of id) s.2).
  assert (∀ v, v ∈ vs ↔ ∃ n, version_at s id n v) as Hin by (intros v; by apply select_desc_versions).
  assert (ar_id row ≠ "") as Hne.
  { pose proof (tb_key _ _ _ Hrow : ar_id row = id) as ->. intros ->. by rewrite (ao_nonempty s Hs) in Hrow. }
  assert (result_mapM (to_assistant row) vs = Ok (read_assistant row <$> vs)) as Hmap.
  { assert (∀ v, v ∈ vs → name_ok v) as Hname by (intros v [n Hv]%Hin; by eapply (ao_name s Hs)). clear -Hne Hname.
    induction vs as [|v vs IH]; [done|]. cbn. rewrite to_assistant_ok by (done || (apply Hname; by left)).
    cbn. rewrite IH; [done|]. intros; apply Hname; by right. }
  exists (read_assistant row <$> vs). split; [|split].
  - destruct (ao_active s Hs _ _ Hrow) as [v Hv]. assert (v ∈ vs) as Hv' by (apply Hin; by eexists).
    destruct vs as [|v1 vs'] eqn:Hvs; [by apply not_elem_of_nil in Hv'|]. by rewrite Hmap.
  - pose proof (tb_select_desc_sorted vr_version (version_of id) s.2) as Hsort. fold vs in Hsort.
    assert (NoDup vs) as Hnd.
    { eapply (NoDup_fmap_1 row_key). unfold vs. rewrite (tb_select_desc_view vr_version). apply NoDup_select. }
    assert (∀ v v', v ∈ vs → v' ∈ vs → vr_version v = vr_version v' → v = v') as Hinj.
    { intros v v' [n Hv]%Hin [n' Hv']%Hin Heq. destruct (version_at_fields s id n v Hs Hv) as [_ Hn],
        (version_at_fields s id n' v' Hs Hv') as [_ Hn']. unfold version_at in *. congruence. }
    clear -Hsort Hnd Hinj. induction vs as [|v vs IH]; [constructor|]. apply StronglySorted_inv in Hsort as [Hsort Hall].
    apply NoDup_cons in Hnd as [Hv Hnd]. rewrite fmap_cons. constructor.
    { apply IH; [done|done|]. intros; apply Hinj; [by right|by right|done]. }
    apply Forall_fmap, Forall_forall. intros v' Hv'. simpl. pose proof (proj1 (Forall_forall _ _) Hall v' Hv') as Hle.
    simpl in Hle. enough (vr_version v ≠ vr_version v') by lia. intros Heq. apply Hv.
    by rewrite (Hinj v v' ltac:(by left) ltac:(by right) Heq).
  - intros a. rewrite list_elem_of_fmap. split.
    + intros (v & -> & [n Hv]%Hin). by exists n, v.
    + intros (n & v & Hv & ->). exists v. split; [done|]. apply Hin. by exists n.
Qed.
End Application.

(** C34: registration is idempotent under races.  Whatever happened between the
    moment a gateway read that the assistant is absent ([absent]) and the moment it
    inserts it, an assistant that exists then is left as it is and returned, whoever
    registered it and whatever it is registered with; and one that does not exist is
    inserted, becomes the version in use, and is returned as it will be read: with
    the name kept in the metadata, without description and timestamps. *)
Theorem assistant_registration_race app s a absent : assistants_ok s → assistant_fits app a →
  let id := id_value (asst_id a) in
  match tb_view s.1 !! id with
  | Some _ => create_end app absent a s = get id s ∧ ∃ a', get id s = (Ok a', s)
  | None =>
      if absent then
        ∃ s', create_end app absent a s = (Ok (read_assistant (row_of_assistant app a) (first_version a)), s') ∧
          assistants_ok s' ∧ tb_view s'.1 = <[id := row_of_assistant app a]> (tb_view s.1) ∧
          tb_view s'.2 = <[version_id id (asst_version a) := first_version a]> (tb_view s.2)
      else create_end app absent a s = (Raise (not_found id), s)
  end.
Proof. by apply registration_outcome. Qed.

(** C35: changing assistants and their versions.  In a consistent state, which stays
    consistent, for any assistant and any identifier:
    [create] inserts an assistant that does not exist with its version, refuses it if a value
    does not fit its column, and answers one that exists, of whatever application, as it is;
    [update], [set_latest] and [delete] find only the application's own assistants;
    [update] adds the version after the highest one and makes it the active one, or raises what
    the database refuses of its documents, or a data error for what does not fit, and then
    changes nothing; [set_latest] activates any version there is, without changing the versions,
    and finds no other; [delete] removes the assistant with all its versions and nothing else. *)
Theorem postgres_assistants_spec dumps jsonb app s id a n b :
  assistants_ok s → id_value (asst_id a) ≠ "" →
  (∀ o v name, jsonb (dumps o) = Ok v → dget o "name" = Some (json_name name) → dget v "name" = Some (json_name name)) →
  match tb_view s.1 !! id_value (asst_id a) with
  | Some row => ∃ a', create app a s = (Ok a', s) ∧ reads s (id_value (asst_id a)) row a'
  | None =>
      if assistant_row_fits (row_of_assistant app a) && version_row_fits (first_version a) then
        ∃ s', create app a s = (Ok (read_assistant (row_of_assistant app a) (first_version a)), s') ∧ assistants_ok s' ∧
          tb_view s'.1 = <[id_value (asst_id a) := row_of_assistant app a]> (tb_view s.1) ∧
          tb_view s'.2 = <[version_id (id_value (asst_id a)) (asst_version a) := first_version a]> (tb_view s.2)
      else create app a s = (Raise DataError, s)
  end ∧
  (foreign app s id →
     update dumps jsonb app id a s = (Raise (not_found id), s) ∧ delete app id b s = (Raise (not_found id), s) ∧
     set_latest app id n s = (Raise (version_not_found id n), s)) ∧
  (∀ row, tb_view s.1 !! id = Some row → ar_application_id row = app →
     let next := next_version s id in
     (∀ m, is_Some (tb_view s.2 !! version_id id m) → m < next) ∧
     match update_documents dumps jsonb a with
     | Raise e => update dumps jsonb app id a s = (Raise e, s)
     | Ok (config, context, metadata) =>
         if version_row_fits (version_row id next config context metadata) &&
            assistant_row_fits (mk_assistant_row id app (asst_graph_id a) next) then
           ∃ s', update dumps jsonb app id a s =
               (Ok (read_assistant (mk_assistant_row id app (asst_graph_id a) next)
                      (version_row id next config context metadata)), s') ∧ assistants_ok s' ∧
             tb_view s'.1 = <[id := mk_assistant_row id app (asst_graph_id a) next]> (tb_view s.1) ∧
             tb_view s'.2 = <[version_id id next := version_row id next config context metadata]> (tb_view s.2)
         else update dumps jsonb app id a s = (Raise DataError, s)
     end ∧
     match tb_view s.2 !! version_id id n with
     | Some v =>
         if assistant_row_fits (mk_assistant_row id app (ar_graph_id row) n) then
           ∃ s', set_latest app id n s = (Ok (read_assistant (mk_assistant_row id app (ar_graph_id row) n) v), s') ∧
             assistants_ok s' ∧ tb_view s'.1 = <[id := mk_assistant_row id app (ar_graph_id row) n]> (tb_view s.1) ∧
             s'.2 = s.2
         else set_latest app id n s = (Raise DataError, s)
     | None => set_latest app id n s = (Raise (version_not_found id n), s)
     end ∧
     (∃ s', delete app id b s = (Ok tt, s') ∧ assistants_ok s' ∧ tb_view s'.1 = base.delete id (tb_view s.1) ∧
        ∀ k v, tb_view s'.2 !! k = Some v ↔ tb_view s.2 !! k = Some v ∧ vr_assistant_id v ≠ id)).
Proof.
  intros Hs Hne Hjson. split; [|split].
  - by apply assistant_create_outcome.
  - intros Hf. unfold update, delete, set_latest, transaction, bind. by rewrite !(foreign_row app s id _ Hf).
  - intros row Hrow Happ next. split; [by apply next_version_free|]. split; [|split; [|by eapply assistant_delete_outcome]].
    + pose proof (assistant_update_refused dumps jsonb app s id a row Hs Hrow Happ) as Hbad.
      destruct (update_documents dumps jsonb a) as [[[config context] metadata]|e] eqn:Hdoc; [|done]. fold next in Hbad.
      destruct (version_row_fits _ && assistant_row_fits _) eqn:Hf; [|by apply Hbad].
      apply andb_true_iff in Hf as [Hf1 Hf2]. apply update_documents_ok in Hdoc as (Hc & Hx & Hm).
      eapply assistant_update_outcome; try done. eapply Hjson; [exact Hm|apply named_metadata_ok].
    + destruct (tb_view s.2 !! version_id id n) as [v|] eqn:Hv.
      * destruct (assistant_row_fits _) eqn:Hf; [by eapply set_latest_outcome|]. by eapply set_latest_misfit.
      * unfold set_latest, transaction, bind. rewrite (own_row_ok app s id row) by done.
        unfold on_versions, get_row. by rewrite tb_get_view, Hv.
Qed.

(** C36: reading assistants.  In a consistent state no read changes anything or fails but for
    an assistant that is not found.  [get] reads the active version of the assistant, whatever
    application it is of; [all] lists each of the application's assistants once, in its active
    version, and no other; [versions] lists all versions of one of the application's assistants,
    the newest first; and [count] counts the application's assistants, or those of a graph. *)
Theorem postgres_assistants_reads app s id graph :
  assistants_ok s →
  match tb_view s.1 !! id with
  | None => get id s = (Raise (not_found id), s)
  | Some row => ∃ a, get id s = (Ok a, s) ∧ reads s id row a
  end ∧
  (∃ l, all app s = (Ok l, s) ∧ NoDup (asst_id <$> l) ∧
     ∀ a, a ∈ l ↔ ∃ id row, ar_application_id row = app ∧ reads s id row a) ∧
  (foreign app s id → versions app id s = (Raise (not_found id), s)) ∧
  (∀ row, tb_view s.1 !! id = Some row → ar_application_id row = app →
     ∃ l, versions app id s = (Ok l, s) ∧ StronglySorted (λ a a', asst_version a' < asst_version a) l ∧
       ∀ a, a ∈ l ↔ ∃ n v, version_at s id n v ∧ a = read_assistant row v) ∧
  count app graph s = (Ok (Z.of_nat (size (filter (λ kr : string * AssistantRow,
    ar_application_id kr.2 = app ∧ (graph = None ∨ graph = Some (ar_graph_id kr.2))) (tb_view s.1)))), s).
Proof.
  intros Hs. split; [|split; [by apply all_outcome|split; [|split; [intros row; by apply versions_outcome|apply count_outcome]]]].
  - pose proof (get_outcome s id Hs) as Hg. destruct (tb_view s.1 !! id) as [row|] eqn:Hrow; [|done].
    destruct Hg as (v & Hv & Hg). eexists. split; [exact Hg|]. split; [done|]. by exists v.
  - intros Hf. unfold versions. by rewrite (foreign_row app s id _ Hf).
Qed.
End Spec.
End PgAssistantsSpec.

(** Two gateways register the same assistant for different graphs; then it is
    updated. *)
Module LocalAssistants.
Import PgAssistants PgAssistantsSpec.

Definition empty : map_table (Row:=AssistantRow) * map_table (Row:=VersionRow) := (empty_table, empty_table).
Definition agent (graph : string) : Assistant :=
  mk_assistant (mk_id "agent") graph 1 (Some graph) None [] [] [("created_by", JStr "system")] None None.

Lemma empty_ok : assistants_ok empty.
Proof. constructor; intros *; cbn; rewrite ?lookup_empty; done. Qed.
Lemma agent_fits graph : column_string 255 graph = true → column_json (JStr graph) = true →
  assistant_fits "app" (agent graph).
Proof.
  intros Hg _. split; [done|]. split; [|by vm_compute]. unfold assistant_row_fits. simpl. by rewrite Hg.
Qed.

Lemma assistant_registration_race_witness :
  ∃ s, create_end "app" true (agent "one") empty =
      (Ok (read_assistant (row_of_assistant "app" (agent "one")) (first_version (agent "one"))), s) ∧
    create_end "app" true (agent "two") s = get "agent" s.
Proof.
  destruct (assistant_registration_race "app" empty (agent "one") true empty_ok (agent_fits "one" eq_refl eq_refl))
    as (s & Hc & Hs & H1 & _).
  exists s. split; [exact Hc|].
  pose proof (assistant_registration_race "app" s (agent "two") true Hs (agent_fits "two" eq_refl eq_refl)) as H2.
  rewrite H1 in H2. cbn [asst_id agent id_value] in H2. rewrite lookup_insert_eq in H2. exact (proj1 H2).
Defined.

(** A database that keeps only the name of an object. *)
Definition dumps (o : json_object) : string :=
  match dget o "name" with Some (JStr n) => String "s"%char n | _ => "" end.
Definition jsonb (s : string) : res json_object :=
  Ok [("name", match s with EmptyString => JNull | String _ n => JStr n end)].

Lemma postgres_assistants_spec_witness :
  ∃ s, assistants_ok s ∧ ∃ a s', update dumps jsonb "app" "agent" (agent "two") s = (Ok a, s') ∧ asst_version a = 2.
Proof.
  destruct (create_write_outcome "app" empty (agent "one") empty_ok (agent_fits "one" eq_refl eq_refl))
    as (s & _ & Hs & H1 & H2); [done|]. exists s. split; [exact Hs|].
  assert (next_version s "agent" = 2) as Hnext.
  { unfold next_version. pose proof (tb_select_view (version_of "agent") s.2) as Hp. rewrite H2 in Hp.
    change (tb_view empty.2) with (∅ : gmap string VersionRow) in Hp.
    rewrite insert_empty, map_to_list_singleton in Hp. symmetry in Hp.
    apply Permutation_length_1_inv in Hp. by rewrite Hp. }
  destruct (postgres_assistants_spec dumps jsonb "app" s "agent" (agent "two") 2 true Hs) as (_ & _ & Hown).
  - discriminate.
  - intros o v [n|] [= <-] Ho; unfold dumps; by rewrite Ho.
  - destruct (Hown (row_of_assistant "app" (agent "one"))) as (_ & Hup & _); [by rewrite H1|done|].
    rewrite Hnext in Hup. destruct Hup as (s' & Hu & _). eexists _, s'. split; [exact Hu|done].
Defined.

(** After the registration the assistant is listed. *)
Lemma postgres_assistants_reads_witness :
  ∃ s l, all "app" s = (Ok l, s) ∧ (∃ a, a ∈ l ∧ asst_graph_id a = "one") ∧
    count "app" (Some "two") s = (Ok 0, s).
Proof.
  destruct (create_write_outcome "app" empty (agent "one") empty_ok (agent_fits "one" eq_refl eq_refl))
    as (s & _ & Hs & H1 & H2); [done|]. exists s.
  destruct (postgres_assistants_reads "app" s "agent" (Some "two") Hs) as (Hget & (l & Hl & _ & Hin) & _ & _ & Hc).
  exists l. split; [exact Hl|]. split.
  - rewrite H1 in Hget. change (id_value (asst_id (agent "one"))) with "agent" in Hget.
    rewrite lookup_insert_eq in Hget. destruct Hget as (a & _ & Hr). exists a. split; [|by destruct Hr as (_ & v & _ & ->)].
    apply Hin. exists "agent", (row_of_assistant "app" (agent "one")). split; [done|exact Hr].
  - rewrite Hc, H1. by vm_compute.
Defined.
End LocalAssistants.
