(* ===== verification/GatewayHttp.v ===== *)
(** * Requests and responses of the gateway

    [transport/http/dto.py] and the pure functions of [services/gateway/app.py]:
    the bodies of requests as they are after validation, the JSON of responses, the
    states of an adapter as the LangGraph API shows them, the status of an error. *)

From S2P Require Import Prelude PyDict PyStr Json JsonAccess Errors Identity Execution MemoryStores.
Import MemoryStores.Config.

(** ** Bodies *)

(** [RunCreate]: the fields that the gateway reads.  A [Literal] is a type of its
    values; a value that no code looks into is a string. *)
Inductive RunPriority : Type := PriorityInteractive | PriorityNormal | PriorityBatch.
Inductive StreamModeField : Type := OneMode (m : string) | ManyModes (l : list string).
Record RunCreate : Type := mk_run_create {
  rc_assistant_id : string;
  rc_input : json;
  rc_command : json;
  rc_config : json_object;
  rc_context : json_object;
  rc_metadata : json_object;
  rc_stream_mode : StreamModeField;
  rc_stream_subgraphs : bool;
  rc_priority : RunPriority;
  rc_multitask_strategy : string;
  rc_checkpoint_id : option string;
}.

Inductive IfExists : Type := IfExistsRaise | IfExistsDoNothing.
#[export] Instance IfExists_eq_dec : EqDecision IfExists.
Proof. solve_decision. Defined.

(** [AssistantCreate] *)
Record AssistantCreate : Type := mk_assistant_create {
  ac_graph_id : option string;
  ac_assistant_id : option string;
  ac_name : option string;
  ac_config : json_object;
  ac_context : json_object;
  ac_metadata : json_object;
  ac_if_exists : option IfExists;
  ac_description : option string;
}.

(** [ThreadCreate]; the other fields are not read. *)
Record ThreadCreate : Type := mk_thread_create {
  tc_thread_id : option string;
  tc_metadata : json_object;
  tc_if_exists : option IfExists;
}.
Definition default_thread_create : ThreadCreate := mk_thread_create None [] None.

(** [payload.stream_mode] as a tuple, and as the set of a stream. *)
Definition stream_modes (m : StreamModeField) : list string :=
  match m with OneMode m => [m] | ManyModes l => l end.

Definition queue_priority (p : RunPriority) : QueuePriority :=
  match p with PriorityInteractive => INTERACTIVE | PriorityNormal => NORMAL | PriorityBatch => BATCH end.

(** ** Numbers in a body *)

(** [max(0, min(int(body.get(key, d)), 1000))] and [max(0, int(body.get(key, d)))];
    [int] of a number that is no integer cuts it off. *)
Definition float_int (f : SpecFloat.spec_float) : res Z :=
  match f with
  | SpecFloat.S754_zero _ => Ok 0
  | SpecFloat.S754_finite s m e =>
      let a := if 0 <=? e then Z.pos m * 2 ^ e else Z.pos m / 2 ^ (- e) in
      Ok (if s then - a else a)
  | SpecFloat.S754_infinity _ => Raise (OtherError "cannot convert float infinity to integer")
  | SpecFloat.S754_nan => Raise (ValueError "cannot convert float NaN to integer")
  end.
Definition int_of (v : json) : res Z := match v with JFloat f => float_int f | v => jint v end.
Definition body_limit (body : json_object) (d : Z) : res Z :=
  result_map (λ n, Z.max 0 (Z.min n 1000)) (int_of (default (JInt d) (dget body "limit"))).
Definition body_offset (body : json_object) : res Z :=
  result_map (Z.max 0) (int_of (default (JInt 0) (dget body "offset"))).

(** [l[offset : offset + limit]] *)
Definition slice {B} (l : list B) (offset limit : Z) : list B := py_slice l offset (offset + limit).

(** ** Responses *)

Definition json_opt (s : option string) : json := match s with Some s => JStr s | None => JNull end.

Section Payloads.
(** [datetime.isoformat()] *)
Context (isoformat : datetime → string).

Definition json_time (t : option datetime) : json := json_opt (isoformat <$> t).

Definition _revision_payload (r : ConfigRevision) : json :=
  JObj [("application_id", JStr (rev_application_id r)); ("revision", JInt (rev_revision r));
        ("config", JObj (rev_config r)); ("config_hash", JStr (rev_config_hash r));
        ("active", JBool (rev_active r));
        ("config_revision_id", json_opt (id_value <$> rev_id r))].

Definition _assistant_payload (a : Assistant) : json :=
  JObj [("assistant_id", JStr (id_value (asst_id a))); ("graph_id", JStr (asst_graph_id a));
        ("version", JInt (asst_version a)); ("name", json_opt (asst_name a));
        ("description", json_opt (asst_description a)); ("config", JObj (asst_config a));
        ("context", JObj (asst_context a)); ("metadata", JObj (asst_metadata a));
        ("created_at", json_time (asst_created_at a)); ("updated_at", json_time (asst_updated_at a))].

Definition _thread_payload (t : Thread) : json :=
  JObj [("thread_id", JStr (id_value (thr_id t))); ("status", JStr (thread_status_value (thr_status t)));
        ("metadata", JObj (thr_metadata t)); ("created_at", json_time (thr_created_at t));
        ("updated_at", json_time (thr_updated_at t)); ("values", JNull); ("interrupts", JNull)].

Definition _run_payload (r : Run) : json :=
  JObj [("run_id", JStr (run_key r)); ("thread_id", json_opt (id_value <$> run_thread_id r));
        ("assistant_id", JStr (id_value (assistant_id (run_identity r))));
        ("created_at", json_time (run_created_at r)); ("updated_at", json_time (run_updated_at r));
        ("status", JStr (run_status_value (run_status r))); ("metadata", JObj (run_metadata r));
        ("multitask_strategy", default (JStr "reject") (dget (run_metadata r) "multitask_strategy"))].

Definition _event_payload (e : RuntimeEvent) : json :=
  let i := ev_identity e in
  JObj [("schema_version", JInt (ev_schema_version e)); ("event_id", JStr (id_value (ev_id e)));
        ("sequence", JInt (ev_sequence e)); ("timestamp", JStr (isoformat (ev_timestamp e)));
        ("application_id", JStr (id_value (application_id (scope i))));
        ("revision_id", JStr (id_value (revision_id (scope i))));
        ("deployment_id", JStr (id_value (deployment_id (scope i))));
        ("assistant_id", JStr (id_value (assistant_id i)));
        ("thread_id", json_opt (id_value <$> thread_id i));
        ("run_id", JStr (id_value (run_id i))); ("attempt_id", JStr (id_value (attempt_id i)));
        ("type", JStr (event_type_str (ev_type e))); ("namespace", JList (JStr <$> ev_namespace e));
        ("data", ev_data e);
        ("trace", JObj [("trace_id", json_opt (trace_id (ev_trace e))); ("span_id", json_opt (span_id (ev_trace e)))]);
        ("native", JObj (ev_native e))].

(** [NativeResponse] with its [NativeMeta]. *)
Definition _native (data : json) (request_id : string) (at_ : datetime) : json :=
  JObj [("data", data); ("meta", JObj [("request_id", JStr request_id); ("timestamp", JStr (isoformat at_))])].
End Payloads.

(** ** Errors *)

Definition _status_for (code : ErrorCode) : Z :=
  match code with
  | RESOURCE_NOT_FOUND | RUN_NOT_FOUND => 404
  | THREAD_BUSY => 409
  | INVALID_EXECUTION_INPUT => 422
  | CAPABILITY_NOT_SUPPORTED => 501
  | _ => 500
  end.

Definition native_path (path : string) : bool := starts_with "/api/v1/" path.

(** The exception handler of [RuntimeFailure]: status and body. *)
Definition runtime_failure (path request_id : string) (f : RuntimeFailure) : Z * json :=
  (_status_for (failure_code f),
   if native_path path
   then JObj [("error", JObj [("code", JStr (error_code_str (failure_code f))); ("message", JStr (failure_message f));
                              ("retryable", JBool (failure_retryable f)); ("request_id", JStr request_id);
                              ("details", JObj (failure_details f))])]
   else JObj [("detail", JStr (failure_message f))]).

(** The exception handler of [RequestValidationError]; [errors] is what
    [jsonable_encoder] makes of its errors. *)
Definition request_validation (path request_id : string) (errors : json) : Z * json :=
  (422,
   if native_path path
   then JObj [("error", JObj [("code", JStr "VALIDATION_ERROR"); ("message", JStr "request validation failed");
                              ("retryable", JBool false); ("request_id", JStr request_id);
                              ("details", JObj [("errors", errors)])])]
   else JObj [("detail", errors)]).

(** ** The states of an adapter *)

(** What [get_state] returns: an object with LangGraph's attributes, each as
    [jsonable_encoder] encodes it, or a JSON value. *)
Record Snapshot : Type := mk_snapshot {
  sn_values : json;
  sn_next : list json;
  sn_config : json;
  sn_metadata : json;
  sn_created_at : json;
  sn_parent_config : json;
  sn_tasks : list json;
  sn_interrupts : list json;
}.
Inductive adapter_state : Type :=
  | StateSnapshot (s : Snapshot)
  | StateJson (v : json).

(** Keys are JSON values here, as they are read from a configuration; [str] of
    one. *)
Section States.
Context (py_str : json → string).

Definition _checkpoint_from_config (config : json) : json :=
  match config with
  | JObj config =>
      match dget config "configurable" with
      | Some (JObj c) =>
          match get_or_null c "checkpoint_id", get_or_null c "thread_id" with
          | JNull, _ | _, JNull => JNull
          | checkpoint_id, thread_id =>
              JObj [("thread_id", JStr (py_str thread_id));
                    ("checkpoint_ns", JStr (py_str (default (JStr "") (dget c "checkpoint_ns"))));
                    ("checkpoint_id", JStr (py_str checkpoint_id));
                    ("checkpoint_map", default (JObj []) (dget c "checkpoint_map"))]
          end
      | _ => JNull
      end
  | _ => JNull
  end.

(** A dictionary has an attribute [values], its method, which [jsonable_encoder]
    cannot encode. *)
Definition _compat_state (state : adapter_state) : res json :=
  match state with
  | StateSnapshot s =>
      Ok (JObj [("values", sn_values s); ("next", JList (sn_next s));
                ("checkpoint", _checkpoint_from_config (sn_config s)); ("metadata", sn_metadata s);
                ("created_at", sn_created_at s); ("parent_checkpoint", _checkpoint_from_config (sn_parent_config s));
                ("tasks", JList (sn_tasks s)); ("interrupts", JList (sn_interrupts s))])
  | StateJson (JObj _) => Raise (ValueError "'builtin_function_or_method' object is not iterable")
  | StateJson v => Ok (JObj [("values", v)])
  end.
End States.

(** [_identity]: the gateway's own scope. *)
Definition gateway_scope : ApplicationScope :=
  mk_scope (mk_id "gateway") (mk_id "default") (mk_id "gateway") (mk_id "active") (mk_id "local").
Definition _identity (assistant : AssistantId) (run : RunId) (attempt : AttemptId) (thread : option ThreadId)
  : ExecutionIdentity := mk_identity gateway_scope assistant run attempt thread.
