(* ===== verification/Gateway.v ===== *)
(** * The gateway's handlers

    [create_app] of [services/gateway/app.py]: the handlers over the ports of a
    runtime, each a stateful function of its path parameters and its validated
    body.  The framework adapter is an interface of its own, the state behind it
    abstract.  A stream's handler returns the [Stream] that [GatewayStream] opens. *)

From S2P Require Import Prelude PyDict PyStr Json JsonAccess Errors Identity Execution Ports MemoryRepositories MemoryStores.
From S2P Require Import Service LangGraph GatewayHttp.
From S2P Require GatewayStream.
From Stdlib Require Import Ascii.
Import MemoryStores.Config.

(** ** Ports that only the gateway uses *)

(** [AssistantRepository], and [all] of its adapters. *)
Class AssistantRepository (AS : Type) : Type := {
  assistants_create : Assistant → Py AS Assistant;
  assistants_get : string → Py AS Assistant;
  assistants_all : Py AS (list Assistant);
  assistants_update : string → Assistant → Py AS Assistant;
  assistants_delete : string → bool → Py AS unit;
  assistants_versions : string → Py AS (list Assistant);
  assistants_set_latest : string → Z → Py AS Assistant;
  assistants_count : option string → Py AS Z;
}.
#[export] Instance memory_assistants : AssistantRepository Assistants.state := {
  assistants_create := Assistants.create;
  assistants_get := Assistants.get;
  assistants_all := Assistants.all;
  assistants_update := Assistants.update;
  assistants_delete := Assistants.delete;
  assistants_versions := Assistants.versions;
  assistants_set_latest := Assistants.set_latest;
  assistants_count := Assistants.count;
}.

(** [ApplicationConfigRepository]; an identifier is drawn for a new revision. *)
Class ConfigRepository (C : Type) : Type := {
  config_get_active : string → Py C ConfigRevision;
  config_create_revision : string → json_object → ConfigRevisionId → Py C ConfigRevision;
  config_activate : string → Z → Py C ConfigRevision;
}.

Section LocalConfig.
Context (dumps : json_object → string) (loads : string → json_object) (sha256_hex : string → string).
Definition memory_config : ConfigRepository Config.state := {|
  config_get_active := get_active;
  config_create_revision := create_revision dumps loads sha256_hex;
  config_activate := activate;
|}.
End LocalConfig.

(** A runtime adapter with its framework's state [W]: the operations that the
    gateway calls; the optional ones are found with [getattr]. *)
Class RuntimeAdapter (A W : Type) : Type := {
  ra_get_state : A → ExecutionRequest → Py W adapter_state;
  ra_get_state_history : A → ExecutionRequest → Py W (list adapter_state);
  ra_update_state : A → ExecutionRequest → json → Py W adapter_state;
  ra_schemas : A → Py W json_object;
  ra_get_graph : A → option (bool → Py W json);
  ra_get_subgraphs : A → option (bool → Py W json);
  ra_store_put : A → option (json → string → json → json → Py W unit);
  ra_store_get : A → option (list string → string → Py W json);
  ra_store_delete : A → option (json → string → Py W unit);
  ra_store_search : A → option (json → json → Z → Z → Py W json);
  ra_store_list_namespaces : A → option (json → json → json → Z → Z → Py W json);
}.

Section Gateway.
Context {R T Q J O A AS C W : Type}
  `{RunRepository R, ThreadRepository T, RunCommandQueue Q, EventJournal J, OutboxRepository O,
    AssistantRepository AS, ConfigRepository C, RuntimeAdapter A W}
  (clock : nat → datetime) (fresh : nat → string) (isoformat : datetime → string) (py_str : json → string)
  (adapter_cancel : A → ExecutionRequest → res unit)
  (replay : RunId → J → res (list RuntimeEvent))
  (iter_errors : json_object → list json).

Abbreviation Service := (Service (R:=R) (T:=T) (Q:=Q) (J:=J) (O:=O) (A:=A)).

(** [LocalRuntime] and [app.state]. *)
Record Gateway : Type := mk_gateway {
  gw_service : Service;
  gw_assistants : AS;
  gw_config : C;
  gw_adapters : dict A;
  gw_world : W;
  gw_workers : dict json_object;
}.
Definition set_service (x : Service) (g : Gateway) : Gateway :=
  mk_gateway x (gw_assistants g) (gw_config g) (gw_adapters g) (gw_world g) (gw_workers g).
Definition set_assistants (x : AS) (g : Gateway) : Gateway :=
  mk_gateway (gw_service g) x (gw_config g) (gw_adapters g) (gw_world g) (gw_workers g).
Definition set_config (x : C) (g : Gateway) : Gateway :=
  mk_gateway (gw_service g) (gw_assistants g) x (gw_adapters g) (gw_world g) (gw_workers g).
Definition set_world (x : W) (g : Gateway) : Gateway :=
  mk_gateway (gw_service g) (gw_assistants g) (gw_config g) (gw_adapters g) x (gw_workers g).
Definition set_workers (x : dict json_object) (g : Gateway) : Gateway :=
  mk_gateway (gw_service g) (gw_assistants g) (gw_config g) (gw_adapters g) (gw_world g) x.

Definition on_service {B} (m : Py Service B) : Py Gateway B := zoom gw_service set_service m.
Definition on_assistants {B} (m : Py AS B) : Py Gateway B := zoom gw_assistants set_assistants m.
Definition on_config {B} (m : Py C B) : Py Gateway B := zoom gw_config set_config m.
Definition on_world {B} (m : Py W B) : Py Gateway B := zoom gw_world set_world m.
Definition runs {B} (m : Py R B) : Py Gateway B := on_service (on_runs m).
Definition threads {B} (m : Py T B) : Py Gateway B := on_service (on_threads m).
Definition now : Py Gateway datetime := on_service (Service.now clock).
Definition new {k} : Py Gateway (TypedId k) := on_service (Service.new fresh).

Abbreviation start_run := (Service.start_run clock fresh).
Abbreviation resume_run := (Service.resume_run clock fresh).
Abbreviation cancel_run := (Service.cancel_run clock fresh adapter_cancel).
Abbreviation create_thread := (Service.create_thread clock fresh).
Abbreviation assistant_payload := (_assistant_payload isoformat).
Abbreviation thread_payload := (_thread_payload isoformat).
Abbreviation run_payload := (_run_payload isoformat).
Abbreviation compat_state := (_compat_state py_str).

Definition not_supported {B} (message : string) : Py Gateway B := raise (failure CAPABILITY_NOT_SUPPORTED message).
Definition invalid {B} (message : string) : Py Gateway B := raise (failure INVALID_EXECUTION_INPUT message).

(** [_runtime_adapter] *)
Definition _runtime_adapter : Py Gateway A := λ g,
  match Registry.all (gw_adapters g) with
  | a :: _ => (Ok a, g)
  | [] => (Raise (failure CAPABILITY_NOT_SUPPORTED "no runtime adapter is registered for this application"), g)
  end.

(** ** [_start_run] *)

Definition is_resume (payload : RunCreate) : bool := has_key "resume" (rc_command payload).
Definition is_interrupted (existing : option Run) : bool :=
  match existing with Some r => bool_decide (run_status r = INTERRUPTED) | None => false end.

(** The request's configuration: a checkpoint goes into [configurable]. *)
Definition merged_config (payload : RunCreate) : res json_object :=
  match rc_checkpoint_id payload with
  | None => Ok (rc_config payload)
  | Some c =>
      result_map (λ configurable, dset (rc_config payload) "configurable" (JObj (dset configurable "checkpoint_id" (JStr c))))
        (ConfigMapper.section_of (rc_config payload) "configurable")
  end.
Definition merged_metadata (payload : RunCreate) : json_object :=
  dset (rc_metadata payload) "multitask_strategy" (JStr (rc_multitask_strategy payload)).

Definition run_request (payload : RunCreate) (i : ExecutionIdentity) (config : json_object) : ExecutionRequest :=
  mk_request i (rc_input payload) (rc_command payload) config (rc_context payload) (merged_metadata payload)
    (stream_modes (rc_stream_mode payload)) (rc_stream_subgraphs payload) (queue_priority (rc_priority payload)) 1800.

Definition _start_run (payload : RunCreate) (thread_id : option string) : Py Gateway Run :=
  assistant <- on_assistants (assistants_get (rc_assistant_id payload));;
  resolved <- match thread_id with
              | Some t => i <- of_result (parse_id t);; ret (Some i)
              | None => ret None
              end;;
  existing <- match resolved with
              | Some i => runs (runs_active_for_thread (id_value i))
              | None => ret None
              end;;
  let resuming := is_resume payload && is_interrupted existing in
  identity <- match existing with
              | Some r => if resuming then ret (run_identity r)
                          else run <- new;; attempt <- new;; ret (_identity (asst_id assistant) run attempt resolved)
              | None => run <- new;; attempt <- new;; ret (_identity (asst_id assistant) run attempt resolved)
              end;;
  config <- of_result (merged_config payload);;
  let request := run_request payload identity config in
  g <- get_state;;
  let local_adapter := negb (bool_decide (Registry.all (gw_adapters g) = [])) in
  if resuming then on_service (resume_run request)
  else on_service (start_run request (negb local_adapter)).

Definition _latest_thread_run (thread_id : string) : Py Gateway Run :=
  threads (threads_get thread_id);;;
  run <- runs (runs_latest_for_thread thread_id);;
  match run with
  | Some r => ret r
  | None => raise (failure RESOURCE_NOT_FOUND "thread has no runs")
  end.

(** ** [_wait_for_run] *)

Definition settled (s : RunStatus) : bool :=
  match s with SUCCESS | ERROR | TIMEOUT | CANCELLED | INTERRUPTED => true | PENDING | RUNNING => false end.

(** The values of a finished run's state: a dictionary's [values] is its method,
    which cannot be encoded as a response. *)
Definition state_response (state : adapter_state) (run : Run) : res json :=
  match state with
  | StateSnapshot s => match sn_values s with JObj o => Ok (JObj o) | v => Ok (JObj [("output", v)]) end
  | StateJson JNull => Ok (run_payload run)
  | StateJson (JObj _) => Raise (ValueError "'builtin_function_or_method' object is not iterable")
  | StateJson _ => Ok (run_payload run)
  end.

(** One turn of the loop; [None] is the sleep. *)
Definition wait_poll (run_id : string) (adapter : option A) : Py Gateway (option json) :=
  run <- runs (runs_get run_id);;
  if settled (run_status run) then
    match adapter with
    | Some a =>
        if decide (run_status run = SUCCESS) then
          state <- on_world (ra_get_state a (default_request (run_identity run)));;
          v <- of_result (state_response state run);; ret (Some v)
        else ret (Some (run_payload run))
    | None => ret (Some (run_payload run))
    end
  else ret None.

(** At most [n] turns; [env i] is what the other tasks do during the [i]th sleep. *)
Fixpoint _wait_for_run (env : nat → Gateway → Gateway) (n i : nat) (run_id : string) (adapter : option A)
  : Py Gateway (option json) :=
  match n with
  | 0%nat => ret None
  | S n =>
      o <- wait_poll run_id adapter;;
      match o with
      | Some v => ret (Some v)
      | None => modify (env i);;; _wait_for_run env n (S i) run_id adapter
      end
  end.

(** ** Configuration *)

Definition request_context : Type := string * datetime.
Definition native (data : json) (c : request_context) : json := _native isoformat data c.1 c.2.

Definition validate_config (application_id : string) (payload : json_object) (c : request_context) : Py Gateway json :=
  let errors := iter_errors payload in
  ret (native (JObj [("valid", JBool (bool_decide (errors = []))); ("errors", JList errors)]) c).
Definition get_config (application_id : string) (c : request_context) : Py Gateway json :=
  revision <- on_config (config_get_active application_id);;
  ret (native (_revision_payload revision) c).
Definition create_config_revision (application_id : string) (payload : json_object) (c : request_context)
  : Py Gateway json :=
  let errors := iter_errors payload in
  if decide (errors = []) then
    i <- new;;
    revision <- on_config (config_create_revision application_id payload i);;
    ret (native (_revision_payload revision) c)
  else raise (Failure (mk_failure INVALID_EXECUTION_INPUT "application config is invalid" false [("errors", JList errors)])).
Definition activate_config (application_id : string) (revision : Z) (c : request_context) : Py Gateway json :=
  activated <- on_config (config_activate application_id revision);;
  ret (native (_revision_payload activated) c).

(** ** Assistants *)

(** [try: return await get ... except RuntimeFailure], where only a missing
    resource goes on to the rest. *)
Definition or_missing {B} (m rest : Py Gateway B) : Py Gateway B :=
  try_except m (λ e, if has_code RESOURCE_NOT_FOUND e then rest else raise e).

(** [if payload.assistant_id and payload.if_exists == "do_nothing"] *)
Definition do_nothing (id : option string) (if_exists : option IfExists) : option string :=
  match id with
  | Some i => if str_truthy i && bool_decide (if_exists = Some IfExistsDoNothing) then Some i else None
  | None => None
  end.
(** [X.parse(id) if id else X.new()] *)
Definition parse_or_new {k} (id : option string) : Py Gateway (TypedId k) :=
  match id with
  | Some i => if str_truthy i then of_result (parse_id i) else new
  | None => new
  end.

Definition create_assistant (payload : AssistantCreate) : Py Gateway json :=
  let insert :=
    i <- parse_or_new (ac_assistant_id payload);;
    t <- now;;
    created <- on_assistants (assistants_create
      (mk_assistant i (match ac_graph_id payload with Some g => if str_truthy g then g else "default" | None => "default" end)
         1 (ac_name payload) (ac_description payload) (ac_config payload) (ac_context payload) (ac_metadata payload)
         (Some t) (Some t)));;
    ret (assistant_payload created) in
  match do_nothing (ac_assistant_id payload) (ac_if_exists payload) with
  | Some i => or_missing (a <- on_assistants (assistants_get i);; ret (assistant_payload a)) insert
  | None => insert
  end.

(** [criteria.get("graph_id")]; the port takes a string. *)
Definition count_assistants (payload : option json_object) : Py Gateway json :=
  graph_id <- of_result (match get_or_null (default [] payload) "graph_id" with
                         | JNull => Ok None | v => result_map Some (jstr v) end);;
  n <- on_assistants (assistants_count graph_id);;
  ret (JInt n).

(** The decoded body of a request that is read as text: [None] is not JSON.  A
    string is decoded again. *)
Definition text_body (loads : string → option json) (message : string) (raw : string) : Py Gateway json_object :=
  let bad {B} : Py Gateway B := invalid "invalid JSON body" in
  if negb (str_truthy raw) then ret []
  else
    decoded <- match loads raw with Some v => ret v | None => bad end;;
    decoded <- match decoded with
               | JStr s => match loads s with Some v => ret v | None => bad end
               | v => ret v
               end;;
    match decoded with JObj o => ret o | _ => invalid message end.

Definition assistant_versions (loads : string → option json) (assistant_id raw : string) : Py Gateway json :=
  body <- text_body loads "versions body must be an object" raw;;
  limit <- of_result (body_limit body 10);;
  offset <- of_result (body_offset body);;
  versions <- on_assistants (assistants_versions assistant_id);;
  ret (JList (assistant_payload <$> slice versions offset limit)).

Definition set_latest_assistant (assistant_id : string) (payload : json_object) : Py Gateway json :=
  version <- of_result (int_of (default (JInt 0) (dget payload "version")));;
  if version <? 1 then invalid "version must be positive"
  else a <- on_assistants (assistants_set_latest assistant_id version);; ret (assistant_payload a).

(** The filter of the searches; a criterion that is [None] selects all. *)
Definition selects (graph_id name : json) (metadata : json_object) (a : Assistant) : bool :=
  (bool_decide (graph_id = JNull) || py_eq (JStr (asst_graph_id a)) graph_id) &&
  (bool_decide (name = JNull) || py_eq (json_opt (asst_name a)) name) &&
  metadata_matches metadata (asst_metadata a).

(** The selected assistants; [metadata.items()] is read once for each that the
    other criteria select. *)
Definition select_assistants (graph_id name metadata : json) (items : list Assistant) : Py Gateway (list Assistant) :=
  match metadata, List.filter (selects graph_id name []) items with
  | JObj o, _ => ret (List.filter (selects graph_id name o) items)
  | _, [] => ret []
  | _, _ => raise (OtherError "object has no attribute 'items'")
  end.

Definition search_assistants_get (loads : string → option json) (graph_id name metadata : option string) (limit offset : Z)
  : Py Gateway json :=
  items <- on_assistants assistants_all;;
  metadata_filter <- match metadata with
                     | Some m =>
                         if str_truthy m
                         then match loads m with
                              | Some v => ret v
                              | None => raise (ValueError "Expecting value")
                              end
                         else ret (JObj [])
                     | None => ret (JObj [])
                     end;;
  filtered <- select_assistants (json_opt graph_id) (json_opt name) metadata_filter items;;
  ret (JList (assistant_payload <$> slice filtered offset limit)).

Definition search_assistants (loads : string → option json) (raw : string) : Py Gateway json :=
  criteria <- text_body loads "search body must be an object" raw;;
  items <- on_assistants assistants_all;;
  let metadata := get_or_null criteria "metadata" in
  found <- select_assistants (get_or_null criteria "graph_id") (get_or_null criteria "name")
             (if truthy metadata then metadata else JObj []) items;;
  ret (JList (assistant_payload <$> found)).

Definition assistant_graph (assistant_id : string) (xray : bool) : Py Gateway json :=
  on_assistants (assistants_get assistant_id);;;
  adapter <- _runtime_adapter;;
  match ra_get_graph adapter with
  | Some f => on_world (f xray)
  | None => not_supported "graph inspection is not supported"
  end.
Definition assistant_subgraphs (assistant_id : string) (xray : bool) : Py Gateway json :=
  on_assistants (assistants_get assistant_id);;;
  adapter <- _runtime_adapter;;
  match ra_get_subgraphs adapter with
  | Some f => on_world (f xray)
  | None => not_supported "subgraph inspection is not supported"
  end.

Definition get_assistant (assistant_id : string) : Py Gateway json :=
  a <- on_assistants (assistants_get assistant_id);; ret (assistant_payload a).

(** [x if x is not None else y], and [x if x else y] of a dictionary. *)
Definition given {B} (x y : option B) : option B := match x with Some v => Some v | None => y end.
Definition given_object (x y : json_object) : json_object := match x with [] => y | _ => x end.
Definition given_string (x : option string) (y : string) : string :=
  match x with Some v => if str_truthy v then v else y | None => y end.

Definition update_assistant (assistant_id : string) (payload : AssistantCreate) : Py Gateway json :=
  current <- on_assistants (assistants_get assistant_id);;
  t <- now;;
  a <- on_assistants (assistants_update assistant_id
    (mk_assistant (asst_id current) (given_string (ac_graph_id payload) (asst_graph_id current)) (asst_version current + 1)
       (given (ac_name payload) (asst_name current)) (given (ac_description payload) (asst_description current))
       (given_object (ac_config payload) (asst_config current)) (given_object (ac_context payload) (asst_context current))
       (given_object (ac_metadata payload) (asst_metadata current)) (asst_created_at current) (Some t)));;
  ret (assistant_payload a).

Definition delete_assistant (assistant_id : string) (delete_threads : bool) : Py Gateway unit :=
  on_assistants (assistants_delete assistant_id delete_threads).

Definition assistant_schemas (assistant_id : string) : Py Gateway json :=
  assistant <- on_assistants (assistants_get assistant_id);;
  adapter <- _runtime_adapter;;
  schemas <- on_world (ra_schemas adapter);;
  ret (JObj (("graph_id", JStr (asst_graph_id assistant)) :: schemas)).

(** ** Threads *)

Definition create_thread_handler (payload : option ThreadCreate) : Py Gateway json :=
  let body := default default_thread_create payload in
  let insert :=
    t <- on_service (create_thread (tc_thread_id body) (Some (tc_metadata body)));; ret (thread_payload t) in
  match do_nothing (tc_thread_id body) (tc_if_exists body) with
  | Some i => or_missing (t <- threads (threads_get i);; ret (thread_payload t)) insert
  | None => insert
  end.

(** [payload.get("metadata") if isinstance(..., dict) else None] and
    [str(payload["status"]) if payload.get("status") is not None else None] *)
Definition metadata_filter (body : json_object) : option json_object :=
  match get_or_null body "metadata" with JObj o => Some o | _ => None end.
Definition status_filter (body : json_object) : option string :=
  match get_or_null body "status" with JNull => None | v => Some (py_str v) end.

(** A body that is not decoded twice. *)
Definition object_body (loads : string → option json) (message : string) (raw : string) : Py Gateway json_object :=
  if negb (str_truthy raw) then ret []
  else match loads raw with
       | Some (JObj o) => ret o
       | Some _ => invalid message
       | None => invalid "invalid JSON body"
       end.

Definition search_threads (loads : string → option json) (raw : string) : Py Gateway json :=
  payload <- object_body loads "search body must be an object" raw;;
  limit <- of_result (body_limit payload 10);;
  offset <- of_result (body_offset payload);;
  items <- threads (threads_search (metadata_filter payload) (status_filter payload) limit offset);;
  ret (JList (thread_payload <$> items)).

Definition count_threads (payload : option json_object) : Py Gateway json :=
  let criteria := default [] payload in
  n <- threads (threads_count (metadata_filter criteria) (status_filter criteria));;
  ret (JInt n).

(** [replace_thread] is the same. *)
Definition update_thread (thread_id : string) (prefer : option string) (payload : json_object) : Py Gateway json :=
  thread <- threads (threads_get thread_id);;
  match get_or_null payload "metadata" with
  | JObj metadata =>
      t <- now;;
      updated <- threads (threads_update (mk_thread (thr_id thread) (thr_status thread)
                   (dupdate (thr_metadata thread) metadata) (thr_created_at thread) (Some t)));;
      ret (if decide (prefer = Some "return=minimal") then JNull else thread_payload updated)
  | _ => invalid "metadata must be an object"
  end.

Definition get_thread (thread_id : string) : Py Gateway json :=
  t <- threads (threads_get thread_id);; ret (thread_payload t).
Definition delete_thread (thread_id : string) : Py Gateway unit := threads (threads_delete thread_id).
Definition copy_thread (thread_id : string) : Py Gateway unit :=
  source <- threads (threads_get thread_id);;
  on_service (create_thread None (Some (thr_metadata source)));;; ret tt.

Definition prune_threads (payload : json_object) : Py Gateway json :=
  match get_or_null payload "thread_ids" with
  | JList ids =>
      for_each (λ i, threads (threads_delete (py_str i))) ids;;;
      ret (JObj [("pruned_count", JInt (Z.of_nat (length ids)))])
  | _ => invalid "thread_ids must be a list"
  end.

(** *** The states of a thread *)

Definition state_request (r : Run) (config : json_object) : ExecutionRequest :=
  mk_request (run_identity r) JNull JNull config [] [] ["values"] false INTERACTIVE 1800.

Definition get_thread_state (thread_id : string) : Py Gateway json :=
  run <- _latest_thread_run thread_id;;
  adapter <- _runtime_adapter;;
  state <- on_world (ra_get_state adapter (state_request run []));;
  of_result (compat_state state).
Definition get_thread_state_checkpoint (thread_id checkpoint_id : string) : Py Gateway json :=
  run <- _latest_thread_run thread_id;;
  adapter <- _runtime_adapter;;
  state <- on_world (ra_get_state adapter (state_request run
             [("configurable", JObj [("checkpoint_id", JStr checkpoint_id)])]));;
  of_result (compat_state state).
Definition update_thread_state (thread_id : string) (payload : json_object) : Py Gateway json :=
  run <- _latest_thread_run thread_id;;
  adapter <- _runtime_adapter;;
  state <- on_world (ra_update_state adapter (state_request run []) (default (JObj payload) (dget payload "values")));;
  of_result (compat_state state).
Definition get_thread_state_by_checkpoint (thread_id : string) (payload : json_object) : Py Gateway json :=
  run <- _latest_thread_run thread_id;;
  adapter <- _runtime_adapter;;
  let checkpoint := default (JObj []) (dget payload "checkpoint") in
  ns <- of_result (jget checkpoint "checkpoint_ns" (JStr ""));;
  id <- of_result (jget checkpoint "checkpoint_id" JNull);;
  map <- of_result (jget checkpoint "checkpoint_map" (JObj []));;
  let configurable := List.filter (λ kv, negb (bool_decide (kv.2 = JNull)))
    [("checkpoint_ns", ns); ("checkpoint_id", id); ("checkpoint_map", map)] in
  state <- on_world (ra_get_state adapter (state_request run [("configurable", JObj configurable)]));;
  of_result (compat_state state).

(** The configuration that carries the arguments of a history. *)
Definition history_config (body : json_object) : res json_object :=
  result_bind
    (match dget body "limit" with
     | Some v => result_map (λ n, [("__history_limit__", JInt (Z.max 0 (Z.min n 1000)))]) (int_of v)
     | None => Ok []
     end) (λ limit,
  Ok (match dget body "before" with
      | Some (JObj o) => [("__history_before__", JObj o)]
      | Some v => [("__history_before__", JObj [("configurable", JObj [("checkpoint_id", JStr (py_str v))])])]
      | None => []
      end ++ limit ++
      match dget body "metadata" with Some v => [("__history_filter__", v)] | None => [] end)).
Definition get_thread_history (thread_id : string) (payload : option json_object) : Py Gateway json :=
  threads (threads_get thread_id);;;
  run <- runs (runs_latest_for_thread thread_id);;
  match run with
  | None => ret (JList [])
  | Some run =>
      adapter <- _runtime_adapter;;
      config <- of_result (history_config (default [] payload));;
      history <- on_world (ra_get_state_history adapter (state_request run config));;
      l <- of_result (result_mapM compat_state history);;
      ret (JList l)
  end.

(** ** Runs *)

Definition create_run (thread_id : option string) (payload : RunCreate) : Py Gateway json :=
  run <- _start_run payload thread_id;; ret (run_payload run).

(** [asyncio.gather] of coroutines that do not suspend: all of them run, in order,
    and the first exception is raised. *)
Fixpoint gather {B} (l : list (Py Gateway B)) : Py Gateway (list B) :=
  match l with
  | [] => ret []
  | m :: l => λ g,
      let '(r, g) := m g in
      let '(rs, g) := gather l g in
      (result_bind r (λ x, result_map (cons x) rs), g)
  end.
Definition create_run_batch (payloads : list RunCreate) : Py Gateway json :=
  l <- gather ((λ p, _start_run p None) <$> payloads);; ret (JList (run_payload <$> l)).

Definition list_thread_runs (thread_id : string) (limit offset : Z) (status : option string) : Py Gateway json :=
  threads (threads_get thread_id);;;
  l <- runs (runs_list_for_thread thread_id limit offset status);;
  ret (JList (run_payload <$> l)).

Definition get_run (run_id : string) : Py Gateway json :=
  r <- runs (runs_get run_id);; ret (run_payload r).

(** The run of a path, if it is on the path's thread. *)
Definition thread_run (thread_id run_id : string) : Py Gateway Run :=
  run <- runs (runs_get run_id);;
  if decide (id_value <$> run_thread_id run = Some thread_id) then ret run
  else raise (failure RESOURCE_NOT_FOUND "run does not belong to thread").
Definition get_thread_run (thread_id run_id : string) : Py Gateway json :=
  r <- thread_run thread_id run_id;; ret (run_payload r).
Definition delete_thread_run (thread_id run_id : string) : Py Gateway unit :=
  thread_run thread_id run_id;;; runs (runs_delete run_id).

(** [None]: still waiting after [n] turns. *)
Definition wait_run (env : nat → Gateway → Gateway) (n : nat) (thread_id : option string) (payload : RunCreate)
  : Py Gateway (option json) :=
  run <- _start_run payload thread_id;; _wait_for_run env n 0 (run_key run) None.
Definition join_run (env : nat → Gateway → Gateway) (n : nat) (thread_id run_id : string) : Py Gateway (option json) :=
  run <- thread_run thread_id run_id;;
  adapter <- _runtime_adapter;;
  _wait_for_run env n 0 (run_key run) (Some adapter).

Definition cancel_handler (env : nat → Gateway → Gateway) (n : nat) (run_id : string) (wait : bool)
  : Py Gateway (option json) :=
  on_service (cancel_run run_id);;;
  if wait then
    adapter <- _runtime_adapter;;
    i <- of_result (parse_id (k:=RunKind) run_id);;
    _wait_for_run env n 0 (id_value i) (Some adapter)
  else ret (Some JNull).
Definition cancel_thread_run (env : nat → Gateway → Gateway) (n : nat) (thread_id run_id : string) (wait : bool)
  : Py Gateway (option json) :=
  thread_run thread_id run_id;;; cancel_handler env n run_id wait.

Definition cancel_many_runs (payload : json_object) : Py Gateway unit :=
  match get_or_null payload "run_ids" with
  | JList ids => for_each (λ i, on_service (cancel_run (py_str i));;; ret tt) ids
  | _ =>
      match get_or_null payload "status" with
      | JStr "pending" | JStr "running" | JStr "all" =>
          not_supported "bulk cancellation by status requires a run index"
      | JList _ => raise (TypeError "unhashable type: 'list'")
      | JObj _ => raise (TypeError "unhashable type: 'dict'")
      | _ => ret tt
      end
  end.

(** *** Streams *)

(** [_event_cursor] *)
Definition _event_cursor (run_id : RunId) : Py Gateway Z := λ g,
  match svc_journal (gw_service g) with
  | Some j => (result_map (λ l, foldr Z.max (-1) (ev_sequence <$> l)) (replay run_id j), g)
  | None => (Raise (OtherError "'NoneType' object has no attribute 'replay'"), g)
  end.

(** The stream that [_sse_response] opens, for the header [Last-Event-ID]. *)
Definition sse_stream (run : string) (native : bool) (modes : list string) (after : option Z)
    (last_event_id : option string) : Py Gateway GatewayStream.Stream :=
  cursor <- of_result (GatewayStream.stream_cursor after last_event_id);;
  ret (GatewayStream.mk_stream run native modes cursor).

Definition stream_run (thread_id : string) (last_event_id : option string) (payload : RunCreate)
  : Py Gateway GatewayStream.Stream :=
  run <- _start_run payload (Some thread_id);;
  cursor <- (if is_resume payload then c <- _event_cursor (run_run_id run);; ret (Some c) else ret None);;
  sse_stream (run_key run) false (stream_modes (rc_stream_mode payload)) cursor last_event_id.
Definition stream_stateless_run (last_event_id : option string) (payload : RunCreate) : Py Gateway GatewayStream.Stream :=
  run <- _start_run payload None;;
  sse_stream (run_key run) false (stream_modes (rc_stream_mode payload)) None last_event_id.
(** [stream_mode or "values"] *)
Definition join_stream (thread_id run_id : string) (stream_mode last_event_id : option string)
  : Py Gateway GatewayStream.Stream :=
  run <- thread_run thread_id run_id;;
  sse_stream (run_key run) false [given_string stream_mode "values"] None last_event_id.
Definition join_thread_stream (thread_id : string) (stream_mode last_event_id : option string)
  : Py Gateway GatewayStream.Stream :=
  run <- _latest_thread_run thread_id;;
  sse_stream (run_key run) false [given_string stream_mode "values"] None last_event_id.
Definition native_run_events (run_id : string) (last_event_id : option string) : Py Gateway GatewayStream.Stream :=
  runs (runs_get run_id);;;
  i <- of_result (parse_id (k:=RunKind) run_id);;
  sse_stream (id_value i) true ["events"] None last_event_id.

(** ** The store *)

(** The operation of the application's adapter, if it has one. *)
Definition store_operation {F} (f : A → option F) : Py Gateway F :=
  adapter <- _runtime_adapter;;
  match f adapter with Some op => ret op | None => not_supported "store is not available" end.

(** Arguments are passed on as they are in the body. *)
Definition body_field (body : json_object) (k : string) (d : json) : json := default d (dget body k).

Definition store_put_item (payload : json_object) : Py Gateway unit :=
  putter <- store_operation ra_store_put;;
  on_world (putter (body_field payload "namespace" (JList [])) (py_str (body_field payload "key" (JStr "")))
              (body_field payload "value" (JObj [])) (get_or_null payload "index")).
Definition store_get_item (namespace key : string) : Py Gateway json :=
  getter <- store_operation ra_store_get;;
  on_world (getter (split_at "."%char namespace) key).
Definition store_delete_item (payload : json_object) : Py Gateway unit :=
  deleter <- store_operation ra_store_delete;;
  on_world (deleter (body_field payload "namespace" (JList [])) (py_str (body_field payload "key" (JStr "")))).
Definition store_search_items (payload : json_object) : Py Gateway json :=
  searcher <- store_operation ra_store_search;;
  limit <- of_result (body_limit payload 10);;
  offset <- of_result (body_offset payload);;
  on_world (searcher (body_field payload "namespace_prefix" (JList [])) (get_or_null payload "filter") limit offset).
Definition store_list_namespaces (payload : json_object) : Py Gateway json :=
  lister <- store_operation ra_store_list_namespaces;;
  limit <- of_result (body_limit payload 100);;
  offset <- of_result (body_offset payload);;
  on_world (lister (get_or_null payload "prefix") (get_or_null payload "suffix") (get_or_null payload "max_depth")
              limit offset).

(** ** The routes *)

(** A request, after its path and body have been validated. *)
Inductive request : Type :=
  | ValidateConfig (application_id : string) (payload : json_object) (c : request_context)
  | GetConfig (application_id : string) (c : request_context)
  | CreateConfigRevision (application_id : string) (payload : json_object) (c : request_context)
  | ActivateConfig (application_id : string) (revision : Z) (c : request_context)
  | CreateAssistant (payload : AssistantCreate)
  | CountAssistants (payload : option json_object)
  | AssistantVersions (assistant_id raw : string)
  | SetLatestAssistant (assistant_id : string) (payload : json_object)
  | SearchAssistantsGet (graph_id name metadata : option string) (limit offset : Z)
  | AssistantGraph (assistant_id : string) (xray : bool)
  | AssistantSubgraphs (assistant_id : string) (xray : bool)
  | GetAssistant (assistant_id : string)
  | UpdateAssistant (assistant_id : string) (payload : AssistantCreate)
  | DeleteAssistant (assistant_id : string) (delete_threads : bool)
  | SearchAssistants (raw : string)
  | AssistantSchemas (assistant_id : string)
  | CreateThread (payload : option ThreadCreate)
  | SearchThreads (raw : string)
  | CountThreads (payload : option json_object)
  | UpdateThread (thread_id : string) (prefer : option string) (payload : json_object)
  | DeleteThread (thread_id : string)
  | CopyThread (thread_id : string)
  | PruneThreads (payload : json_object)
  | GetThreadState (thread_id : string)
  | GetThreadStateCheckpoint (thread_id checkpoint_id : string)
  | UpdateThreadState (thread_id : string) (payload : json_object)
  | GetThreadStateByCheckpoint (thread_id : string) (payload : json_object)
  | GetThreadHistory (thread_id : string) (payload : option json_object)
  | GetThread (thread_id : string)
  | CreateRun (thread_id : option string) (payload : RunCreate)
  | CreateRunBatch (payloads : list RunCreate)
  | ListThreadRuns (thread_id : string) (limit offset : Z) (status : option string)
  | StreamRun (thread_id : string) (last_event_id : option string) (payload : RunCreate)
  | JoinStream (thread_id run_id : string) (stream_mode last_event_id : option string)
  | JoinThreadStream (thread_id : string) (stream_mode last_event_id : option string)
  | StreamStatelessRun (last_event_id : option string) (payload : RunCreate)
  | NativeRunEvents (run_id : string) (last_event_id : option string)
  | WaitRun (thread_id : option string) (payload : RunCreate)
  | CancelManyRuns (payload : json_object)
  | GetRun (run_id : string)
  | GetThreadRun (thread_id run_id : string)
  | DeleteThreadRun (thread_id run_id : string)
  | JoinRun (thread_id run_id : string)
  | CancelRun (run_id : string) (wait : bool)
  | CancelThreadRun (thread_id run_id : string) (wait : bool)
  | StorePutItem (payload : json_object)
  | StoreGetItem (namespace key : string)
  | StoreDeleteItem (payload : json_object)
  | StoreSearchItems (payload : json_object)
  | StoreListNamespaces (payload : json_object).

(** [Waiting]: no response within the turns that are looked at. *)
Inductive response : Type :=
  | Body (v : json)
  | NoContent
  | EventStream (s : GatewayStream.Stream)
  | Waiting.

Definition body (m : Py Gateway json) : Py Gateway response := v <- m;; ret (Body v).
Definition no_content (m : Py Gateway unit) : Py Gateway response := m;;; ret NoContent.
Definition event_stream (m : Py Gateway GatewayStream.Stream) : Py Gateway response := s <- m;; ret (EventStream s).
Definition awaited (m : Py Gateway (option json)) : Py Gateway response :=
  o <- m;; ret (match o with Some v => Body v | None => Waiting end).
Definition cancelled (m : Py Gateway (option json)) (wait : bool) : Py Gateway response :=
  o <- m;; ret (if wait then match o with Some v => Body v | None => Waiting end else NoContent).

Definition handle (loads : string → option json) (env : nat → Gateway → Gateway) (n : nat) (r : request)
  : Py Gateway response :=
  match r with
  | ValidateConfig app payload c => body (validate_config app payload c)
  | GetConfig app c => body (get_config app c)
  | CreateConfigRevision app payload c => body (create_config_revision app payload c)
  | ActivateConfig app revision c => body (activate_config app revision c)
  | CreateAssistant payload => body (create_assistant payload)
  | CountAssistants payload => body (count_assistants payload)
  | AssistantVersions id raw => body (assistant_versions loads id raw)
  | SetLatestAssistant id payload => body (set_latest_assistant id payload)
  | SearchAssistantsGet graph name metadata limit offset =>
      body (search_assistants_get loads graph name metadata limit offset)
  | AssistantGraph id xray => body (assistant_graph id xray)
  | AssistantSubgraphs id xray => body (assistant_subgraphs id xray)
  | GetAssistant id => body (get_assistant id)
  | UpdateAssistant id payload => body (update_assistant id payload)
  | DeleteAssistant id b => no_content (delete_assistant id b)
  | SearchAssistants raw => body (search_assistants loads raw)
  | AssistantSchemas id => body (assistant_schemas id)
  | CreateThread payload => body (create_thread_handler payload)
  | SearchThreads raw => body (search_threads loads raw)
  | CountThreads payload => body (count_threads payload)
  | UpdateThread id prefer payload => body (update_thread id prefer payload)
  | DeleteThread id => no_content (delete_thread id)
  | CopyThread id => no_content (copy_thread id)
  | PruneThreads payload => body (prune_threads payload)
  | GetThreadState id => body (get_thread_state id)
  | GetThreadStateCheckpoint id c => body (get_thread_state_checkpoint id c)
  | UpdateThreadState id payload => body (update_thread_state id payload)
  | GetThreadStateByCheckpoint id payload => body (get_thread_state_by_checkpoint id payload)
  | GetThreadHistory id payload => body (get_thread_history id payload)
  | GetThread id => body (get_thread id)
  | CreateRun id payload => body (create_run id payload)
  | CreateRunBatch payloads => body (create_run_batch payloads)
  | ListThreadRuns id limit offset status => body (list_thread_runs id limit offset status)
  | StreamRun id last payload => event_stream (stream_run id last payload)
  | JoinStream id run mode last => event_stream (join_stream id run mode last)
  | JoinThreadStream id mode last => event_stream (join_thread_stream id mode last)
  | StreamStatelessRun last payload => event_stream (stream_stateless_run last payload)
  | NativeRunEvents run last => event_stream (native_run_events run last)
  | WaitRun id payload => awaited (wait_run env n id payload)
  | CancelManyRuns payload => no_content (cancel_many_runs payload)
  | GetRun run => body (get_run run)
  | GetThreadRun id run => body (get_thread_run id run)
  | DeleteThreadRun id run => no_content (delete_thread_run id run)
  | JoinRun id run => awaited (join_run env n id run)
  | CancelRun run wait => cancelled (cancel_handler env n run wait) wait
  | CancelThreadRun id run wait => cancelled (cancel_thread_run env n id run wait) wait
  | StorePutItem payload => no_content (store_put_item payload)
  | StoreGetItem namespace key => body (store_get_item namespace key)
  | StoreDeleteItem payload => no_content (store_delete_item payload)
  | StoreSearchItems payload => body (store_search_items payload)
  | StoreListNamespaces payload => body (store_list_namespaces payload)
  end.
End Gateway.
