(* ===== verification/GatewaySpec.v ===== *)
(** * What the gateway's handlers do

    No request makes two runs active on one thread; waiting for a run ends when the
    run is settled; below the path of a thread only its own runs are reached; and what
    starting a run does. *)

From S2P Require Import Prelude PyDict PyStr Json JsonAccess Errors Identity Execution Ports MemoryRepositories.
From S2P Require Import MemoryQueue MemoryJournal MemoryStores Service ServiceSafety LangGraph GatewayHttp Gateway.

(** What the handlers rely on of a run repository beyond [RunRepositoryLaws]:
    queries change nothing, and a deletion removes at most the run. *)
Class RunQueryLaws (R : Type) `{RunRepositoryLaws R} : Type := {
  runs_active_reads t s : (runs_active_for_thread t s).2 = s;
  runs_active_ok t s o s' : runs_inv s → runs_active_for_thread t s = (Ok o, s') →
    match o with
    | Some r => runs_view s !! run_key r = Some r ∧ occupies t r = true
    | None => ∀ k r, runs_view s !! k = Some r → occupies t r = false
    end;
  runs_latest_reads t s : (runs_latest_for_thread t s).2 = s;
  runs_list_reads t limit offset status s : (runs_list_for_thread t limit offset status s).2 = s;
  runs_delete_view k s : runs_inv s → runs_inv (runs_delete k s).2 ∧
    (runs_view (runs_delete k s).2 = runs_view s ∨ runs_view (runs_delete k s).2 = delete k (runs_view s));
}.

#[export] Program Instance memory_run_queries : RunQueryLaws Runs.state.
Next Obligation. done. Qed.
Next Obligation.
  intros t s o s' Hs. simpl in *. unfold Runs.active_for_thread. intros [= <- <-].
  destruct (Runs.find_active t s) as [r|] eqn:Hf.
  - apply Runs.find_active_Some in Hf as [Ho [k Hk]]; [|apply Hs]. split; [|done].
    rewrite <- dget_map. by rewrite (proj2 Hs _ _ Hk).
  - intros k r Hk. rewrite <- dget_map in Hk. by eapply Runs.find_active_None in Hf; [|apply Hs|].
Qed.
Next Obligation. done. Qed.
Next Obligation. done. Qed.
Next Obligation.
  intros k s Hs. simpl in *. unfold Runs.delete. destruct (dget s k) eqn:Hk; [|by split; [|left]]. simpl. split.
  - by apply Runs.inv_dpop.
  - right. apply dict_to_map_dpop. apply Hs.
Qed.

Section Spec.
Context {R T Q J O A AS C W : Type}
  `{!RunRepository R, RL : !RunRepositoryLaws R, RQ : !RunQueryLaws R, !ThreadRepository T, !RunCommandQueue Q,
    !EventJournal J, JL : !EventJournalLaws J, !OutboxRepository O, !AssistantRepository AS, !ConfigRepository C,
    !RuntimeAdapter A W}
  (clock : nat → datetime) (fresh : nat → string) (isoformat : datetime → string) (py_str : json → string)
  (adapter_cancel : A → ExecutionRequest → res unit)
  (replay : RunId → J → res (list RuntimeEvent)) (iter_errors : json_object → list json).

Notation Gateway := (Gateway (R:=R) (T:=T) (Q:=Q) (J:=J) (O:=O) (A:=A) (AS:=AS) (C:=C) (W:=W)).
Notation handle := (handle clock fresh isoformat py_str adapter_cancel replay iter_errors).
Notation _start_run := (_start_run clock fresh).
Notation _wait_for_run := (_wait_for_run isoformat).
Notation wait_poll := (wait_poll isoformat).

Abbreviation Svc := (Service (R:=R) (T:=T) (Q:=Q) (J:=J) (O:=O) (A:=A)).

(** ** The invariant of the runs *)

Definition inv (g : Gateway) : Prop := good (gw_service g) ∧ exclusive (view (gw_service g)).

Abbreviation keeps m := (preserves inv m).

Lemma keeps_gather {B} (l : list (Py Gateway B)) : Forall (λ m, keeps m) l → keeps (gather l).
Proof.
  induction 1 as [|m l Hm Hl IH]; [apply preserves_ret|]. intros g Hg. simpl. specialize (Hm g Hg).
  destruct (m g) as [r g1]. specialize (IH g1 Hm). by destruct (gather l g1) as [rs g2].
Qed.

Lemma keeps_on_assistants {B} (m : Py AS B) : keeps (on_assistants m).
Proof. intros g Hg. unfold on_assistants, zoom. by destruct (m _). Qed.
Lemma keeps_on_config {B} (m : Py C B) : keeps (on_config m).
Proof. intros g Hg. unfold on_config, zoom. by destruct (m _). Qed.
Lemma keeps_on_world {B} (m : Py W B) : keeps (on_world m).
Proof. intros g Hg. unfold on_world, zoom. by destruct (m _). Qed.

(** An operation of the service that keeps its runs. *)
Definition serves {B} (m : Py (Service (R:=R) (T:=T) (Q:=Q) (J:=J) (O:=O) (A:=A)) B) : Prop :=
  ∀ s, good s → exclusive (view s) → let post s' := good s' ∧ exclusive (view s') in wp m (λ _, post) (λ _, post) s.
Lemma keeps_on_service {B} (m : Py _ B) : serves m → keeps (on_service m).
Proof.
  intros Hm g [Hg Hex]. specialize (Hm _ Hg Hex). unfold wp in Hm. unfold on_service, zoom, inv.
  by destruct (m (gw_service g)) as [[b|e] s].
Qed.

Lemma runs_only_inv : runs_only (λ s, good s ∧ exclusive (view (T:=T) (Q:=Q) (J:=J) (O:=O) (A:=A) s)).
Proof using RL. apply runs_only_and. Qed.

Lemma keeps_threads {B} (m : Py T B) : keeps (threads m).
Proof. apply keeps_on_service. intros s Hg Hex. by apply (wp_on_threads _ runs_only_inv). Qed.
Lemma keeps_now : keeps (now clock).
Proof. apply keeps_on_service. intros s Hg Hex. by apply (wp_now _ _ runs_only_inv). Qed.
Lemma keeps_new {k} : keeps (new (k:=k) fresh).
Proof. apply keeps_on_service. intros s Hg Hex. by apply (wp_new _ _ runs_only_inv). Qed.

(** *** The runs *)

Lemma serves_reads {B} (m : Py R B) : (∀ r, (m r).2 = r) → serves (on_runs m).
Proof.
  intros Hm s Hg Hex. unfold wp, on_runs, zoom. specialize (Hm (svc_runs s)). destruct (m (svc_runs s)) as [[b|e] r];
    simpl in Hm; subst; by destruct s.
Qed.
Lemma keeps_active t : keeps (runs (runs_active_for_thread t)).
Proof using RL RQ JL. apply keeps_on_service, serves_reads, runs_active_reads. Qed.
Lemma keeps_latest t : keeps (runs (runs_latest_for_thread t)).
Proof using RL RQ JL. apply keeps_on_service, serves_reads, runs_latest_reads. Qed.
Lemma keeps_list t limit offset status : keeps (runs (runs_list_for_thread t limit offset status)).
Proof using RL RQ JL. apply keeps_on_service, serves_reads, runs_list_reads. Qed.
Lemma keeps_get k : keeps (runs (runs_get k)).
Proof using RL RQ JL. apply keeps_on_service. intros s Hg Hex. by apply wp_get. Qed.

Lemma exclusive_delete k (v : gmap string Run) : exclusive v → exclusive (delete k v).
Proof. intros Hex t k1 k2 r1 r2 [_ H1]%lookup_delete_Some [_ H2]%lookup_delete_Some. by apply (Hex t). Qed.
Lemma keeps_delete k : keeps (runs (runs_delete k)).
Proof using RL RQ JL.
  apply keeps_on_service. intros s [Hi Hj] Hex. unfold wp, on_runs, zoom.
  destruct (runs_delete_view k (svc_runs s) Hi) as [Hi' Hv].
  destruct (runs_delete k (svc_runs s)) as [[b|e] r]; simpl in *; (split; [by split|]); unfold view in *; simpl;
    (destruct Hv as [->| ->]; [done|by apply exclusive_delete]).
Qed.

Lemma cancelled_exclusive k v v' : exclusive v → at_key k cancelled_rel v v' → exclusive v'.
Proof.
  intros Hex [Hoth Hk]. apply (exclusive_at_key k v); [done|]. split; [done|].
  destruct Hk as [Hk|(r & r' & Hr & Hr' & _ & Hs)].
  { rewrite Hk. intros r t Hr Ho. eauto. }
  rewrite Hr'. intros r1 t [= <-] Ho. unfold occupies in Ho. rewrite Hs in Ho.
  destruct (run_thread_id r'); [|done]. by rewrite andb_false_r in Ho.
Qed.

Lemma keeps_start req g : keeps (on_service (start_run clock fresh req g)).
Proof using RL RQ JL.
  apply keeps_on_service. intros s Hg Hex. eapply wp_mono; [by apply start_run_spec| |]; intros ? s' [? Hk];
    (split; [done|by eapply created_exclusive]).
Qed.
Lemma keeps_cancel id : keeps (on_service (cancel_run clock fresh adapter_cancel id)).
Proof using RL RQ JL.
  apply keeps_on_service. intros s Hg Hex. eapply wp_mono; [by apply cancel_run_spec| |]; intros ? s' [? Hk];
    (split; [done|by eapply cancelled_exclusive]).
Qed.
Lemma keeps_resume req : keeps (on_service (resume_run clock fresh req)).
Proof using RL RQ JL.
  apply keeps_on_service. intros s Hg Hex. eapply wp_mono; [by apply resume_run_spec| |]; intros ? s' [? Hk];
    (split; [done|by rewrite Hk]).
Qed.

Lemma keeps_create_thread id metadata : keeps (on_service (create_thread clock fresh id metadata)).
Proof using RL RQ JL.
  apply keeps_on_service. intros s Hg Hex. unfold create_thread. apply wp_bind.
  eapply wp_mono; [by apply (wp_now _ _ runs_only_inv (λ _ _, False))| |done]. intros t s1 H1. apply wp_bind.
  set (I := λ s', good s' ∧ exclusive (view s')) in *.
  apply (wp_mono _ (λ _, I) _ (λ _, I)); [|intros i s2 H2; by apply (wp_on_threads I runs_only_inv)|done].
  destruct id as [v|]; [destruct (str_truthy v)|].
  - apply wp_of_result. by destruct (parse_id v).
  - by apply (wp_new _ _ runs_only_inv).
  - by apply (wp_new _ _ runs_only_inv).
Qed.

(** *** The handlers *)

(** By the shape of the operation; [other] is for the handlers' own parts. *)
Ltac keep_step other :=
  lazymatch goal with
  | |- preserves _ (bind _ _) => apply preserves_bind; [|intros ?]
  | |- preserves _ (ret _) => apply preserves_ret
  | |- preserves _ (raise _) => apply preserves_raise
  | |- preserves _ (invalid _) => apply preserves_raise
  | |- preserves _ (not_supported _) => apply preserves_raise
  | |- preserves _ (of_result _) => apply preserves_of_result
  | |- preserves _ get_state => apply preserves_get_state
  | |- preserves _ (or_missing _ _) => apply preserves_try_except; [|intros ?]
  | |- preserves _ (try_except _ _) => apply preserves_try_except; [|intros ?]
  | |- preserves _ (for_each _ _) => apply preserves_for_each; intros ?
  | |- preserves _ (on_assistants _) => apply keeps_on_assistants
  | |- preserves _ (on_config _) => apply keeps_on_config
  | |- preserves _ (on_world _) => apply keeps_on_world
  | |- preserves _ (threads _) => apply keeps_threads
  | |- preserves _ (Gateway.now _) => apply keeps_now
  | |- preserves _ (Gateway.new _) => apply keeps_new
  | |- preserves _ (runs (runs_active_for_thread _)) => apply keeps_active
  | |- preserves _ (runs (runs_latest_for_thread _)) => apply keeps_latest
  | |- preserves _ (runs (runs_list_for_thread _ _ _ _)) => apply keeps_list
  | |- preserves _ (runs (runs_get _)) => apply keeps_get
  | |- preserves _ (runs (runs_delete _)) => apply keeps_delete
  | |- preserves _ (on_service (start_run _ _ _ _)) => apply keeps_start
  | |- preserves _ (on_service (cancel_run _ _ _ _)) => apply keeps_cancel
  | |- preserves _ (on_service (resume_run _ _ _)) => apply keeps_resume
  | |- preserves _ (on_service (create_thread _ _ _ _)) => apply keeps_create_thread
  | |- preserves _ (match ?x with _ => _ end) => destruct x
  | |- _ => other
  end.
Ltac keep := repeat keep_step fail.

Lemma keeps_adapter : keeps _runtime_adapter.
Proof using RL RQ JL. intros g Hg. unfold _runtime_adapter. by case_match. Qed.
Lemma keeps_start_run payload t : keeps (_start_run payload t).
Proof using RL RQ JL. unfold Gateway._start_run. keep. Qed.

Implicit Types (g : Gateway).

Section Handlers.
Context (loads : string → option json) (env : nat → Gateway → Gateway) (Henv : ∀ i g, inv g → inv (env i g)).

Lemma keeps_wait n i run adapter : keeps (_wait_for_run env n i run adapter).
Proof using RL RQ JL Henv.
  revert i. induction n as [|n IH]; intros i; simpl; [apply preserves_ret|]. apply preserves_bind.
  - unfold Gateway.wait_poll. keep.
  - intros [v|]; [apply preserves_ret|]. apply preserves_bind; [|intros _; apply IH]. intros g Hg. simpl. by apply Henv.
Qed.
Lemma keeps_latest_run t : keeps (_latest_thread_run t).
Proof using RL RQ JL. unfold _latest_thread_run. keep. Qed.
Lemma keeps_thread_run t r : keeps (thread_run t r).
Proof using RL RQ JL. unfold thread_run. keep. Qed.
Lemma keeps_text_body message raw : keeps (text_body loads message raw).
Proof using RL RQ JL. unfold text_body, invalid. keep. Qed.
Lemma keeps_object_body message raw : keeps (object_body loads message raw).
Proof using RL RQ JL. unfold object_body, invalid. keep. Qed.
Lemma keeps_store {F} (f : A → option F) : keeps (store_operation f).
Proof using RL RQ JL. unfold store_operation, not_supported. keep. apply keeps_adapter. Qed.
Lemma keeps_sse run native modes after last : keeps (sse_stream run native modes after last).
Proof. unfold sse_stream. keep. Qed.
Lemma keeps_cursor run : keeps (_event_cursor replay run).
Proof. intros g Hg. unfold _event_cursor. by case_match. Qed.
Lemma keeps_select graph name metadata items : keeps (select_assistants graph name metadata items).
Proof. unfold select_assistants. keep. Qed.

Ltac keep_all :=
  repeat keep_step ltac:(first
    [ apply keeps_adapter | apply keeps_start_run | apply keeps_wait | apply keeps_latest_run | apply keeps_thread_run
    | apply keeps_text_body | apply keeps_object_body | apply keeps_store | apply keeps_sse | apply keeps_cursor
    | apply keeps_select ]).

Lemma keeps_batch payloads : keeps (create_run_batch clock fresh isoformat payloads).
Proof using RL RQ JL.
  unfold create_run_batch. keep. apply keeps_gather, Forall_fmap, Forall_true. intros p. apply keeps_start_run.
Qed.

Lemma keeps_handle n r : keeps (handle loads env n r).
Proof using RL RQ JL Henv.
  destruct r; cbn [Gateway.handle]; unfold body, no_content, event_stream, awaited, cancelled, validate_config, get_config,
    create_config_revision, activate_config, create_assistant, count_assistants, assistant_versions, set_latest_assistant,
    search_assistants_get, search_assistants, get_assistant, update_assistant, delete_assistant, or_missing, parse_or_new,
    invalid, assistant_graph, assistant_subgraphs, assistant_schemas, not_supported, create_thread_handler, search_threads,
    count_threads, update_thread, delete_thread, copy_thread, prune_threads, get_thread, get_thread_state,
    get_thread_state_checkpoint, update_thread_state, get_thread_state_by_checkpoint, get_thread_history, create_run,
    list_thread_runs, get_run, get_thread_run, delete_thread_run, wait_run, join_run, cancel_thread_run, cancel_handler,
    cancel_many_runs, stream_run, join_stream, join_thread_stream, stream_stateless_run, native_run_events,
    store_put_item, store_get_item, store_delete_item, store_search_items, store_list_namespaces.
  all: try (apply preserves_bind; [apply keeps_batch|intros; apply preserves_ret]).
  all: keep_all.
Qed.
End Handlers.

(** What happens at a gateway.  A task of the service makes a step, for any executions in
    progress (also of runs that have been deleted), while the adapters' world changes; or a
    request is handled, and at each turn of a loop in which it waits any such steps happen. *)
Inductive api_step (loads : string → option json) : Gateway → Gateway → Prop :=
| api_task g ts s' ts' w :
    sys_step clock fresh py_str adapter_cancel True (mk_system (gw_service g) ts) (mk_system s' ts') →
    api_step loads g (set_world w (set_service s' g))
| api_request g env n r :
    (∀ i g1, reachable (api_step loads) g1 (env i g1)) →
    api_step loads g (handle loads env n r g).2.

Lemma api_step_inv loads g g' : api_step loads g g' → inv g → inv g'.
Proof using RL RQ JL.
  revert g g'. fix IH 3. intros g g' [g0 ts s' ts' w Hs|g0 env n r Henv] Hg.
  - destruct Hg as [Hg Hex]. exact (sys_step_exclusive _ _ _ _ (mk_system (gw_service g0) ts) (mk_system s' ts') Hg Hex Hs).
  - apply keeps_handle; [|exact Hg]. intros i g1 Hg1.
    induction (Henv i g1) as [|g2 g3 _ IHr Hs]; [exact Hg1|]. exact (IH _ _ Hs IHr).
Qed.

(** C7: the API keeps the threads exclusive.  Whatever sequence of requests the gateway
    handles, on any routes and with any bodies; whatever steps the executions in progress
    make between them and, together with other requests, while a request waits for a run: two
    pending, running or interrupted runs are on different threads.  As in [sys_step], no
    stream reports an interrupt of a run that is over
    ([ServiceSafety.Local.interrupt_revives_cancelled_run] shows what happens otherwise). *)
Theorem gateway_runs_exclusive loads g0 g t k k' r r' :
  good (gw_service g0) → exclusive (view (gw_service g0)) → reachable (api_step loads) g0 g →
  runs_view (svc_runs (gw_service g)) !! k = Some r → runs_view (svc_runs (gw_service g)) !! k' = Some r' →
  occupies t r = true → occupies t r' = true → k = k'.
Proof using RL RQ JL.
  intros Hg0 Hex0 Hreach. enough (inv g) as [_ Hex] by (by apply Hex).
  revert g Hreach. apply reachable_invariant; [done|]. intros g g' Hg Hs. by eapply api_step_inv.
Qed.

(** ** Paths of a thread's run *)

Lemma runs_get_run g k r : good (gw_service g) → view (gw_service g) !! k = Some r → runs (runs_get k) g = (Ok r, g).
Proof using RL.
  intros [Hi _] Hk. unfold runs, on_service, on_runs, zoom.
  rewrite (runs_get_some _ k r) by done. by destruct g as [[] ? ? ? ? ?].
Qed.

Lemma thread_run_guard t k g r : good (gw_service g) → view (gw_service g) !! k = Some r →
  thread_run t k g =
    if decide (id_value <$> run_thread_id r = Some t) then (Ok r, g)
    else (Raise (failure RESOURCE_NOT_FOUND "run does not belong to thread"), g).
Proof using RL. intros Hg Hk. unfold thread_run, bind. rewrite (runs_get_run g k r Hg Hk). by case_decide. Qed.

(** The requests below [/threads/{thread_id}/runs/{run_id}], with the thread and the run. *)
Definition below_thread (req : request) : option (string * string) :=
  match req with
  | GetThreadRun t run | DeleteThreadRun t run | JoinRun t run | CancelThreadRun t run _ | JoinStream t run _ _ =>
      Some (t, run)
  | _ => None
  end.

Lemma below_thread_raises loads env n g req t run e :
  below_thread req = Some (t, run) → thread_run t run g = (Raise e, g) → handle loads env n req g = (Raise e, g).
Proof.
  intros Hreq Hrun. destruct req; try discriminate Hreq; injection Hreq as -> ->; cbn [Gateway.handle];
    unfold body, no_content, awaited, cancelled, event_stream, get_thread_run, delete_thread_run,
      join_run, cancel_thread_run, join_stream, bind; by rewrite Hrun.
Qed.

(** C25: below the path of a thread a run is reached only if it is the thread's.  Reading,
    deleting, joining, cancelling or streaming a run below [/threads/{thread_id}/runs/{run_id}],
    with any mode, cursor and waiting, is answered with an error and changes nothing if there
    is no such run, and with the missing resource if the run is on another thread or on none.
    The run that is on the thread is read there, as it is, whatever its thread, by
    [GET /runs/{run_id}], which asks for no thread. *)
Theorem run_paths_guarded loads (env : nat → Gateway → Gateway) n g req t run :
  good (gw_service g) → below_thread req = Some (t, run) →
  match view (gw_service g) !! run with
  | None => ∃ e, handle loads env n req g = (Raise e, g)
  | Some r =>
      (id_value <$> run_thread_id r ≠ Some t →
         handle loads env n req g = (Raise (failure RESOURCE_NOT_FOUND "run does not belong to thread"), g)) ∧
      (id_value <$> run_thread_id r = Some t →
         handle loads env n (GetThreadRun t run) g = (Ok (Body (_run_payload isoformat r)), g)) ∧
      handle loads env n (GetRun run) g = (Ok (Body (_run_payload isoformat r)), g)
  end.
Proof using RL.
  intros Hg Hreq. destruct (view (gw_service g) !! run) as [r|] eqn:Hr.
  - pose proof (thread_run_guard t run g r Hg Hr) as Hguard. split_and!.
    + intros Hne. rewrite decide_False in Hguard by done. by eapply below_thread_raises.
    + intros Heq. rewrite decide_True in Hguard by done. cbn [Gateway.handle]. unfold body, get_thread_run, bind.
      by rewrite Hguard.
    + cbn [Gateway.handle]. unfold body, get_run, bind. by rewrite (runs_get_run g run r Hg Hr).
  - destruct (runs_get_none (svc_runs (gw_service g)) run) as (e & He & _); [apply Hg|exact Hr|]. exists e.
    eapply below_thread_raises; [exact Hreq|]. unfold thread_run, bind, runs, on_service, on_runs, zoom. rewrite He.
    by destruct g as [[] ? ? ? ? ?].
Qed.

(** ** Waiting *)

(** The state at the [k]th turn of a loop that goes on. *)
Fixpoint turns (env : nat → Gateway → Gateway) (i k : nat) (g : Gateway) : Gateway :=
  match k with 0%nat => g | S k => turns env (S i) k (env i g) end.
(** The run is stored and not settled. *)
Definition unsettled (run : string) (g : Gateway) : Prop :=
  ∃ r, view (gw_service g) !! run = Some r ∧ settled (run_status r) = false.

Lemma poll_unsettled run adapter g : good (gw_service g) → unsettled run g → wait_poll run adapter g = (Ok None, g).
Proof using RL.
  intros Hg (r & Hr & Hs). unfold Gateway.wait_poll, bind, ret. by rewrite (runs_get_run g run r Hg Hr), Hs.
Qed.
Lemma poll_settled run adapter g : good (gw_service g) → ¬ unsettled run g → (wait_poll run adapter g).1 ≠ Ok None.
Proof using RL.
  intros Hg Hn. unfold Gateway.wait_poll. destruct (view (gw_service g) !! run) as [r|] eqn:Hr.
  - unfold bind at 1. rewrite (runs_get_run g run r Hg Hr).
    destruct (settled (run_status r)) eqn:Hs; [|destruct Hn; by exists r].
    destruct adapter as [a|]; [|done]. destruct (decide _); [|done]. unfold bind, of_result, ret.
    destruct (on_world _ g) as [[st|?] g']; [|done]. by destruct (state_response _ st r).
  - unfold bind at 1, runs, on_service, on_runs, zoom.
    destruct (runs_get_none (svc_runs (gw_service g)) run) as (e & -> & _); [apply Hg|exact Hr|done].
Qed.

Lemma wait_step (env : nat → Gateway → Gateway) n i run adapter g :
  _wait_for_run env (S n) i run adapter g =
    match wait_poll run adapter g with
    | (Ok (Some v), g') => (Ok (Some v), g')
    | (Ok None, g') => _wait_for_run env n (S i) run adapter (env i g')
    | (Raise e, g') => (Raise e, g')
    end.
Proof. simpl. unfold bind, modify, ret. by destruct (wait_poll run adapter g) as [[[v|]|er] g']. Qed.

Lemma wait_turns (env : nat → Gateway → Gateway) n run adapter g :
  (∀ i g, good (gw_service g) → good (gw_service (env i g))) →
  good (gw_service g) → ∀ k i, (∀ j, (j < k)%nat → unsettled run (turns env i j g)) →
  ¬ unsettled run (turns env i k g) → (k < n)%nat →
  (_wait_for_run env n i run adapter g).1 ≠ Ok None ∧
  _wait_for_run env n i run adapter g = wait_poll run adapter (turns env i k g).
Proof using RL.
  intros Henv. revert g. induction n as [|n IH]; intros g Hg k i Hlt Hk Hn; [lia|]. rewrite wait_step.
  destruct k as [|k].
  - simpl in *. pose proof (poll_settled run adapter g Hg Hk) as Hp.
    destruct (wait_poll run adapter g) as [[[v|]|er] g']; simpl in *; by split.
  - rewrite (poll_unsettled run adapter g Hg (Hlt 0%nat ltac:(lia))).
    apply (IH (env i g) (Henv i g Hg) k (S i)); [|exact Hk|lia]. intros j Hj. apply (Hlt (S j)). lia.
Qed.

Lemma wait_forever (env : nat → Gateway → Gateway) n run adapter g :
  (∀ i g, good (gw_service g) → good (gw_service (env i g))) → good (gw_service g) →
  ∀ i, (∀ j, (j < n)%nat → unsettled run (turns env i j g)) →
  _wait_for_run env n i run adapter g = (Ok None, turns env i n g).
Proof using RL.
  intros Henv. revert g. induction n as [|n IH]; intros g Hg i Hlt; [done|]. rewrite wait_step.
  rewrite (poll_unsettled run adapter g Hg (Hlt 0%nat ltac:(lia))).
  apply (IH (env i g) (Henv i g Hg) (S i)). intros j Hj. apply (Hlt (S j)). lia.
Qed.

(** A cancellation that returns leaves the run over. *)
Lemma cancel_run_over id (s : Service (R:=R) (T:=T) (Q:=Q) (J:=J) (O:=O) (A:=A)) :
  good s →
  wp (cancel_run clock fresh adapter_cancel id)
    (λ _ s', good s' ∧ ∃ r, view s' !! id = Some r ∧ terminal_status (run_status r) = true) (λ _ _, True) s.
Proof using RL JL.
  intros Hg. set (post := λ s' : Svc, good s' ∧ ∃ r, view s' !! id = Some r ∧ terminal_status (run_status r) = true).
  assert (runs_only post) as Hro by
    apply (runs_only_and (λ v, ∃ r, v !! id = Some r ∧ terminal_status (run_status r) = true)).
  pose proof (runs_only_view (T:=T) (Q:=Q) (J:=J) (O:=O) (A:=A) (view s)) as Hro0.
  set (I0 := λ s', good s' ∧ view s' = view s) in Hro0. unfold cancel_run.
  apply wp_bind, wp_get; [done| |done]. intros r Hr. pose proof (view_key s id r Hg Hr) as Hkey.
  destruct (terminal_status (run_status r)) eqn:Ht; [split; [done|by exists r]|].
  apply wp_bind, wp_get_state, wp_bind.
  apply (wp_mono _ (λ _, I0) _ (λ _ _, True)); [| |done].
  { destruct (dget _ _); [apply wp_of_result|apply wp_ret; by split]. by destruct (adapter_cancel _ _). }
  intros ? s1 H1. apply wp_bind. eapply wp_mono; [by apply (wp_now _ I0 Hro0 (λ _ _, False))| |done].
  intros t s2 [Hg2 Hv2]. apply wp_bind, wp_of_result.
  destruct (run_cancel r t) as [r1|er] eqn:Hc; [|done].
  assert (run_identity r1 = run_identity r ∧ run_status r1 = CANCELLED) as [Hi1 Hs1].
  { unfold run_cancel in Hc. destruct (decide _) as [Hd|]; [by rewrite Hd in Ht|].
    by apply run_change_ok in Hc as [_ ->]. }
  apply wp_bind. apply (wp_mono _ (λ _, post) _ (λ _ _, True)); [| |done].
  { rewrite decide_False by (intros Hd; by rewrite Hd in Ht).
    assert (run_key r1 = id) as Hk by (unfold run_key, run_run_id in *; by rewrite Hi1).
    apply wp_bind, wp_update; [done|by rewrite Hk, Hv2, Hr|].
    intros r2 s3 Hg3 Hc3 Hv3. apply wp_ret. split; [done|]. exists r2.
    rewrite Hv3, Hk, lookup_insert_eq. split; [done|]. apply core_fields in Hc3 as [_ ->]. by rewrite Hs1. }
  intros ? s3 H3. apply wp_bind. apply (wp_mono _ (λ _, post) _ (λ _ _, True)); [| |done].
  { destruct (run_thread_id r) as [i|]; [|done]. apply wp_bind.
    eapply wp_mono; [by apply (wp_on_threads post Hro)| |done]. intros th s4 H4. apply wp_bind.
    eapply wp_mono; [by apply (wp_now _ post Hro (λ _ _, False))| |done]. intros t' s5 H5. apply wp_bind.
    eapply wp_mono; [by apply (wp_on_threads post Hro)| |done]. done. }
  intros ? s4 H4. apply wp_bind.
  eapply wp_mono; [by apply (wp_append_if_journal clock fresh post Hro)| |done]. done.
Qed.

Lemma terminal_settled (st : RunStatus) : terminal_status st = true → settled st = true.
Proof. by destruct st. Qed.

(** C15: waiting for a run ends when the run is settled and not before.  While the
    run is pending or running the loop goes on and changes nothing; at the first
    turn at which the run is over, interrupted or deleted it answers, with what that
    turn reads, however many turns would be left; and a request that cancels a run
    and waits for it answers at once, whatever the other tasks do. *)
Theorem waiting_ends (env : nat → Gateway → Gateway) n run adapter g :
  (∀ i g, good (gw_service g) → good (gw_service (env i g))) → good (gw_service g) →
  ((∀ j, (j < n)%nat → unsettled run (turns env 0 j g)) →
     _wait_for_run env n 0 run adapter g = (Ok None, turns env 0 n g)) ∧
  (∀ k, (∀ j, (j < k)%nat → unsettled run (turns env 0 j g)) → ¬ unsettled run (turns env 0 k g) → (k < n)%nat →
     (_wait_for_run env n 0 run adapter g).1 ≠ Ok None ∧
     _wait_for_run env n 0 run adapter g = wait_poll run adapter (turns env 0 k g)) ∧
  ((0 < n)%nat → (cancel_handler clock fresh isoformat adapter_cancel env n run true g).1 ≠ Ok None).
Proof using RL JL.
  intros Henv Hg. split; [by apply wait_forever|]. split; [intros k; by apply wait_turns|]. intros Hn.
  unfold cancel_handler, bind, on_service, zoom. pose proof (cancel_run_over run (gw_service g) Hg) as Hc. unfold wp in Hc.
  destruct (cancel_run clock fresh adapter_cancel run (gw_service g)) as [[r|er] s']; [|done].
  destruct Hc as (Hg' & r' & Hr' & Hs'). unfold _runtime_adapter. destruct (Registry.all _) as [|a l]; [done|].
  unfold of_result. destruct (parse_id run) as [i|er] eqn:Hp; [|done]. apply parse_id_inv in Hp as [-> _].
  refine (proj1 (wait_turns env n run (Some a) (set_service s' g) Henv Hg' 0 0 _ _ _)); [intros j Hj; lia| |done].
  intros (r0 & Hr0 & Hs0). simpl in Hr0. rewrite Hr' in Hr0. injection Hr0 as <-.
  by rewrite (terminal_settled _ Hs') in Hs0.
Qed.

(** ** Starting a run *)

Lemma wp_on_assistants {B} (m : Py AS B) (g : Gateway) :
  let post g' := gw_service g' = gw_service g in wp (on_assistants m) (λ _, post) (λ _, post) g.
Proof. unfold wp, on_assistants, zoom. by destruct (m _) as [[b|er] x]. Qed.
Lemma wp_on_service {B} (m : Py Svc B) (Q' : B → Svc → Prop) X (g : Gateway) :
  wp m Q' X (gw_service g) → wp (on_service m) (λ b g', Q' b (gw_service g')) (λ e g', X e (gw_service g')) g.
Proof. unfold wp, on_service, zoom. by destruct (m _) as [[b|er] x]. Qed.

(** A run that is returned is stored, on a thread that was free. *)
(** A failing start has stored no run, or a new one where none was active: in error, or left
    pending by what is no [Exception]. *)
Definition refused (free : gmap string Run → Prop) (i : option ThreadId) (e : exn) (v v' : gmap string Run) : Prop :=
  v' = v ∨ (free v ∧ ∃ k r', v !! k = None ∧ v' = <[k := r']> v ∧ run_thread_id r' = i ∧
    (run_status r' = ERROR ∨ run_status r' = PENDING ∧ is_exception e = false)).
(** No run of [v] occupies the thread. *)
Definition free_for (i : option ThreadId) (v : gmap string Run) : Prop :=
  ∀ t k r, i = Some t → v !! k = Some r → occupies (id_value t) r = false.

Lemma start_run_stored req gv (s : Svc) : good s →
  let i := thread_id (req_identity req) in
  wp (start_run clock fresh req gv)
    (λ r s', good s' ∧ view s !! run_key r = None ∧ run_identity r = req_identity req ∧ run_status r = PENDING ∧
       run_metadata r = req_metadata req ∧ free_for i (view s) ∧
       ∃ r', run_core r' = run_core r ∧ view s' = <[run_key r := r']> (view s))
    (λ e s', refused (free_for i) i e (view s) (view s')) s.
Proof using RL JL.
  intros Hg i. unfold start_run.
  pose proof (runs_only_view (T:=T) (Q:=Q) (J:=J) (O:=O) (A:=A) (view s)) as Hro0.
  set (I0 := λ s', good s' ∧ view s' = view s) in Hro0.
  apply wp_bind. eapply wp_mono; [by apply (wp_now _ I0 Hro0 (λ _ _, False))| |done].
  intros t s1 H1. apply wp_bind. apply (wp_mono _ (λ _, I0) _ (λ _, I0)); [| |by intros e s2 [_ ?]; left].
  { destruct (thread_id (req_identity req)) as [th_id|]; [|done]. apply wp_bind.
    eapply wp_mono; [by apply (wp_on_threads I0 Hro0)| |done]. intros th s2 H2.
    destruct (decide _); [done|]. apply wp_bind.
    eapply wp_mono; [by apply (wp_on_threads I0 Hro0)| |done]. done. }
  intros ? s2 [Hg2 Hv2]. set (r := mk_run _ PENDING _ _ _ _ _).
  apply wp_bind, wp_create; [done| |by intros e; left].
  intros r' s3 Hg3 Hnone Hfree Hc Hv3. rewrite Hv2 in Hnone, Hfree, Hv3.
  set (I1 := λ s' : Svc, good s' ∧ view s' = <[run_key r := r']> (view s)).
  assert (runs_only I1) as Hro1 by apply runs_only_view.
  apply wp_bind, wp_try_except. apply (wp_mono _ (λ _, I1) _ (λ _, I1)).
  - by apply (enqueue_spec clock fresh I1 req gv t s3 Hro1).
  - intros ? s4 [Hg4 Hv4]. apply wp_ret. split_and!; try done. by exists r'.
  - intros er s4 [Hg4 Hv4]. destruct (is_exception er) eqn:Her.
    + apply wp_bind. eapply wp_mono; [by apply (queue_failed_spec clock (view s) r _ s4 Hg4); [exists r'|]|..].
      all: intros ? s5 (_ & r5 & Hv5 & Hi5 & Hst5); right; split; [exact Hfree|]; exists (run_key r), r5;
        split_and!; [done|done|unfold run_thread_id; by rewrite Hi5|by left].
    + right. split; [exact Hfree|]. exists (run_key r), r'. unfold run_core in Hc. injection Hc as Hid Hst _ _.
      split_and!; [done|done|unfold run_thread_id; by rewrite Hid|by right].
Qed.

Lemma resume_run_same req (s : Svc) : good s →
  wp (resume_run clock fresh req)
    (λ r s', good s' ∧ view s' = view s ∧ view s !! id_value (run_id (req_identity req)) = Some r ∧
       run_status r = INTERRUPTED)
    (λ _ s', good s' ∧ view s' = view s) s.
Proof using RL JL.
  intros Hg. unfold resume_run. pose proof (runs_only_view (T:=T) (Q:=Q) (J:=J) (O:=O) (A:=A) (view s)) as Hro.
  set (I0 := λ s', good s' ∧ view s' = view s) in *.
  apply wp_bind, wp_get; [done| |done]. intros r Hr. destruct (decide _); [|done].
  apply wp_bind. eapply wp_mono; [by apply (wp_now _ I0 Hro (λ _ _, False))| |done].
  intros t s1 H1. apply wp_bind.
  eapply wp_mono; [by apply (wp_new _ I0 Hro (λ _ _, False))| |done]. intros i s2 H2. apply wp_bind.
  eapply wp_mono; [by apply (wp_on_commands I0 Hro)| |done]. intros ? s3 H3. apply wp_bind.
  eapply wp_mono; [by apply (wp_append_if_journal clock fresh I0 Hro)| |done]. intros ? s4 [? ?]. by apply wp_ret.
Qed.

(** What [_start_run] does to the runs. *)
Definition resumed (payload : RunCreate) (t : string) (v v' : gmap string Run) (r : Run) : Prop :=
  is_resume payload = true ∧ v !! run_key r = Some r ∧ occupies t r = true ∧ run_status r = INTERRUPTED ∧ v' = v.
Definition newly_started (payload : RunCreate) (t : string) (v v' : gmap string Run) (r : Run) : Prop :=
  (∀ k r0, v !! k = Some r0 → occupies t r0 = false) ∧ v !! run_key r = None ∧
  run_status r = PENDING ∧ run_thread_id r = Some (mk_id t) ∧ scope (run_identity r) = gateway_scope ∧
  run_metadata r = merged_metadata payload ∧
  ∃ r', run_core r' = run_core r ∧ v' = <[run_key r := r']> v.
(** A new run of the gateway's own scope. *)
Lemma start_new payload t config a run attempt gv (s : Svc) :
  good s →
  wp (start_run clock fresh (run_request payload (_identity a run attempt (Some (mk_id t))) config) gv)
    (λ r s', newly_started payload t (view s) (view s') r)
    (λ e s', refused (free_for (Some (mk_id t))) (Some (mk_id t)) e (view s) (view s')) s.
Proof using RL JL.
  intros Hg. set (req := run_request _ _ _). pose proof (start_run_stored req gv s Hg) as Hok.
  eapply wp_mono; [exact Hok| |done]. intros r s3 (_ & Hnew & Hid & Hst & Hm & Hfree & r' & Hc & Hv).
  split_and!; [by intros k r0; apply (Hfree (mk_id t))|done|done|unfold run_thread_id; by rewrite Hid|by rewrite Hid|done|].
  by exists r'.
Qed.

(** The runs, seen from the gateway. *)
Definition runs_are (v : gmap string Run) (g : Gateway) : Prop := good (gw_service g) ∧ view (gw_service g) = v.

Lemma wp_same_service {B} (m : Py Gateway B) v g :
  (∀ g, gw_service (m g).2 = gw_service g) → runs_are v g → wp m (λ _, runs_are v) (λ _, runs_are v) g.
Proof.
  intros Hm Hg. specialize (Hm g). unfold wp, runs_are. destruct (m g) as [[b|er] g']; simpl in Hm; by rewrite Hm.
Qed.
Lemma wp_new_id {k} v g X : runs_are v g → wp (new (k:=k) fresh) (λ _, runs_are v) X g.
Proof using RL. intros [Hg Hv]. unfold wp. simpl. by split. Qed.
Lemma wp_active t v g : runs_are v g →
  wp (runs (runs_active_for_thread t))
    (λ o g', runs_are v g' ∧ match o with
                             | Some r => v !! run_key r = Some r ∧ occupies t r = true
                             | None => ∀ k r, v !! k = Some r → occupies t r = false
                             end) (λ _, runs_are v) g.
Proof using RL RQ.
  intros [[Hi Hj] Hv]. unfold wp, runs, on_service, on_runs, zoom, runs_are, good.
  pose proof (runs_active_reads t (svc_runs (gw_service g))) as Hr.
  destruct (runs_active_for_thread t (svc_runs (gw_service g))) as [[o|er] R'] eqn:Ho; simpl in Hr; subst R'; simpl.
  - split; [by split_and!|]. rewrite <- Hv. by apply (runs_active_ok t (svc_runs (gw_service g)) o (svc_runs (gw_service g))).
  - by split_and!.
Qed.

(** C8: starting a run on a thread.  A request to resume that finds the thread's
    interrupted run returns that run and changes none; any other request that
    succeeds has stored one new pending run of the gateway's scope, with a new
    identifier, on a thread that had no pending, running or interrupted run; and
    one that fails has changed no run, or has stored one new run on the thread, which had
    no pending, running or interrupted run either: it is in error, unless what was raised is no
    [Exception] (the request was cancelled while the command was queued), which leaves it
    pending. *)
Theorem gateway_start_run payload t o g g' :
  good (gw_service g) → _start_run payload (Some t) g = (o, g') →
  let v := view (gw_service g) in let v' := view (gw_service g') in
  match o with
  | Ok r => resumed payload t v v' r ∨ newly_started payload t v v' r
  | Raise e => refused (free_for (Some (mk_id t))) (Some (mk_id t)) e v v'
  end.
Proof using RL RQ JL.
  intros Hg Hrun v v'.
  enough (wp (_start_run payload (Some t)) (λ r g', resumed payload t v (view (gw_service g')) r ∨
            newly_started payload t v (view (gw_service g')) r)
            (λ e g', refused (free_for (Some (mk_id t))) (Some (mk_id t)) e v (view (gw_service g'))) g) as Hwp.
  { unfold wp in Hwp. rewrite Hrun in Hwp. by destruct o. }
  assert (∀ e g1, runs_are v g1 → refused (free_for (Some (mk_id t))) (Some (mk_id t)) e v (view (gw_service g1))) as Href
    by (intros e g1 [_ ?]; by left).
  unfold Gateway._start_run. apply wp_bind.
  eapply wp_mono; [apply (wp_same_service _ v); [intros g1; unfold on_assistants, zoom; by case_match|done]| |by auto].
  intros a g1 H1. apply wp_bind, wp_bind, wp_of_result. destruct (parse_id t) as [i|er] eqn:Hp; [|by auto]. apply wp_ret.
  apply parse_id_inv in Hp as [Hi _]. assert (i = mk_id t) as -> by (rewrite <- Hi; by destruct i). clear Hi.
  apply wp_bind. eapply wp_mono; [exact (wp_active t v g1 H1)| |by auto]. intros existing g2 [H2 Hex]. simpl id_value.
  set (resuming := is_resume payload && is_interrupted existing). apply wp_bind.
  apply (wp_mono _ (λ i g', runs_are v g' ∧
      if resuming then ∃ r, existing = Some r ∧ i = run_identity r
      else ∃ run attempt, i = _identity (asst_id a) run attempt (Some (mk_id t))) _ (λ _, runs_are v)); [| |by auto].
  { assert (∀ run attempt g', runs_are v g' → resuming = false →
      runs_are v g' ∧ if resuming then ∃ r, existing = Some r ∧ _identity (asst_id a) run attempt (Some (mk_id t)) = run_identity r
      else ∃ run' attempt', _identity (asst_id a) run attempt (Some (mk_id t)) = _identity (asst_id a) run' attempt' (Some (mk_id t))) as Hnew.
    { intros run attempt g3 H3 ->. by split; [|exists run, attempt]. }
    destruct existing as [r|]; [destruct resuming eqn:Hres|].
    - apply wp_ret. split; [done|]. by exists r.
    - apply wp_bind. eapply wp_mono; [by apply (wp_new_id v _ (λ _ _, False))| |done]. intros run g3 H3.
      apply wp_bind. eapply wp_mono; [by apply (wp_new_id v _ (λ _ _, False))| |done]. intros attempt g4 H4.
      apply wp_ret. by apply Hnew.
    - apply wp_bind. eapply wp_mono; [by apply (wp_new_id v _ (λ _ _, False))| |done]. intros run g3 H3.
      apply wp_bind. eapply wp_mono; [by apply (wp_new_id v _ (λ _ _, False))| |done]. intros attempt g4 H4.
      apply wp_ret. apply Hnew; [done|]. unfold resuming. simpl. by rewrite andb_false_r. }
  intros i g3 [H3 Hid]. apply wp_bind, wp_of_result. destruct (merged_config payload) as [config|er]; [|by auto].
  apply wp_bind, wp_get_state. destruct H3 as [Hg3 Hv3]. destruct resuming eqn:Hres.
  - destruct Hid as (r & -> & ->). destruct Hex as [Hk Ho]. unfold resuming in Hres. apply andb_true_iff in Hres as [Hr Hi].
    eapply wp_mono; [apply wp_on_service, resume_run_same; done| |intros er g4 [_ ->]; by left].
    intros r1 g4 (_ & Hv4 & Hk1 & Hst). left. simpl in Hk1. rewrite Hv3 in Hk1. change (v !! run_key r = Some r1) in Hk1.
    simplify_eq. split_and!; try done. by rewrite Hv4, Hv3.
  - destruct Hid as (run & attempt & ->).
    eapply wp_mono; [apply wp_on_service, start_new; done| |]; intros ? g4; rewrite Hv3; [by right|done].
Qed.
End Spec.

(** ** A local gateway with one pending run, and an adapter without a store. *)
Module LocalGateway.
Import Local.

#[export] Instance config_repository : ConfigRepository Config.state :=
  memory_config (λ _, "{}") (λ _, []) (λ s, s).
#[export] Instance adapter : RuntimeAdapter unit unit := {|
  ra_get_state := λ _ _, ret (StateSnapshot (mk_snapshot (JObj []) [] JNull JNull JNull JNull [] []));
  ra_get_state_history := λ _ _, ret [];
  ra_update_state := λ _ _ _, ret (StateJson JNull);
  ra_schemas := λ _, ret [];
  ra_get_graph := λ _, None;
  ra_get_subgraphs := λ _, None;
  ra_store_put := λ _, None;
  ra_store_get := λ _, None;
  ra_store_delete := λ _, None;
  ra_store_search := λ _, None;
  ra_store_list_namespaces := λ _, None;
|}.

Abbreviation gateway := (Gateway (R:=Runs.state) (T:=Threads.state) (Q:=MemoryQueue) (J:=Journal) (O:=Outbox.state)
  (A:=unit) (AS:=Assistants.state) (C:=Config.state) (W:=unit)).
Definition assistant : Assistant := mk_assistant (mk_id "agent") "agent" 1 None None [] [] [] None None.
Definition gateway_of (s : service) : gateway := mk_gateway s [("agent", assistant)] [] [("agent", tt)] tt [].
Definition isoformat (t : datetime) : string := "time".
Definition replay (i : RunId) (j : Journal) : res (list RuntimeEvent) := Ok [].
Definition handle : (nat → gateway → gateway) → nat → Gateway.request → Py gateway response :=
  Gateway.handle clock fresh isoformat json_str adapter_cancel replay (λ _, []) (λ _, None).
Definition new_run : RunCreate :=
  mk_run_create "agent" JNull JNull [] [] [] (OneMode "values") false PriorityNormal "reject" None.

Lemma run_stored : view (gw_service (gateway_of one_pending)) !! "r1" = Some (pending_run "r1" "t").
Proof. exact (view_lookup one_pending "r1"). Qed.
Lemma one_pending_good : good (gw_service (gateway_of one_pending)).
Proof. exact (proj1 (proj1 one_pending_quiescent)). Qed.

(** While a request waits, a worker takes the pending run. *)
Definition taken (i : nat) (g : gateway) : gateway :=
  match exec_begin (receipt "r1" "t") tt (gw_service g) with
  | (Ok (Some x), s1) =>
      match exec_running clock x s1 with
      | (Ok _, s2) => set_world tt (set_service s2 g)
      | (Raise _, _) => g
      end
  | _ => g
  end.
Abbreviation step := (api_step clock fresh isoformat json_str adapter_cancel replay (λ _, []) (λ _, None)).
Lemma taken_steps i (g : gateway) : reachable step g (taken i g).
Proof.
  unfold taken. destruct (exec_begin _ _ _) as [[[x|]|?] s1] eqn:Hb; [|apply reach_init..].
  destruct (exec_running clock x s1) as [[[]|?] s2] eqn:Hr; [|apply reach_init].
  apply reachable_one. eapply (api_task _ _ _ _ _ _ _ _ g ∅). by eapply sys_begin.
Qed.

(** A client joins the pending run, a worker takes it meanwhile, and a second run on the
    thread is refused: the running one stays alone. *)
Lemma gateway_runs_exclusive_witness :
  let g1 := (handle taken 2 (JoinRun "t" "r1") (gateway_of one_pending)).2 in
  let g := (handle (λ _ g, g) 1 (CreateRun (Some "t") new_run) g1).2 in
  (run_status <$> dget (svc_runs (gw_service g)) "r1") = Some RUNNING ∧
  ∀ k r, dget (svc_runs (gw_service g)) k = Some r → occupies "t" r = true → k = "r1".
Proof.
  intros g1 g. split; [by vm_compute|]. intros k r Hk Ho.
  destruct (dget (svc_runs (gw_service g)) "r1") as [r1|] eqn:Hr1; [|by vm_compute in Hr1].
  refine (gateway_runs_exclusive clock fresh isoformat json_str adapter_cancel replay (λ _, []) (λ _, None)
    (gateway_of one_pending) g "t" k "r1" r r1 one_pending_good (proj2 one_pending_quiescent) _ _ _ Ho _).
  - eapply reach_step; [eapply reach_step; [apply reach_init|]|].
    + exact (api_request clock fresh isoformat json_str adapter_cancel replay (λ _, []) (λ _, None)
        (gateway_of one_pending) taken 2 (JoinRun "t" "r1") taken_steps).
    + exact (api_request clock fresh isoformat json_str adapter_cancel replay (λ _, []) (λ _, None)
        g1 (λ _ g, g) 1 (CreateRun (Some "t") new_run) (λ _ g, reach_init _ g)).
  - transitivity (dget (svc_runs (gw_service g)) k); [exact (view_lookup (gw_service g) k)|exact Hk].
  - transitivity (dget (svc_runs (gw_service g)) "r1"); [exact (view_lookup (gw_service g) "r1")|exact Hr1].
  - vm_compute in Hr1. injection Hr1 as <-. reflexivity.
Defined.

Lemma run_paths_guarded_witness :
  handle (λ _ g, g) 1 (DeleteThreadRun "other" "r1") (gateway_of one_pending) =
    (Raise (failure RESOURCE_NOT_FOUND "run does not belong to thread"), gateway_of one_pending).
Proof.
  pose proof (run_paths_guarded clock fresh isoformat json_str adapter_cancel replay (λ _, []) (λ _, None) (λ _ g, g) 1
    (gateway_of one_pending) (DeleteThreadRun "other" "r1") "other" "r1" one_pending_good eq_refl) as H.
  rewrite run_stored in H. apply H. discriminate.
Defined.

Lemma waiting_ends_witness :
  _wait_for_run isoformat (λ _ g, g) 3 0 "r1" (Some tt) (gateway_of one_pending) = (Ok None, gateway_of one_pending) ∧
  (cancel_handler clock fresh isoformat adapter_cancel (λ _ g, g) 3 "r1" true (gateway_of one_pending)).1 ≠ Ok None.
Proof.
  destruct (waiting_ends clock fresh isoformat adapter_cancel (λ _ g, g) 3 "r1" (Some tt) (gateway_of one_pending)
    (λ _ _ H, H) one_pending_good) as (Hwait & _ & Hcancel).
  split; [|apply Hcancel; lia]. apply Hwait. intros j Hj. exists (pending_run "r1" "t"). split; [|done].
  by destruct j as [|[|[|]]]; [exact run_stored..|lia].
Defined.

Lemma gateway_start_run_witness :
  let '(o, g') := _start_run clock fresh new_run (Some "t") (gateway_of (service_with ["t"] [])) in
  ∃ r, o = Ok r ∧ run_status r = PENDING ∧
    (∃ r', view (gw_service g') = <[run_key r := r']> (view (service_with ["t"] []))).
Proof.
  assert (good (gw_service (gateway_of (service_with ["t"] [])))) as Hg.
  { apply service_good. split; [apply NoDup_nil_2|done]. }
  destruct (_start_run clock fresh new_run (Some "t") (gateway_of (service_with ["t"] []))) as [o g'] eqn:Hrun.
  pose proof (gateway_start_run clock fresh new_run "t" o _ g' Hg Hrun) as H.
  vm_compute in Hrun. destruct o as [r|er]; [|discriminate Hrun]. exists r. split; [reflexivity|].
  destruct H as [[Hr _]|(_ & _ & Hst & _ & _ & _ & r' & _ & Hv)]; [discriminate Hr|]. split; [exact Hst|]. by exists r'.
Defined.
End LocalGateway.
