(* ===== verification/EndToEnd.v ===== *)
(** * A run in the local runtime, from request to response

    The parts composed as [bootstrap/local.py] assembles them: the gateway starts a
    run, the queue hands its command to the worker task, the service executes it with
    the registered LangGraph adapter, and the request that waits for the run is
    answered. *)

From S2P Require Import Prelude PyDict PyStr Json JsonAccess Errors Identity Execution Ports.
From S2P Require Import MemoryRepositories MemoryQueue MemoryJournal MemoryStores Capacity.
From S2P Require Import Service ServiceSafety ServiceSpec LangGraph LangGraphRuns GatewayHttp Gateway GatewaySpec.

Section EndToEnd.
Context {R T J O A AS C W : Type}
  `{!RunRepository R, RL : !RunRepositoryLaws R, RQ : !RunQueryLaws R, !ThreadRepository T, TL : !ThreadRepositoryLaws T,
    !EventJournal J, JL : !EventJournalLaws J, !OutboxRepository O, !AssistantRepository AS, !ConfigRepository C,
    !RuntimeAdapter A W}
  (clock : nat → datetime) (fresh : nat → string) (isoformat : datetime → string) (json_str : json → string).

Abbreviation Svc := (Service.Service (R:=R) (T:=T) (Q:=MemoryQueue) (J:=J) (O:=O) (A:=A)).

(** ** The request *)

(** With a journal and an open queue the command is queued. *)
Lemma enqueue_step req t (s : Svc) :
  is_Some (svc_journal s) → svc_outbox s = None → mq_closed (svc_commands s) = false →
  ∃ id s', enqueue clock fresh req false t s = (Ok tt, s') ∧ same_core s s' ∧
    svc_commands s' = mq_put (mk_command id (req_identity req) req (req_priority req) t t) 0 (svc_commands s).
Proof using JL.
  intros Hj Ho Hq. unfold enqueue, append_if_journal. set (d := simple_draft _ _ _).
  destruct (append_step clock fresh d s Hj) as (e & s1 & Ha & Hc & _ & _). unfold bind at 1.
  assert (svc_outbox s1 = None ∧ svc_commands s1 = svc_commands s) as [Ho1 Hq1].
  { revert Ha. unfold append_event. destruct Hj as [j ->]. destruct (journal_append _ _ d j) as [[?|?] ?]; [|done].
    intros [= _ <-]. done. }
  destruct (svc_journal s) as [j|] eqn:Hjs; [|by destruct Hj]. unfold bind at 1. rewrite Ha.
  unfold ret, bind, get_state, new, has_outbox. cbn [orb]. rewrite Ho1. unfold on_commands, zoom. cbn.
  unfold mq_publish. rewrite Hq1, Hq. do 2 eexists. split; [reflexivity|]. split; [|done].
  destruct Hc as (? & ? & ?). by split_and!.
Qed.

(** A free thread: nothing occupies it. *)
Definition free (t : string) (s : Svc) : Prop :=
  (∃ th, thread_view s !! t = Some th ∧ thr_status th ≠ BUSY) ∧
  ∀ k r, view s !! k = Some r → occupies t r = false.

(** The command of a new run on a free thread is queued behind the others. *)
Lemma start_run_queued req (s : Svc) i :
  good s → threads_inv (svc_threads s) → svc_outbox s = None → mq_closed (svc_commands s) = false →
  thread_id (req_identity req) = Some i → free (id_value i) s →
  view s !! id_value (run_id (req_identity req)) = None →
  ∃ run r s' id t, start_run clock fresh req false s = (Ok run, s') ∧ run_identity run = req_identity req ∧
    ready r s' ∧ view s' = <[id_value (run_id (req_identity req)) := r]> (view s) ∧
    run_identity r = req_identity req ∧ run_status r = PENDING ∧
    svc_commands s' = mq_put (mk_command id (req_identity req) req (req_priority req) t t) 0 (svc_commands s).
Proof using RL TL JL.
  intros [Hinv Hj] Hti Ho Hq Hi [(th & Hth & Hb) Hfree] Hnew. unfold start_run. rewrite Hi. unfold bind at 1, Service.now.
  set (s1 := set_ticks _ s). unfold bind at 1. unfold bind at 1. rewrite (thread_get_step s1 _ th) by done.
  rewrite decide_False by done. assert (thread_key th = id_value i) as Hk by by eapply threads_inv_key.
  destruct (thread_update_step s1 (mark_busy th (clock (svc_ticks s)))) as (T' & Hu & Hti' & t' & Hvt & _);
    [done|by change (is_Some (thread_view s !! thread_key th)); rewrite Hk, Hth|].
  unfold bind at 1. rewrite Hu. cbn [ret]. set (s2 := set_threads T' s1).
  set (r := mk_run _ PENDING _ _ _ _ _). unfold bind at 1, on_runs, zoom.
  destruct (runs_create_ok (svc_runs s2) r) as (r1 & R1 & Hc & Hi1 & Hcore & Hv1); [done|done|intros t k r0 Ht|].
  { unfold run_thread_id in Ht. simpl in Ht. rewrite Hi in Ht. injection Ht as <-. by apply Hfree. }
  rewrite Hc. set (s3 := set_runs R1 s2).
  destruct (enqueue_step req (clock (svc_ticks s)) s3) as (id & s4 & He & (Hr4 & Ht4 & Hj4) & Hq4); [done..|].
  unfold bind, try_except. rewrite He. unfold ret. apply core_fields in Hcore as [Hid Hst].
  exists r, r1, s4, id, (clock (svc_ticks s)). split; [done|]. split; [done|]. split.
  { split; [split; [by rewrite Hr4|by apply Hj4]|]. split; [by rewrite Ht4|].
    unfold run_thread_id. rewrite Hid. simpl. rewrite Hi. unfold thread_view. rewrite Ht4. simpl. rewrite Hvt.
    change (thread_key (mark_busy th _)) with (thread_key th). rewrite Hk, lookup_insert_eq. by eexists. }
  split; [unfold view; by rewrite Hr4|]. by split_and!.
Qed.

(** ** The worker's turn *)

(** An execution puts nothing into the queue and takes nothing out of it. *)
Section Items.
Context (l : list QueuedCommand).
Notation keeps_items := (keeps_commands (R:=R) (T:=T) (J:=J) (O:=O) (A:=A) (λ q, mq_items q = l)).
Lemma keeps_items_acknowledge receipt : keeps_items (on_commands (queue_acknowledge receipt)).
Proof.
  intros s Hs. unfold on_commands, zoom. cbn. unfold mq_acknowledge. by destruct (dget (mq_leases (svc_commands s)) _).
Qed.
Ltac keep_items := keep_commands; try apply keeps_items_acknowledge.

Lemma keeps_items_events x ds : keeps_items (exec_events clock fresh json_str x ds).
Proof.
  revert x. induction ds as [|d ds IH]; intros x; cbn [Service.exec_events]; [by apply keeps_commands_step|].
  apply keeps_commands_bind; [|intros x'; apply IH]. unfold exec_event. keep_items.
Qed.
Lemma keeps_items_execute receipt a ds e : keeps_items (execute_receipt clock fresh json_str receipt a ds e).
Proof.
  unfold execute_receipt, exec_begin, exec_running, exec_end, exec_failed, exec_finally. keep_items.
  apply keeps_items_events.
Qed.
End Items.

Context (py_repr : pyval → string) (astream : A → Adapter.graph_input → Adapter.astream_arguments → list pyval * stream_end)
  (task : option Z) (tasks : Adapter.Tasks).

(** [adapter.stream(request)], as [_execute_receipt] iterates over it. *)
Definition adapter_stream (a : A) (receipt : RunCommandReceipt) : list RuntimeEventDraft * stream_end :=
  match (Adapter.stream py_repr (astream a) task (cmd_request (rcp_command receipt)) tasks).1 with
  | Ok p => p
  | Raise e => ([], Raised e)
  end.

Abbreviation consume_one := (consume_one clock fresh json_str adapter_stream).
Notation Gateway := (Gateway (R:=R) (T:=T) (Q:=MemoryQueue) (J:=J) (O:=O) (A:=A) (AS:=AS) (C:=C) (W:=W)).

(** The worker task's iteration over the gateway's own service and adapters. *)
Definition worker_turn (capacity : option ExecutionCapacity) (g : Gateway) : Gateway :=
  Gateway.set_service (wk_service (consume_one (mk_worker (gw_service g) (gw_adapters g) capacity)).2) g.

Definition has_slot (capacity : option ExecutionCapacity) : Prop :=
  match capacity with Some c => (slot_enter c).1 = Ok true | None => True end.

(** A turn takes the only command and executes it. *)
Lemma turn_executes (s : Svc) adapters capacity a c n q :
  svc_commands s = mq_put c n q → mq_items q = [] → mq_closed q = false →
  dget adapters (id_value (assistant_id (cmd_identity c))) = Some a → has_slot capacity →
  ∃ receipt s1, rcp_command receipt = c ∧ same_core s s1 ∧ mq_items (svc_commands s1) = [] ∧
    wk_service (consume_one (mk_worker s adapters capacity)).2 =
    (execute_receipt clock fresh json_str receipt a (adapter_stream a receipt).1 (adapter_stream a receipt).2 s1).2.
Proof.
  intros Hq Hitems Hclosed Ha Hslot. unfold Service.consume_one.
  destruct (receive_command clock fresh (mk_worker s adapters capacity)) as [o w1] eqn:Hr.
  unfold receive_command, Service.on_service, zoom, bind, Service.new, Service.now, on_commands, zoom in Hr. cbn in Hr.
  unfold mq_receive in Hr. rewrite Hq in Hr. cbn in Hr. rewrite Hclosed, Hitems in Hr. cbn in Hr. injection Hr as <- <-.
  set (receipt := mk_receipt c _ _ _ _). set (s1 := set_commands _ _). exists receipt, s1.
  split; [done|]. split; [by split_and!|]. split; [done|].
  unfold Registry.get. cbn [wk_adapters set_service Service.set_service].
  change (receipt_identity receipt) with (cmd_identity c). rewrite Ha. unfold enter_slot. cbn [wk_capacity].
  destruct (adapter_stream a receipt) as [ds e].
  assert (∀ w2 : Worker (R:=R) (T:=T) (Q:=MemoryQueue) (J:=J) (O:=O) (A:=A), wk_service w2 = s1 →
    wk_service (try_finally (Service.on_service (execute_receipt clock fresh json_str receipt a ds e)) leave_slot w2).2 =
    (execute_receipt clock fresh json_str receipt a ds e s1).2) as Hexec.
  { intros [s2 d2 [c2|]] Hw; cbn in Hw; subst s2; unfold try_finally, Service.on_service, zoom, leave_slot; cbn;
      by destruct (execute_receipt clock fresh json_str receipt a ds e s1). }
  destruct capacity as [cap|]; cbn in *.
  - destruct (slot_enter cap) as [r cap']. cbn in Hslot. subst r.
    match goal with |- context [try_finally _ _ ?w2] => specialize (Hexec w2 eq_refl) end.
    by destruct (try_finally _ _ _) as [[?|[]] ?].
  - match goal with |- context [try_finally _ _ ?w2] => specialize (Hexec w2 eq_refl) end.
    by destruct (try_finally _ _ _) as [[?|[]] ?].
Qed.

(** ** From the request to the response *)

(** The runtime is consistent, its queue is open, and no command waits. *)
Definition serving (s : Svc) : Prop :=
  good s ∧ threads_inv (svc_threads s) ∧ svc_outbox s = None ∧ mq_closed (svc_commands s) = false ∧
  mq_items (svc_commands s) = [].

(** The gateway starts a new run on a free thread. *)
Lemma request_queued payload t config (g : Gateway) a as' adapter :
  serving (gw_service g) → assistants_get (rc_assistant_id payload) (gw_assistants g) = (Ok a, as') →
  dget (gw_adapters g) (id_value (asst_id a)) = Some adapter → str_truthy t = true → free t (gw_service g) →
  is_ok (runs_active_for_thread t (svc_runs (gw_service g))).1 = true →
  (∀ n, view (gw_service g) !! fresh n = None) → merged_config payload = Ok config →
  ∃ run attempt created r g1 id tm,
    let i := _identity (asst_id a) run attempt (Some (mk_id t)) in
    let request := run_request payload i config in
    _start_run clock fresh payload (Some t) g = (Ok created, g1) ∧ run_identity created = i ∧
    gw_adapters g1 = gw_adapters g ∧ ready r (gw_service g1) ∧
    view (gw_service g1) = <[id_value run := r]> (view (gw_service g)) ∧ run_identity r = i ∧ run_status r = PENDING ∧
    svc_commands (gw_service g1) =
      mq_put (mk_command id i request (req_priority request) tm tm) 0 (svc_commands (gw_service g)).
Proof using RL RQ TL JL.
  intros (Hg & Hti & Ho & Hc & _) Has Ha Ht Hfree Hact Hfresh Hconf. unfold _start_run.
  unfold bind at 1, on_assistants, zoom. rewrite Has. set (g1 := set_assistants as' g).
  unfold bind at 1, bind at 1, of_result. unfold parse_id at 1. rewrite Ht. unfold ret at 1.
  unfold bind at 1. cbn [id_value].
  assert (runs (runs_active_for_thread t) g1 = (Ok None, g1)) as ->.
  { unfold runs, on_service, on_runs, zoom. change (gw_service g1) with (gw_service g).
    pose proof (runs_active_reads t (svc_runs (gw_service g))) as Hr.
    destruct (runs_active_for_thread t (svc_runs (gw_service g))) as [[o|er] R'] eqn:Hq; [|done]. cbn in Hr. subst R'.
    pose proof (runs_active_ok _ _ _ _ (proj1 Hg) Hq) as Hn. destruct o as [r|].
    - destruct Hn as [Hk Hocc]. by rewrite (proj2 Hfree _ _ Hk) in Hocc.
    - unfold g1, set_assistants, set_service. destruct g as [[] ? ? ? ? ?]. done. }
  rewrite andb_false_r. unfold bind, Gateway.new, on_service, zoom, of_result, get_state, ret, Service.new. rewrite Hconf.
  assert (negb (negb (bool_decide (Registry.all (gw_adapters g) = []))) = false) as Hlocal.
  { rewrite negb_involutive. apply bool_decide_eq_false. unfold Registry.all. by destruct (gw_adapters g). }
  cbn -[start_run bool_decide Registry.all negb]. rewrite Hlocal.
  match goal with |- context [_identity (asst_id a) ?run ?attempt _] => set (i := _identity (asst_id a) run attempt _) end.
  match goal with |- context [start_run _ _ _ _ ?s] => set (s2 := s) end.
  destruct (start_run_queued (run_request payload i config) s2 (mk_id t))
    as (created & r & s' & id & tm & Hrun & Hci & Hready & Hv & Hid & Hst & Hq); [done..|apply Hfresh|].
  rewrite Hrun. exists (run_id i), (attempt_id i), created, r. eexists. exists id, tm. cbn. split; [reflexivity|].
  by split_and!.
Qed.

(** C6: a request in the local runtime, from the thread's [POST /runs/wait] to its
    response.  On a free thread of a runtime whose queue is empty the gateway starts a
    run; the worker's next turn executes it with the assistant's LangGraph adapter; and
    the waiting request is answered at the poll after that turn, with the run as it is
    stored: succeeded with the graph's last values, interrupted, cancelled or in error.
    The thread is idle or interrupted again, no other run has changed, and the queue is
    empty. *)
Theorem local_run_end_to_end payload t config (g : Gateway) a as' adapter capacity :
  serving (gw_service g) → assistants_get (rc_assistant_id payload) (gw_assistants g) = (Ok a, as') →
  dget (gw_adapters g) (id_value (asst_id a)) = Some adapter → has_slot capacity →
  str_truthy t = true → free t (gw_service g) →
  is_ok (runs_active_for_thread t (svc_runs (gw_service g))).1 = true →
  (∀ n, view (gw_service g) !! fresh n = None) → merged_config payload = Ok config →
  (∀ i, is_ok (Adapter.stream_arguments (run_request payload i config)) = true) →
  let '(o, g') := wait_run clock fresh isoformat (λ _, worker_turn capacity) 2 (Some t) payload g in
  ∃ run attempt r ds e tasks',
    let request := run_request payload (_identity (asst_id a) run attempt (Some (mk_id t))) config in
    Adapter.stream py_repr (astream adapter) task request tasks = (Ok (ds, e), tasks') ∧
    o = Ok (Some (_run_payload isoformat r)) ∧ run_identity r = req_identity request ∧
    view (gw_service g') = <[id_value run := r]> (view (gw_service g)) ∧
    run_status r = match e with
                   | Raised CancelledError => CANCELLED
                   | Raised _ => ERROR
                   | Exhausted => if existsb (λ d, type_is (draft_type d) INTERRUPT_CREATED) ds
                                  then INTERRUPTED else SUCCESS
                   end ∧
    (run_status r = SUCCESS → run_result r = last_values ds JNull) ∧
    thread_status_at (gw_service g') t = Some (if decide (run_status r = INTERRUPTED) then THREAD_INTERRUPTED else IDLE) ∧
    mq_items (svc_commands (gw_service g')) = [].
Proof using RL RQ TL JL.
  intros Hserve Has Ha Hslot Ht Hfree Hact Hfresh Hconf Hargs.
  destruct (request_queued payload t config g a as' adapter)
    as (run & attempt & created & r0 & g1 & id & tm & Hstart & Hci & Had & Hready & Hv1 & Hid & Hst & Hq); [done..|].
  set (i := _identity (asst_id a) run attempt (Some (mk_id t))) in *.
  set (request := run_request payload i config) in *.
  assert (run_key created = id_value run) as Hkey by (unfold run_key, run_run_id; by rewrite Hci).
  unfold wait_run, bind. rewrite Hstart, Hkey.
  rewrite (wait_step isoformat (λ _, worker_turn capacity) 1 0 (id_value run) None g1).
  rewrite (poll_unsettled isoformat (id_value run) None g1);
    [|apply Hready|exists r0; rewrite Hv1, lookup_insert_eq, Hst; by split].
  destruct (turn_executes (gw_service g1) (gw_adapters g1) capacity adapter
    (mk_command id i request (req_priority request) tm tm) 0 (svc_commands (gw_service g)))
    as (receipt & s1 & Hc & Hcore & Hitems & Hturn); [done|apply Hserve|apply Hserve|by rewrite Had|done|].
  destruct (Adapter.stream py_repr (astream adapter) task request tasks) as [[[ds e]|er] tasks'] eqn:Hstream.
  2: { unfold Adapter.stream, bind in Hstream. cbn in Hstream. by destruct (Adapter.stream_arguments request) as [[? ?]|]. }
  assert (adapter_stream adapter receipt = (ds, e)) as Hds.
  { unfold adapter_stream. rewrite Hc. cbn [cmd_request]. by rewrite Hstream. }
  rewrite Hds in Hturn. cbn [fst snd] in Hturn.
  assert (cmd_request (rcp_command receipt) = request) as Hreq by by rewrite Hc.
  assert (command_run receipt = id_value run) as Hcr by (unfold command_run; by rewrite Hreq).
  destruct (langgraph_executed clock fresh json_str py_repr (astream adapter) task tasks tasks' receipt adapter r0 ds e s1)
    as (Hinv & r & Hv & Hir & Hrs & Hres & Hth); [by eapply ready_core|by rewrite (view_core (gw_service g1)), Hv1, Hcr, lookup_insert_eq
      |done|rewrite Hreq; apply Hargs|by rewrite Hreq|].
  pose proof (keeps_items_execute [] receipt adapter ds e s1 Hitems) as Hitems2.
  set (s' := (execute_receipt clock fresh json_str receipt adapter ds e s1).2) in *.
  assert (view s' = <[id_value run := r]> (view (gw_service g))) as Hv'.
  { by rewrite Hv, (view_core (gw_service g1)), Hv1, Hcr, insert_insert_eq. }
  assert (gw_service (worker_turn capacity g1) = s') as Hs' by exact Hturn.
  rewrite (wait_step isoformat (λ _, worker_turn capacity) 0 1 (id_value run) None (worker_turn capacity g1)).
  unfold wait_poll, bind at 1, runs, on_service, on_runs, zoom. rewrite Hs'.
  rewrite (runs_get_some (svc_runs s') (id_value run) r); [|done|change (view s' !! id_value run = Some r); by rewrite Hv', lookup_insert_eq].
  assert (settled (run_status r) = true) as ->.
  { rewrite Hrs. destruct e as [|[]]; try done. by destruct (existsb _ ds). }
  cbn [ret]. exists run, attempt, r, ds, e, tasks'. split; [exact Hstream|]. split; [done|].
  split; [by rewrite Hir, Hid|].
  assert (gw_service (set_service (set_runs (svc_runs s') s') (worker_turn capacity g1)) = s') as -> by (cbn; by destruct s').
  split; [exact Hv'|]. split; [exact Hrs|]. split; [exact Hres|]. split; [|exact Hitems2].
  apply (Hth (mk_id t)). unfold run_thread_id. by rewrite Hid.
Qed.
End EndToEnd.

(** ** A local runtime with one slot *)
Module LocalEndToEnd.
Import ServiceSafety.Local LocalGateway.

Definition idle : gateway := gateway_of (service_with ["t"] []).
Definition one_slot : option ExecutionCapacity := Some (mk_capacity 1 (mk_semaphore 1 0 0) 0 false).
Definition env : nat → gateway → gateway := λ _,
  worker_turn clock fresh json_str (λ _, "") (λ _, LocalRuns.state_graph) (Some 1) [] one_slot.

Lemma idle_serving : serving (gw_service idle) ∧ free "t" (gw_service idle).
Proof.
  assert (Runs.inv []) as Hri by (split; [apply NoDup_nil_2|done]).
  split; [split; [exact (service_good ["t"] [] Hri)|]; split; [|by split_and!]|].
  - split; [apply NoDup_singleton|]. intros k t. cbn. case_decide; intros; by simplify_eq.
  - split; [exists (thread "t"); split; [symmetry; exact (dget_map [("t", thread "t")] "t")|done]|].
    intros k r Hk. unfold view in Hk. by rewrite view_lookup in Hk.
Qed.

Lemma local_run_end_to_end_witness :
  let '(o, g') := wait_run clock fresh isoformat env 2 (Some "t") new_run idle in
  ∃ r, o = Ok (Some (_run_payload isoformat r)) ∧ (∃ k, view (gw_service g') !! k = Some r) ∧
    run_status r = SUCCESS ∧ run_result r = JObj [("n", JInt 2)] ∧ mq_items (svc_commands (gw_service g')) = [].
Proof.
  pose proof (local_run_end_to_end clock fresh isoformat json_str (λ _, "") (λ _, LocalRuns.state_graph) (Some 1) []
    new_run "t" [] idle assistant [("agent", assistant)] tt one_slot (proj1 idle_serving) eq_refl eq_refl eq_refl eq_refl
    (proj2 idle_serving) eq_refl (λ n, view_lookup (gw_service idle) "id") eq_refl (λ i, eq_refl)) as H.
  fold env in H. destruct (wait_run clock fresh isoformat env 2 (Some "t") new_run idle) as [o g'].
  destruct H as (run & attempt & r & ds & e & tasks' & Hs & Ho & Hi & Hv & Hst & Hres & _ & Hq).
  vm_compute in Hs. injection Hs as <- <- _. simpl in Hst. exists r. split; [exact Ho|].
  split; [by exists (id_value run); rewrite Hv, lookup_insert_eq|]. split; [exact Hst|]. split; [exact (Hres Hst)|exact Hq].
Defined.
End LocalEndToEnd.
