(* ===== verification/LocalRuntime.v ===== *)
(** * The local runtime as it is created

    [create_local_runtime] of [bootstrap/local.py] with the constructors of the in-memory
    adapters, and [stream_live_events] of [application/runtime_service.py].  What is
    created satisfies what the theorems about the service, the
    queue, the journal, the capacity and the gateway ask of the state they start from. *)

From S2P Require Import Prelude PyDict PyStr Json Errors Identity Execution Ports MemoryRepositories MemoryQueue.
From S2P Require Import MemoryJournal MemoryStores Capacity Service ServiceSafety Bootstrap Gateway.

Section Created.
Context {A W : Type}.

(** The parts of a [LocalRuntime] that [Bootstrap.LocalRuntime] has: the service, the
    adapters and the capacity; and those that only the gateway reads: the configuration
    and the assistants.  The service is given no outbox; the runtime's own is the one
    that its callers pass. *)
Abbreviation Created := (LocalRuntime (T:=Threads.state) (R:=Runs.state) (Q:=MemoryQueue) (J:=Journal) (O:=Outbox.state) (A:=A)).
Abbreviation CreatedService := (Service.Service (T:=Threads.state) (R:=Runs.state) (Q:=MemoryQueue) (J:=Journal) (O:=Outbox.state) (A:=A)).

(** [RuntimeExecutionService(...)] *)
Definition new_service (journal : Journal) : CreatedService :=
  mk_service [] [] (new_memory_queue 60 3) (Some journal) None [] [] 0.

Definition create_local_runtime (max_concurrency : Z) : res (Created * Config.state * Assistants.state) :=
  result_bind (new_journal 128) (λ events,
  result_map (λ capacity, (mk_runtime (mk_worker (new_service events) [] (Some capacity)) true false, [], []))
    (new_capacity max_concurrency)).

(** A gateway over it. *)
Definition gateway_over (r : Created * Config.state * Assistants.state) (w : W)
  : Gateway (R:=Runs.state) (T:=Threads.state) (Q:=MemoryQueue) (J:=Journal) (O:=Outbox.state) (A:=A)
      (AS:=Assistants.state) (C:=Config.state) (W:=W) :=
  let '(runtime, config, assistants) := r in
  mk_gateway (wk_service (lr_worker runtime)) assistants config (wk_adapters (lr_worker runtime)) w [].

(** [stream_live_events], up to the generator of the journal's [subscribe]. *)
Definition stream_live_events (run_id : string) (after_sequence : Z) (s : CreatedService) : res (nat * phase) * CreatedService :=
  match svc_journal s with
  | None => (Raise (failure ADAPTER_NOT_SUPPORTED "event subscription is not configured"), s)
  | Some j =>
      match parse_id (k:=RunKind) run_id with
      | Raise e => (Raise e, s)
      | Ok i => let '(o, j) := sub_start (id_value i) after_sequence j in
                (o, mk_service (svc_threads s) (svc_runs s) (svc_commands s) (Some j) (svc_outbox s)
                      (svc_caller_outbox s) (svc_active s) (svc_ticks s))
      end
  end.

(** What is created: nothing is stored, everything is free, and the states are those that
    the theorems about the parts start from. *)
Lemma created_ready n r config assistants :
  create_local_runtime n = Ok (r, config, assistants) →
  let s := wk_service (lr_worker r) in
  1 ≤ n ∧ quiescent s ∧ exclusive (view s) ∧ svc_threads s = [] ∧
  svc_commands s = new_memory_queue 60 3 ∧ svc_journal s = Some (sys_journal (initial_system 128)) ∧
  (∃ c, wk_capacity (lr_worker r) = Some c ∧ new_capacity n = Ok c) ∧ ¬ executes r.
Proof.
  unfold create_local_runtime, new_journal. simpl. destruct (new_capacity n) as [c|] eqn:Hc; [|done].
  intros [= <- _ _]. cbn. assert (1 ≤ n) as Hn by (unfold new_capacity in Hc; destruct (n <? 1) eqn:Hlt; [done|by apply Z.ltb_ge in Hlt]).
  assert (∀ k, view (new_service (mk_journal ∅ ∅ ∅ ∅ 0 128)) !! k = None) as Hnone by (intros k; by apply lookup_empty).
  split; [done|]. split.
  { split; [|intros k r; by rewrite Hnone]. split; [by split; [apply NoDup_nil_2|]|by eexists]. }
  split; [intros t k k' r r'; by rewrite Hnone|]. split_and!; try done. by exists c.
Qed.

(** Without room for one execution there is no runtime. *)
Lemma create_refuses n : create_local_runtime n = Raise (ValueError "maximum capacity must be at least one") ↔ n < 1.
Proof.
  unfold create_local_runtime, new_journal, new_capacity. simpl. destruct (n <? 1) eqn:Hn; simpl; to_prop.
  - by split.
  - split; [done|lia].
Qed.
End Created.
