(* ===== verification/A2A.v ===== *)
(** * The A2A adapter

    [adapters/a2a]: the agent card, the mapping of messages to execution requests and
    of events to task states and messages, and the executor that starts runs of the
    execution service.  The SDK's objects are the records and sums they are; what its
    [SimpleRequestContextBuilder] and event queue do beyond that is the SDK's. *)

From S2P Require Import Prelude PyDict PyStr Json Errors Identity Execution Ports Service GatewayHttp.
From S2P Require Import MemoryRepositories MemoryQueue MemoryJournal MemoryStores ServiceSafety ServiceSpec GatewaySpec.
From S2P Require LangGraphLoad.

(** ** The agent card *)

Record AgentSkillDescriptor : Type := mk_skill {
  skill_id : string;
  skill_name : string;
  skill_description : string;
  skill_tags : list string;
  skill_input_modes : list string;
  skill_output_modes : list string;
}.
Record AgentCardDescriptor : Type := mk_card_descriptor {
  card_name : string;
  card_description : string;
  card_version : string;
  card_url : string;
  card_streaming : bool;
  card_skills : list AgentSkillDescriptor;
}.

(** [descriptor_from_manifest] *)
Definition descriptor_from_manifest (name description version url : string) (m : LangGraphLoad.AdapterManifest)
  : AgentCardDescriptor :=
  let c := LangGraphLoad.capabilities m in
  let streams := LangGraphLoad.streaming c && LangGraphLoad.a2a c in
  mk_card_descriptor name description version url streams
    (mk_skill "runtime.execute" "Execute" "Execute the configured assistant." ["execution"] ["text"] ["text"] ::
     if streams
     then [mk_skill "runtime.stream" "Stream execution" "Stream ordered execution updates." ["streaming"] ["text"] ["text"]]
     else []).

(** The SDK's [AgentCard] as [build_agent_card] fills it. *)
Record AgentCard : Type := mk_agent_card {
  ac_descriptor : AgentCardDescriptor;
  ac_protocol_binding : string;
  ac_protocol_version : string;
  ac_default_input_modes : list string;
  ac_default_output_modes : list string;
}.
Definition build_agent_card (d : AgentCardDescriptor) : AgentCard :=
  mk_agent_card d "HTTP+JSON" "1.0" ["text"; "application/json"] ["text"; "application/json"].

(** The descriptor that [create_a2a_routes] publishes. *)
Definition route_descriptor (a : Assistant) (m : LangGraphLoad.AdapterManifest) (public_url : string) : AgentCardDescriptor :=
  descriptor_from_manifest
    (match asst_name a with Some n => if str_truthy n then n else id_value (asst_id a) | None => id_value (asst_id a) end)
    ("UniversalRuntime assistant " +:+ asst_graph_id a) (pretty (asst_version a)) public_url m.

(** ** [request_mapper.py] *)

(** The [content] of a message's part; the data is what [MessageToDict] gives. *)
Inductive Part : Type :=
| TextPart (text : string)
| DataPart (data : json)
| RawPart
| UrlPart
| EmptyPart.

Record Message : Type := mk_message {
  message_id : string;
  context_id : string;
  parts : list Part;
}.

Definition unsupported_part (kind : string) : exn :=
  failure CAPABILITY_NOT_SUPPORTED ("A2A message part is not supported: " +:+ kind).
Definition invalid_context_id (value : string) : exn :=
  failure INVALID_EXECUTION_INPUT ("invalid A2A context ID: " +:+ value).

Definition _part_value (p : Part) : res json :=
  match p with
  | TextPart s => Ok (JStr s)
  | DataPart v => Ok v
  | RawPart => Raise (unsupported_part "raw")
  | UrlPart => Raise (unsupported_part "url")
  | EmptyPart => Raise (unsupported_part "unknown")
  end.

Definition message_input (m : Message) : res json :=
  result_map (λ values, match values with [v] => v | _ => JList values end) (result_mapM _part_value (parts m)).

Definition context_thread_id (value : option string) : res (option ThreadId) :=
  match value with
  | None => Ok None
  | Some v =>
      if negb (str_truthy v) then Raise (invalid_context_id v)
      else match parse_id v with
           | Ok i => Ok (Some i)
           | Raise (ValueError _) => Raise (invalid_context_id v)
           | Raise e => Raise e
           end
  end.

(** ** [status_mapper.py] and [event_mapper.py] *)

Inductive TaskState : Type :=
| TASK_STATE_SUBMITTED | TASK_STATE_WORKING | TASK_STATE_INPUT_REQUIRED | TASK_STATE_COMPLETED
| TASK_STATE_CANCELED | TASK_STATE_FAILED.

Definition task_states : dict TaskState :=
  [("run.queued", TASK_STATE_SUBMITTED); ("run.started", TASK_STATE_WORKING);
   ("run.interrupted", TASK_STATE_INPUT_REQUIRED); ("run.completed", TASK_STATE_COMPLETED);
   ("run.cancelled", TASK_STATE_CANCELED); ("run.failed", TASK_STATE_FAILED); ("run.timeout", TASK_STATE_FAILED)].
Definition task_state (t : event_type) : option TaskState := dget task_states (event_type_str t).

(** What the executor puts into the SDK's event queue. *)
Inductive output : Type :=
| TaskOutput (id context : string) (state : TaskState)
| StatusOutput (state : TaskState) (sequence : Z)
| MessageOutput (message context task text : string).

Section A2A.
Context {R T Q J O A : Type}
  `{RunRepository R, ThreadRepository T, RunCommandQueue Q, EventJournal J, OutboxRepository O}
  (clock : nat → datetime) (fresh : nat → string) (json_str : json → string)
  (adapter_cancel : A → ExecutionRequest → res unit).

Abbreviation Service := (Service (R:=R) (T:=T) (Q:=Q) (J:=J) (O:=O) (A:=A)).

Definition text_message (e : RuntimeEvent) : option output :=
  if type_in (ev_type e) [MESSAGE_DELTA; MESSAGE_COMPLETED]
  then Some (MessageOutput (id_value (ev_id e))
               (match thread_id (ev_identity e) with Some t => id_value t | None => "" end)
               (id_value (run_id (ev_identity e)))
               (match ev_data e with JStr s => s | v => json_str v end))
  else None.

(** [_enqueue_event] *)
Definition event_outputs (e : RuntimeEvent) : list output :=
  match task_state (ev_type e) with Some st => [StatusOutput st (ev_sequence e)] | None => [] end ++
  match text_message e with Some m => [m] | None => [] end.

(** ** [RuntimeExecutor] *)

(** The service and the event queue. *)
Abbreviation State := (Service * list output)%type.
Definition serve {B} (m : Py Service B) : Py State B := zoom fst (λ s st, (s, st.2)) m.
Definition emit (o : output) : Py State unit := modify (λ st, (st.1, st.2 ++ [o])).

(** [execution_request] *)
Definition execution_request (m : Message) (assistant : AssistantId) (run : RunId) (scope : ApplicationScope)
  : Py State ExecutionRequest :=
  thread <- of_result (context_thread_id (if str_truthy (context_id m) then Some (context_id m) else None));;
  attempt <- serve (Service.new fresh);;
  input <- of_result (message_input m);;
  ret (mk_request (mk_identity scope assistant run attempt thread) input JNull [] []
         [("a2a.message_id", JStr (message_id m))] ["events"] false INTERACTIVE 1800).

(** [context.message], [context.task_id] and [context.context_id]. *)
Record RequestContext : Type := mk_context {
  ctx_message : option Message;
  ctx_task_id : option string;
  ctx_context_id : option string;
}.

(** [live]: the events that [stream_live_events] yields, and its end. *)
Definition execute (assistant : AssistantId) (live : string → Service → list RuntimeEvent * stream_end)
    (context : RequestContext) : Py State unit :=
  match ctx_message context, ctx_task_id context with
  | Some m, Some task =>
      run_id <- of_result (parse_id task);;
      request <- execution_request m assistant run_id gateway_scope;;
      run <- serve (start_run clock fresh request true);;
      emit (TaskOutput (run_key run)
              (match thread_id (req_identity request) with
               | Some t => id_value t
               | None => match ctx_context_id context with Some c => c | None => "" end
               end) TASK_STATE_SUBMITTED);;;
      st <- get_state;;
      let '(events, e) := live (run_key run) st.1 in
      for_each emit (events ≫= event_outputs);;;
      match e with Exhausted => ret tt | Raised err => raise err end
  | _, _ => ret tt
  end.

Definition cancel (context : RequestContext) : Py State unit :=
  match ctx_task_id context with
  | None => ret tt
  | Some task => serve (cancel_run clock fresh adapter_cancel task);;; ret tt
  end.
End A2A.

(** ** What the executor does *)

(** Every event that ends a run has a task state. *)
Lemma settling_task_state t : t ∈ SETTLING → is_Some (task_state (Known t)).
Proof. unfold SETTLING. rewrite !elem_of_cons, elem_of_nil. intros [->|[->|[->|[->|[->|[]]]]]]; by eexists. Qed.

Section Spec.
Context {R T Q J O A : Type}
  `{!RunRepository R, RL : !RunRepositoryLaws R, !ThreadRepository T, !RunCommandQueue Q,
    !EventJournal J, JL : !EventJournalLaws J, !OutboxRepository O}
  (clock : nat → datetime) (fresh : nat → string) (json_str : json → string).

Abbreviation Svc := (Service.Service (R:=R) (T:=T) (Q:=Q) (J:=J) (O:=O) (A:=A)).

(** With an outbox the queue is never used. *)
Lemma keeps_queue_start (P : Q → Prop) request : keeps_commands P (start_run (A:=A) clock fresh request true).
Proof.
  unfold start_run, enqueue, queue_failed. keep_commands.
  apply keeps_commands_step. intros s. unfold outbox_put, bind. by destruct (outbox_append _ (svc_caller_outbox s)) as [[?|?] ?].
Qed.

(** *** The caller's outbox *)

Definition keeps_box {B} (P : O → Prop) (m : Py Svc B) : Prop := preserves (λ s, P (svc_caller_outbox s)) m.
Lemma keeps_box_same {B} P (m : Py Svc B) :
  (∀ s, svc_caller_outbox (m s).2 = svc_caller_outbox s) → keeps_box P m.
Proof. intros Hm s Hs. by rewrite Hm. Qed.
Lemma keeps_box_runs {B} P (m : Py R B) : keeps_box P (on_runs m).
Proof. apply keeps_box_same. intros s. unfold on_runs, zoom. by destruct (m (svc_runs s)). Qed.
Lemma keeps_box_threads {B} P (m : Py T B) : keeps_box P (on_threads m).
Proof. apply keeps_box_same. intros s. unfold on_threads, zoom. by destruct (m (svc_threads s)). Qed.
Lemma keeps_box_journal P d : keeps_box P (append_if_journal clock fresh d).
Proof.
  apply keeps_box_same. intros s. unfold append_if_journal, bind, append_event.
  destruct (svc_journal s) as [j|]; [|done]. by destruct (journal_append _ _ d j) as [[e|x] j'].
Qed.
Ltac keep_box :=
  repeat first
    [ apply preserves_bind; [|intros ?] | apply preserves_ret | apply preserves_raise | apply preserves_of_result
    | apply keeps_box_runs | apply keeps_box_threads | apply keeps_box_journal | by apply keeps_box_same | case_match ].
Lemma wp_box {B} P (m : Py Svc B) s :
  keeps_box P m → P (svc_caller_outbox s) →
  wp m (λ _ s', P (svc_caller_outbox s')) (λ _ s', P (svc_caller_outbox s')) s.
Proof. intros Hm Hs. specialize (Hm s Hs). unfold wp. by destruct (m s) as [[b|e] s']. Qed.

(** The command of a request, as a message of the outbox. *)
Definition command_message (request : ExecutionRequest) (m : OutboxMessage) : Prop :=
  msg_topic m = "rt.local.run.commands.v1" ∧ msg_key m = outbox_key (req_identity request) ∧
  msg_payload m = outbox_payload request ∧ msg_published m = false.
(** The outbox has taken the command; or it has taken nothing, though it may have refused it. *)
Definition outbox_took (request : ExecutionRequest) (o o' : O) : Prop :=
  ∃ m x, command_message request m ∧ outbox_append m o = (Ok x, o').
Definition outbox_left (o o' : O) : Prop := o' = o ∨ ∃ m e, outbox_append m o = (Raise e, o').

Lemma queue_failed_box {B} P (created : Run) th e (s : Svc) :
  P (svc_caller_outbox s) →
  wp (if is_exception e then queue_failed clock created th;;; raise (A:=B) e else raise e)
    (λ _ _, False) (λ _ s', P (svc_caller_outbox s')) s.
Proof.
  intros Hs. destruct (is_exception e); [|done]. apply wp_bind.
  eapply wp_mono; [apply (wp_box P); [unfold queue_failed; keep_box|done]|done..].
Qed.

Lemma start_run_outbox request (s : Svc) :
  let o := svc_caller_outbox s in
  wp (start_run clock fresh request true) (λ _ s', outbox_took request o (svc_caller_outbox s'))
    (λ _ s', outbox_left o (svc_caller_outbox s')) s.
Proof.
  intros o. assert (∀ (e : exn) (s' : Svc), o = svc_caller_outbox s' → outbox_left o (svc_caller_outbox s')) as Hleft
    by (intros e s' ->; by left).
  unfold start_run.
  apply wp_bind. eapply wp_mono; [apply (wp_box (eq o)); [by apply keeps_box_same|done]| |by eauto].
  intros t s1 H1. apply wp_bind. eapply wp_mono; [apply (wp_box (eq o)); [keep_box|done]| |by eauto].
  intros ? s2 H2. apply wp_bind. eapply wp_mono; [apply (wp_box (eq o)); [apply keeps_box_runs|done]| |by eauto].
  intros created s3 H3. apply wp_bind, wp_try_except.
  assert (∀ (e : exn) (s' : Svc), outbox_left o (svc_caller_outbox s') →
    wp (if is_exception e then queue_failed clock created (thread_id (req_identity request));;; raise e else raise e : Py Svc unit)
      (λ (_ : unit) s', wp (ret created : Py Svc Run) (λ _ s', outbox_took request o (svc_caller_outbox s'))
        (λ _ s', outbox_left o (svc_caller_outbox s')) s')
      (λ _ s', outbox_left o (svc_caller_outbox s')) s') as Hfail.
  { intros e s' Hs'. eapply wp_mono; [by apply (queue_failed_box (outbox_left o))|done..]. }
  unfold enqueue. apply wp_bind. eapply wp_mono; [apply (wp_box (eq o)); [apply keeps_box_journal|done]| |by eauto].
  intros ? s4 H4. apply wp_bind, wp_get_state, wp_bind.
  eapply wp_mono; [apply (wp_box (eq o)); [by apply keeps_box_same|done]| |by eauto].
  intros i s5 H5. set (m := mk_outbox_message i _ _ _ _ _).
  assert (command_message request m) as Hm by done. cbn [has_outbox orb]. apply wp_bind.
  unfold wp at 1, outbox_put. rewrite <- H5. destruct (outbox_append m o) as [[x|e] o'] eqn:Ho.
  - apply wp_ret, wp_ret. by exists m, x.
  - apply Hfail. by right; exists m, e.
Qed.

(** One run of the task was started, and its command went to the outbox. *)
Definition started (m : Message) (task : string) (s s' : Svc) (run : Run) : Prop :=
  view s !! task = None ∧ run_key run = task ∧ run_status run = PENDING ∧ scope (run_identity run) = gateway_scope ∧
  run_metadata run = [("a2a.message_id", JStr (message_id m))] ∧
  run_thread_id run = (if str_truthy (context_id m) then Some (mk_id (context_id m)) else None) ∧
  (∃ r', run_core r' = run_core run ∧ view s' = <[task := r']> (view s)) ∧
  ∃ request, req_identity request = run_identity run ∧ message_input m = Ok (req_input request) ∧
    outbox_took request (svc_caller_outbox s) (svc_caller_outbox s').

Lemma request_outcome m assistant task (st : Svc * list output) :
  let '(o, st') := execution_request fresh m assistant (mk_id task) gateway_scope st in
  view st'.1 = view st.1 ∧ (good st.1 → good st'.1) ∧ svc_commands st'.1 = svc_commands st.1 ∧
  svc_caller_outbox st'.1 = svc_caller_outbox st.1 ∧ st'.2 = st.2 ∧
  match o with
  | Ok request => message_input m = Ok (req_input request) ∧ id_value (run_id (req_identity request)) = task ∧
      scope (req_identity request) = gateway_scope ∧ req_metadata request = [("a2a.message_id", JStr (message_id m))] ∧
      thread_id (req_identity request) = (if str_truthy (context_id m) then Some (mk_id (context_id m)) else None)
  | Raise _ => True
  end.
Proof.
  unfold execution_request. unfold bind at 1, of_result at 1.
  assert (context_thread_id (if str_truthy (context_id m) then Some (context_id m) else None) =
          Ok (if str_truthy (context_id m) then Some (mk_id (context_id m)) else None)) as ->.
  { destruct (str_truthy (context_id m)) eqn:Hc; [|done]. unfold context_thread_id, parse_id. by rewrite Hc. }
  unfold bind, serve, zoom, Service.new, of_result. destruct (message_input m) as [v|e]; cbn.
  - by split_and!.
  - by split_and!.
Qed.

Lemma emit_all l (s : Svc) q : for_each emit l (s, q) = (Ok tt, (s, q ++ l)).
Proof.
  revert q. induction l as [|x l IH]; intros q; cbn [for_each]; [by rewrite app_nil_r|].
  unfold bind, emit at 1, modify. cbn [fst snd]. by rewrite IH, <- app_assoc.
Qed.

(** What a refused message leaves: nothing is shown; the runs are as before, unless the
    command of a run that was stored on a free thread could not be put into the outbox
    ([GatewaySpec.refused]); and the outbox has taken nothing. *)
Definition not_started (m : Message) (s s' : Svc) (e : exn) : Prop :=
  let i := if str_truthy (context_id m) then Some (mk_id (context_id m)) else None in
  refused (free_for i) i e (view s) (view s') ∧ outbox_left (svc_caller_outbox s) (svc_caller_outbox s').

End Spec.

(** ** A local runtime with a free thread *)
Module LocalA2A.
Import ServiceSafety.Local.

Definition idle : service := service_with ["t"] [].
Definition hello : Message := mk_message "m1" "t" [TextPart "hello"].
Definition events (run : string) (s : service) : list RuntimeEvent * stream_end :=
  ([mk_event (mk_id "e0") 0 0 (identity run "t") (Known RUN_STARTED) [] JNull [] (mk_trace None None) 1;
    mk_event (mk_id "e1") 1 0 (identity run "t") (Known MESSAGE_COMPLETED) [] (JStr "hi") [] (mk_trace None None) 1;
    mk_event (mk_id "e2") 2 0 (identity run "t") (Known RUN_COMPLETED) [] JNull [] (mk_trace None None) 1], Exhausted).


(** A message that continues a task, and one whose context no thread has, are refused. *)
Lemma continued_task_refused :
  is_ok (execute clock fresh json_str (mk_id "agent") events
    (mk_context (Some hello) (Some "r1") (Some "t")) (service_with ["t"] [("r1", pending_run "r1" "t")], [])).1 = false ∧
  (execute clock fresh json_str (mk_id "agent") events
    (mk_context (Some (mk_message "m" "new-context" [TextPart "hello"])) (Some "task") None) (idle, [])).1 =
  Raise (failure RESOURCE_NOT_FOUND "thread not found: new-context").
Proof. vm_compute. by split. Qed.
End LocalA2A.
