(* ===== verification/GatewayStartup.v ===== *)
(** * The gateway's workers and its startup

    The parts of [create_app] in [services/gateway/app.py] that are not an API of
    runs: the registration of workers, the probes, and the startup, which registers
    the graphs of the environment.  The application's modules and the calls of gRPC
    and Alembic are parameters. *)

From S2P Require Import Prelude PyDict PyStr Json Errors Identity Execution MemoryRepositories MemoryStores.
From S2P Require Import LangGraphLoad Database Postgres PostgresConfig Launcher Gateway.
From Stdlib Require Import Ascii.

(** Reading an attribute that an object does not have. *)
Definition AttributeError : exn := OtherError "AttributeError".

(** ** [register_worker] *)

(** [ApplicationMigrationRow] *)
Record MigrationRow : Type := mk_migration_row {
  mr_id : string;
  mr_application_id : string;
  mr_workspace_key : string;
  mr_environment : string;
  mr_app_version : string;
  mr_status : string;
  mr_error : option string;
}.
#[export] Instance migration_schema : Schema MigrationRow := {
  row_key := mr_id;
  row_conflict := λ r r',
    bool_decide (mr_application_id r = mr_application_id r') && bool_decide (mr_workspace_key r = mr_workspace_key r') &&
    bool_decide (mr_environment r = mr_environment r');
}.
Definition migration_row_fits (r : MigrationRow) : bool :=
  column_string 255 (mr_id r) && column_string 255 (mr_application_id r) && column_string 255 (mr_workspace_key r) &&
  column_string 63 (mr_environment r) && column_string 255 (mr_app_version r) && column_string 32 (mr_status r) &&
  column_string 2048 (default "" (mr_error r)).

Section Workers.
Context {D : Type} `{TD : Table MigrationRow D}.
(** [str] of a value that is no string, and the answer of [stub.Migrate]. *)
Context (isoformat : datetime → string) (py_str : json → string)
  (migrate : string → string → string → string → res (bool * string)).

(** [app.state.worker_registry] and the table. *)
Record Workers : Type := mk_workers {
  wk_registry : dict json_object;
  wk_rows : D;
}.
Definition on_rows {B} (m : Py D B) : Py Workers B := zoom wk_rows (λ d w, mk_workers (wk_registry w) d) m.

(** [str(payload.get(key, d))] *)
Definition text_field (payload : json_object) (key d : string) : string :=
  match default (JStr d) (dget payload key) with JStr s => s | v => py_str v end.

Definition this_migration (app workspace environment : string) (r : MigrationRow) : bool :=
  bool_decide (mr_application_id r = app) && bool_decide (mr_workspace_key r = workspace) &&
  bool_decide (mr_environment r = environment).

(** The first transaction.  The statement selects an entity on a connection, not on a
    session: what [scalar_one_or_none] gives is the first column of the row, a value
    without the attribute [status]. *)
Definition claim_migration (app workspace environment version id : string) : Py D unit :=
  transaction (
    rows <- (λ d, (Ok (tb_select (this_migration app workspace environment) d), d));;
    match rows with
    | [] => insert_row migration_row_fits (mk_migration_row id app workspace environment version "migrating" None)
    | [_] => raise AttributeError
    | _ => raise MultipleResultsFound
    end).

(** The second transaction: [row.status = status] of such a value. *)
Definition record_migration (app workspace environment status : string) (error : option string) : Py D unit :=
  transaction (
    rows <- (λ d, (Ok (tb_select (this_migration app workspace environment) d), d));;
    match rows with
    | [] => raise (OtherError "NoResultFound")
    | [_] => raise AttributeError
    | _ => raise MultipleResultsFound
    end).

Definition or_text (a b : string) : string := if str_truthy a then a else b.

(** The status and the error of the worker's answer; [except Exception]. *)
Definition migration_outcome (o : res (bool * string)) : res (string * option string) :=
  match o with
  | Ok (success, error) => Ok (if success then ("success", None) else ("fail", Some error))
  | Raise e => if is_exception e then Ok ("fail", Some (exn_str e)) else Raise e
  end.

Definition register_worker (env : environ) (now : datetime) (id : string) (payload : json_object) : Py Workers json :=
  let worker_id := text_field payload "worker_id" "" in
  let target := text_field payload "target" "" in
  if negb (str_truthy worker_id) || negb (str_truthy target)
  then raise (failure INVALID_EXECUTION_INPUT "worker_id and target are required")
  else
    let application_id := text_field payload "application_id" "" in
    let workspace_key := text_field payload "workspace_key" "default" in
    let app_version := text_field payload "app_version" "" in
    let alembic_version := text_field payload "alembic_version" "" in
    modify (λ w, mk_workers (dset (wk_registry w) worker_id (dset payload "registered_at" (JStr (isoformat now)))) (wk_rows w));;;
    let result := [("registered", JBool true); ("worker_id", JStr worker_id); ("target", JStr target)] in
    match getenv_true env "UR_DATABASE_URL", str_truthy application_id with
    | Some _, true =>
        let environment := getenv env "UR_KAFKA_ENVIRONMENT" "local" in
        let version := or_text app_version alembic_version in
        on_rows (claim_migration application_id workspace_key environment version id);;;
        outcome <- of_result (migration_outcome (migrate application_id workspace_key environment version));;
        on_rows (record_migration application_id workspace_key environment outcome.1 outcome.2);;;
        ret (JObj (dset result "migration"
          (JObj (("status", JStr outcome.1) ::
                 match outcome.2 with Some e => if str_truthy e then [("error", JStr e)] else [] | None => [] end))))
    | _, _ => ret (JObj result)
    end.

Definition list_workers : Py Workers json := λ w, (Ok (JList (JObj <$> dvalues (wk_registry w))), w).
End Workers.

(** ** Probes *)

Definition health : json := JObj [("ok", JBool true)].
Definition readiness : json := JObj [("ready", JBool true)].
(** A manifest has slots and therefore no [__dict__]. *)
Definition info (adapters : dict LangGraphAdapter) : json :=
  JObj [("version", JStr "0.1.0"); ("adapters", JList ((λ _, JObj []) <$> Registry.all adapters))].

(** ** Startup *)

Section Startup.
Context {AS : Type} `{AssistantRepository AS}.
(** [getattr(importlib.import_module(module), attribute)]; the providers of
    [managed_langgraph_persistence]. *)
Context (import_target : string → string → res Target) (managed : environ → res PersistenceProviders).

(** The adapters, the assistants, and [app.state.migration_done]. *)
Record Startup : Type := mk_startup {
  st_adapters : dict LangGraphAdapter;
  st_assistants : AS;
  st_migration_done : option bool;
}.
Definition on_adapters {B} (m : Py (dict LangGraphAdapter) B) : Py Startup B :=
  zoom st_adapters (λ d s, mk_startup d (st_assistants s) (st_migration_done s)) m.
Definition on_registered {B} (m : Py AS B) : Py Startup B :=
  zoom st_assistants (λ a s, mk_startup (st_adapters s) a (st_migration_done s)) m.

Definition configured_entrypoints (env : environ) : list string :=
  let configured := match getenv_true env "UR_APPLICATION_ENTRYPOINTS" with
                    | Some s => Some s
                    | None => dget env "UR_APPLICATION_ENTRYPOINT"
                    end in
  List.filter str_truthy (strip_spaces <$> split_at "," (default "" configured)).

(** [module, attribute = entrypoint.split(":", 1)] *)
Definition entrypoint_parts (entrypoint : string) : res (string * string) :=
  match split_at ":" entrypoint with
  | m :: a :: rest => Ok (m, join ":" (a :: rest))
  | _ => Raise (ValueError "not enough values to unpack (expected 2, got 1)")
  end.

Definition graph_key (a : LangGraphAdapter) : string := ds_graph_id (ad_descriptor a).
Definition register_adapter (a : LangGraphAdapter) : Py (dict LangGraphAdapter) unit :=
  Registry.register (λ a, Some (graph_key a)) (λ a, adapter_id (ad_manifest a)) a.

Definition registered_assistant (env : environ) (entrypoint : string) (name : option string) (graph_id : string)
    (id : AssistantId) : Assistant :=
  mk_assistant id graph_id 1 name None [] []
    [("runtime.auto_registered", JBool true); ("runtime.entrypoint", JStr entrypoint); ("created_by", JStr "system");
     ("workspace_id", JStr (getenv env "UR_WORKSPACE_ID" "default"))] None None.

Definition load_entrypoint (mode : string) (providers : option PersistenceProviders) (entrypoint : string)
  : res LangGraphAdapter :=
  result_bind (entrypoint_parts entrypoint) (λ ma,
  result_bind (import_target ma.1 ma.2) (λ target, new_adapter target mode providers)).

Definition register_entrypoint (env : environ) (mode : string) (providers : option PersistenceProviders) (single : bool)
    (entrypoint : string) : Py Startup unit :=
  adapter <- of_result (load_entrypoint mode providers entrypoint);;
  on_adapters (register_adapter adapter);;;
  id <- of_result (parse_id (graph_key adapter));;
  let name := if single then dget env "UR_APPLICATION_NAME" else Some (graph_key adapter) in
  try_except
    (on_registered (assistants_create (registered_assistant env entrypoint name (graph_key adapter) id));;; ret tt)
    (λ e, if has_code INVALID_EXECUTION_INPUT e then ret tt
          else raise e).

(** Production keeps the graphs' state in Postgres. *)
Definition startup_providers (env : environ) : res (option PersistenceProviders) :=
  if decide (getenv env "UR_PROFILE" "local" = "production")
  then match dget env "UR_DATABASE_URL" with
       | None => Raise (KeyError "UR_DATABASE_URL")
       | Some _ => result_map Some (managed env)
       end
  else Ok None.

Definition _auto_register_application (env : environ) : Py Startup unit :=
  let entrypoints := configured_entrypoints env in
  match entrypoints with
  | [] => ret tt
  | _ =>
      let mode := getenv env "UR_PERSISTENCE_MODE" "platform-managed" in
      providers <- of_result (startup_providers env);;
      for_each (register_entrypoint env mode providers (length entrypoints =? 1)%nat) entrypoints
  end.

(** [start_local_execution] up to the start of the runtime; [migrate_platform] ends
    with [migrated].  [app.state.migration_done] is read before anything has set it. *)
Definition start_local_execution (env : environ) (migrated : res bool) : Py Startup Z :=
  match getenv_true env "UR_DATABASE_URL" with
  | Some _ =>
      s <- Prelude.get_state;;
      match st_migration_done s with
      | None => raise AttributeError
      | Some true => modify (λ s, mk_startup (st_adapters s) (st_assistants s) (Some false))
      | Some false =>
          done <- of_result migrated;;
          modify (λ s, mk_startup (st_adapters s) (st_assistants s) (Some done))
      end
  | None => modify (λ s, mk_startup (st_adapters s) (st_assistants s) (Some false))
  end;;;
  grpc_port <- of_result (py_int (getenv env "UR_GATEWAY_GRPC_PORT" "9091"));;
  _auto_register_application env;;;
  ret grpc_port.
End Startup.

(** ** What registering a worker does *)

Section WorkersSpec.
Context {D : Type} `{!Table MigrationRow D, TL : !TableLaws MigrationRow D}.
Context (isoformat : datetime → string) (py_str : json → string)
  (migrate : string → string → string → string → res (bool * string)).

(** Nothing changed but that a migration was claimed. *)
Definition claimed (v v' : gmap string MigrationRow) : Prop :=
  v' = v ∨ ∃ r, v !! mr_id r = None ∧ mr_status r = "migrating" ∧ v' = <[mr_id r := r]> v.

Lemma claim_outcome app ws e ver id (d : D) :
  claimed (tb_view d) (tb_view (claim_migration app ws e ver id d).2) ∧
  (is_ok (claim_migration app ws e ver id d).1 = true → tb_select (this_migration app ws e) d = []).
Proof using TL.
  unfold claim_migration, transaction, bind. destruct (tb_select _ d) as [|r [|r' l]]; [|by split; [left|]..].
  unfold insert_row. destruct (negb _); [by split; [left|]|]. destruct (tb_insert _ d) as [d'|] eqn:Hi; [|by split; [left|]].
  split; [|done]. apply tb_insert_ok in Hi as [Hn Hv]. right. eexists. by split_and!.
Qed.

Lemma record_raises app ws e st err (d : D) :
  ∃ x, record_migration app ws e st err d = (Raise x, d).
Proof. unfold record_migration, transaction, bind. destruct (tb_select _ d) as [|? [|? ?]]; by eexists. Qed.

(** What registering a worker does.  Without an identifier or an address it is
    refused and nothing changes.  Otherwise the worker is listed with what it sent.
    If the gateway has no database that is all; with one the answer is always an
    error, whatever the worker's migration came to: no row of the table is ever
    changed, and one that is added stays at "migrating". *)
Lemma worker_registration env now id payload (w : Workers) :
  let worker_id := text_field py_str payload "worker_id" "" in
  let target := text_field py_str payload "target" "" in
  let '(o, w') := register_worker isoformat py_str migrate env now id payload w in
  if negb (str_truthy worker_id) || negb (str_truthy target)
  then o = Raise (failure INVALID_EXECUTION_INPUT "worker_id and target are required") ∧ w' = w
  else
    wk_registry w' = dset (wk_registry w) worker_id (dset payload "registered_at" (JStr (isoformat now))) ∧
    if bool_decide (getenv_true env "UR_DATABASE_URL" = None) ||
       negb (str_truthy (text_field py_str payload "application_id" ""))
    then o = Ok (JObj [("registered", JBool true); ("worker_id", JStr worker_id); ("target", JStr target)]) ∧
         wk_rows w' = wk_rows w
    else is_ok o = false ∧ claimed (tb_view (wk_rows w)) (tb_view (wk_rows w')).
Proof using TL.
  intros worker_id target. unfold register_worker. fold worker_id target.
  destruct (negb (str_truthy worker_id) || negb (str_truthy target)); [done|].
  set (app := text_field py_str payload "application_id" ""). unfold bind at 1, modify.
  destruct (getenv_true env "UR_DATABASE_URL"); [|done]. rewrite bool_decide_eq_false_2 by done. cbn [orb].
  destruct (str_truthy app); [|done]. cbn [negb]. unfold bind at 1, on_rows at 1, zoom. cbn [wk_rows].
  match goal with |- context [claim_migration ?a ?b ?c ?d ?e _] => pose proof (claim_outcome a b c d e (wk_rows w)) as [Hc _] end.
  destruct (claim_migration _ _ _ _ _ _) as [[[]|x] d1]; cbn [snd] in Hc; [|by split].
  unfold bind at 1, of_result. destruct (migration_outcome _) as [[st err]|x]; [|by split].
  unfold bind at 1, on_rows, zoom. cbn [wk_rows wk_registry fst snd].
  match goal with |- context [record_migration ?a ?b ?c ?d ?e _] => destruct (record_raises a b c d e d1) as (x & ->) end.
  by split.
Qed.

(** What a worker posts is enough. *)
Lemma payload_accepted env config a :
  str_truthy (getenv env "UR_INSTANCE_ID" "worker") = true →
  str_truthy (getenv env "UR_WORKER_ADVERTISE_TARGET" (lc_grpc_host config +:+ ":" +:+ pretty (lc_grpc_port config))) = true →
  let payload := registration_payload env config a in
  negb (str_truthy (text_field py_str payload "worker_id" "")) || negb (str_truthy (text_field py_str payload "target" "")) = false.
Proof.
  intros H1 H2 payload. change (negb (str_truthy (getenv env "UR_INSTANCE_ID" "worker")) ||
    negb (str_truthy (getenv env "UR_WORKER_ADVERTISE_TARGET" (lc_grpc_host config +:+ ":" +:+ pretty (lc_grpc_port config)))) = false).
  by rewrite H1, H2.
Qed.
End WorkersSpec.

(** ** What the startup registers *)

(** The part of the assistants' contract that registering graphs relies on. *)
Class AssistantCreateLaws (AS : Type) `{AssistantRepository AS} : Type := {
  assistants_view : AS → gmap string Assistant;
  assistants_create_keeps a s k x :
    assistants_view s !! k = Some x → assistants_view (assistants_create a s).2 !! k = Some x;
  assistants_create_only a s k : k ≠ id_value (asst_id a) →
    assistants_view (assistants_create a s).2 !! k = assistants_view s !! k;
  assistants_create_there a s :
    match (assistants_create a s).1 with
    | Ok _ => is_Some (assistants_view (assistants_create a s).2 !! id_value (asst_id a))
    | Raise e => has_code INVALID_EXECUTION_INPUT e = true → is_Some (assistants_view s !! id_value (asst_id a))
    end;
}.

#[export] Program Instance memory_create_laws : AssistantCreateLaws Assistants.state := {
  assistants_view := dict_to_map;
}.
Next Obligation.
  intros a s k x Hk. cbn. unfold Assistants.create, dmem. destruct (dget s _) eqn:Hd; [done|]. cbn [snd].
  rewrite dict_to_map_dset. destruct (decide (k = Assistants.key a)) as [->|]; [|by rewrite lookup_insert_ne].
  rewrite <- dget_map in Hk. congruence.
Qed.
Next Obligation.
  intros a s k Hk. cbn. unfold Assistants.create, dmem. destruct (dget s _) eqn:Hd; [done|]. cbn [snd].
  by rewrite dict_to_map_dset, lookup_insert_ne.
Qed.
Next Obligation.
  intros a s. cbn. unfold Assistants.create, dmem. destruct (dget s _) eqn:Hd; cbn [fst snd].
  - intros _. rewrite <- dget_map. unfold Assistants.key in Hd. rewrite Hd. by eexists.
  - rewrite dict_to_map_dset. unfold Assistants.key. rewrite lookup_insert_eq. by eexists.
Qed.

Section StartupSpec.
Context {AS : Type} `{!AssistantRepository AS, AL : !AssistantCreateLaws AS}
  (import_target : string → string → res Target).

Notation State := (Startup (AS:=AS)).

(** The assistants that were there are there as they were. *)
Definition kept (s s' : State) : Prop :=
  ∀ k x, assistants_view (st_assistants s) !! k = Some x → assistants_view (st_assistants s') !! k = Some x.

(** The graphs of [entrypoints] have been loaded and registered, each under its own key
    and with an assistant. *)
Definition registered (mode : string) (providers : option PersistenceProviders) (entrypoints : list string)
    (s s' : State) : Prop :=
  ∃ adapters, Forall2 (λ e a, load_entrypoint import_target mode providers e = Ok a) entrypoints adapters ∧
    st_adapters s' = st_adapters s ++ ((λ a, (graph_key a, a)) <$> adapters) ∧
    NoDup (graph_key <$> adapters) ∧ (∀ a, a ∈ adapters → graph_key a ∉ dkeys (st_adapters s)) ∧
    (∀ a, a ∈ adapters → is_Some (assistants_view (st_assistants s') !! graph_key a)) ∧
    ∀ k, k ∉ graph_key <$> adapters →
      assistants_view (st_assistants s') !! k = assistants_view (st_assistants s) !! k.

Lemma register_one env mode providers single e (s : State) :
  let '(o, s') := register_entrypoint import_target env mode providers single e s in
  kept s s' ∧ st_migration_done s' = st_migration_done s ∧
  match o with Ok _ => registered mode providers [e] s s' | Raise _ => True end.
Proof using AL.
  unfold register_entrypoint. unfold bind at 1, of_result.
  destruct (load_entrypoint import_target mode providers e) as [a|x] eqn:Ha; [|by split; [intros ??|]].
  unfold bind at 1, on_adapters at 1, zoom. unfold register_adapter, Registry.register.
  change (Registry.adapter_key _ _ a) with (graph_key a).
  destruct (dmem (st_adapters s) (graph_key a)) eqn:Hm; [by split; [intros ??|]|].
  set (s1 := mk_startup _ _ _). unfold bind at 1.
  destruct (parse_id (graph_key a)) as [i|x] eqn:Hp; [|by split; [intros ??|]]. apply parse_id_inv in Hp as [Hi _].
  set (b := registered_assistant _ _ _ _ _). assert (id_value (asst_id b) = graph_key a) as Hb by done.
  unfold try_except, bind, on_registered, zoom. change (st_assistants s1) with (st_assistants s).
  pose proof (assistants_create_there b (st_assistants s)) as Hthere. rewrite Hb in Hthere.
  pose proof (λ k x, assistants_create_keeps b (st_assistants s) k x) as Hkeep.
  pose proof (λ k, assistants_create_only b (st_assistants s) k) as Honly. rewrite Hb in Honly.
  assert (∀ A', (∀ k x, assistants_view (st_assistants s) !! k = Some x → assistants_view A' !! k = Some x) →
    (∀ k, k ≠ graph_key a → assistants_view A' !! k = assistants_view (st_assistants s) !! k) →
    is_Some (assistants_view A' !! graph_key a) →
    registered mode providers [e] s (mk_startup (st_adapters s1) A' (st_migration_done s1))) as Hreg.
  { intros A' Hk Ho Hs. exists [a]. split; [by repeat constructor|]. cbn.
    apply dmem_false, dget_None in Hm. split_and!.
    - by rewrite dset_fresh.
    - apply NoDup_singleton.
    - by intros ? ->%list_elem_of_singleton.
    - by intros ? ->%list_elem_of_singleton.
    - intros k Hk'. apply Ho. set_solver. }
  destruct (assistants_create b (st_assistants s)) as [[c|x] A']; cbn [fst snd] in *.
  - split; [exact Hkeep|]. split; [done|]. by apply Hreg.
  - destruct (has_code INVALID_EXECUTION_INPUT x) eqn:Hx; [|by split; [exact Hkeep|]].
    split; [exact Hkeep|]. split; [done|]. apply Hreg; [done|done|].
    destruct (Hthere eq_refl) as [y Hy]. exists y. by apply Hkeep.
Qed.

Lemma registered_cons mode providers e es s s1 s2 :
  kept s1 s2 → registered mode providers [e] s s1 → registered mode providers es s1 s2 →
  registered mode providers (e :: es) s s2.
Proof.
  intros Hk (l & Hl & Had & _ & Hf & Hs & Ho) (l' & Hl' & Had' & Hnd' & Hf' & Hs' & Ho').
  apply Forall2_cons_inv_l in Hl as (a & l0 & Ha & ->%Forall2_nil_inv_l & ->). cbn in *.
  exists (a :: l'). split; [by constructor|]. rewrite Had', Had, <- app_assoc. split; [done|].
  rewrite Had in Hf'. assert (∀ b, b ∈ l' → graph_key b ∉ dkeys (st_adapters s) ∧ graph_key b ≠ graph_key a) as Hfresh.
  { intros b Hb. specialize (Hf' b Hb). unfold dkeys in *. rewrite fmap_app in Hf'. cbn in Hf'. set_solver. }
  split_and!.
  - cbn. constructor; [|done]. intros (b & Hab & Hb)%list_elem_of_fmap. by destruct (Hfresh b Hb).
  - intros b [->|Hb]%elem_of_cons; [apply Hf; set_solver|by apply Hfresh].
  - intros b [->|Hb]%elem_of_cons; [|by apply Hs']. destruct (Hs a) as [x Hx]; [set_solver|]. exists x. by apply Hk.
  - intros k Hk'. cbn in Hk'. rewrite Ho', Ho; set_solver.
Qed.

Lemma register_all env mode providers single es (s : State) :
  let '(o, s') := for_each (register_entrypoint import_target env mode providers single) es s in
  kept s s' ∧ st_migration_done s' = st_migration_done s ∧
  match o with Ok _ => registered mode providers es s s' | Raise _ => True end.
Proof using AL.
  revert s. induction es as [|e es IH]; intros s; cbn [for_each].
  - split; [intros ??; done|]. split; [done|]. exists []. split_and!; try done; [by rewrite app_nil_r|constructor|set_solver..].
  - unfold bind. pose proof (register_one env mode providers single e s) as H1.
    destruct (register_entrypoint _ _ _ _ _ e s) as [[[]|x] s1]; destruct H1 as (Hk1 & Hm1 & H1); [|by split_and!].
    specialize (IH s1). destruct (for_each _ es s1) as [o s2]. destruct IH as (Hk2 & Hm2 & H2).
    split; [intros k x Hx; by apply Hk2, Hk1|]. split; [congruence|]. destruct o; [|done].
    by eapply registered_cons.
Qed.

(** What the startup registers.  When the gateway starts, every graph of the
    environment has been loaded and is registered under a key of its own, and an
    assistant of that key exists, the one it had if it was there before, as after a
    restart; nothing else is registered, and no assistant changes even if the start
    fails.  Two graphs with the same name, or a name that is taken, prevent it; and
    with a database the gateway does not start at all, because it reads the state of
    the migration before anything has set it. *)
Lemma startup_registers env migrated (s : State) (managed : environ → res PersistenceProviders) :
  st_migration_done s = None →
  let '(o, s') := start_local_execution import_target managed env migrated s in
  kept s s' ∧
  match o with
  | Raise _ => True
  | Ok _ => getenv_true env "UR_DATABASE_URL" = None ∧
      ∃ providers, registered (getenv env "UR_PERSISTENCE_MODE" "platform-managed") providers
                     (configured_entrypoints env) s s'
  end.
Proof using AL.
  intros Hm. unfold start_local_execution. unfold bind at 1.
  destruct (getenv_true env "UR_DATABASE_URL") as [u|].
  { unfold bind at 1, Prelude.get_state. rewrite Hm. by split; [intros ??|]. }
  unfold modify at 1. set (s1 := mk_startup _ _ _).
  assert (∀ es p s', registered es p (configured_entrypoints env) s1 s' → registered es p (configured_entrypoints env) s s') as Hs1
    by done.
  unfold bind at 1, of_result at 1. destruct (py_int _) as [port|x]; [|by split; [intros ??|]].
  unfold bind at 1, _auto_register_application.
  destruct (configured_entrypoints env) as [|e es] eqn:Hes.
  - unfold ret. split; [by intros ??|]. split; [done|]. exists None. apply Hs1. exists [].
    split_and!; try done; [by rewrite app_nil_r|constructor|set_solver..].
  - unfold bind at 1, of_result. destruct (startup_providers managed env) as [p|x]; [|by split; [intros ??|]].
    pose proof (register_all env (getenv env "UR_PERSISTENCE_MODE" "platform-managed") p (length (e :: es) =? 1)%nat
      (e :: es) s1) as Hr.
    destruct (for_each _ (e :: es) s1) as [[[]|x] s3]; destruct Hr as (Hk & _ & Hr); [|by split].
    unfold ret. split; [exact Hk|]. split; [done|]. exists p. by apply Hs1.
Qed.
End StartupSpec.

(** ** A gateway of two graphs *)
Module LocalStartup.

Definition builder (name : string) : Target :=
  mk_target "langgraph.graph.state" ["compile"]
    (Some (λ p, Ok (mk_target "langgraph.graph.state" ["astream"; "ainvoke"; "aget_state"] None None (Some name) None
                      (pt_checkpointer p) (pt_store p) None None None (λ _, None) (λ _, Ok None))))
    None None None None false None None None (λ _, None) (λ _, Ok None).
Definition import_graph (module attribute : string) : res Target :=
  if decide (module = "phase1.graph") then Ok (builder attribute) else Raise (OtherError "ModuleNotFoundError").

Definition environment : environ := [("UR_APPLICATION_ENTRYPOINTS", "phase1.graph:agent, phase1.graph:planner,")].
Definition old_agent : Assistant := mk_assistant (mk_id "agent") "agent" 1 (Some "mine") None [] [] [] None None.
Definition start : Startup (AS:=Assistants.state) := mk_startup [] [("agent", old_agent)] None.

Lemma startup_registers_witness :
  let '(o, s') := start_local_execution import_graph (λ _, Raise AssertionError) environment (Ok true) start in
  o = Ok 9091 ∧ dkeys (st_adapters s') = ["agent"; "planner"] ∧
  assistants_view (st_assistants s') !! "agent" = Some old_agent.
Proof.
  pose proof (startup_registers import_graph environment (Ok true) start (λ _, Raise AssertionError) eq_refl) as H.
  destruct (start_local_execution _ _ _ _ start) as [o s'] eqn:Hs. destruct H as [Hk _].
  vm_compute in Hs. injection Hs as <- <-. split; [reflexivity|]. split; [vm_compute; reflexivity|].
  apply Hk. vm_compute. reflexivity.
Defined.

(** Two entry points of one name. *)
Lemma same_name_refused :
  (start_local_execution import_graph (λ _, Raise AssertionError)
     [("UR_APPLICATION_ENTRYPOINTS", "phase1.graph:agent,phase1.graph:agent")] (Ok true) start).1 =
  Raise (failure INVALID_EXECUTION_INPUT "adapter already registered: agent").
Proof. vm_compute. reflexivity. Qed.
End LocalStartup.
