(* ===== verification/PostgresModels.v ===== *)
(** * The declared tables

    [adapters/postgres/models.py] as data: the columns, keys, unique constraints and
    indexes of every table, with what they mean for a row and for two rows.  The checks
    and schemas that the repositories' rows use in [Postgres], [PostgresAssistants],
    [PostgresConfig] and [GatewayStartup] are those of the declarations.  The first
    Alembic revision, [migrations/versions/0001_platform_execution.py], creates them. *)

From S2P Require Import Prelude PyDict PyStr Json JsonAccess Errors Identity Execution Ports Database Postgres PostgresConfig PostgresAssistants.
From S2P Require Import GatewayStartup PostgresSchema.

(** ** Declarations *)

Inductive sql_type : Type :=
| String_ (n : nat)
| Integer
| Boolean
| JSON
| DateTime.

(** [mapped_column]; a [Mapped[... | None]] without [nullable] is nullable. *)
Record column : Type := mk_column {
  col_name : string;
  col_type : sql_type;
  col_nullable : bool;
  col_primary : bool;
  col_unique : bool;
  server_default : option string;
}.
Definition not_null (name : string) (t : sql_type) : column := mk_column name t false false false None.
Definition optional (name : string) (t : sql_type) : column := mk_column name t true false false None.
Definition with_default (name : string) (t : sql_type) (d : string) : column := mk_column name t false false false (Some d).
Definition unique (name : string) (t : sql_type) : column := mk_column name t false false true None.
Definition primary_key (name : string) (t : sql_type) : column := mk_column name t false true false None.

(** A unique index over the rows in which a column is one of some texts. *)
Record partial_index : Type := mk_index {
  ix_name : string;
  ix_columns : list string;
  ix_where : string * list string;
}.

Record table : Type := mk_table {
  table_name : string;
  table_schema : string;
  own_columns : list column;
  unique_constraints : list (list string);
  unique_indexes : list partial_index;
}.

Definition core : string := "rt_core".
Definition execution : string := "rt_exec".

Definition AuditMixin : list column :=
  [with_default "created_at" DateTime "now()"; optional "created_by" (String_ 255);
   with_default "updated_at" DateTime "now()"; optional "updated_by" (String_ 255); with_default "row_version" Integer "1"].
Definition columns (t : table) : list column := own_columns t ++ AuditMixin.

Module Models.
Definition id : column := primary_key "id" (String_ 255).

Definition ApplicationRow : table := mk_table "applications" core
  [id; not_null "name" (String_ 255); not_null "environment" (String_ 63); optional "active_revision_id" (String_ 255)] [] [].
Definition ApplicationRevisionRow : table := mk_table "application_revisions" core
  [id; not_null "application_id" (String_ 255); not_null "revision_number" Integer; not_null "config" JSON;
   not_null "config_hash" (String_ 64); with_default "active" Boolean "false"]
  [["application_id"; "revision_number"]; ["application_id"; "config_hash"]] [].
Definition DeploymentRow : table := mk_table "deployments" core
  [id; not_null "application_id" (String_ 255); not_null "environment" (String_ 63); not_null "status" (String_ 32)] [] [].
Definition DeploymentConfigRevisionRow : table := mk_table "deployment_config_revisions" core
  [id; not_null "deployment_id" (String_ 255); not_null "revision_number" Integer; not_null "config" JSON;
   not_null "config_hash" (String_ 64); with_default "active" Boolean "false"]
  [["deployment_id"; "revision_number"]] [].
Definition GraphRow : table := mk_table "graphs" core
  [id; not_null "application_id" (String_ 255); not_null "graph_id" (String_ 255); not_null "descriptor" JSON] [] [].
Definition AssistantRow : table := mk_table "assistants" core
  [id; not_null "application_id" (String_ 255); not_null "graph_id" (String_ 255);
   with_default "active_version" Integer "1"] [] [].
Definition AssistantVersionRow : table := mk_table "assistant_versions" core
  [id; not_null "assistant_id" (String_ 255); not_null "version" Integer; not_null "config" JSON;
   not_null "context" JSON; not_null "metadata" JSON]
  [["assistant_id"; "version"]] [].
Definition ThreadRow : table := mk_table "threads" execution
  [id; not_null "status" (String_ 32); not_null "metadata" JSON] [] [].
Definition RunRow : table := mk_table "runs" execution
  [id; not_null "workspace_id" (String_ 255); not_null "project_id" (String_ 255); not_null "application_id" (String_ 255);
   not_null "revision_id" (String_ 255); not_null "deployment_id" (String_ 255); not_null "assistant_id" (String_ 255);
   optional "thread_id" (String_ 255); not_null "attempt_id" (String_ 255); not_null "status" (String_ 32);
   not_null "metadata" JSON; optional "result" JSON; optional "error" JSON]
  [] [mk_index "uq_rt_exec_active_run_thread" ["thread_id"] ("status", ["pending"; "running"; "interrupted"])].
Definition RunAttemptRow : table := mk_table "run_attempts" execution
  [id; not_null "run_id" (String_ 255); not_null "attempt_number" Integer; optional "worker_id" (String_ 255);
   not_null "status" (String_ 32)]
  [["run_id"; "attempt_number"]] [].
Definition RunCommandRow : table := mk_table "run_commands" execution
  [id; not_null "command_id" (String_ 255); not_null "run_id" (String_ 255); not_null "payload" JSON;
   not_null "priority" Integer; not_null "available_at" DateTime]
  [["command_id"]] [].
Definition ArtifactRow : table := mk_table "artifacts" execution
  [id; not_null "run_id" (String_ 255); not_null "kind" (String_ 64); not_null "uri" (String_ 2048);
   not_null "metadata" JSON] [] [].
Definition OutboxEventRow : table := mk_table "outbox_events" execution
  [id; not_null "event_id" (String_ 255); not_null "aggregate_type" (String_ 64); not_null "aggregate_id" (String_ 255);
   not_null "topic" (String_ 255); not_null "idempotency_key" (String_ 255); not_null "payload" JSON;
   optional "published_at" DateTime]
  [["event_id"]; ["idempotency_key"]] [].
Definition InboxEventRow : table := mk_table "inbox_events" execution
  [id; not_null "consumer_name" (String_ 255); not_null "event_id" (String_ 255); not_null "payload" JSON;
   optional "processed_at" DateTime]
  [["consumer_name"; "event_id"]] [].
Definition InterruptRow : table := mk_table "interrupts" execution
  [id; not_null "run_id" (String_ 255); not_null "namespace" JSON; not_null "payload" JSON;
   with_default "resolved" Boolean "false"] [] [].
Definition RunLifecycleEventRow : table := mk_table "run_lifecycle_events" execution
  [id; not_null "run_id" (String_ 255); not_null "event_id" (String_ 255); not_null "sequence" Integer;
   not_null "event_type" (String_ 128); not_null "payload" JSON]
  [["run_id"; "sequence"]; ["event_id"]] [].
Definition WorkerRow : table := mk_table "workers" execution
  [id; unique "worker_id" (String_ 255); not_null "deployment_id" (String_ 255); not_null "status" (String_ 32);
   not_null "capabilities" JSON] [] [].
Definition WorkerLeaseRow : table := mk_table "worker_leases" execution
  [id; unique "lease_id" (String_ 255); not_null "worker_id" (String_ 255); not_null "run_id" (String_ 255);
   not_null "expires_at" DateTime; optional "acknowledged_at" DateTime] [] [].
Definition ApplicationMigrationRow : table := mk_table "application_migrations" core
  [id; not_null "application_id" (String_ 255); not_null "workspace_key" (String_ 255); not_null "environment" (String_ 63);
   not_null "app_version" (String_ 255); with_default "status" (String_ 32) "'pending'"; optional "error" (String_ 2048)]
  [["application_id"; "workspace_key"; "environment"]] [].

(** [PlatformBase.metadata] *)
Definition metadata : list table :=
  [ApplicationRow; ApplicationRevisionRow; DeploymentRow; DeploymentConfigRevisionRow; GraphRow; AssistantRow;
   AssistantVersionRow; ThreadRow; RunRow; RunAttemptRow; RunCommandRow; ArtifactRow; OutboxEventRow; InboxEventRow;
   InterruptRow; RunLifecycleEventRow; WorkerRow; WorkerLeaseRow; ApplicationMigrationRow].
End Models.

(** ** What a declaration means *)

Inductive sql_value : Type :=
| VNull
| VString (s : string)
| VInt (z : Z)
| VBool (b : bool)
| VJson (v : json)
| VTime (t : datetime).

Definition value_fits (t : sql_type) (v : sql_value) : bool :=
  match t, v with
  | String_ n, VString s => column_string n s
  | Integer, VInt z => column_int z
  | Boolean, VBool _ => true
  | JSON, VJson v => column_json v
  | DateTime, VTime _ => true
  | _, _ => false
  end.

(** A value that a statement gives for the column, or none. *)
Definition column_admits (c : column) (v : option sql_value) : bool :=
  match v with
  | None => col_nullable c || bool_decide (is_Some (server_default c))
  | Some VNull => col_nullable c
  | Some v => value_fits (col_type c) v
  end.
Definition admits (t : table) (row : dict sql_value) : bool :=
  forallb (λ c, column_admits c (dget row (col_name c))) (columns t).

(** NULL equals nothing, and JSON is not compared. *)
Definition same_value (v v' : sql_value) : bool :=
  match v, v' with
  | VString s, VString s' => bool_decide (s = s')
  | VInt z, VInt z' => bool_decide (z = z')
  | VBool b, VBool b' => bool_decide (b = b')
  | VTime t, VTime t' => bool_decide (t = t')
  | _, _ => false
  end.
Definition agree (cols : list string) (r r' : dict sql_value) : bool :=
  forallb (λ c, match dget r c, dget r' c with Some v, Some v' => same_value v v' | _, _ => false end) cols.
Definition one_of (w : string * list string) (r : dict sql_value) : bool :=
  match dget r w.1 with Some (VString s) => bool_decide (s ∈ w.2) | _ => false end.

(** The constraints besides the primary key. *)
Definition excludes (t : table) (r r' : dict sql_value) : bool :=
  existsb (λ cols, agree cols r r')
    (((λ c, [col_name c]) <$> List.filter col_unique (columns t)) ++ unique_constraints t) ||
  existsb (λ ix, agree (ix_columns ix) r r' && one_of (ix_where ix) r && one_of (ix_where ix) r') (unique_indexes t).
Definition primary (t : table) (r : dict sql_value) : option sql_value :=
  match List.filter col_primary (columns t) with [c] => dget r (col_name c) | _ => None end.

(** ** The rows of the repositories *)

Definition text_or_null (o : option string) : sql_value := match o with Some s => VString s | None => VNull end.

Definition thread_values (r : Postgres.ThreadRow) : dict sql_value :=
  [("id", VString (tr_id r)); ("status", VString (tr_status r)); ("metadata", VJson (JObj (tr_metadata r)))].
Definition run_values (r : Postgres.RunRow) : dict sql_value :=
  [("id", VString (rr_id r)); ("workspace_id", VString (rr_workspace_id r)); ("project_id", VString (rr_project_id r));
   ("application_id", VString (rr_application_id r)); ("revision_id", VString (rr_revision_id r));
   ("deployment_id", VString (rr_deployment_id r)); ("assistant_id", VString (rr_assistant_id r));
   ("thread_id", text_or_null (rr_thread_id r)); ("attempt_id", VString (rr_attempt_id r));
   ("status", VString (rr_status r)); ("metadata", VJson (JObj (rr_metadata r))); ("result", VJson (rr_result r));
   ("error", VJson (rr_error r))].
Definition assistant_values (r : PostgresAssistants.AssistantRow) : dict sql_value :=
  [("id", VString (ar_id r)); ("application_id", VString (ar_application_id r)); ("graph_id", VString (ar_graph_id r));
   ("active_version", VInt (ar_active_version r))].
Definition version_values (r : VersionRow) : dict sql_value :=
  [("id", VString (vr_id r)); ("assistant_id", VString (vr_assistant_id r)); ("version", VInt (vr_version r));
   ("config", VJson (JObj (vr_config r))); ("context", VJson (JObj (vr_context r)));
   ("metadata", VJson (JObj (vr_metadata r)))].
Definition revision_values (r : RevisionRow) : dict sql_value :=
  [("id", VString (cr_id r)); ("application_id", VString (cr_application_id r));
   ("revision_number", VInt (cr_revision_number r)); ("config", VJson (JObj (cr_config r)));
   ("config_hash", VString (cr_config_hash r)); ("active", VBool (cr_active r))].
Definition migration_values (r : MigrationRow) : dict sql_value :=
  [("id", VString (mr_id r)); ("application_id", VString (mr_application_id r));
   ("workspace_key", VString (mr_workspace_key r)); ("environment", VString (mr_environment r));
   ("app_version", VString (mr_app_version r)); ("status", VString (mr_status r)); ("error", text_or_null (mr_error r))].

(** The checks of a kind of row are those of its table. *)
Definition implements {Row} `{Schema Row} (t : table) (values : Row → dict sql_value) (fits : Row → bool) : Prop :=
  ∀ r r', fits r = admits t (values r) ∧ Some (VString (row_key r)) = primary t (values r) ∧
    row_conflict r r' = excludes t (values r) (values r').

Ltac declared :=
  intros r r'; split_and!;
  [unfold admits, columns; simpl; literal_keys; simpl; rewrite ?andb_true_r, ?andb_assoc
  |unfold primary, columns; simpl; literal_keys
  |unfold excludes, columns; simpl; unfold agree; simpl; literal_keys; simpl; rewrite ?andb_true_r, ?orb_false_r].

Lemma thread_implements : implements Models.ThreadRow thread_values thread_row_fits.
Proof. declared; done. Qed.
Lemma run_implements : implements Models.RunRow run_values run_row_fits.
Proof.
  declared; [|done|].
  - unfold run_row_fits. simpl. rewrite ?andb_true_r, ?andb_assoc. destruct (rr_thread_id r); [done|]. simpl.
    by rewrite ?andb_true_r.
  - unfold one_of, same_thread, row_active. simpl. literal_keys. by destruct (rr_thread_id r), (rr_thread_id r').
Qed.
Lemma assistant_implements : implements Models.AssistantRow assistant_values assistant_row_fits.
Proof. declared; done. Qed.
Lemma version_implements : implements Models.AssistantVersionRow version_values version_row_fits.
Proof. declared; done. Qed.
Lemma revision_implements : implements Models.ApplicationRevisionRow revision_values revision_row_fits.
Proof. declared; [done|done|]. by rewrite andb_orb_distrib_r. Qed.
Lemma migration_implements : implements Models.ApplicationMigrationRow migration_values migration_row_fits.
Proof.
  declared; [|done|by rewrite andb_assoc]. unfold migration_row_fits. by destruct (mr_error r).
Qed.

Lemma row_active_status r now : row_active (Runs.run_row r now) = active_status (run_status r).
Proof. unfold row_active, active_status, Runs.run_row. cbn [rr_status]. by destruct (run_status r). Qed.

(** C23: the index [uq_rt_exec_active_run_thread] is the rule of one active run per
    thread.  Two runs, as the repository writes them, may not be in the table together
    for its constraints and indexes exactly if some thread is occupied by both, that is
    if both belong to it and are pending, running or interrupted: runs without a thread
    and runs that are over are never in each other's way. *)
Theorem active_run_index (r r' : Run) (now now' : datetime) :
  excludes Models.RunRow (run_values (Runs.run_row r now)) (run_values (Runs.run_row r' now')) = true ↔
  ∃ t, occupies t r = true ∧ occupies t r' = true.
Proof.
  destruct (run_implements (Runs.run_row r now) (Runs.run_row r' now')) as (_ & _ & <-).
  simpl. rewrite !row_active_status. unfold same_thread, occupies, run_thread_id. simpl.
  destruct (thread_id (run_identity r)) as [[t]|], (thread_id (run_identity r')) as [[t']|]; simpl;
    repeat setoid_rewrite andb_true_iff; repeat setoid_rewrite bool_decide_eq_true; naive_solver.
Qed.

(** The declarations of [metadata] are sound: one primary key, the text [id], no column
    twice, constraints and indexes of columns that exist. *)
Definition well_formed (t : table) : bool :=
  let names := col_name <$> columns t in
  bool_decide (NoDup names) &&
  bool_decide (col_name <$> List.filter col_primary (columns t) = ["id"]) &&
  forallb (forallb (λ c, bool_decide (c ∈ names))) (unique_constraints t) &&
  forallb (λ ix, forallb (λ c, bool_decide (c ∈ names)) (fst (ix_where ix) :: ix_columns ix)) (unique_indexes t) &&
  bool_decide (table_schema t ∈ [core; execution]).

(** ** [migrations] and [create_all] *)

(** The schemas and the tables of a database. *)
Record Catalog : Type := mk_catalog {
  ct_schemas : gset string;
  ct_tables : gset (string * string);
}.
Definition table_key (t : table) : string * string := (table_schema t, table_name t).
Definition ProgrammingError : exn := OtherError "ProgrammingError".

(** [CREATE SCHEMA IF NOT EXISTS], [CREATE TABLE] and [DROP TABLE] *)
Definition create_schema (name : string) : Py Catalog unit :=
  modify (λ c, mk_catalog ({[name]} ∪ ct_schemas c) (ct_tables c)).
Definition create_table (t : table) : Py Catalog unit := λ c,
  if decide (table_schema t ∉ ct_schemas c ∨ table_key t ∈ ct_tables c) then (Raise ProgrammingError, c)
  else (Ok tt, mk_catalog (ct_schemas c) ({[table_key t]} ∪ ct_tables c)).
Definition drop_table (t : table) : Py Catalog unit := λ c,
  if decide (table_key t ∉ ct_tables c) then (Raise ProgrammingError, c)
  else (Ok tt, mk_catalog (ct_schemas c) (ct_tables c ∖ {[table_key t]})).

(** [metadata.create_all(bind, checkfirst=True)] and [drop_all] *)
Definition create_all : Py Catalog unit :=
  for_each (λ t c, if decide (table_key t ∈ ct_tables c) then (Ok tt, c) else create_table t c) Models.metadata.
Definition drop_all : Py Catalog unit :=
  for_each (λ t c, if decide (table_key t ∈ ct_tables c) then drop_table t c else (Ok tt, c)) (reverse Models.metadata).

Module Revision0001.
Definition upgrade : Py Catalog unit := create_schema core;;; create_schema execution;;; create_all.
Definition downgrade : Py Catalog unit := drop_all.
End Revision0001.

(** [create_platform_tables] of [database.py] *)
Definition create_platform_tables : Py Catalog unit := create_schema core;;; create_schema execution;;; create_all.

(** The statements of [migrate_platform] with the schemas of a prefix, on the catalog. *)
Definition migrate_statements (prefix : string) : Py Catalog unit :=
  create_schema (PostgresSchema.core prefix);;; create_schema (PostgresSchema.execution prefix);;; create_all.

Definition platform_tables : gset (string * string) := list_to_set (table_key <$> Models.metadata).

Lemma create_all_run l c : (∀ t, t ∈ l → table_schema t ∈ ct_schemas c) →
  for_each (λ t c, if decide (table_key t ∈ ct_tables c) then (Ok tt, c) else create_table t c) l c =
    (Ok tt, mk_catalog (ct_schemas c) (list_to_set (table_key <$> l) ∪ ct_tables c)).
Proof.
  revert c. induction l as [|t l IH]; intros [s ts] Hs; simpl; [unfold ret; by rewrite union_empty_l_L|].
  unfold bind. simpl in Hs |- *. pose proof (Hs t (list_elem_of_here _ _)) as Ht.
  case_decide as Hin; [|unfold create_table; simpl; rewrite decide_False by tauto]; rewrite IH by (simpl; intros; apply Hs; by right);
    simpl; do 2 f_equal; set_solver.
Qed.

Lemma drop_all_run l c :
  for_each (λ t c, if decide (table_key t ∈ ct_tables c) then drop_table t c else (Ok tt, c)) l c =
    (Ok tt, mk_catalog (ct_schemas c) (ct_tables c ∖ list_to_set (table_key <$> l))).
Proof.
  revert c. induction l as [|t l IH]; intros [s ts]; simpl; [unfold ret; by rewrite difference_empty_L|].
  unfold bind. simpl. case_decide as Hin; [unfold drop_table; simpl; rewrite decide_False by tauto|]; rewrite IH; simpl;
    do 2 f_equal; set_solver.
Qed.

Lemma metadata_schemas t : t ∈ Models.metadata → table_schema t ∈ [core; execution].
Proof.
  intros Ht. assert (forallb well_formed Models.metadata = true) as Hw by by vm_compute.
  apply (proj1 (forallb_elem _ _)) with (x := t) in Hw; [|done]. unfold well_formed in Hw.
  apply andb_true_iff in Hw as [_ Hw]. by apply bool_decide_eq_true in Hw.
Qed.

Lemma reverse_tables : list_to_set (table_key <$> reverse Models.metadata) = platform_tables.
Proof.
  unfold platform_tables. apply set_eq. intros k. rewrite !elem_of_list_to_set, !list_elem_of_fmap.
  by setoid_rewrite elem_of_reverse.
Qed.
Lemma undo_union (P T : gset (string * string)) : (P ∪ T) ∖ P = T ∖ P.
Proof. set_solver. Qed.

Lemma two_schemas (s : gset string) : {[execution]} ∪ ({[core]} ∪ s) = {[core; execution]} ∪ s.
Proof. set_solver. Qed.
Lemma union_absorb {A} `{Countable A} (P T : gset A) : P ∪ (P ∪ T) = P ∪ T.
Proof. set_solver. Qed.

Lemma upgrade_run c : Revision0001.upgrade c =
  (Ok tt, mk_catalog ({[core; execution]} ∪ ct_schemas c) (platform_tables ∪ ct_tables c)).
Proof.
  rewrite <- two_schemas. unfold Revision0001.upgrade, create_schema, bind, modify, create_all, platform_tables.
  cbn [ct_schemas ct_tables].
  rewrite create_all_run; [done|]. intros t Ht%metadata_schemas. simpl.
  apply elem_of_cons in Ht as [->|[->|[]%not_elem_of_nil]%elem_of_cons]; set_solver.
Qed.


(** [migrate_platform] does the same with its default prefix.  With another one it creates
    the schemas of the prefix and then fails on the first table, whose schema is declared
    with the default. *)
Lemma migrate_statements_prefix :
  migrate_statements "rt" = Revision0001.upgrade ∧
  (migrate_statements "tenant" (mk_catalog ∅ ∅)).1 = Raise ProgrammingError.
Proof. split; [done|by vm_compute]. Qed.

(** The declared tables are sound and distinct, and each kind of row that the code
    writes implements the table it is written to: its checks are exactly those of the
    declared columns, its key is the declared primary key, and two rows conflict exactly
    if the declared constraints and indexes exclude them, where NULL equals nothing: so
    the runs that have no thread never conflict. *)
Lemma models_agree :
  forallb well_formed Models.metadata = true ∧ NoDup (table_key <$> Models.metadata) ∧
  implements Models.ThreadRow thread_values thread_row_fits ∧ implements Models.RunRow run_values run_row_fits ∧
  implements Models.AssistantRow assistant_values assistant_row_fits ∧
  implements Models.AssistantVersionRow version_values version_row_fits ∧
  implements Models.ApplicationRevisionRow revision_values revision_row_fits ∧
  implements Models.ApplicationMigrationRow migration_values migration_row_fits.
Proof.
  split; [by vm_compute|]. split; [apply (bool_decide_unpack _); by vm_compute|].
  split_and!; [apply thread_implements|apply run_implements|apply assistant_implements|apply version_implements
              |apply revision_implements|apply migration_implements].
Qed.
