(* ===== verification/Migrations.v ===== *)
(** * Alembic's environment

    [migrations/env.py]: how [alembic upgrade] takes the platform's lock and runs the
    revisions, in which transactions, and so what of them is stored.  Alembic and the
    connections of SQLAlchemy are a class of operations with the laws that their
    documentation states; the revision is [PostgresModels.Revision0001]. *)

From S2P Require Import Prelude PyDict PyStr Errors PostgresSchema PostgresModels.

(** A database, the connections to it, and the contexts of migrations. *)
Class AlembicEnvironment (D C X : Type) := {
  connect : D → C;                                      (* [connectable.connect()] *)
  close : C → D;                                        (* the end of its [with] *)
  execute : string → dict Z → Py C unit;                (* [connection.execute(text(sql), parameters)] *)
  configure : bool → string → Py C X;                   (* [context.configure(include_schemas, version_table_schema)] *)
  in_context : X → Py C unit → Py C unit;               (* [with context.begin_transaction()] *)
  run_migrations : X → Py C unit;                       (* [context.run_migrations()] *)
}.

(** The first statement begins a transaction, which only [commit] stores: closing the
    connection rolls it back.  A context that is configured while a transaction is in
    progress leaves it to its owner: [begin_transaction] then begins and commits nothing.
    Statements within a transaction are not stored. *)
Class AlembicLaws (D C X : Type) `{AlembicEnvironment D C X} := {
  stored : C → D;
  in_transaction : C → bool;
  external : X → bool;
  connect_stored d : stored (connect d) = d;
  close_discards c : close c = stored c;
  execute_stored sql ps c : stored (execute sql ps c).2 = stored c;
  execute_begins sql ps c c' : execute sql ps c = (Ok tt, c') → in_transaction c' = true;
  configure_stored s v c : stored (configure s v c).2 = stored c;
  configure_external s v c x c' :
    configure s v c = (Ok x, c') → in_transaction c' = in_transaction c ∧ external x = in_transaction c;
  external_context x m c : external x = true → in_context x m c = m c;
  migrations_stored x c : in_transaction c = true → stored (run_migrations x c).2 = stored c;
}.

Section Env.
Context {D C X : Type} `{AlembicEnvironment D C X} (sha256 : string → list Z).

Definition lock_statement : string := "SELECT pg_advisory_xact_lock(:lock_key)".

(** [x_args]: the arguments given with [-x]. *)
Definition do_run_migrations (x_args : dict string) : Py C unit :=
  execute lock_statement
    [("lock_key", migration_lock_key sha256 (default "platform" (dget x_args "application_id"))
                    (default "default" (dget x_args "environment")) "platform")];;;
  context <- configure true core;;
  in_context context (run_migrations context).

Definition run_async_migrations (x_args : dict string) : Py D unit := λ d,
  let '(r, c) := do_run_migrations x_args (connect d) in (r, close c).
Definition run_migrations_online : dict string → Py D unit := run_async_migrations.

(** Offline, the statements are written as a script: there is no connection to lock with. *)
Definition run_migrations_offline {S Y : Type} (configure_script : string → string → bool → Py S Y)
    (in_script : Y → Py S unit → Py S unit) (write_migrations : Y → Py S unit) (url : string) : Py S unit :=
  context <- configure_script url core true;;
  in_script context (write_migrations context).

(** Whatever the revisions do, nothing of it is stored: the statement that takes the lock
    begins the transaction in which they run, and nobody commits it. *)
Lemma migrations_rolled_back `{!AlembicLaws D C X} x_args d :
  (run_migrations_online x_args d).2 = d.
Proof.
  unfold run_migrations_online, run_async_migrations, do_run_migrations, bind.
  set (ps := [_]). pose proof (execute_stored lock_statement ps (connect d)) as S1. rewrite connect_stored in S1.
  destruct (execute lock_statement ps (connect d)) as [[[]|e] c1] eqn:E1; simpl in *; [|by rewrite close_discards].
  pose proof (configure_stored true core c1) as S2.
  destruct (configure true core c1) as [[x|e] c2] eqn:E2; simpl in *; [|by rewrite close_discards, S2].
  apply execute_begins in E1. apply configure_external in E2 as [Ht Hx]. rewrite E1 in Ht, Hx.
  rewrite external_context by done. pose proof (migrations_stored x c2 Ht) as S3.
  destruct (run_migrations x c2) as [r c3]; simpl in *. by rewrite close_discards, S3, S2.
Qed.
End Env.

(** ** Connections over the catalog

    A connection has the catalog that is stored and, in a transaction, its own view of
    it; the context runs the first revision in the view. *)

Record Connection : Type := mk_connection { cn_stored : Catalog; cn_view : option Catalog }.
Definition cn_current (c : Connection) : Catalog := default (cn_stored c) (cn_view c).
Definition cn_begin (c : Connection) : Connection := mk_connection (cn_stored c) (Some (cn_current c)).
Definition cn_commit (c : Connection) : Connection := mk_connection (cn_current c) None.
Definition cn_rollback (c : Connection) : Connection := mk_connection (cn_stored c) None.
Definition cn_in_transaction (c : Connection) : bool := bool_decide (is_Some (cn_view c)).

#[export] Instance catalog_environment : AlembicEnvironment Catalog Connection bool := {
  connect d := mk_connection d None;
  close := cn_stored;
  execute _ _ := modify cn_begin;
  configure _ _ := λ c, (Ok (cn_in_transaction c), c);
  in_context ext m := if ext then m else λ c,
    match m (cn_begin c) with
    | (Ok _, c) => (Ok tt, cn_commit c)
    | (Raise e, c) => (Raise e, cn_rollback c)
    end;
  run_migrations _ := λ c,
    let '(r, v) := Revision0001.upgrade (cn_current c) in (r, mk_connection (cn_stored c) (Some v));
}.
#[export] Program Instance catalog_laws : AlembicLaws Catalog Connection bool := {
  stored := cn_stored;
  in_transaction := cn_in_transaction;
  external x := x;
}.
Solve All Obligations with try by intros; simplify_eq/=.
Next Obligation. intros sql ps c c' [= <-]. by apply bool_decide_eq_true. Qed.
Next Obligation. intros x c Hc. simpl. by destruct (Revision0001.upgrade _). Qed.

(** A new database has no table after [alembic upgrade head], which reports no error;
    without the statement for the lock, the same context stores the revision. *)
Lemma upgrade_is_lost sha256 :
  run_migrations_online sha256 [] (mk_catalog ∅ ∅) = (Ok tt, mk_catalog ∅ ∅) ∧
  ct_tables (cn_stored ((context <- configure true core;; in_context context (run_migrations context))
    (connect (mk_catalog ∅ ∅))).2) = platform_tables.
Proof.
  split.
  - apply injective_projections; [|apply migrations_rolled_back; apply _].
    unfold run_migrations_online, run_async_migrations, do_run_migrations, bind.
    cbn -[Revision0001.upgrade]. by rewrite upgrade_run.
  - cbn -[Revision0001.upgrade platform_tables]. unfold bind. cbn -[Revision0001.upgrade platform_tables].
    rewrite upgrade_run. cbn -[platform_tables]. by rewrite (right_id_L ∅ (∪)).
Qed.
