(* ===== verification/Processes.v ===== *)
(** * The processes

    [_serve] and [main] of [services/worker/main.py] and [services/all/main.py], and what
    the gateway does when it stops: the order in which a process opens its connections
    and servers, waits for the signal, and closes them.  What goes on inside is modelled
    elsewhere: the loop in [WorkerLoop], the tasks in [WorkerService] and [AllInOne], the
    gateway in [GatewayStartup].  Every step that leaves the process can fail; which one
    does is a parameter. *)

From S2P Require Import Prelude PyDict PyStr Json JsonAccess Errors Identity Execution Capacity Grpc LangGraph LangGraphLoad.
From S2P Require Import Launcher WorkerService WorkerLoop GatewayHttp GatewayStartup Database Postgres PostgresConfig PostgresModels.
From Stdlib Require Import SpecFloat.

(** The steps: those that open something, the wait, and those that close. *)
Inductive action : Type :=
| InitObservability
| CreateEngine (database_url : string) (pool_size max_overflow : Z)
| EnterPersistence (application_id environment workspace_key application_key : string)
| CreateQueue (bootstrap_servers prefix application_id group_id : string)
| StartListening (host : string) (port : Z)
| RegisterWorker (graph_id : string)
| CreateApp
| ServeHttp (host : string) (port : Z) (graceful_shutdown : Z)
| WaitForStop
| CancelTasks
| StopServer
| StopHttp
| CloseQueue
| ExitPersistence
| DisposeEngine
| ShutdownRuntime.

(** [os.environ], and the steps that were taken; the last may have failed. *)
Record Process : Type := mk_process {
  ps_environ : environ;
  ps_trace : list action;
}.

Section Processes.
(** What a step raises after the others. *)
Context (world : list action → action → option exn).

Definition perform (a : action) : Py Process unit := λ p,
  (match world (ps_trace p) a with Some e => Raise e | None => Ok tt end,
   mk_process (ps_environ p) (ps_trace p ++ [a])).
Definition perform_all (l : list action) : Py Process unit := for_each perform l.

(** [os.environ[key]] *)
Definition require_env (env : environ) (key : string) : res string :=
  match dget env key with Some v => Ok v | None => Raise (KeyError key) end.

Definition enter_persistence (env : environ) : Py Process unit :=
  let app := getenv env "UR_APPLICATION_ID" "default" in
  perform (EnterPersistence app (getenv env "UR_KAFKA_ENVIRONMENT" "local") (getenv env "UR_WORKSPACE_KEY" "default") app).

(** The queue, if Kafka is configured. *)
Definition create_queue (env : environ) : Py Process bool :=
  match getenv_true env "UR_KAFKA_BOOTSTRAP_SERVERS" with
  | Some servers =>
      let app := getenv env "UR_APPLICATION_ID" "default" in
      perform (CreateQueue servers (getenv env "UR_TOPIC_PREFIX" "rt") app (app +:+ ".worker"));;; ret true
  | None => ret false
  end.

(** ** [services/gateway/app.py] *)

(** [stop_local_execution], of an application whose startup set these attributes. *)
Definition stop_local_execution (grpc_server context engine : bool) : Py Process unit :=
  perform ShutdownRuntime;;;
  (if grpc_server then perform StopServer else ret tt);;;
  (if context then perform ExitPersistence else ret tt);;;
  (if engine then perform DisposeEngine else ret tt).
End Processes.

(** ** [services/worker/main.py] *)
Module Worker.
Section Serve.
Context (world : list action → action → option exn).
Context (import_target : string → string → res Target) (providers : PersistenceProviders).
#[local] Notation perform := (perform world).
#[local] Notation perform_all := (perform_all world).

(** [adapters[adapter.descriptor.graph_id] = adapter] for each entry point. *)
Fixpoint load_adapters (eps : list string) (adapters : dict LangGraphAdapter) : res (dict LangGraphAdapter) :=
  match eps with
  | [] => Ok adapters
  | ep :: eps =>
      result_bind (load_entrypoint import_target "platform-managed" (Some providers) ep) (λ a,
      load_adapters eps (dset adapters (graph_key a) a))
  end.

(** The [finally] clause of [_serve]. *)
Definition close_all (has_queue : bool) : list action :=
  [CancelTasks; StopServer; ExitPersistence] ++ (if has_queue then [CloseQueue] else []) ++ [DisposeEngine].

Definition _serve (config : LauncherConfig) : Py Process unit :=
  p <- Prelude.get_state;;
  let env := ps_environ p in
  perform InitObservability;;;
  eps <- of_result (entrypoints env);;
  database_url <- of_result (require_env env "UR_DATABASE_URL");;
  pool_size <- of_result (py_int (getenv env "UR_WORKER_DB_POOL_SIZE" "30"));;
  max_overflow <- of_result (py_int (getenv env "UR_WORKER_DB_MAX_OVERFLOW" "10"));;
  perform (CreateEngine database_url pool_size max_overflow);;;
  enter_persistence world env;;;
  adapters <- of_result (load_adapters eps []);;
  has_queue <- create_queue world env;;
  worker <- of_result (create_server env);;
  perform (StartListening (lc_grpc_host config) (lc_grpc_port config));;;
  for_each (λ a, perform (RegisterWorker (graph_key a))) (dvalues adapters);;;
  max_conc <- of_result (loop_slots env);;
  of_result (new_process max_conc has_queue);;;
  try_finally (perform_all [WaitForStop]) (perform_all (close_all has_queue)).

(** [main] *)
Definition main (run_forever : bool) : Py Process Z :=
  p <- Prelude.get_state;;
  config <- of_result (from_environment (ps_environ p) None);;
  of_result (validate config);;;
  (if run_forever then _serve config else ret tt);;;
  ret 0.

(** [_worker_id] *)
Definition _worker_id (env : environ) : res WorkerId := parse_id (getenv env "UR_INSTANCE_ID" "worker").
End Serve.
End Worker.

(** ** [services/all/main.py] *)
Module All.
Section Serve.
Context (world : list action → action → option exn).
Context (import_target : string → string → res Target) (providers : PersistenceProviders).
#[local] Notation perform := (perform world).
#[local] Notation perform_all := (perform_all world).

(** [if not os.environ.get(key): os.environ[key] = value] *)
Definition default_env (key value : string) : Py Process unit := λ p,
  (Ok tt, match getenv_true (ps_environ p) key with
          | Some _ => p
          | None => mk_process (dset (ps_environ p) key value) (ps_trace p)
          end).

(** The body of the [try] and its [finally] clause. *)
Definition serve_and_stop (config : LauncherConfig) : list action :=
  [StartListening "127.0.0.1" (lc_grpc_port config); WaitForStop; CancelTasks; StopServer; StopHttp].
Definition close_all (has_queue : bool) : list action :=
  (if has_queue then [CloseQueue] else []) ++ [ExitPersistence; DisposeEngine].

Definition _serve (config : LauncherConfig) : Py Process unit :=
  perform InitObservability;;;
  default_env "UR_GATEWAY_REGISTER_URL" ("http://127.0.0.1:" +:+ pretty (lc_port config) +:+ "/internal/workers/register");;;
  default_env "UR_WORKER_ADVERTISE_TARGET" ("127.0.0.1:" +:+ pretty (lc_grpc_port config));;;
  perform CreateApp;;;
  drain <- of_result (float_int (lc_worker_drain_timeout_seconds config));;
  perform (ServeHttp (lc_host config) (lc_port config) drain);;;
  p <- Prelude.get_state;;
  let env := ps_environ p in
  entrypoint <- of_result (require_env env "UR_APPLICATION_ENTRYPOINT");;
  ma <- of_result (entrypoint_parts entrypoint);;
  target <- of_result (import_target ma.1 ma.2);;
  database_url <- of_result (require_env env "UR_DATABASE_URL");;
  perform (CreateEngine database_url 30 10);;;
  enter_persistence world env;;;
  adapter <- of_result (new_adapter target "platform-managed" (Some providers));;
  has_queue <- create_queue world env;;
  ceiling <- of_result (py_int (getenv env "UR_WORKER_POLICY_CEILING" "64"));;
  worker <- of_result (new_worker (mk_worker_config (lc_worker_max_concurrency config) ceiling "UR_WORKER_MAX_CONCURRENCY") env);;
  max_conc <- of_result (loop_slots env);;
  of_result (new_process max_conc has_queue);;;
  try_finally (perform_all (serve_and_stop config)) (perform_all (close_all has_queue)).

Definition main (run_forever : bool) : Py Process Z :=
  p <- Prelude.get_state;;
  config <- of_result (from_environment (ps_environ p) None);;
  of_result (validate config);;;
  (if run_forever then _serve config else ret tt);;;
  ret 0.
End Serve.
End All.

(** ** [services/gateway/main.py] and [services/event_projector/main.py] *)
Module Gateway.
Section Main.
Context (world : list action → action → option exn).
#[local] Notation perform := (perform world).

(** [uvicorn.run(create_app(), ...)]: the arguments are evaluated before the server runs. *)
Definition main (run_forever : bool) : Py Process Z :=
  p <- Prelude.get_state;;
  config <- of_result (from_environment (ps_environ p) None);;
  of_result (validate config);;;
  (if run_forever then
     perform InitObservability;;;
     perform CreateApp;;;
     drain <- of_result (float_int (lc_worker_drain_timeout_seconds config));;
     perform (ServeHttp (lc_host config) (lc_port config) drain)
   else ret tt);;;
  ret 0.
End Main.
End Gateway.

Module Projector.
Section Main.
Context (world : list action → action → option exn).

(** It waits for an event that nobody sets; a signal ends the process. *)
Definition _serve : Py Process unit := perform world WaitForStop.
Definition main (run_forever : bool) : Py Process Z :=
  p <- Prelude.get_state;;
  config <- of_result (from_environment (ps_environ p) None);;
  of_result (validate config);;;
  (if run_forever then _serve else ret tt);;;
  ret 0.

(** The process of the projector opens nothing, so it projects no event. *)
Lemma projector_is_idle run_forever p : ∃ tr, ps_trace (main run_forever p).2 = ps_trace p ++ tr ∧ tr `prefix_of` [WaitForStop].
Proof.
  assert (∃ tr, ps_trace p = ps_trace p ++ tr ∧ tr `prefix_of` [WaitForStop]) as Hnone
    by (exists []; rewrite app_nil_r; split; [done|by exists [WaitForStop]]).
  unfold main, bind, Prelude.get_state, of_result, ret.
  destruct (from_environment (ps_environ p) None) as [c|e]; [|exact Hnone].
  destruct (validate c) as [?|e]; [|exact Hnone]. destruct run_forever; [|exact Hnone].
  exists [WaitForStop]. split; [|done]. unfold _serve, perform. by destruct (world _ _).
Qed.
End Main.
End Projector.

(** ** What is closed *)

Section Closing.
Context (world : list action → action → option exn).

(** The steps that close something do not fail. *)
Definition closing : list action := [CancelTasks; StopServer; CloseQueue; ExitPersistence; DisposeEngine].
Definition closes : Prop := ∀ tr a, a ∈ closing → world tr a = None.

Lemma perform_all_ok l p : closes → (∀ a, a ∈ l → a ∈ closing) →
  perform_all world l p = (Ok tt, mk_process (ps_environ p) (ps_trace p ++ l)).
Proof.
  intros Hc. unfold perform_all. revert p. induction l as [|a l IH]; intros [env tr] Hl; simpl; [by rewrite app_nil_r|].
  unfold bind, perform. simpl. rewrite Hc by (apply Hl; by left). rewrite IH by (intros; apply Hl; by right). simpl.
  by rewrite <- app_assoc.
Qed.

(** A list of steps is taken up to the first that fails. *)
Lemma perform_all_prefix l p : ∃ k o, (k ≤ length l)%nat ∧ (l ≠ [] → 0 < k)%nat ∧
  perform_all world l p = (o, mk_process (ps_environ p) (ps_trace p ++ take k l)).
Proof.
  unfold perform_all. revert p. induction l as [|a l IH]; intros [env tr].
  { exists 0%nat, (Ok tt). simpl. rewrite app_nil_r. by split_and!. }
  simpl. unfold bind, perform at 1. simpl. destruct (world tr a) as [e|].
  - exists 1%nat, (Raise e). simpl. rewrite take_0. split_and!; [lia|lia|done].
  - destruct (IH (mk_process env (tr ++ [a]))) as (k & o & Hk & _ & Heq). exists (S k), o.
    split_and!; [lia|lia|]. rewrite Heq. simpl. by rewrite <- app_assoc.
Qed.

(** Steps that do not include [m], in an environment that does not change. *)
Definition without (m : action) (env : environ) (p : Process) : Prop := m ∉ ps_trace p ∧ ps_environ p = env.

Lemma wp_assoc {A B C} (o : Py Process A) (f : A → Py Process B) (g : B → Py Process C) Q X p :
  wp (bind o (λ a, bind (f a) g)) Q X p → wp (bind (bind o f) g) Q X p.
Proof. unfold wp. by rewrite bind_assoc. Qed.

Section Startup.
Context (m : action) (env : environ) {A : Type} (Q : A → Process → Prop) (X : exn → Process → Prop).
Context (HX : ∀ e q, m ∉ ps_trace q → X e q).

Lemma startup_perform a f p : a ≠ m → without m env p → (∀ q, without m env q → wp (f tt) Q X q) →
  wp (bind (perform world a) f) Q X p.
Proof using HX.
  intros Ha [Hm He] Hf. unfold wp, bind, perform.
  assert (m ∉ ps_trace p ++ [a]) as Hn by (intros [?|Heq%list_elem_of_singleton]%elem_of_app; [done|congruence]).
  destruct (world _ a); [by apply HX|by apply Hf].
Qed.
Lemma startup_result {B} (r : res B) (f : B → Py Process A) p : without m env p → (∀ b, r = Ok b → wp (f b) Q X p) →
  wp (bind (of_result r) f) Q X p.
Proof using HX. intros [Hm He] Hf. unfold wp, bind, of_result. destruct r as [b|e]; [by apply Hf|by apply HX]. Qed.
Lemma startup_queue f p : (∀ s pr app g, CreateQueue s pr app g ≠ m) → without m env p →
  (∀ q, without m env q → wp (f (bool_decide (is_Some (getenv_true env "UR_KAFKA_BOOTSTRAP_SERVERS")))) Q X q) →
  wp (bind (create_queue world env) f) Q X p.
Proof using HX.
  intros Hm Hp Hf. unfold create_queue. destruct (getenv_true _ _) as [s|]; [|by apply wp_bind, wp_ret, Hf].
  apply wp_assoc. apply startup_perform; [done|done|]. intros q Hq. by apply wp_bind, wp_ret, Hf.
Qed.
Lemma startup_each {B} (g : B → action) (l : list B) f p : (∀ b, g b ≠ m) → without m env p →
  (∀ q, without m env q → wp (f tt) Q X q) → wp (bind (for_each (λ b, perform world (g b)) l) f) Q X p.
Proof using HX.
  intros Hg. revert p. induction l as [|b l IH]; intros p Hp Hf; [by apply wp_bind, wp_ret, Hf|]. cbn [for_each].
  apply wp_assoc, startup_perform; [done|done|]. intros q Hq. by apply IH.
Qed.
End Startup.

(** Once the steps [body] have begun, however they end, those of [close] follow. *)
Lemma finally_closes body close m env p : closes → (∀ a, a ∈ close → a ∈ closing) → head body = Some m → without m env p →
  ∃ o k, (0 < k ≤ length body)%nat ∧
    try_finally (perform_all world body) (perform_all world close) p =
      (o, mk_process env (ps_trace p ++ take k body ++ close)).
Proof.
  intros Hc Hl Hb [_ <-]. unfold try_finally. destruct (perform_all_prefix body p) as (k & o & Hk & Hpos & ->).
  rewrite perform_all_ok by done. simpl. exists o, k. rewrite <- app_assoc. split; [|done]. destruct body; [done|].
  split; [by apply Hpos|done].
Qed.

(** One step of a startup. *)
Ltac startup HX :=
  first
    [ eapply (startup_perform _ _ _ _ HX); [discriminate|eassumption|]; intros ? ?
    | eapply (startup_result _ _ _ _ HX); [eassumption|]; intros ? ?
    | eapply (startup_queue _ _ _ _ HX); [discriminate|eassumption|]; intros ? ?
    | eapply (startup_each _ _ _ _ HX); [discriminate|eassumption|]; intros ? ? ].

(** What a process has closed once it has begun the steps [body]. *)
Definition closed_after (body close : list action) (q : Process) : Prop :=
  ∃ tr k, (0 < k ≤ length body)%nat ∧ ps_trace q = tr ++ take k body ++ close.

Lemma finally_wp body close m env p (Q : Process → Prop) :
  closes → (∀ a, a ∈ close → a ∈ closing) → head body = Some m → without m env p →
  (∀ q, closed_after body close q → Q q) →
  wp (try_finally (perform_all world body) (perform_all world close)) (λ _, Q) (λ _, Q) p.
Proof.
  intros Hc Hl Hb Hp HQ. destruct (finally_closes body close m env p Hc Hl Hb Hp) as (o & k & Hk & Heq).
  unfold wp. rewrite Heq. destruct o; apply HQ; by exists (ps_trace p), k.
Qed.

(** The result of a run in terms of what holds of its last state. *)
Lemma wp_state {A} (o : Py Process A) (Q : Process → Prop) p : wp o (λ _, Q) (λ _, Q) p → Q (o p).2.
Proof. unfold wp. by destruct (o p) as [[?|?] ?]. Qed.

Abbreviation has_kafka env := (bool_decide (is_Some (getenv_true env "UR_KAFKA_BOOTSTRAP_SERVERS"))).

Lemma worker_closes import_target providers config p : closes → WaitForStop ∉ ps_trace p →
  let q := (Worker._serve world import_target providers config p).2 in
  WaitForStop ∈ ps_trace q → closed_after [WaitForStop] (Worker.close_all (has_kafka (ps_environ p))) q.
Proof.
  intros Hc Hp. set (env := ps_environ p). cbv zeta.
  apply (wp_state (Worker._serve world import_target providers config)
    (λ q, WaitForStop ∈ ps_trace q → closed_after [WaitForStop] (Worker.close_all (has_kafka env)) q)).
  set (Q := λ q : Process, _). assert (∀ (e : exn) q, WaitForStop ∉ ps_trace q → Q q) as HQ by (intros e q Hq ?; done).
  assert (without WaitForStop env p) as Hw by done.
  unfold Worker._serve. apply wp_bind, wp_get_state. cbv zeta. fold env. unfold enter_persistence.
  do 14 (startup HQ). eapply finally_wp; [done| |done|eassumption|by intros q' Hq' _].
  unfold Worker.close_all, closing. destruct (has_kafka env); set_solver.
Qed.

(** [os.environ] with a default. *)
Definition with_default (key value : string) (env : environ) : environ :=
  match getenv_true env key with Some _ => env | None => dset env key value end.
Lemma startup_default m env key value {A} (f : unit → Py Process A) Q X p : without m env p →
  (∀ q, without m (with_default key value env) q → wp (f tt) Q X q) → wp (bind (All.default_env key value) f) Q X p.
Proof.
  intros [Hm <-] Hf. unfold wp, bind, All.default_env. apply Hf. unfold without, with_default. by destruct (getenv_true _ _).
Qed.

Lemma with_default_other key value env k : k ≠ key → getenv_true (with_default key value env) k = getenv_true env k.
Proof. intros Hk. unfold with_default. destruct (getenv_true env key); [done|]. unfold getenv_true. by rewrite dget_dset_ne. Qed.

Lemma all_closes import_target providers config p : closes → StartListening "127.0.0.1" (lc_grpc_port config) ∉ ps_trace p →
  let q := (All._serve world import_target providers config p).2 in
  StartListening "127.0.0.1" (lc_grpc_port config) ∈ ps_trace q →
  closed_after (All.serve_and_stop config) (All.close_all (has_kafka (ps_environ p))) q.
Proof.
  intros Hc Hp. set (env := ps_environ p). set (m := StartListening _ _) in *. cbv zeta.
  apply (wp_state (All._serve world import_target providers config)
    (λ q, m ∈ ps_trace q → closed_after (All.serve_and_stop config) (All.close_all (has_kafka env)) q)).
  set (Q := λ q : Process, _). assert (∀ (e : exn) q, m ∉ ps_trace q → Q q) as HQ by (intros e q Hq ?; done).
  assert (without m env p) as Hw by done.
  unfold All._serve. startup HQ. eapply startup_default; [eassumption|]; intros ? ?.
  eapply startup_default; [eassumption|]; intros ? ?. do 3 (startup HQ).
  match goal with Hq : without m ?e ?q |- wp _ _ _ ?q => set (env' := e) in *; apply wp_bind, wp_get_state; rewrite (proj2 Hq) end.
  assert (has_kafka env' = has_kafka env) as Hkafka by (unfold env'; by rewrite !with_default_other).
  cbv zeta. unfold enter_persistence. do 12 (startup HQ). rewrite Hkafka.
  eapply finally_wp; [done| |done|eassumption|by intros q' Hq' _].
  unfold All.close_all, closing. destruct (has_kafka env); set_solver.
Qed.
End Closing.

(** ** What is not closed *)

Module LocalProcesses.
Definition environment : environ :=
  [("UR_APPLICATION_ENTRYPOINTS", "phase1.graph:agent"); ("UR_DATABASE_URL", "postgresql+psycopg://db/runtime")].
Definition providers : PersistenceProviders := local_persistence "platform-managed".
Definition start : Process := mk_process environment [].
(** The gateway refuses the worker; everything else succeeds. *)
Definition refusing (tr : list action) (a : action) : option exn :=
  match a with RegisterWorker _ => Some (RuntimeError "worker registration failed") | _ => None end.
End LocalProcesses.

(** A worker that fails before it waits closes nothing: neither its server, nor its
    persistence, nor its engine. *)
Lemma worker_startup_leaves_open :
  Worker.main LocalProcesses.refusing LocalStartup.import_graph LocalProcesses.providers true LocalProcesses.start =
    (Raise (RuntimeError "worker registration failed"),
     mk_process LocalProcesses.environment
       [InitObservability; CreateEngine "postgresql+psycopg://db/runtime" 30 10;
        EnterPersistence "default" "local" "default" "default"; StartListening "0.0.0.0" 9090; RegisterWorker "agent"]).
Proof. by vm_compute. Qed.

(** With the list of entry points alone, which the gateway and the worker accept, the
    all-in-one process starts its gateway and then fails. *)
Lemma all_in_one_needs_one_entrypoint :
  configured_entrypoints LocalProcesses.environment = ["phase1.graph:agent"] ∧
  entrypoints LocalProcesses.environment = Ok ["phase1.graph:agent"] ∧
  let '(o, q) := All.main (λ _ _, None) LocalStartup.import_graph LocalProcesses.providers true LocalProcesses.start in
  o = Raise (KeyError "UR_APPLICATION_ENTRYPOINT") ∧
  ps_trace q = [InitObservability; CreateApp; ServeHttp "0.0.0.0" 8080 30].
Proof. split_and!; by vm_compute. Qed.

(** Of two entry points of one graph the worker keeps the last, and the gateway does not
    start ([LocalStartup.same_name_refused]). *)
Lemma worker_keeps_last :
  result_map dkeys (Worker.load_adapters LocalStartup.import_graph LocalProcesses.providers
    ["phase1.graph:agent"; "phase1.graph:agent"] []) = Ok ["agent"].
Proof. by vm_compute. Qed.

(** ** The heartbeat of the worker *)

(** [WorkerRow] *)
Record WorkerRow : Type := mk_worker_row {
  wkr_id : string;
  wkr_worker_id : string;
  wkr_deployment_id : string;
  wkr_status : string;
  wkr_capabilities : json_object;
  wkr_updated_at : datetime;
}.
#[export] Instance worker_row_schema : Schema WorkerRow := {
  row_key := wkr_id;
  row_conflict := λ r r', bool_decide (wkr_worker_id r = wkr_worker_id r');
}.
Definition worker_row_fits (r : WorkerRow) : bool :=
  column_string 255 (wkr_id r) && column_string 255 (wkr_worker_id r) && column_string 255 (wkr_deployment_id r) &&
  column_string 32 (wkr_status r) && column_json (JObj (wkr_capabilities r)).

Section Heartbeat.
Context {D : Type} `{!Table WorkerRow D, TL : !TableLaws WorkerRow D}.

Definition of_worker (id : string) (r : WorkerRow) : bool := bool_decide (wkr_worker_id r = id).
Definition beat (now : datetime) (r : WorkerRow) : WorkerRow :=
  mk_worker_row (wkr_id r) (wkr_worker_id r) (wkr_deployment_id r) "active" (wkr_capabilities r) now.
Definition first_beat (instance_id app_id : string) (now : datetime) : WorkerRow :=
  mk_worker_row instance_id instance_id app_id "active" [] now.

(** [INSERT ... ON CONFLICT (worker_id) DO UPDATE]: the values are checked first. *)
Definition upsert_worker (instance_id app_id : string) (now : datetime) : Py D unit := λ d,
  let row := first_beat instance_id app_id now in
  if negb (worker_row_fits row) then (Raise DataError, d)
  else match tb_select (of_worker instance_id) d with
       | [] => insert_row worker_row_fits row d
       | _ => update_rows (of_worker instance_id) (beat now) d
       end.

(** One turn of [_heartbeat_loop]: [except Exception]. *)
Definition heartbeat (env : environ) (now : datetime) : Py D unit :=
  try_except
    (transaction (upsert_worker (getenv env "UR_INSTANCE_ID" "worker") (getenv env "UR_APPLICATION_ID" "default") now))
    (λ e, if is_exception e then ret tt else raise e).

(** A turn never fails.  The table is as it was, or the worker has one row, which is
    active at that time, and the rows of other workers are as they were. *)
Lemma heartbeat_spec env now d :
  let id := getenv env "UR_INSTANCE_ID" "worker" in
  let '(o, d') := heartbeat env now d in
  o = Ok tt ∧
  (d' = d ∨
   ((∃ k r, tb_view d' !! k = Some r ∧ wkr_worker_id r = id ∧ wkr_status r = "active" ∧ wkr_updated_at r = now) ∧
    (∀ k k' r r', tb_view d' !! k = Some r → tb_view d' !! k' = Some r' → wkr_worker_id r = id → wkr_worker_id r' = id → k = k') ∧
    ∀ k r, wkr_worker_id r ≠ id → tb_view d' !! k = Some r ↔ tb_view d !! k = Some r)).
Proof using TL.
  cbv zeta. unfold heartbeat. set (id := getenv env _ _). set (app := getenv env _ _).
  assert (∀ d' k k' r r', tb_view d' !! k = Some r → tb_view d' !! k' = Some r' → wkr_worker_id r = id →
    wkr_worker_id r' = id → k = k') as Hone.
  { intros d' k k' r r' Hk Hk' Hr Hr'. destruct (decide (k = k')) as [|Hne]; [done|].
    pose proof (proj2 (tb_consistent d') _ _ _ _ Hk Hk' Hne) as Hc. simpl in Hc. by rewrite Hr, Hr', bool_decide_true in Hc. }
  unfold try_except, transaction, upsert_worker. destruct (worker_row_fits _) eqn:Hfit; simpl negb; cbv iota; [|by split; [|left]].
  destruct (tb_select (of_worker id) d) as [|r0 l] eqn:Hsel.
  - unfold insert_row. rewrite Hfit. simpl negb. cbv iota.
    destruct (tb_insert _ d) as [d'|] eqn:Hi; [|by split; [|left]]. split; [done|right].
    apply tb_insert_ok in Hi as [Hnew Hv]. split; [|split; [by apply Hone|]].
    + exists id, (first_beat id app now). rewrite Hv. split; [by apply lookup_insert_eq|done].
    + intros k r Hr. rewrite Hv, lookup_insert. case_decide as Hk; [|done]. change (id = k) in Hk. subst k.
      split; [intros [= <-]; by destruct Hr|]. intros Hk. simpl in Hnew. congruence.
  - unfold update_rows. destruct (tb_update _ _ d) as [d'|] eqn:Hu; [|by split; [|left]]. split; [done|right].
    assert (r0 ∈ tb_select (of_worker id) d) as Hr0 by (rewrite Hsel; by left).
    apply elem_of_select in Hr0 as [Hk0 Hw0]. pose proof (proj1 (bool_decide_eq_true _) Hw0) as Hid.
    split; [|split; [by apply Hone|]].
    + exists (row_key r0), (beat now r0). rewrite (tb_update_ok _ _ _ _ Hu), lookup_fmap, Hk0. simpl. by rewrite Hw0.
    + intros k r Hr. rewrite (tb_update_ok _ _ _ _ Hu), lookup_fmap, fmap_Some. split.
      * intros (r1 & Hk & ->). destruct (of_worker id r1) eqn:Hw; [|done]. destruct Hr. by apply bool_decide_eq_true in Hw.
      * intros Hk. exists r. split; [done|]. unfold of_worker. by rewrite bool_decide_false.
Qed.
End Heartbeat.

(** The rows of the workers are those of their declared table. *)
Definition worker_values (r : WorkerRow) : dict sql_value :=
  [("id", VString (wkr_id r)); ("worker_id", VString (wkr_worker_id r)); ("deployment_id", VString (wkr_deployment_id r));
   ("status", VString (wkr_status r)); ("capabilities", VJson (JObj (wkr_capabilities r)));
   ("updated_at", VTime (wkr_updated_at r))].
Lemma worker_row_implements : implements Models.WorkerRow worker_values worker_row_fits.
Proof. declared; done. Qed.
