(* ===== verification/HttpProxy.v ===== *)
(** * Custom HTTP

    [transport/http/proxy.py], [transport/http/forwarded_headers.py] and
    [services/gateway/custom_http_routes.py]: the gateway forwards the requests below
    an application's prefix to the application's own server.  The HTTP client is a
    parameter.  Also the two middlewares of [adapters/fastapi]. *)

From S2P Require Import Prelude PyDict PyStr Json Errors.
From Stdlib Require Import Ascii SpecFloat.

(** [len] of a byte string. *)
Definition byte_length (s : string) : Z := Z.of_nat (String.length s).

(** ** [proxy.py] *)

Record ProxyLimits : Type := mk_limits {
  max_request_bytes : Z;
  max_response_bytes : Z;
  timeout_seconds : spec_float;
}.
Definition default_limits : ProxyLimits :=
  mk_limits (10 * 1024 * 1024) (50 * 1024 * 1024) (binary_normalize 53 1024 30 0 false).

Definition safe_proxy_path (path : string) : res string :=
  if decide (".." ∈ split_at "/" path)
  then Raise (failure CUSTOM_HTTP_UNAVAILABLE "path traversal is not allowed")
  else Ok ("/" +:+ lstrip "/" path).

Definition _FORWARDED : list string :=
  ["x-forwarded-host"; "x-forwarded-proto"; "x-forwarded-prefix"; "x-forwarded-for"; "forwarded"; "traceparent";
   "tracestate"; "x-request-id"].
Definition trusted_forwarded_headers (headers : dict string) (trusted : bool) : dict string :=
  if trusted then List.filter (λ kv, bool_decide (lower kv.1 ∈ _FORWARDED)) headers else [].

(** What the client is asked to send. *)
Record ClientRequest : Type := mk_client_request {
  cr_method : string;
  cr_url : string;
  cr_headers : dict string;
  cr_content : string;
  cr_timeout : spec_float;
}.
Record ClientResponse : Type := mk_client_response {
  cs_status : Z;
  cs_headers : dict string;
  cs_content : string;
}.
(** How [client.request] ends: a response with the content that [aread] decodes, an
    [httpx.TimeoutException], another [httpx.HTTPError], or another exception. *)
Inductive client_outcome : Type :=
| Responded (r : ClientResponse)
| TimedOut
| Failed
| ClientRaised (e : exn).

Definition proxied_url (target path query : string) : res string :=
  result_map (λ p, let url := rstrip "/" target +:+ p in if str_truthy query then url +:+ "?" +:+ query else url)
    (safe_proxy_path path).

Definition proxy_request (client : ClientRequest → client_outcome) (target path method : string) (headers : dict string)
    (body query : string) (trusted_proxy : bool) (limits : ProxyLimits) : res ClientResponse :=
  if max_request_bytes limits <? byte_length body
  then Raise (failure CUSTOM_HTTP_RESPONSE_TOO_LARGE "request body exceeded limit")
  else
    let forwarded := trusted_forwarded_headers headers trusted_proxy in
    result_bind (proxied_url target path query) (λ url,
      match client (mk_client_request method url forwarded body (timeout_seconds limits)) with
      | TimedOut => Raise (retryable_failure CUSTOM_HTTP_TIMEOUT "custom HTTP request timed out")
      | Failed => Raise (retryable_failure CUSTOM_HTTP_UNAVAILABLE "custom HTTP target is unavailable")
      | ClientRaised e => Raise e
      | Responded r =>
          if max_response_bytes limits <? byte_length (cs_content r)
          then Raise (failure CUSTOM_HTTP_RESPONSE_TOO_LARGE "response body exceeded limit")
          else Ok r
      end).

(** ** [custom_http_routes.py] *)

Definition excluded_headers : list string := ["content-length"; "transfer-encoding"; "connection"].

(** The response of [custom_http]: content, status, headers, and media type. *)
Definition custom_http (client : ClientRequest → client_outcome) (target : string) (limits : ProxyLimits)
    (path method : string) (headers : dict string) (body query : string)
  : res (ClientResponse * option string) :=
  result_map (λ r,
    (mk_client_response (cs_status r)
       (List.filter (λ kv, negb (bool_decide (lower kv.1 ∈ excluded_headers))) (cs_headers r)) (cs_content r),
     dget (cs_headers r) "content-type"))
    (proxy_request client target path method headers body query true limits).

(** ** The middlewares of [adapters/fastapi] *)

(** [RootPathMiddleware]: the root path it is made with, and what it sets in a scope of
    [type]. *)
Definition root_path (path : string) : string :=
  let p := strip "/" path in if str_truthy p then "/" +:+ p else "".
Definition scope_root_path (path type : string) : option string :=
  if decide (type ∈ ["http"; "websocket"]) then Some (root_path path) else None.

(** [RequestContextMiddleware]: the headers that are kept for the request, of those it
    was sent with; the later of two equal names counts. *)
Definition context_headers (headers : list (string * string)) : dict string :=
  let h := foldl (λ d kv, dset d (lower kv.1) kv.2) [] headers in
  foldr (λ k d, match dget h k with Some v => (k, v) :: d | None => d end) []
    ["x-request-id"; "traceparent"; "tracestate"].
(** The context variable is set while the application runs and then reset. *)
Definition with_context {A} (type : string) (headers : list (string * string)) (app : Py (option (dict string)) A)
  : Py (option (dict string)) A := λ before,
  if negb (bool_decide (type = "http")) then app before
  else let '(r, _) := app (Some (context_headers headers)) in (r, before).

(** ** What they do *)

(** The segments of a path without the empty ones at its front. *)
Fixpoint skip_empty (l : list string) : list string :=
  match l with "" :: l => skip_empty l | l => l end.

Lemma split_at_lstrip c s : split_at c (lstrip c s) = match skip_empty (split_at c s) with [] => [""] | l => l end.
Proof.
  induction s as [|a s IH]; [done|]. cbn [lstrip split_at]. destruct (decide (a = c)) as [->|Hne]; [done|].
  cbn [split_at]. rewrite decide_False by done. by destruct (split_at c s).
Qed.

Lemma elem_of_skip_empty w l : w ∈ skip_empty l → w ∈ l.
Proof.
  induction l as [|v l IH]; [done|]. destruct v; simpl; [|done]. intros H. right. by apply IH.
Qed.

(** A proxied request stays below its target.  A path is accepted unless one of its
    segments is [..]; then the request goes to the target's own address followed by one
    slash, the path's segments without leading empty ones, and the query; none of the
    segments is [..], and a second slash does not follow the first. *)
Lemma proxied_path_safe target path query :
  match proxied_url target path query with
  | Raise e => ".." ∈ split_at "/" path ∧ e = failure CUSTOM_HTTP_UNAVAILABLE "path traversal is not allowed"
  | Ok url =>
      ∃ rest, url = rstrip "/" target +:+ "/" +:+ rest +:+ (if str_truthy query then "?" +:+ query else "") ∧
        ".." ∉ split_at "/" rest ∧ starts_with "/" rest = false ∧
        split_at "/" rest = match skip_empty (split_at "/" path) with [] => [""] | l => l end
  end.
Proof.
  unfold proxied_url, safe_proxy_path. case_decide as Hd; cbn [result_map]; [done|].
  exists (lstrip "/" path). split; [|split_and!].
  - destruct (str_truthy query); rewrite ?app_string_assoc; [done|]. by rewrite app_string_nil_r.
  - rewrite split_at_lstrip. intros Hin. apply Hd. destruct (skip_empty (split_at "/" path)) as [|w l] eqn:Hs.
    + apply list_elem_of_singleton in Hin. discriminate Hin.
    + apply elem_of_skip_empty. by rewrite Hs.
  - destruct (lstrip "/" path) as [|a t] eqn:Hl; [done|]. cbn. rewrite decide_False; [done|].
    intros <-. by apply lstrip_head in Hl.
  - apply split_at_lstrip.
Qed.

(** Every outcome of a proxied request.  A body over the limit is refused before
    anything is sent; what is sent has the method, the body and the address unchanged,
    and of the headers only those that tell about the forwarding; a timeout and an
    unreachable target are failures that can be tried again; and an answer is passed on
    exactly if it is within the limit. *)
Lemma proxy_outcomes (client : ClientRequest → client_outcome) target path method headers body query trusted limits :
  let sent url := mk_client_request method url (trusted_forwarded_headers headers trusted) body (timeout_seconds limits) in
  match proxy_request client target path method headers body query trusted limits with
  | Ok r => byte_length body ≤ max_request_bytes limits ∧
      ∃ url, proxied_url target path query = Ok url ∧ client (sent url) = Responded r ∧
        byte_length (cs_content r) ≤ max_response_bytes limits
  | Raise e =>
      (e = failure CUSTOM_HTTP_RESPONSE_TOO_LARGE "request body exceeded limit" ∧
         max_request_bytes limits < byte_length body) ∨
      (proxied_url target path query = Raise e) ∨
      ∃ url, proxied_url target path query = Ok url ∧
        match client (sent url) with
        | TimedOut => e = retryable_failure CUSTOM_HTTP_TIMEOUT "custom HTTP request timed out"
        | Failed => e = retryable_failure CUSTOM_HTTP_UNAVAILABLE "custom HTTP target is unavailable"
        | ClientRaised e' => e = e'
        | Responded r => e = failure CUSTOM_HTTP_RESPONSE_TOO_LARGE "response body exceeded limit" ∧
            max_response_bytes limits < byte_length (cs_content r)
        end
  end ∧
  ∀ k v, (k, v) ∈ trusted_forwarded_headers headers trusted ↔
    (k, v) ∈ headers ∧ trusted = true ∧ lower k ∈ _FORWARDED.
Proof.
  intros sent. split.
  - unfold proxy_request. destruct (_ <? byte_length body) eqn:Hb; to_prop; [left; split; [done|lia]|].
    destruct (proxied_url target path query) as [url|e]; cbn [result_bind]; [|by right; left].
    fold (sent url). destruct (client (sent url)) as [r| | |e] eqn:Hc; [|right; right; exists url; by rewrite Hc..].
    destruct (_ <? byte_length (cs_content r)) eqn:Hr; to_prop.
    + right; right. exists url. rewrite Hc. by split_and!.
    + split; [lia|]. exists url. by split_and!.
  - intros k v. unfold trusted_forwarded_headers. destruct trusted.
    + rewrite !list_elem_of_In, filter_In. cbn [fst]. rewrite <- (list_elem_of_In _FORWARDED). rewrite bool_decide_eq_true. split; [intros [??]; by split_and!|intros (? & _ & ?); by split].
    + split; [by intros ?%not_elem_of_nil|by intros (_ & ? & _)].
Qed.

(** The content type of a request is not forwarded; the coding of a response's content
    is, though the content has been decoded. *)
Lemma proxy_headers_lost :
  trusted_forwarded_headers [("content-type", "application/json"); ("authorization", "Bearer t")] true = [] ∧
  ∀ client target path method headers body query r t,
    custom_http client target default_limits path method headers body query = Ok (r, t) →
    ∀ url v, proxied_url target path query = Ok url →
    ∀ r0, client (mk_client_request method url (trusted_forwarded_headers headers true) body (timeout_seconds default_limits)) = Responded r0 →
    ("content-encoding", v) ∈ cs_headers r0 → ("content-encoding", v) ∈ cs_headers r.
Proof.
  split; [done|]. intros client target path method headers body query r t Hr url v Hu r0 Hc Hin.
  unfold custom_http, proxy_request in Hr. destruct (_ <? byte_length body); [done|]. rewrite Hu in Hr.
  cbn [result_bind] in Hr. rewrite Hc in Hr. destruct (_ <? byte_length (cs_content r0)); [done|].
  injection Hr as <- _. cbn. apply list_elem_of_In, filter_In. split; [by apply list_elem_of_In|done].
Qed.
