(* ===== verification/FastapiDiscovery.v ===== *)
(** * Discovery of ASGI applications

    [adapters/fastapi]: which module and attribute of a project is its ASGI
    application.  A file is what the scanner asks of it: its path, size and syntax
    tree; importing a module and running the isolated inspector are parameters. *)

From S2P Require Import Prelude PyDict PyStr Json Errors.
From Stdlib Require Import Ascii.

(** ** [ast_scanner.py] *)

Definition _IGNORED : list string := [".git"; ".venv"; "venv"; "node_modules"; "__pycache__"; "dist"; "build"].

(** The nodes of [ast.walk] that the scanner tells apart. *)
Inductive ast_expr : Type :=
| Name (id : string)
| Call (func : ast_expr)
| OtherExpr.
Inductive ast_node : Type :=
| Assign (targets : list ast_expr) (value : ast_expr)
| OtherNode.

(** A file that [root.rglob("*.py")] finds: the parts of its path below the root, without
    the suffix in the last one, whether it resolves to a file below the root, its size,
    and the walk of its tree, a [SyntaxError]'s line, or another exception of reading. *)
Inductive source_text : Type :=
| Parsed (nodes : list ast_node)
| BadSyntax (line : option Z)
| Unreadable (e : exn).
Record source_file : Type := mk_source_file {
  sf_parts : list string;
  sf_inside : bool;
  sf_size : Z;
  sf_text : source_text;
}.
Definition with_suffix_py (parts : list string) : list string :=
  match last parts with Some l => removelast parts ++ [l +:+ ".py"] | None => parts end.

(** [path.parts] are the parts of the resolved root, here without its leading slash,
    and those below it. *)
Definition ignored (root_parts : list string) (f : source_file) : bool :=
  existsb (λ p, bool_decide (p ∈ _IGNORED)) (root_parts ++ with_suffix_py (sf_parts f)).

Definition _module_name (f : source_file) : string :=
  let parts := sf_parts f in
  join "." (if decide (last parts = Some "__init__") then removelast parts else parts).

Definition function_name (value : ast_expr) : option string :=
  match value with Call (Name id) => Some id | _ => None end.
Definition node_candidates (module : string) (n : ast_node) : list string :=
  match n with
  | Assign targets value =>
      if decide (function_name value ∈ [Some "FastAPI"; Some "Starlette"])
      then omap (λ t, match t with Name id => Some (module +:+ ":" +:+ id) | _ => None end) targets
      else []
  | OtherNode => []
  end.

(** [tuple(dict.fromkeys(l))] *)
Definition unique (l : list string) : list string := dkeys (foldl (λ d k, dset d k tt) [] l).

(** The loop over the files; [files] counts those that were considered. *)
Fixpoint scan (root_parts : list string) (max_files max_bytes files : Z) (candidates : list string)
    (paths : list source_file) : res (list string) :=
  match paths with
  | [] => Ok (unique candidates)
  | f :: paths =>
      if ignored root_parts f || negb (sf_inside f) then scan root_parts max_files max_bytes files candidates paths
      else
        let files := files + 1 in
        if max_files <? files then Ok (unique candidates)
        else if max_bytes <? sf_size f then scan root_parts max_files max_bytes files candidates paths
        else
          match sf_text f with
          | BadSyntax line =>
              Raise (Failure (mk_failure ASGI_SYNTAX_ERROR "application source contains invalid Python syntax" false
                [("path", JStr ("/" +:+ join "/" (root_parts ++ with_suffix_py (sf_parts f))));
                 ("line", match line with Some n => JInt n | None => JNull end)]))
          | Unreadable e => Raise e
          | Parsed nodes =>
              scan root_parts max_files max_bytes files
                (candidates ++ (nodes ≫= node_candidates (_module_name f))) paths
          end
  end.
Definition discover_fastapi_entrypoints (root_parts : list string) (paths : list source_file) : res (list string) :=
  scan root_parts 1000 1000000 0 [] paths.

(** ** [descriptor.py] *)

Record RouteDescriptor : Type := mk_route {
  rt_path : string;
  rt_methods : list string;
  rt_name : option string;
}.
Record AsgiApplicationDescriptor : Type := mk_asgi {
  as_entrypoint : string;
  as_framework : string;
  as_object_kind : string;
  as_routes : list RouteDescriptor;
  as_has_lifespan : bool;
  as_docs_paths : list string;
  as_detection_method : string;
  as_warnings : list string;
}.

(** What [describe_application] asks of an application: its routes, with no path for one
    whose path is no string, its router, and the module of its type. *)
Record asgi_application : Type := mk_application {
  app_routes : list (option string * list string * option string);
  app_router : bool;
  app_module : string;
}.
Fixpoint insert_string (s : string) (l : list string) : list string :=
  match l with
  | [] => [s]
  | t :: l' => if String.leb s t then s :: l else t :: insert_string s l'
  end.
Definition sorted_methods (l : list string) : list string := foldr insert_string [] l.

Definition describe_application (a : asgi_application) (entrypoint detection_method : string) : AsgiApplicationDescriptor :=
  let routes := omap (λ r, match r.1.1 with Some p => Some (mk_route p (sorted_methods r.1.2) r.2) | None => None end) (app_routes a) in
  mk_asgi entrypoint (match split_at "." (app_module a) with w :: _ => w | [] => "" end) "application" routes (app_router a)
    (List.filter (λ p, existsb (λ r, bool_decide (rt_path r = p)) routes) ["/docs"; "/redoc"; "/openapi.json"])
    detection_method [].

(** ** [detector.py] and [loader.py] *)

Definition ascii_letter (c : ascii) : bool :=
  let n := nat_of_ascii c in ((65 <=? n) && (n <=? 90) || (97 <=? n) && (n <=? 122))%nat.
Definition ascii_digit (c : ascii) : bool := let n := nat_of_ascii c in ((48 <=? n) && (n <=? 57))%nat.
Definition name_start (c : ascii) : bool := ascii_letter c || Ascii.eqb c "_".
Definition name_char (c : ascii) : bool := name_start c || ascii_digit c.
Definition starts_name (tail : ascii → bool) (s : string) : bool :=
  match s with String c s => name_start c && string_forall tail s | EmptyString => false end.
(** [_ENTRYPOINT.fullmatch]: none of its characters but the separator is a colon. *)
Definition is_entrypoint (s : string) : bool :=
  match split_at ":" s with
  | [m; a] => starts_name (λ c, name_char c || Ascii.eqb c ".") m && starts_name name_char a
  | _ => false
  end.

Definition invalid_entrypoint (entrypoint : string) : exn :=
  Failure (mk_failure CUSTOM_HTTP_ENTRYPOINT_INVALID "ASGI entrypoint must use module.path:attribute syntax" false
    [("entrypoint", JStr entrypoint)]).

Definition found (entrypoint framework method : string) : AsgiApplicationDescriptor :=
  mk_asgi entrypoint framework "application" [] true [] method [].

Definition detect_asgi_application (root_parts : list string) (paths : list source_file)
    (inspect_isolated : res AsgiApplicationDescriptor) (explicit_entrypoint : option string) (isolated_import : bool)
  : res AsgiApplicationDescriptor :=
  match explicit_entrypoint with
  | Some (String _ _ as e) => if is_entrypoint e then Ok (found e "asgi" "explicit") else Raise (invalid_entrypoint e)
  | _ =>
      result_bind (discover_fastapi_entrypoints root_parts paths) (λ candidates,
        match candidates with
        | [c] => Ok (found c "fastapi" "ast")
        | _ :: _ :: _ =>
            Raise (Failure (mk_failure CUSTOM_HTTP_DISCOVERY_AMBIGUOUS "multiple ASGI applications were discovered" false
              [("candidates", JList (JStr <$> candidates))]))
        | [] =>
            if isolated_import then inspect_isolated
            else Raise (failure CUSTOM_HTTP_UNAVAILABLE "no ASGI application was discovered")
        end)
  end.

(** [load_asgi]: importing gives an object, with whether it can be called; an
    [ImportError] or [AttributeError]; or another exception. *)
Inductive import_outcome (V : Type) : Type :=
| Imported (v : V) (callable : bool)
| NotFound
| ImportRaised (e : exn).
Arguments Imported {V}. Arguments NotFound {V}. Arguments ImportRaised {V}.

Definition load_asgi {V} (import : string → string → import_outcome V) (entrypoint : string) : res V :=
  if negb (is_entrypoint entrypoint) then Raise (invalid_entrypoint entrypoint)
  else match split_at ":" entrypoint with
       | [m; a] =>
           match import m a with
           | NotFound => Raise (failure CUSTOM_HTTP_ENTRYPOINT_INVALID "ASGI entrypoint could not be loaded")
           | ImportRaised e => Raise e
           | Imported v true => Ok v
           | Imported v false => Raise (failure CUSTOM_HTTP_ENTRYPOINT_INVALID "ASGI entrypoint is not callable")
           end
       | _ => Raise (invalid_entrypoint entrypoint)
       end.

(** [app_server.py]: the application with its context middleware below the one for the
    root path, and the descriptor of the application itself. *)
Definition load_application {V} (import : string → string → import_outcome V) (context : V → V) (with_root_path : V → string → V)
    (entrypoint root_path : string) : res V :=
  result_map (λ a, with_root_path (context a) root_path) (load_asgi import entrypoint).
Definition load_application_with_descriptor {V} (import : string → string → import_outcome V) (context : V → V)
    (with_root_path : V → string → V) (inspect : V → asgi_application) (entrypoint root_path : string)
  : res (V * AsgiApplicationDescriptor) :=
  result_map (λ a, (with_root_path (context a) root_path, describe_application (inspect a) entrypoint "import"))
    (load_asgi import entrypoint).

(** ** [isolated_inspector.py] *)

Definition isolated_names : list string := ["app"; "application"; "api"; "asgi"; "create_app"; "build_app"].
Definition isolated_candidates (modules : list (list string)) : list string :=
  modules ≫= λ parts,
    if decide (last parts = Some "__init__") then []
    else (λ n, join "." parts +:+ ":" +:+ n) <$> isolated_names.

(** What [subprocess.run] gives, [None] for [TimeoutExpired]; reading the standard
    output as a descriptor, [None] for text that is none. *)
Definition inspect_isolated (modules : list (list string)) (run : list string → option (Z * string))
    (decode : string → option AsgiApplicationDescriptor) : res AsgiApplicationDescriptor :=
  let candidates := isolated_candidates modules in
  match candidates with
  | [] => Raise (failure CUSTOM_HTTP_UNAVAILABLE "no isolated ASGI candidates found")
  | _ =>
      match run candidates with
      | None => Raise (failure CUSTOM_HTTP_TIMEOUT "isolated ASGI inspection timed out")
      | Some (returncode, stdout) =>
          if negb (returncode =? 0) || negb (str_truthy (strip_spaces stdout))
          then Raise (Failure (mk_failure CUSTOM_HTTP_UNAVAILABLE "isolated ASGI inspection failed" false
                 [("returncode", JInt returncode)]))
          else if 64000 <? Z.of_nat (String.length stdout)
          then Raise (failure CUSTOM_HTTP_RESPONSE_TOO_LARGE "inspection output exceeded limit")
          else match decode stdout with
               | Some d => Ok d
               | None => Raise (failure CUSTOM_HTTP_UNAVAILABLE "isolated inspector returned invalid JSON")
               end
      end
  end.

(** ** What is discovered *)

Section Discovery.
Context (root_parts : list string).

(** The files that count, at most a thousand, and of these the ones that are read. *)
Definition eligible (f : source_file) : bool := negb (ignored root_parts f) && sf_inside f.
Definition read_files (max_files : nat) (max_bytes : Z) (paths : list source_file) : list source_file :=
  List.filter (λ f, sf_size f <=? max_bytes) (take max_files (List.filter eligible paths)).
Definition file_candidates (f : source_file) : res (list string) :=
  match sf_text f with
  | Parsed nodes => Ok (nodes ≫= node_candidates (_module_name f))
  | BadSyntax line =>
      Raise (Failure (mk_failure ASGI_SYNTAX_ERROR "application source contains invalid Python syntax" false
        [("path", JStr ("/" +:+ join "/" (root_parts ++ with_suffix_py (sf_parts f))));
         ("line", match line with Some n => JInt n | None => JNull end)]))
  | Unreadable e => Raise e
  end.

Lemma scan_reference max_bytes paths n k acc :
  scan root_parts (Z.of_nat (n + k)) max_bytes (Z.of_nat k) acc paths =
  result_map (λ ls, unique (acc ++ mjoin ls)) (result_mapM file_candidates (read_files n max_bytes paths)).
Proof.
  revert n k acc. induction paths as [|f paths IH]; intros n k acc.
  - unfold read_files. cbn [List.filter]. rewrite take_nil. cbn. by rewrite app_nil_r.
  - cbn [scan]. unfold read_files. cbn [List.filter]. unfold eligible at 1.
    destruct (ignored root_parts f), (sf_inside f); cbn [negb orb andb]; try apply IH.
    destruct n as [|n].
    { rewrite (proj2 (Z.ltb_lt _ _)) by lia. cbn. by rewrite app_nil_r. }
    rewrite (proj2 (Z.ltb_ge _ _)) by lia. cbn [take List.filter].
    replace (Z.of_nat k + 1) with (Z.of_nat (S k)) by lia. replace (S n + k)%nat with (n + S k)%nat by lia.
    rewrite Z.leb_antisym. destruct (max_bytes <? sf_size f); cbn [negb]; [apply IH|]. cbn [result_mapM].
    unfold file_candidates at 1. destruct (sf_text f) as [nodes|line|e]; cbn [result_bind result_map]; [|done..].
    rewrite IH. fold (read_files n max_bytes paths). destruct (result_mapM _ _); cbn [result_map]; [|done].
    by rewrite <- app_assoc.
Qed.

Lemma elem_of_unique l x : x ∈ unique l ↔ x ∈ l.
Proof.
  unfold unique. enough (∀ d, x ∈ dkeys (foldl (λ d k, dset d k tt) d l) ↔ x ∈ dkeys d ∨ x ∈ l) as H
    by (rewrite (H []); set_solver).
  induction l as [|y l IH]; intros d; cbn [foldl]; [set_solver|]. rewrite IH.
  assert (x ∈ dkeys (dset d y ()) ↔ x = y ∨ x ∈ dkeys d) as ->; [|set_solver].
  destruct (decide (y ∈ dkeys d)) as [Hy|Hy]; [rewrite dkeys_dset_mem by done; set_solver|].
  rewrite dset_fresh by done. unfold dkeys. rewrite fmap_app. set_solver.
Qed.
Lemma NoDup_unique l : NoDup (unique l).
Proof.
  unfold unique. enough (∀ d, dict_wf d → dict_wf (foldl (λ d k, dset d k tt) d l)) as H by (apply (H []); constructor).
  induction l as [|y l IH]; intros d Hd; [done|]. cbn [foldl]. by apply IH, dset_wf.
Qed.

(** C33: the scanner finds what it is meant to find.  It reads, in the order it meets
    them, the files that are neither ignored nor outside the root, the first thousand
    and of these those of at most a million bytes; the first that cannot be parsed or
    read is its error; otherwise it gives every name to which one of them assigns a call
    of [FastAPI] or [Starlette], once.  Without an explicit entry point an application
    is detected exactly if there is one such name. *)
Theorem discovery_reference paths :
  let files := read_files 1000 1000000 paths in
  discover_fastapi_entrypoints root_parts paths =
    result_map (λ ls, unique (mjoin ls)) (result_mapM file_candidates files) ∧
  (∀ l, NoDup (unique l) ∧ ∀ x, x ∈ unique l ↔ x ∈ l) ∧
  (∀ f c, file_candidates f = Ok c → ∀ x, x ∈ c ↔
     ∃ nodes targets id name, sf_text f = Parsed nodes ∧ Assign targets (Call (Name name)) ∈ nodes ∧
       (name = "FastAPI" ∨ name = "Starlette") ∧ Name id ∈ targets ∧ x = _module_name f +:+ ":" +:+ id) ∧
  ∀ inspect c, detect_asgi_application root_parts paths inspect None false = Ok (found c "fastapi" "ast") ↔
    discover_fastapi_entrypoints root_parts paths = Ok [c].
Proof.
  intros files. split; [|split; [|split]].
  - exact (scan_reference 1000000 paths 1000 0 []).
  - intros l. split; [apply NoDup_unique|intros x; apply elem_of_unique].
  - intros f c Hc x. unfold file_candidates in Hc. destruct (sf_text f) as [nodes|line|e]; [|done..]. injection Hc as <-.
    rewrite list_elem_of_bind. split.
    + intros (n & Hx & Hn). destruct n as [targets value|]; [|by apply not_elem_of_nil in Hx]. cbn in Hx.
      case_decide as Hf; [|by apply not_elem_of_nil in Hx]. apply list_elem_of_omap in Hx as (t & Ht & Hx).
      destruct t as [id| |]; [|done..]. injection Hx as <-. destruct value as [|[name| |]|]; cbn in Hf; set_solver.
    + intros (nodes' & targets & id & name & [= <-] & Hn & Hname & Hid & ->). eexists. split; [|exact Hn]. cbn.
      rewrite decide_True by (destruct Hname as [->| ->]; set_solver). apply list_elem_of_omap. by exists (Name id).
  - intros inspect c. unfold detect_asgi_application.
    destruct (discover_fastapi_entrypoints root_parts paths) as [[|a [|b l]]|e]; cbn; split; intros H; simplify_eq; done.
Qed.
End Discovery.

(** The parts of the root count as well: below a directory named [build] there is no
    application, and what is found is not always an entry point. *)
Definition main_file (parts : list string) : source_file :=
  mk_source_file parts true 100 (Parsed [OtherNode; Assign [Name "app"] (Call (Name "FastAPI"))]).
Lemma root_below_build :
  discover_fastapi_entrypoints ["srv"; "shop"] [main_file ["shop"; "main"]] = Ok ["shop.main:app"] ∧
  discover_fastapi_entrypoints ["build"; "shop"] [main_file ["shop"; "main"]] = Ok [] ∧
  discover_fastapi_entrypoints ["srv"; "shop"] [main_file ["__init__"]] = Ok [":app"] ∧
  is_entrypoint ":app" = false.
Proof. vm_compute. by split_and!. Qed.
