(* ===== verification/GatewayApp.v ===== *)
(** * The gateway's application

    What [create_app] of [services/gateway/app.py] is made of around its routes: the
    runtime, the schema of configurations, the middlewares, and the optional routes of
    custom HTTP and of A2A ([create_a2a_routes] of [adapters/a2a/server.py]). *)

From S2P Require Import Prelude PyDict PyStr Json Errors Identity Execution.
From S2P Require Import Launcher Telemetry.
From S2P Require A2A Bootstrap LangGraphLoad.

(** ** [create_a2a_routes] *)

Section A2ARoutes.
(** The routes that the SDK makes of a card, and of a handler with its executor, task
    store and identifiers, at a path. *)
Context {R : Type} (create_agent_card_routes : A2A.AgentCard → string → list R)
  (create_jsonrpc_routes : A2A.AgentCard → string → list R).

(** [RuntimeIdGenerator.generate]: [str(RunId.new())] *)
Definition generate (fresh : nat → string) : Py nat string := λ k, (Ok (fresh k), S k).

Definition sdk_routes (card : A2A.AgentCard) (card_path : string) : list R :=
  create_agent_card_routes card card_path ++ create_jsonrpc_routes card "/".
Definition create_a2a_routes (installed : bool) (assistant : Assistant) (manifest : LangGraphLoad.AdapterManifest)
    (public_url card_path : string) : res (list R) :=
  if negb installed then Raise (failure ADAPTER_NOT_SUPPORTED "A2A SDK is not installed")
  else Ok (sdk_routes (A2A.build_agent_card (A2A.route_descriptor assistant manifest public_url)) card_path).
End A2ARoutes.

(** ** [create_app] *)

(** [_load_schema]; reading and parsing the file is a parameter. *)
Definition _load_schema (read_json : string → res json) (default_path : string) (env : environ) : res json :=
  read_json (getenv env "UR_CONTRACT_SCHEMA_PATH" default_path).

(** [_validation_errors] of what the validator finds: paths and messages. *)
Definition _validation_errors (iter_errors : json → json → list (list json * string)) (schema payload : json) : list json :=
  (λ '(path, message), JObj [("path", JList path); ("message", JStr message)]) <$> iter_errors schema payload.

(** The application: what its state has, and the routes that are added to the fixed ones. *)
Record App (V R : Type) : Type := mk_app {
  app_runtime : V;
  app_schema : json;
  app_custom_http : option string;
  app_a2a : list R;
}.
Arguments mk_app {V R}.
Arguments app_runtime {V R}.
Arguments app_schema {V R}.
Arguments app_custom_http {V R}.
Arguments app_a2a {V R}.

Section CreateApp.
Context {V A R : Type} (create_engine : string → Z → Z → res unit) (local_runtime : V) (register : A → V → V)
  (read_json : string → res json) (default_path : string) (a2a_installed : bool)
  (create_agent_card_routes create_jsonrpc_routes : A2A.AgentCard → string → list R).

(** The routes of A2A, if both of its parameters are given. *)
Definition optional_routes (a2a_assistant : option Assistant) (a2a_manifest : option LangGraphLoad.AdapterManifest)
    (a2a_public_url : string) : res (list R) :=
  match a2a_assistant, a2a_manifest with
  | Some assistant, Some manifest =>
      create_a2a_routes create_agent_card_routes create_jsonrpc_routes a2a_installed assistant manifest
        a2a_public_url "/.well-known/agent-card.json"
  | _, _ => Ok []
  end.

Definition create_app (env : environ) (runtime : option V) (runtime_adapter : option A) (custom_http_target : option string)
    (a2a_assistant : option Assistant) (a2a_manifest : option LangGraphLoad.AdapterManifest) (a2a_public_url : string)
  : res (App V R) :=
  result_bind (Bootstrap.create_runtime create_engine local_runtime runtime env) (λ state,
  let state := match runtime_adapter with Some a => register a state | None => state end in
  result_bind (_load_schema read_json default_path env) (λ schema,
  result_bind (optional_routes a2a_assistant a2a_manifest a2a_public_url) (λ routes,
  Ok (mk_app state schema custom_http_target routes)))).

(** A given runtime is used as it is, in the production profile too; without one, the
    production profile has no application. *)
Lemma create_app_runtime env runtime adapter target assistant manifest url app :
  create_app env runtime adapter target assistant manifest url = Ok app →
  ∃ state, app_runtime app = match adapter with Some a => register a state | None => state end ∧
    match runtime with
    | Some r => state = r
    | None => state = local_runtime ∧ getenv env "UR_PROFILE" "local" ≠ "production"
    end.
Proof.
  unfold create_app. intros (state & Hs & H)%result_bind_Ok. exists state.
  apply result_bind_Ok in H as (schema & _ & H). apply result_bind_Ok in H as (routes & _ & H). simplify_eq/=.
  split; [done|]. destruct runtime as [r|]; [by simplify_eq/=|].
  pose proof (Bootstrap.production_never_starts create_engine local_runtime env) as Hp.
  unfold Bootstrap.create_runtime in *. case_decide as Hd; [|by simplify_eq/=]. specialize (Hp Hd). by rewrite Hs in Hp.
Qed.
End CreateApp.

(** ** The middlewares *)

Section Middlewares.
(** A response with headers; the middleware for CORS is Starlette's. *)
Context {Response : Type} (status_code : Response → Z) (set_header : string → string → Response → Response)
  (cors : Py Logging Response → Py Logging Response)
  (factory : string → string) (render : option Renderer → string → Level → string → dict json → string)
  (millis : Z → Z → Z) (decode_replace : string → string).

(** [request_id]: the identifier that the routes find, from the header or
    [str(CommandId.new())], and the header of the response. *)
Definition request_id_of (header : option string) (new_id : string) : string :=
  match header with Some h => if str_truthy h then h else new_id | None => new_id end.
Definition request_id (env : environ) (header : option string) (new_id : string)
    (call_next : string → Py Logging Response) : Py Logging Response :=
  response <- call_next (request_id_of header new_id);;
  ret (set_header "x-runtime-instance-id" (getenv env "UR_INSTANCE_ID" "local") response).

(** The last middleware that is added is the outermost. *)
Definition serve (depth : nat) (env : environ) (debug : bool) (request : Request) (start ended : Z) (header : option string)
    (new_id : string) (handler : string → Py Logging Response) : Py Logging Response :=
  request_id env header new_id (λ id,
    dispatch factory render status_code millis decode_replace depth debug request start ended (cors (handler id))).

(** A request is answered by its handler, which finds the client's identifier if it sends
    one; the response is changed by a header only, and the request is logged at most once. *)
Lemma serve_transparent depth env debug request start ended header new_id handler log_env n st st1 response :
  (∀ name, factory name = name) → (2 ≤ depth)%nat → plain st1 →
  (debug = true → is_ok (rq_body request) = true) →
  cors (handler (request_id_of header new_id)) st = (Ok response, configured log_env n st1) →
  ∃ st', serve depth env debug request start ended header new_id handler st =
    (Ok (set_header "x-runtime-instance-id" (getenv env "UR_INSTANCE_ID" "local") response), st') ∧
    log_loggers st' = log_loggers (configured log_env n st1) ∧
    ∃ lines, (length lines ≤ 1)%nat ∧ log_stdout st' = log_stdout (configured log_env n st1) ++ lines.
Proof.
  intros Hf Hd Hp Hb Hc. unfold serve, request_id.
  destruct (dispatch_transparent factory render status_code millis decode_replace depth debug request start ended
    (cors (handler (request_id_of header new_id))) log_env n st st1 response Hf Hd Hp Hb Hc) as [text Hdisp].
  unfold bind. rewrite Hdisp. eexists. split; [done|]. destruct (20 <? n).
  - split; [done|]. exists []. split; [simpl; lia|by rewrite app_nil_r].
  - split; [done|]. by exists [text].
Qed.

(** What the handler raises is raised, without the header and without a line in the log. *)
Lemma serve_raises depth env debug request start ended header new_id handler st st' e :
  (debug = true → is_ok (rq_body request) = true) →
  cors (handler (request_id_of header new_id)) st = (Raise e, st') →
  serve depth env debug request start ended header new_id handler st = (Raise e, st').
Proof.
  intros Hb Hc. unfold serve, request_id, dispatch. destruct debug.
  - destruct (rq_body request) eqn:Hr; [|by specialize (Hb eq_refl)].
    unfold bind, of_result, ret. by rewrite Hc.
  - unfold bind, ret. by rewrite Hc.
Qed.
End Middlewares.
