(* ===== verification/JournalStream.v ===== *)
(** * Streams of the journal

    The generator [stream] of [_sse_response] in [services/gateway/app.py], which shows
    the events of a subscription of the journal; no route makes [_sse_response] take it.
    What it shows of an event is compared with what [stream_from_queue] ([GatewayStream])
    shows of the same event after gRPC. *)

From S2P Require Import Prelude PyDict PyStr Json Errors Identity Execution Grpc GatewayStream GatewayHttp.

Section Journal.
Context (dumps : json → res string) (isoformat : datetime → string).

(** [str(stream_mode)] with the namespace. *)
Definition journal_event_name (mode : json) (namespace : list string) : string :=
  match namespace with
  | [] => match mode with JStr m => m | _ => "" end
  | _ => (match mode with JStr m => m | _ => "" end) +:+ "|" +:+ join "|" namespace
  end.

Definition journal_frame (p : Stream) (e : RuntimeEvent) : res (option string) :=
  if st_native p
  then result_map (λ s, Some (text_frame (ev_sequence e) (event_type_str (ev_type e)) s)) (dumps (_event_payload isoformat e))
  else
    let mode := default JNull (dget (ev_native e) "langgraph_mode") in
    result_bind (mode_selected (st_modes p) mode) (λ selected,
      if selected
      then result_map (λ s, Some (text_frame (ev_sequence e) (journal_event_name mode (ev_namespace e)) s)) (dumps (ev_data e))
      else Ok None).

(** The frames of the events that the subscription gives, up to the first that raises. *)
Fixpoint journal_frames (p : Stream) (events : list RuntimeEvent) : list string * option exn :=
  match events with
  | [] => (end_frame p, None)
  | e :: events =>
      match journal_frame p e with
      | Ok f => let '(fs, o) := journal_frames p events in (option_list f ++ fs, o)
      | Raise err => ([], Some err)
      end
  end.
Definition stream (p : Stream) (events : list RuntimeEvent) : list string * option exn :=
  match metadata_frame dumps p with
  | Ok first => let '(fs, o) := journal_frames p events in (first ++ fs, o)
  | Raise err => ([], Some err)
  end.

(** The event as the worker sends it, if it can. *)
Definition sent (e : RuntimeEvent) : res ProtoEvent :=
  result_bind (python_to_value (ev_data e)) (λ data,
  result_map (λ native, mk_proto_event (event_type_str (ev_type e)) (ev_sequence e) (ev_namespace e)
                          (identity_to_proto (ev_identity e)) (ev_timestamp e) data native)
    (struct_fields (ev_native e))).

Lemma sent_fields e pe : sent e = Ok pe →
  pe_sequence pe = ev_sequence e ∧ pe_namespace pe = ev_namespace e ∧ python_to_value (ev_data e) = Ok (pe_data pe) ∧
  struct_fields (ev_native e) = Ok (pe_native pe).
Proof.
  unfold sent. destruct (python_to_value (ev_data e)); simpl; [|done]. destruct (struct_fields (ev_native e)); simpl; [|done].
  by intros [= <-].
Qed.

Lemma journal_name mode ns : journal_event_name mode ns = event_name mode ns.
Proof. unfold journal_event_name, event_name. destruct ns; [by rewrite app_string_nil_r|done]. Qed.

Lemma dget_python (fs : list (string * Value)) k : dget (fields_to_python fs) k = value_to_python <$> dget fs k.
Proof. induction fs as [|[k' v] fs IH]; [done|]. simpl. by case_decide. Qed.
Lemma dget_struct (o : json_object) fs k : struct_fields o = Ok fs →
  match dget o k with
  | Some v => ∃ w, python_to_value v = Ok w ∧ dget fs k = Some w
  | None => dget fs k = None
  end.
Proof.
  revert fs. induction o as [|[k' v] o IH]; intros fs; [by intros [= <-]|].
  unfold struct_fields in *. simpl. destruct (python_to_value v) as [w|] eqn:Hv; simpl; [|done].
  destruct (result_mapM _ o) as [fs'|] eqn:Ho; simpl; [|done]. intros [= <-]. simpl.
  case_decide; [by exists w|]. by apply IH.
Qed.

(** Both generators show the same frame of an event with a mode whose data gRPC does not
    change, if it is behind the cursor. *)
Lemma frames_agree p e pe mode :
  st_native p = false → st_after p < ev_sequence e → dget (ev_native e) "langgraph_mode" = Some (JStr mode) →
  sent e = Ok pe → value_to_python (pe_data pe) = ev_data e →
  event_frame dumps p pe = journal_frame p e.
Proof.
  intros Hn Hs Hm (Hseq & Hns & _ & Hf)%sent_fields Hd. pose proof (dget_struct _ _ "langgraph_mode" Hf) as Hg.
  rewrite Hm in Hg. destruct Hg as (w & [= <-] & Hg).
  unfold event_frame, journal_frame. rewrite Hseq, Hns.
  rewrite Hn, (proj2 (Z.leb_gt _ _)) by done. rewrite !dget_python, Hm, Hg, Hd, journal_name. done.
Qed.

(** An event without a mode is shown as one of mode [values], and by the journal's
    generator not at all. *)
Lemma frames_without_mode p e pe :
  st_native p = false → st_after p < ev_sequence e → dget (ev_native e) "langgraph_mode" = None →
  sent e = Ok pe →
  journal_frame p e = Ok None ∧
  event_frame dumps p pe =
    if decide ("values" ∈ st_modes p)
    then result_map (λ s, Some (text_frame (ev_sequence e) (event_name (JStr "values") (ev_namespace e)) s))
           (dumps (value_to_python (pe_data pe)))
    else Ok None.
Proof.
  intros Hn Hs Hm (Hseq & Hns & _ & Hf)%sent_fields. pose proof (dget_struct _ _ "langgraph_mode" Hf) as Hg.
  rewrite Hm in Hg. unfold event_frame, journal_frame. rewrite Hseq, Hns.
  rewrite Hn, (proj2 (Z.leb_gt _ _)) by done. rewrite !dget_python, Hm, Hg. split; [done|].
  simpl. by destruct (decide _); [rewrite bool_decide_true|rewrite bool_decide_false].
Qed.
End Journal.

(** Integers come back from gRPC as floats, so that the two streams differ in what they
    show of every event with a number. *)
Lemma number_shown_as_float : ∃ w f, python_to_value (JInt 1) = Ok w ∧ value_to_python w = JFloat f.
Proof. by do 2 eexists. Qed.
